(** * HESMS: hierarchical episodic-semantic memory and cross-reality knowledge

A shallow embedding of the memory extension (the [MemoryManager],
[SemanticMemory] and the enhanced decision system) and of the
cross-reality knowledge module ([KnowledgeEntry], [CrossRealitySystem])
of the ArgOS framework, followed by the properties established about
them.

Conventions of the embedding.
- JavaScript numbers are exact rationals ([Q]); rounding of IEEE doubles
  and of the [f32] component stores is not modelled, and [NaN] appears
  only where a definition says so.  The [ui8] and [ui32] stores of the
  [EnhancedMemory] component wrap as in the source.
- [Math.hypot dx dy < r] is decided on squares, [dx²+dy² < r²].
- A JavaScript [Map] whose iteration order is observable is an
  insertion-ordered association list ([Js.get], [Js.set], [Js.delete]);
  a [Map] that is only looked up by key is a [gmap].
- [Date.now()], [Math.random()] and the transport ([axios.post]) are
  inputs of the functions that call them.
- An exception (or a rejected promise that is awaited) is the [Throw]
  branch of [Js.completion]; a method whose loop does not end has no
  result ([None] of [Hesms.Loop]).
- A division of counts by 0 is [Infinity] or [NaN] where the source can
  reach it ([CrossReality.Quotient]). *)

From Stdlib Require Import ZArith QArith Qminmax Qround Qabs Lqa Lia List Bool.
From stdpp Require Import gmap strings list pretty.

(* ===================================================================== *)
(** * Part I: the embedding                                               *)
(* ===================================================================== *)

(** ** JavaScript values and containers *)

Module Js.

Inductive error :=
| TypeError (msg : string)
| ReferenceError (msg : string)
| Rejected (msg : string).

Inductive completion (A : Type) :=
| Normal (a : A)
| Throw (e : error).
Arguments Normal {A} a.
Arguments Throw {A} e.

Definition isThrow {A} (c : completion A) : bool :=
  match c with Throw _ => true | Normal _ => false end.

(** Comparisons of numbers, as booleans. *)
Definition ltb (a b : Q) : bool := negb (Qle_bool b a).
Definition leb (a b : Q) : bool := Qle_bool a b.
Definition gtb (a b : Q) : bool := ltb b a.
Definition geb (a b : Q) : bool := leb b a.

Definition ofNat (n : nat) : Q := inject_Z (Z.of_nat n).

(** [a % b] on integers: [NaN] ([None]) when [b] is zero, otherwise the
    remainder with the sign of the dividend. *)
Definition rem (a b : Z) : option Z :=
  if (b =? 0)%Z then None else Some (Z.rem a b).

(** Storing into a [Uint8Array] element: [NaN] becomes 0, integers wrap. *)
Definition toUint8 (v : option Z) : Z :=
  match v with
  | None => 0%Z
  | Some z => (z mod 256)%Z
  end.

Section OrderedMap.
Context {K V : Type} `{EqDecision K}.

Fixpoint get (m : list (K * V)) (k : K) : option V :=
  match m with
  | [] => None
  | (k', v) :: m' => if decide (k' = k) then Some v else get m' k
  end.

Definition has (m : list (K * V)) (k : K) : bool :=
  match get m k with Some _ => true | None => false end.

(** [Map.prototype.set]: an existing key keeps its place. *)
Fixpoint set (m : list (K * V)) (k : K) (v : V) : list (K * V) :=
  match m with
  | [] => [(k, v)]
  | (k', v') :: m' =>
      if decide (k' = k) then (k, v) :: m' else (k', v') :: set m' k v
  end.

Fixpoint delete (m : list (K * V)) (k : K) : list (K * V) :=
  match m with
  | [] => []
  | (k', v') :: m' =>
      if decide (k' = k) then delete m' k else (k', v') :: delete m' k
  end.

Definition size (m : list (K * V)) : nat := length m.
Definition keys (m : list (K * V)) : list K := map fst m.
Definition values (m : list (K * V)) : list V := map snd m.
End OrderedMap.

Section Sort.
Context {A : Type}.
(** [Array.prototype.sort] with a numeric comparator; the sort is stable
    (ECMAScript 2019), modelled as a stable insertion sort. *)
Variable cmp : A -> A -> Q.

Fixpoint insertSorted (x : A) (l : list A) : list A :=
  match l with
  | [] => [x]
  | y :: l' =>
      if Qle_bool (cmp x y) 0 then x :: y :: l' else y :: insertSorted x l'
  end.

Fixpoint sort (l : list A) : list A :=
  match l with
  | [] => []
  | x :: l' => insertSorted x (sort l')
  end.
End Sort.

End Js.

Import Js.

(* --------------------------------------------------------------------- *)
(** ** Cross-reality knowledge (ArgOS-Framework-Integration.js)           *)
(* --------------------------------------------------------------------- *)

Module CrossReality.

Local Open Scope Q_scope.

(** [CROSS_REALITY_CONFIG] *)
Definition LOW_LEVEL_CAPACITY : nat := 20.
Definition MID_LEVEL_CAPACITY : nat := 15.
Definition HIGH_LEVEL_CAPACITY : nat := 10.
Definition ABSTRACTION_CONFIDENCE_THRESHOLD : Q := 6 # 10.
Definition ABSTRACTION_INSTANCE_THRESHOLD : nat := 5.
Definition KNOWLEDGE_DECAY_RATE : Q := 5 # 100.
Definition ADAPTATION_LEARNING_RATE : Q := 2 # 10.
Definition MINIMUM_KNOWLEDGE_CONFIDENCE : Q := 2 # 10.
Definition GENERALIZATION_INTERVAL : Q := 50.
Definition VALIDATION_THRESHOLD : Q := 7 # 10.
Definition ENVIRONMENT_TRANSITION_THRESHOLD : Q := 6 # 10.
Definition MAX_ENVIRONMENT_CACHE : nat := 5.

Inductive Level := Low | Mid | High.

Global Instance Level_eq_dec : EqDecision Level.
Proof. solve_decision. Defined.

(** The value of a condition: [null], a number, a boolean, or an object
    (a position [{x, y}]); objects are compared by reference. *)
Inductive Value :=
| VNull
| VNum (q : Q)
| VBool (b : bool)
| VObj (ref : nat) (x y : Q).

Inductive OutcomeValue :=
| ONum (q : Q)
| OBool (b : bool).

Record Condition := mkCondition {
  property : string;
  operator : string;
  value : option Value;                     (* [None]: no [value] field *)
  valueRange : option (option Q * option Q); (* [{min, max}], [None] inside: NaN *)
  threshold : option Q;
  generalized : bool;
  universal : bool
}.

Record Pattern := mkPattern {
  ptype : string;
  description : string;
  plevel : Level;
  conditions : list Condition;
  outcome : list (string * OutcomeValue);
  universalPrinciple : bool;
  penvironmentId : option Z
}.

Record Instance := mkInstance {
  data : Pattern;
  itimestamp : Q;
  ienvironmentId : option Z
}.

(** One record of [transferSuccess]: [{success, total}]. *)
Record Transfer := mkTransfer { success : nat; total : nat }.

Record KnowledgeEntry := mkEntry {
  entryId : string;                         (* [id] *)
  pattern : Pattern;
  level : Level;
  confidence : Q;
  instances : list Instance;
  environmentIds : list Z;
  created : Q;
  lastConfirmed : Q;
  lastUsed : Q;
  applicationCount : nat;
  successCount : nat;
  transferSuccess : list (Z * Transfer)
}.

Definition setConfidence (c : Q) (e : KnowledgeEntry) : KnowledgeEntry :=
  mkEntry (entryId e) (pattern e) (level e) c (instances e) (environmentIds e)
          (created e) (lastConfirmed e) (lastUsed e)
          (applicationCount e) (successCount e) (transferSuccess e).

Definition setEnvironmentIds (l : list Z) (e : KnowledgeEntry) : KnowledgeEntry :=
  mkEntry (entryId e) (pattern e) (level e) (confidence e) (instances e) l
          (created e) (lastConfirmed e) (lastUsed e)
          (applicationCount e) (successCount e) (transferSuccess e).

(** An environment id used as a condition: [null] and [0] are falsy. *)
Definition truthyId (o : option Z) : option Z :=
  match o with
  | Some z => if (z =? 0)%Z then None else Some z
  | None => None
  end.

Definition includes (l : list Z) (z : Z) : bool :=
  existsb (Z.eqb z) l.

(** [new KnowledgeEntry(pattern, level, environmentId)]; [newId] is the
    generated id and [now] the clock. *)
Definition newKnowledgeEntry (newId : string) (now : Q)
    (p : Pattern) (lv : Level) (environmentId : option Z) : KnowledgeEntry :=
  {| entryId := newId;
     pattern := p;
     level := lv;
     confidence := 5 # 10;
     instances := [];
     environmentIds :=
       match truthyId environmentId with Some z => [z] | None => [] end;
     created := now;
     lastConfirmed := now;
     lastUsed := now;
     applicationCount := 0;
     successCount := 0;
     transferSuccess := [] |}.

(** [updateConfidence] *)
Definition updateConfidence (e : KnowledgeEntry) : KnowledgeEntry :=
  let instanceFactor :=
    Qmin 1 (ofNat (length (instances e)) / ofNat ABSTRACTION_INSTANCE_THRESHOLD) in
  let applicationFactor :=
    if (0 <? applicationCount e)%nat
    then ofNat (successCount e) / ofNat (applicationCount e)
    else 5 # 10 in
  let environmentFactor := Qmin 1 (ofNat (length (environmentIds e)) / 3) in
  let '(instanceWeight, applicationWeight, environmentWeight) :=
    match level e with
    | Mid => (4 # 10, 4 # 10, 2 # 10)
    | High => (2 # 10, 5 # 10, 3 # 10)
    | Low => (6 # 10, 3 # 10, 1 # 10)
    end in
  setConfidence (instanceWeight * instanceFactor
                 + applicationWeight * applicationFactor
                 + environmentWeight * environmentFactor) e.

(** [addInstance(instance, environmentId = null)] *)
Definition addInstance (now : Q) (instance : Pattern) (environmentId : option Z)
    (e : KnowledgeEntry) : KnowledgeEntry :=
  let e1 :=
    mkEntry (entryId e) (pattern e) (level e) (confidence e)
            (instances e ++ [mkInstance instance now environmentId])
            (match truthyId environmentId with
             | Some z => if includes (environmentIds e) z
                         then environmentIds e else environmentIds e ++ [z]
             | None => environmentIds e
             end)
            (created e) (lastConfirmed e) (lastUsed e)
            (applicationCount e) (successCount e) (transferSuccess e) in
  let e2 := updateConfidence e1 in
  mkEntry (entryId e2) (pattern e2) (level e2) (confidence e2) (instances e2)
          (environmentIds e2) (created e2) now (lastUsed e2)
          (applicationCount e2) (successCount e2) (transferSuccess e2).

(** [recordApplication(success, environmentId = null)] *)
Definition recordApplication (now : Q) (ok : bool) (environmentId : option Z)
    (e : KnowledgeEntry) : KnowledgeEntry :=
  let ts :=
    match truthyId environmentId with
    | Some z =>
        let current := default (mkTransfer 0 0) (get (transferSuccess e) z) in
        set (transferSuccess e) z
            (mkTransfer (if ok then S (success current) else success current)
                        (S (total current)))
    | None => transferSuccess e
    end in
  updateConfidence
    (mkEntry (entryId e) (pattern e) (level e) (confidence e) (instances e)
             (environmentIds e) (created e) (lastConfirmed e) now
             (S (applicationCount e))
             (if ok then S (successCount e) else successCount e) ts).

Definition levelMultiplier (lv : Level) : Q :=
  match lv with
  | Low => 12 # 10
  | Mid => 1
  | High => 8 # 10
  end.

(** [applyDecay(currentTime)]: the new confidence. *)
Definition decayedConfidence (currentTime : Q) (e : KnowledgeEntry) : Q :=
  let timeSinceLastUse := currentTime - lastUsed e in
  let decayFactor := KNOWLEDGE_DECAY_RATE * (timeSinceLastUse / 1000) in
  Qmax MINIMUM_KNOWLEDGE_CONFIDENCE
       (confidence e - decayFactor * levelMultiplier (level e)).

Definition applyDecay (currentTime : Q) (e : KnowledgeEntry) : KnowledgeEntry :=
  setConfidence (decayedConfidence currentTime e) e.

(** The value of a division of counts, or of a sum of such values: a
    number, [Infinity] (a positive count divided by 0) or [NaN] (0 divided
    by 0). *)
Inductive Quotient :=
| Num (q : Q)
| Inf
| NaN.

(** [success / total] of one transfer record. *)
Definition rate (t : Transfer) : Quotient :=
  if (total t =? 0)%nat then
    if (success t =? 0)%nat then NaN else Inf
  else Num (ofNat (success t) / ofNat (total t)).

(** [sum + r] *)
Definition addRate (sum r : Quotient) : Quotient :=
  match sum, r with
  | NaN, _ | _, NaN => NaN
  | Inf, _ | _, Inf => Inf
  | Num a, Num b => Num (a + b)
  end.

(** [transferRates.reduce((sum, {success, total}) => sum + success / total, 0)
    / transferRates.length] *)
Definition averageSuccessRate (transferRates : list Transfer) : Quotient :=
  match fold_left (fun sum t => addRate sum (rate t)) transferRates (Num 0) with
  | Num s =>
      if (length transferRates =? 0)%nat then NaN
      else Num (s / ofNat (length transferRates))
  | Inf => Inf
  | NaN => NaN
  end.

(** [a >= threshold]: false for [NaN]. *)
Definition atLeast (a : Quotient) (threshold : Q) : bool :=
  match a with
  | Num q => geb q threshold
  | Inf => true
  | NaN => false
  end.

(** [isApplicableInEnvironment(environmentId)] *)
Definition isApplicableInEnvironment (environmentId : Z) (e : KnowledgeEntry) : bool :=
  match level e with
  | High => true
  | lv =>
      if includes (environmentIds e) environmentId then true
      else match lv with
           | Mid =>
               let transferRates := values (transferSuccess e) in
               match transferRates with
               | [] => true
               | _ => atLeast (averageSuccessRate transferRates) VALIDATION_THRESHOLD
               end
           | _ => false
           end
  end.

(** *** The knowledge tiers of an agent *)

(** [{ low, mid, high }]: three [Map]s from entry id to entry. *)
Record AgentKnowledge := mkKnowledge {
  low : list (string * KnowledgeEntry);
  mid : list (string * KnowledgeEntry);
  high : list (string * KnowledgeEntry)
}.

Definition sameKind (c1 c2 : Condition) : bool :=
  bool_decide (property c2 = property c1) && bool_decide (operator c2 = operator c1).

(** [patternsMatch(pattern1, pattern2)] *)
Definition patternsMatch (pattern1 pattern2 : Pattern) : bool :=
  if negb (bool_decide (ptype pattern1 = ptype pattern2)) then false
  else
    let conditions1 := conditions pattern1 in
    let conditions2 := conditions pattern2 in
    if negb (length conditions1 =? length conditions2)%nat then false
    else forallb (fun condition1 =>
                    match find (sameKind condition1) conditions2 with
                    | Some _ => true
                    | None => false
                    end) conditions1.

(** The search loop that opens the three [add...Knowledge] methods. *)
Definition findExisting (matches : KnowledgeEntry -> bool)
    (tier : list (string * KnowledgeEntry)) : option (string * KnowledgeEntry) :=
  find (fun ke => matches (snd ke)) tier.

(** [Array.from(tier.entries()).sort((a, b) => a[1].confidence - b[1].confidence)[0]] *)
Definition weakestEntry (tier : list (string * KnowledgeEntry))
    : option (string * KnowledgeEntry) :=
  head (sort (fun a b => confidence (snd a) - confidence (snd b)) tier).

(** The capacity check before a new entry is stored. *)
Definition makeRoom (capacity : nat) (tier : list (string * KnowledgeEntry))
    : list (string * KnowledgeEntry) :=
  if (capacity <=? size tier)%nat then
    match weakestEntry tier with
    | Some w => delete tier (fst w)
    | None => tier
    end
  else tier.

(** The tier part of [addLowLevelKnowledge]; [newId] and [now] are what
    the constructor of a new entry draws from the clock and the random
    generator.  The result carries the entry the method returns. *)
Definition addLowTier (newId : string) (now : Q)
    (tier : list (string * KnowledgeEntry)) (p : Pattern) (environmentId : option Z)
    : list (string * KnowledgeEntry) * KnowledgeEntry :=
  match findExisting (fun e => patternsMatch (pattern e) p) tier with
  | Some (k, existingEntry) =>
      let e := addInstance now p environmentId existingEntry in
      (set tier k e, e)
  | None =>
      let newEntry := newKnowledgeEntry newId now p Low environmentId in
      (set (makeRoom LOW_LEVEL_CAPACITY tier) (entryId newEntry) newEntry, newEntry)
  end.

(** [environmentIds.forEach(envId => { if (!e.environmentIds.includes(envId)) push })] *)
Definition pushMissing (envs : list Z) (e : KnowledgeEntry) : KnowledgeEntry :=
  fold_left (fun e envId =>
               if includes (environmentIds e) envId then e
               else setEnvironmentIds (environmentIds e ++ [envId]) e) envs e.

(** [[...new Set(l)]]: first occurrences, in order. *)
Definition dedup (l : list Z) : list Z :=
  fold_left (fun acc z => if includes acc z then acc else acc ++ [z]) l [].

(** The tier part of [addMidLevelKnowledge(agent, pattern, sourceEntries)]. *)
Definition addMidTier (newId : string) (now : Q)
    (tier : list (string * KnowledgeEntry)) (p : Pattern)
    (sourceEntries : list KnowledgeEntry)
    : list (string * KnowledgeEntry) * KnowledgeEntry :=
  let envIds := dedup (flat_map environmentIds sourceEntries) in
  match findExisting (fun e => patternsMatch (pattern e) p) tier with
  | Some (k, existingEntry) =>
      let e := pushMissing envIds (addInstance now p None existingEntry) in
      (set tier k e, e)
  | None =>
      let newEntry :=
        addInstance now p None
          (pushMissing envIds (newKnowledgeEntry newId now p Mid None)) in
      (set (makeRoom MID_LEVEL_CAPACITY tier) (entryId newEntry) newEntry, newEntry)
  end.

(** The tier part of [addHighLevelKnowledge]; [environments] are the keys
    of the environment cache. *)
Definition addHighTier (newId : string) (now : Q) (environments : list Z)
    (tier : list (string * KnowledgeEntry)) (p : Pattern)
    : list (string * KnowledgeEntry) * KnowledgeEntry :=
  match findExisting (fun e => bool_decide (ptype (pattern e) = ptype p)
                               && universalPrinciple (pattern e)) tier with
  | Some (k, existingEntry) =>
      let e := pushMissing environments (addInstance now p None existingEntry) in
      (set tier k e, e)
  | None =>
      let newEntry :=
        addInstance now p None
          (pushMissing environments (newKnowledgeEntry newId now p High None)) in
      (set (makeRoom HIGH_LEVEL_CAPACITY tier) (entryId newEntry) newEntry, newEntry)
  end.

(** One of the three loops of [applyKnowledgeDecay]: every entry decays,
    and is deleted when its confidence is then below the minimum. *)
Definition belowMinimum (e : KnowledgeEntry) : bool :=
  ltb (confidence e) MINIMUM_KNOWLEDGE_CONFIDENCE.

Definition decayTier (currentTime : Q) (tier : list (string * KnowledgeEntry))
    : list (string * KnowledgeEntry) :=
  flat_map (fun ke =>
              let entry := applyDecay currentTime (snd ke) in
              if belowMinimum entry then [] else [(fst ke, entry)]) tier.

Definition applyKnowledgeDecayTiers (currentTime : Q) (ak : AgentKnowledge)
    : AgentKnowledge :=
  mkKnowledge (decayTier currentTime (low ak))
              (decayTier currentTime (mid ak))
              (decayTier currentTime (high ak)).

(** *** Generalisation from the low to the mid tier *)

(** [ToNumber]: [None] is [NaN]. *)
Definition toNumber (v : Value) : option Q :=
  match v with
  | VNull => Some 0
  | VNum q => Some q
  | VBool b => Some (if b then 1 else 0)
  | VObj _ _ _ => None
  end.

(** [Math.min(...values)] and [Math.max(...values)] on a non-empty list. *)
Definition extremum (pick : Q -> Q -> Q) (vs : list Value) : option Q :=
  match vs with
  | [] => None
  | v :: vs' =>
      fold_left (fun acc w =>
                   match acc, toNumber w with
                   | Some a, Some b => Some (pick a b)
                   | _, _ => None
                   end) vs' (toNumber v)
  end.

(** [v === w] *)
Definition strictEq (v w : Value) : bool :=
  match v, w with
  | VNull, VNull => true
  | VNum a, VNum b => Qeq_bool a b
  | VBool a, VBool b => Bool.eqb a b
  | VObj r _ _, VObj r' _ _ => (r =? r')%nat
  | _, _ => false
  end.

Definition isTrue (v : Value) : bool :=
  match v with VBool true => true | _ => false end.

(** The second half of [findCommonConditions]: the generalised condition
    for one common property and operator. *)
Definition generalizeCondition (entries : list KnowledgeEntry)
    (condition : Condition) : Condition :=
  let vals :=
    omap (fun entry =>
            match find (sameKind condition) (conditions (pattern entry)) with
            | Some matchingCondition => value matchingCondition
            | None => None
            end) entries in
  match vals with
  | VNum _ :: _ =>
      mkCondition (property condition) (operator condition) None
                  (Some (extremum Qmin vals, extremum Qmax vals)) None true false
  | VBool _ :: _ =>
      let trueCount := length (List.filter isTrue vals) in
      mkCondition (property condition) (operator condition)
                  (Some (VBool (ltb (ofNat (length vals) / 2) (ofNat trueCount))))
                  None None true false
  | firstValue :: _ =>
      let allSame := forallb (fun v => strictEq v firstValue) vals in
      mkCondition (property condition) (operator condition)
                  (Some (if allSame then firstValue else VNull)) None None true false
  | [] =>
      mkCondition (property condition) (operator condition) None None None true false
  end.

(** [findCommonConditions(entries)] *)
Definition findCommonConditions (entries : list KnowledgeEntry) : list Condition :=
  match entries with
  | [] => []
  | first :: _ =>
      let candidateConditions := conditions (pattern first) in
      let commonConditions :=
        List.filter (fun condition =>
                       forallb (fun entry =>
                                  existsb (sameKind condition)
                                          (conditions (pattern entry))) entries)
                    candidateConditions in
      map (generalizeCondition entries) commonConditions
  end.

Definition outcomeNumber (v : OutcomeValue) : Q :=
  match v with
  | ONum q => q
  | OBool b => if b then 1 else 0
  end.

Definition isTrueOutcome (v : OutcomeValue) : bool :=
  match v with OBool true => true | _ => false end.

(** [aggregateOutcomes(entries)] *)
Definition aggregateOutcomes (entries : list KnowledgeEntry)
    : list (string * OutcomeValue) :=
  let allProperties :=
    fold_left (fun acc key => if bool_decide (key ∈ acc) then acc else acc ++ [key])
              (flat_map (fun entry => keys (outcome (pattern entry))) entries) [] in
  fold_left (fun (out : list (string * OutcomeValue)) prop =>
               let vals := omap (fun entry => get (outcome (pattern entry)) prop) entries in
               match vals with
               | [] => out
               | ONum _ :: _ =>
                   set out prop
                       (ONum (fold_left (fun sum v => sum + outcomeNumber v) vals 0
                              / ofNat (length vals)))
               | OBool _ :: _ =>
                   let trueCount := length (List.filter isTrueOutcome vals) in
                   set out prop
                       (OBool (ltb (ofNat (length vals) / 2) (ofNat trueCount)))
               end) allProperties [].

(** The grouping loop of [generalizeLowToMid]: a [Map] from pattern type
    to the entries of that type, in the order the types first occur. *)
Definition groupByType (tier : list (string * KnowledgeEntry))
    : list (string * list KnowledgeEntry) :=
  fold_left (fun (byType : list (string * list KnowledgeEntry)) ke =>
               let entry := snd ke in
               let ty := ptype (pattern entry) in
               set byType ty (default [] (get byType ty) ++ [entry]))
            tier [].

Section Generalize.
(** [newId n] is the id the constructor would generate in the [n]-th
    call of [addMidLevelKnowledge]; [now] is the clock. *)
Variable newId : nat -> string.
Variable now : Q.

(** The body of the second loop of [generalizeLowToMid], for one type
    and its entries; the state is the mid tier and the number of
    calls of [addMidLevelKnowledge] so far. *)
Definition generalizeType (st : list (string * KnowledgeEntry) * nat)
    (group : string * list KnowledgeEntry)
    : list (string * KnowledgeEntry) * nat :=
  let '(ty, entries) := group in
  if (length entries <? ABSTRACTION_INSTANCE_THRESHOLD)%nat then st
  else
    let confidentEntries :=
      List.filter (fun entry => geb (confidence entry) ABSTRACTION_CONFIDENCE_THRESHOLD)
                  entries in
    if (length confidentEntries <? 3)%nat then st
    else
      let commonConditions := findCommonConditions confidentEntries in
      match commonConditions with
      | [] => st
      | _ =>
          let midLevelPattern :=
            mkPattern ty ("Generalized " +:+ ty +:+ " pattern") Mid
                      commonConditions (aggregateOutcomes confidentEntries)
                      false None in
          let '(midTier, calls) := st in
          (fst (addMidTier (newId calls) now midTier midLevelPattern confidentEntries),
           S calls)
      end.

(** [generalizeLowToMid(agent, agentKnowledge)] *)
Definition generalizeLowToMid (ak : AgentKnowledge) (calls : nat)
    : AgentKnowledge * nat :=
  let st := fold_left generalizeType (groupByType (low ak)) (mid ak, calls) in
  (mkKnowledge (low ak) (fst st) (high ak), snd st).
End Generalize.

(** *** Environments *)

(** The [features] and [temporalCharacteristics] maps of the source are
    never written and are left out. *)
Record EnvironmentProfile := mkProfile {
  profileId : Z;
  entityDistribution : list (string * Q);
  spatialCharacteristics : list (string * Q);
  stabilityMetrics : list (string * Q);
  lastUpdated : Q;
  visitCount : nat
}.

(** What [collectEnvironmentObservations] gathers from the sensing
    components of the agent. *)
Record Observations := mkObservations {
  entityCounts : list (string * Q);
  spatialData : list (string * Q);
  stabilityData : list (string * Q)
}.

Definition newEnvironmentProfile (envId : Z) (now : Q) : EnvironmentProfile :=
  mkProfile envId [] [] [] now 1.

Definition movingAverage (m obs : list (string * Q)) : list (string * Q) :=
  fold_left (fun m kv =>
               set m (fst kv) (default 0 (get m (fst kv)) * (8 # 10) + snd kv * (2 # 10)))
            obs m.

(** [EnvironmentProfile.update(observations)] *)
Definition updateProfile (now : Q) (o : Observations) (p : EnvironmentProfile)
    : EnvironmentProfile :=
  mkProfile (profileId p)
            (movingAverage (entityDistribution p) (entityCounts o))
            (movingAverage (spatialCharacteristics p) (spatialData o))
            (movingAverage (stabilityMetrics p) (stabilityData o))
            now (S (visitCount p)).

(** One of the three comparison loops of [calculateSimilarity]. *)
Definition compareFeatures (a b : list (string * Q)) (acc : Q * nat) : Q * nat :=
  let allKeys :=
    fold_left (fun ks k => if bool_decide (k ∈ ks) then ks else ks ++ [k])
              (keys a ++ keys b) [] in
  fold_left (fun (acc : Q * nat) k =>
               let thisValue := default 0 (get a k) in
               let otherValue := default 0 (get b k) in
               let maxValue := Qmax thisValue otherValue in
               if gtb maxValue 0 then
                 let difference := Qabs (thisValue - otherValue) / maxValue in
                 (fst acc + (1 - difference), S (snd acc))
               else acc) allKeys acc.

(** [EnvironmentProfile.calculateSimilarity(otherProfile)] *)
Definition calculateSimilarity (p otherProfile : EnvironmentProfile) : Q :=
  let acc :=
    compareFeatures (stabilityMetrics p) (stabilityMetrics otherProfile)
      (compareFeatures (spatialCharacteristics p) (spatialCharacteristics otherProfile)
         (compareFeatures (entityDistribution p) (entityDistribution otherProfile)
            (0, 0%nat))) in
  if (0 <? snd acc)%nat then fst acc / ofNat (snd acc) else 0.

(** [calculateEnvironmentSimilarity(envId1, envId2)] *)
Definition calculateEnvironmentSimilarity
    (environments : list (Z * EnvironmentProfile)) (envId1 envId2 : Z) : Q :=
  if (envId1 =? envId2)%Z then 1
  else if ((envId1 =? 0) || (envId2 =? 0))%Z then 0
  else
    match get environments envId1, get environments envId2 with
    | Some env1, Some env2 => calculateSimilarity env1 env2
    | _, _ =>
        if ((1000 <=? envId1) || (1000 <=? envId2))%Z then 2 # 10
        else if ((Z.abs (envId1 - envId2) =? 1) || (Z.abs (envId1 - envId2) =? 2))%Z
             then 6 # 10
             else 4 # 10
    end.

(** What [detectEnvironmentId] reads of the world and of the agent. *)
Record AgentView := mkView {
  worldEnvironmentId : option Z;   (* [this.world.currentEnvironmentId] *)
  realityEffect : option Z;        (* [RealityFlux[agent]?.effectType] *)
  positionX : Q;
  positionY : Q
}.

(** [detectEnvironmentId(agent)] *)
Definition detectEnvironmentId (v : AgentView) : Z :=
  match truthyId (worldEnvironmentId v) with
  | Some e => e
  | None =>
      let effect := default 0%Z (truthyId (realityEffect v)) in
      if (0 <? effect)%Z then (1000 + effect)%Z
      else
        let quadrantX := if ltb (positionX v) 50 then 0%Z else 1%Z in
        let quadrantY := if ltb (positionY v) 50 then 0%Z else 1%Z in
        (quadrantX + quadrantY * 2 + 1)%Z
  end.

(** *** The system *)

(** The [CrossRealityKnowledge] component of one agent.  The mirrored
    arrays hold one cell per capacity slot. *)
Record Component := mkComponent {
  currentEnvironmentId : Z;
  lastEnvironmentId : Z;
  environmentTransitionTime : Q;
  environmentSimilarity : Q;
  lowLevelCount : nat;
  midLevelCount : nat;
  highLevelCount : nat;
  lowLevelConfidence : list Q;
  midLevelConfidence : list Q;
  highLevelConfidence : list Q;
  lowLevelLastUsed : list Q;
  midLevelLastUsed : list Q;
  highLevelLastUsed : list Q;
  lastGeneralizationTime : Q;
  adaptationRate : Q;
  abstractionLevel : Q;
  knowledgeTransferSuccess : Q
}.

(** A component whose stores were never written reads as zeros. *)
Definition zeroComponent : Component :=
  mkComponent 0 0 0 0 0 0 0
              (replicate LOW_LEVEL_CAPACITY 0) (replicate MID_LEVEL_CAPACITY 0)
              (replicate HIGH_LEVEL_CAPACITY 0)
              (replicate LOW_LEVEL_CAPACITY 0) (replicate MID_LEVEL_CAPACITY 0)
              (replicate HIGH_LEVEL_CAPACITY 0) 0 0 0 0.

Record System := mkSystem {
  environments : list (Z * EnvironmentProfile);
  agentKnowledge : gmap Z AgentKnowledge;
  components : gmap Z Component
}.

Definition componentOf (s : System) (agent : Z) : Component :=
  default zeroComponent (components s !! agent).

(** The cells a tier of [capacity] slots is mirrored to. *)
Definition mirror (capacity : nat) (f : KnowledgeEntry -> Q)
    (tier : list (string * KnowledgeEntry)) : list Q :=
  map (fun i => match values tier !! i with
                | Some e => f e
                | None => 0
                end) (seq 0 capacity).

(** [syncKnowledgeToComponent(agent)] *)
Definition syncKnowledgeToComponent (agent : Z) (s : System) : System :=
  match agentKnowledge s !! agent with
  | None => s
  | Some ak =>
      let c := componentOf s agent in
      mkSystem (environments s) (agentKnowledge s)
        (<[agent :=
             mkComponent (currentEnvironmentId c) (lastEnvironmentId c)
               (environmentTransitionTime c) (environmentSimilarity c)
               (length (low ak)) (length (mid ak)) (length (high ak))
               (mirror LOW_LEVEL_CAPACITY confidence (low ak))
               (mirror MID_LEVEL_CAPACITY confidence (mid ak))
               (mirror HIGH_LEVEL_CAPACITY confidence (high ak))
               (mirror LOW_LEVEL_CAPACITY lastUsed (low ak))
               (mirror MID_LEVEL_CAPACITY lastUsed (mid ak))
               (mirror HIGH_LEVEL_CAPACITY lastUsed (high ak))
               (lastGeneralizationTime c) (adaptationRate c)
               (abstractionLevel c) (knowledgeTransferSuccess c)]>
           (components s))
  end.

Definition setAdaptationRate (r : Q) (c : Component) : Component :=
  mkComponent (currentEnvironmentId c) (lastEnvironmentId c)
    (environmentTransitionTime c) (environmentSimilarity c)
    (lowLevelCount c) (midLevelCount c) (highLevelCount c)
    (lowLevelConfidence c) (midLevelConfidence c) (highLevelConfidence c)
    (lowLevelLastUsed c) (midLevelLastUsed c) (highLevelLastUsed c)
    (lastGeneralizationTime c) r (abstractionLevel c) (knowledgeTransferSuccess c).

(** The discount [adaptKnowledge] applies to one entry of a tier. *)
Definition discount (adaptationFactor weight : Q) (knowledge : KnowledgeEntry)
    : KnowledgeEntry :=
  setConfidence (confidence knowledge * (1 - adaptationFactor * weight)) knowledge.

(** [adaptKnowledge(agent, newEnvironmentId, previousEnvironmentId, similarity)] *)
Definition adaptKnowledge (agent : Z) (newEnvironmentId previousEnvironmentId : Z)
    (similarity : Q) (s : System) : System :=
  match agentKnowledge s !! agent with
  | None => s
  | Some ak =>
      let adaptationFactor := Qmax (1 # 10) (1 - similarity) in
      let low' :=
        map (fun ke =>
               if negb (isApplicableInEnvironment newEnvironmentId (snd ke))
               then (fst ke, discount adaptationFactor (7 # 10) (snd ke))
               else ke) (low ak) in
      let mid' :=
        map (fun ke =>
               if negb (isApplicableInEnvironment newEnvironmentId (snd ke))
               then (fst ke, discount adaptationFactor (4 # 10) (snd ke))
               else ke) (mid ak) in
      let high' :=
        map (fun ke => (fst ke, discount adaptationFactor (1 # 10) (snd ke)))
            (high ak) in
      let s1 :=
        syncKnowledgeToComponent agent
          (mkSystem (environments s)
                    (<[agent := mkKnowledge low' mid' high']> (agentKnowledge s))
                    (components s)) in
      let c := componentOf s1 agent in
      mkSystem (environments s1) (agentKnowledge s1)
        (<[agent := setAdaptationRate (adaptationRate c * (8 # 10)
                                       + adaptationFactor * (2 # 10)) c]>
           (components s1))
  end.

(** [updateEnvironmentProfile(agent, environmentId)], with the
    observations collected for the agent. *)
Definition updateEnvironmentProfile (now : Q) (o : Observations)
    (environmentId : Z) (s : System) : System :=
  if (environmentId =? 0)%Z then s
  else
    let envs :=
      match get (environments s) environmentId with
      | Some profile => set (environments s) environmentId (updateProfile now o profile)
      | None =>
          let profile := newEnvironmentProfile environmentId now in
          let envs1 := set (environments s) environmentId profile in
          let envs2 :=
            if (MAX_ENVIRONMENT_CACHE <? size envs1)%nat then
              match head (sort (fun a b => lastUpdated (snd a) - lastUpdated (snd b))
                               envs1) with
              | Some oldest => delete envs1 (fst oldest)
              | None => envs1
              end
            else envs1 in
          if has envs2 environmentId
          then set envs2 environmentId (updateProfile now o profile)
          else envs2
      end in
    mkSystem envs (agentKnowledge s) (components s).

Definition setTransition (cur last : Z) (time sim : Q) (c : Component) : Component :=
  mkComponent cur last time sim
    (lowLevelCount c) (midLevelCount c) (highLevelCount c)
    (lowLevelConfidence c) (midLevelConfidence c) (highLevelConfidence c)
    (lowLevelLastUsed c) (midLevelLastUsed c) (highLevelLastUsed c)
    (lastGeneralizationTime c) (adaptationRate c)
    (abstractionLevel c) (knowledgeTransferSuccess c).

(** [updateEnvironment(agent, currentTime)] *)
Definition updateEnvironment (now : Q) (v : AgentView) (o : Observations)
    (agent : Z) (currentTime : Q) (s : System) : System :=
  let newEnvironmentId := detectEnvironmentId v in
  let c := componentOf s agent in
  let current := currentEnvironmentId c in
  let s1 :=
    if negb (newEnvironmentId =? current)%Z then
      let similarity :=
        calculateEnvironmentSimilarity (environments s) newEnvironmentId current in
      let s0 :=
        mkSystem (environments s) (agentKnowledge s)
          (<[agent := setTransition newEnvironmentId current currentTime similarity c]>
             (components s)) in
      if ltb similarity ENVIRONMENT_TRANSITION_THRESHOLD
      then adaptKnowledge agent newEnvironmentId current similarity s0
      else s0
    else s in
  updateEnvironmentProfile now o newEnvironmentId s1.

(** [applyKnowledgeDecay(agent, currentTime)] *)
Definition applyKnowledgeDecay (agent : Z) (currentTime : Q) (s : System) : System :=
  match agentKnowledge s !! agent with
  | None => s
  | Some ak =>
      mkSystem (environments s)
               (<[agent := applyKnowledgeDecayTiers currentTime ak]> (agentKnowledge s))
               (components s)
  end.

(** [addLowLevelKnowledge(agent, pattern, environmentId)]; the second
    component is the returned entry, [None] for [null]. *)
Definition addLowLevelKnowledge (newId : string) (now : Q) (agent : Z)
    (p : Pattern) (environmentId : option Z) (s : System)
    : System * option KnowledgeEntry :=
  match agentKnowledge s !! agent with
  | None => (s, None)
  | Some ak =>
      let r := addLowTier newId now (low ak) p environmentId in
      (mkSystem (environments s)
                (<[agent := mkKnowledge (fst r) (mid ak) (high ak)]> (agentKnowledge s))
                (components s), Some (snd r))
  end.

(** [addMidLevelKnowledge(agent, pattern, sourceEntries)] *)
Definition addMidLevelKnowledge (newId : string) (now : Q) (agent : Z)
    (p : Pattern) (sourceEntries : list KnowledgeEntry) (s : System)
    : System * option KnowledgeEntry :=
  match agentKnowledge s !! agent with
  | None => (s, None)
  | Some ak =>
      let r := addMidTier newId now (mid ak) p sourceEntries in
      (mkSystem (environments s)
                (<[agent := mkKnowledge (low ak) (fst r) (high ak)]> (agentKnowledge s))
                (components s), Some (snd r))
  end.

(** [addHighLevelKnowledge(agent, pattern, sourceEntries)] *)
Definition addHighLevelKnowledge (newId : string) (now : Q) (agent : Z)
    (p : Pattern) (s : System) : System * option KnowledgeEntry :=
  match agentKnowledge s !! agent with
  | None => (s, None)
  | Some ak =>
      let r := addHighTier newId now (keys (environments s)) (high ak) p in
      (mkSystem (environments s)
                (<[agent := mkKnowledge (low ak) (mid ak) (fst r)]> (agentKnowledge s))
                (components s), Some (snd r))
  end.

End CrossReality.

(* --------------------------------------------------------------------- *)
(** ** Sample data                                                         *)
(* --------------------------------------------------------------------- *)

Module Samples.
Import CrossReality.
Local Open Scope Q_scope.

(** What [extractResourcePattern] builds for a resource seen in quadrant 0
    of environment 1. *)
Definition resourcePattern : Pattern :=
  mkPattern "resource_location" "Resource distribution pattern" Low
    [mkCondition "quadrant" "equals" (Some (VNum 0)) None None false false]
    [("resourceProbability", ONum (7 # 10)); ("expectedValue", ONum 1)]
    false (Some 1%Z).

(** A pattern of its own kind for every [i]: no two of them match. *)
Definition numberedPattern (i : nat) : Pattern :=
  mkPattern ("kind_" +:+ pretty i) "Numbered pattern" Low
    [mkCondition "quadrant" "equals" (Some (VNum 0)) None None false false]
    [] false (Some 1%Z).

(** Twenty low-level entries, ids [knowledge-0] to [knowledge-19]; entry
    [i] has confidence [((i + 3) mod 7 + 2) / 10], so that the lowest
    confidence, 0.2, is held by entries 4, 11 and 18. *)
Definition fullLowTier : list (string * KnowledgeEntry) :=
  map (fun i =>
         let newId := "knowledge-" +:+ pretty i in
         (newId,
          setConfidence (ofNat ((i + 3) mod 7 + 2) / 10)
            (newKnowledgeEntry newId 0 (numberedPattern i) Low (Some 1%Z))))
      (seq 0 20).

(** A low-level entry created at time 0 in environment 1 (confidence
    0.5), after two transitions into environments in which it does not
    apply, each of similarity 0.2: [adaptKnowledge] has discounted it twice
    with [adaptationFactor = 0.8], to [0.5 * 0.44 * 0.44]. *)
Definition shakenEntry : KnowledgeEntry :=
  discount (8 # 10) (7 # 10)
    (discount (8 # 10) (7 # 10)
       (newKnowledgeEntry "knowledge-0-1" 0 resourcePattern Low (Some 1%Z))).





(** A high-level entry of confidence 0.5, and a system in which agent 7,
    currently in environment 1 (no environment is profiled yet), holds it
    as its only knowledge. *)
Definition principle : KnowledgeEntry :=
  newKnowledgeEntry "knowledge-9" 0 resourcePattern High None.

Definition travellerSystem : System :=
  mkSystem []
    {[ 7%Z := mkKnowledge [] [] [("knowledge-9", principle)] ]}
    {[ 7%Z := mkComponent 1 0 0 1 0 0 1 [] [] [] [] [] [] 0 (5 # 10) (3 # 10) (5 # 10) ]}.

(** The agent now stands at (60, 60): quadrant 3 of the world, that is
    environment 4, diagonal to environment 1. *)
Definition farCorner : AgentView := mkView None None 60 60.

Definition noObservations : Observations := mkObservations [] [] [].

End Samples.

(* --------------------------------------------------------------------- *)
(** ** Specification predicates                                            *)
(* --------------------------------------------------------------------- *)

Module Spec.
Import CrossReality.
Local Open Scope Q_scope.

(** [w] is the entry of [tier] with the lowest confidence, the first such
    in insertion order: everything before it is strictly more confident,
    nothing after it is less confident. *)
Definition firstWeakest (tier before : list (string * KnowledgeEntry))
    (w : string * KnowledgeEntry) (after : list (string * KnowledgeEntry)) : Prop :=
  tier = before ++ w :: after
  /\ Forall (fun ke => confidence (snd w) < confidence (snd ke)) before
  /\ Forall (fun ke => confidence (snd w) <= confidence (snd ke)) after.

(** Inserting [newEntry] into a full [tier] gave [tier']: the first weakest
    entry was evicted and the new entry stored under its id. *)
Definition evictsWeakest (tier tier' : list (string * KnowledgeEntry))
    (newEntry : KnowledgeEntry) : Prop :=
  exists before w after,
    firstWeakest tier before w after
    /\ tier' = set (before ++ after) (entryId newEntry) newEntry.

(** The entry carries a condition on [prop] with operator [op]. *)
Definition hasCondition (prop op : string) (e : KnowledgeEntry) : Prop :=
  exists c, c ∈ conditions (pattern e) /\ property c = prop /\ operator c = op.

(** The low tier supports a mid-level entry of pattern type [ty]: it holds
    at least 5 entries of that type, at least 3 of them have confidence at
    least 0.6, and these share a condition (same property and operator). *)
Definition promotable (lowTier : list (string * KnowledgeEntry)) (ty : string) : Prop :=
  exists sameType sources : list KnowledgeEntry,
    sublist sameType (values lowTier)
    /\ Forall (fun e => ptype (pattern e) = ty) sameType
    /\ (5 <= length sameType)%nat
    /\ sublist sources sameType
    /\ Forall (fun e => 6 # 10 <= confidence e) sources
    /\ (3 <= length sources)%nat
    /\ exists prop op, Forall (hasCondition prop op) sources.

(** The entry continues one that the tier already held: same id, same
    pattern. *)
Definition continues (tier : list (string * KnowledgeEntry)) (e : KnowledgeEntry) : Prop :=
  exists ke0, ke0 ∈ tier
              /\ entryId (snd ke0) = entryId e /\ pattern (snd ke0) = pattern e.

(** [r] is the success rate of a transfer record: the share of its
    applications that succeeded.  A record without an application has no
    rate. *)
Definition successRate (t : Transfer) (r : Q) : Prop :=
  (1 <= total t)%nat /\ r * ofNat (total t) == ofNat (success t).



(** Every transfer record of the entry counts at least one application,
    as the records written by [recordApplication] do. *)
Definition applied (e : KnowledgeEntry) : Prop :=
  Forall (fun t => (1 <= total t)%nat) (values (transferSuccess e)).

(** [e'] is [e] with its confidence multiplied by [factor]. *)
Definition discounted (factor : Q) (e e' : KnowledgeEntry) : Prop :=
  confidence e' == confidence e * factor
  /\ e' = setConfidence (confidence e') e.

(** [tier'] is [tier], entry by entry: an entry for which [spared] holds is
    unchanged, every other entry is discounted by [factor]. *)
Definition adaptedTier (spared : KnowledgeEntry -> bool) (factor : Q)
    (tier tier' : list (string * KnowledgeEntry)) : Prop :=
  Forall2 (fun ke ke' =>
             fst ke' = fst ke
             /\ if spared (snd ke) then snd ke' = snd ke
                else discounted factor (snd ke) (snd ke'))
          tier tier'.

End Spec.

(** ** Strings *)

Module Text.
Import Stdlib.Strings.Ascii.

(** [s.split(sep)] for a separator of one character. *)
Fixpoint splitString (sep : ascii) (s : string) : list string :=
  match s with
  | EmptyString => [EmptyString]
  | String c s' =>
      if Ascii.eqb c sep then EmptyString :: splitString sep s'
      else match splitString sep s' with
           | piece :: pieces => String c piece :: pieces
           | [] => [String c EmptyString]
           end
  end.

Definition colon : ascii := ":"%char.

(** The character occurs in the string. *)
Fixpoint occurs (sep : ascii) (s : string) : bool :=
  match s with
  | EmptyString => false
  | String c s' => Ascii.eqb c sep || occurs sep s'
  end.

(** [haystack.startsWith(needle)] *)
Fixpoint startsWith (needle haystack : string) : bool :=
  match needle, haystack with
  | EmptyString, _ => true
  | String a needle', String b haystack' => Ascii.eqb a b && startsWith needle' haystack'
  | String _ _, EmptyString => false
  end.

(** [haystack.includes(needle)] *)
Fixpoint includes (needle haystack : string) : bool :=
  startsWith needle haystack
  || match haystack with
     | EmptyString => false
     | String _ haystack' => includes needle haystack'
     end.

End Text.

(* --------------------------------------------------------------------- *)
(** ** The memory extension (HESMS)                                        *)
(* --------------------------------------------------------------------- *)

Module Hesms.

Local Open Scope Q_scope.

(** [CONFIG], and the options of a [MemoryManager]. *)
Record Options := mkOptions {
  API_ENDPOINT : string;
  MEMORY_SYNC_INTERVAL : Z;
  SEMANTIC_UPDATE_INTERVAL : Z;
  MAX_EPISODIC_MEMORY_AGE : Z;
  MEMORY_DECAY_RATE : Q;
  PATTERN_CONFIDENCE_THRESHOLD : Q;
  ENABLE_CLOUD_SYNC : bool;
  BATCH_SIZE : nat;
  RETRY_DELAY : Z;
  MAX_RETRIES : nat;
  CONSOLIDATION_INTERVAL : Z;
  SPATIAL_CELL_SIZE : Q
}.

Definition CONFIG : Options :=
  mkOptions "http://localhost:5001/api" 10 50 1000 (5 # 100) (7 # 10)
            true 50 1000 3 100 10.

(** Storing into a [Uint32Array] element. *)
Definition toUint32 (z : Z) : Z := (z mod 4294967296)%Z.

(** *** The [EnhancedMemory] component

    The stores of the component, indexed by entity id; the short-term
    stores are indexed, as the source does, by [agent * 10 + slot].  A cell
    never written reads as 0. *)
Record EnhancedMemory := mkEnhancedMemory {
  shortTermCapacity : gmap Z Z;
  shortTermIndex : gmap Z Z;
  shortTermIds : gmap Z Z;
  shortTermTypes : gmap Z Z;
  shortTermPositionsX : gmap Z Q;
  shortTermPositionsY : gmap Z Q;
  shortTermTimestamps : gmap Z Z;
  shortTermImportance : gmap Z Q;
  shortTermFidelity : gmap Z Q;
  memoryId : gmap Z Z;
  lastSyncTime : gmap Z Z;
  semanticUpdateTime : gmap Z Z;
  globalFidelity : gmap Z Q;
  syncPending : gmap Z Z;
  semanticPending : gmap Z Z
}.

Definition readZ (store : gmap Z Z) (i : Z) : Z := default 0%Z (store !! i).
Definition readQ (store : gmap Z Q) (i : Z) : Q := default 0 (store !! i).

(** *** Episodic memories *)

(** The [context] that [recordEpisodicMemory] attaches to a memory;
    [None] is [null]. *)
Record Context := mkContext {
  action : option Z;
  success : option Q;
  emotionalState : option Q;
  realityShift : bool
}.

Record Position := mkPosition { x : Q; y : Q }.

Record EpisodicMemory := mkEpisodicMemory {
  id : string;
  timestamp : Z;
  entityId : Z;
  entityType : Z;
  position : Position;
  importance : Q;
  context : Context;
  agentId : Z;
  fidelity : Q;
  tags : list string;
  emotionalImpact : Q;
  creationTime : Z
}.

(** The event passed to [recordEpisodicMemory]; an absent [importance] is
    [None]. *)
Record Event := mkEvent {
  eventEntityId : Z;
  eventEntityType : Z;
  eventPosition : Position;
  eventImportance : option Q
}.

(** What the other components hold for the agent when a memory is
    recorded ([None]: the component has nothing for the agent), with the
    world time, the clock and the random suffix of the memory id. *)
Record Occasion := mkOccasion {
  worldTime : Z;
  clock : Z;
  randomSuffix : string;
  currentAction : option Z;        (* [Actions[agent]?.currentAction] *)
  successRate : option Q;          (* [Actions[agent]?.successRate] *)
  agentEmotionalState : option Q;  (* [CognitiveState[agent]?.emotionalState] *)
  effectType : option Z            (* [RealityFlux[agent]?.effectType] *)
}.

(** [v || null] on numbers: 0 is falsy. *)
Definition orNullZ (v : option Z) : option Z :=
  match v with
  | Some z => if (z =? 0)%Z then None else Some z
  | None => None
  end.

Definition orNullQ (v : option Q) : option Q :=
  match v with
  | Some q => if Qeq_bool q 0 then None else Some q
  | None => None
  end.

(** [v || d] on numbers. *)
Definition orElse (v : option Q) (d : Q) : Q := default d (orNullQ v).

(** A number in a comparison: [null] counts as 0. *)
Definition numeric (v : option Q) : Q := default 0 v.

Definition clamp01 (q : Q) : Q := Qmin 1 (Qmax 0 q).

(** [generateMemoryTags(event, context)], on the event's entity type,
    its (boosted) importance and its position. *)
Definition generateMemoryTags (ty : Z) (imp : Q) (pos : Position) (c : Context)
    : list string :=
  [ "type_" +:+ pretty ty;
    "imp_" +:+ pretty (Qfloor (imp * 10)) ]
  ++ match action c with Some a => ["act_" +:+ pretty a] | None => [] end
  ++ (if gtb (numeric (success c)) 80 then ["success_high"] else [])
  ++ (if realityShift c then ["shift"] else [])
  ++ [ "quad_" +:+ (if ltb (y pos) 50 then "n" else "s") +:+ "_"
       +:+ (if ltb (x pos) 50 then "w" else "e") ].

(** *** Semantic memory *)

Record SemanticPattern := mkSemanticPattern {
  type : string;
  rule : string;
  confidence : Q;
  sourceCount : nat;
  created : Z;
  lastConfirmed : Z;
  evidence : list string
}.

(** The argument of [addPattern]. *)
Record PatternInput := mkPatternInput {
  inType : string;
  inRule : string;
  inConfidence : Q;
  inSourceCount : nat;
  inTimestamp : Z;
  inEvidence : list string
}.

Record SemanticMemory := mkSemanticMemory {
  patterns : list SemanticPattern;
  associations : gmap string Q;
  conceptConfidence : gmap string Q;     (* [confidence] *)
  lastUpdated : Z;
  version : nat
}.

Definition newSemanticMemory : SemanticMemory :=
  mkSemanticMemory [] ∅ ∅ 0 1.

(** [addPattern(pattern)]: a pattern of the same type is merged in place,
    otherwise the pattern is appended. *)
Fixpoint mergePattern (ps : list SemanticPattern) (p : PatternInput)
    : option (list SemanticPattern) :=
  match ps with
  | [] => None
  | existing :: ps' =>
      if bool_decide (type existing = inType p) then
        let totalCount := (sourceCount existing + inSourceCount p)%nat in
        Some (mkSemanticPattern (type existing) (rule existing)
                ((confidence existing * ofNat (sourceCount existing)
                  + inConfidence p * ofNat (inSourceCount p)) / ofNat totalCount)
                totalCount (created existing) (inTimestamp p)
                (evidence existing ++ inEvidence p) :: ps')
      else option_map (cons existing) (mergePattern ps' p)
  end.

Definition addPattern (p : PatternInput) (sm : SemanticMemory) : SemanticMemory :=
  let ps :=
    match mergePattern (patterns sm) p with
    | Some merged => merged
    | None =>
        patterns sm ++ [mkSemanticPattern (inType p) (inRule p) (inConfidence p)
                          (inSourceCount p) (inTimestamp p) (inTimestamp p)
                          (inEvidence p)]
    end in
  mkSemanticMemory ps (associations sm) (conceptConfidence sm)
                   (lastUpdated sm) (version sm).

(** [addAssociation(concept1, concept2, strength)] *)
Definition addAssociation (concept1 concept2 : string) (strength : Q)
    (sm : SemanticMemory) : SemanticMemory :=
  let key := concept1 +:+ ":" +:+ concept2 in
  let reverseKey := concept2 +:+ ":" +:+ concept1 in
  let current := default 0 (associations sm !! key) in
  let newStrength := Qmin 1 (current + strength * (3 # 10)) in
  mkSemanticMemory (patterns sm)
                   (<[reverseKey := newStrength]> (<[key := newStrength]> (associations sm)))
                   (conceptConfidence sm) (lastUpdated sm) (version sm).

(** [Math.hypot(dx, dy) < r], for a radius [r >= 0]. *)
Definition within (a b : Position) (r : Q) : bool :=
  ltb ((x a - x b) * (x a - x b) + (y a - y b) * (y a - y b)) (r * r).

(** The memories with their indices in the array: two elements of an
    array are the same object exactly when they sit at the same index. *)
Definition indexed (memories : list EpisodicMemory) : list (nat * EpisodicMemory) :=
  imap (fun i m => (i, m)) memories.

(** The [nearby] list of [_extractProximityPattern] for the memory at
    index [i]. *)
Definition proximityNeighbours (memories : list EpisodicMemory) (targetType : Z)
    (i : nat) (memory : EpisodicMemory) : list EpisodicMemory :=
  map snd
    (List.filter (fun jm =>
                    negb (fst jm =? i)%nat
                    && (entityType (snd jm) =? targetType)%Z
                    && (Z.abs (timestamp (snd jm) - timestamp memory) <? 10)%Z
                    && within (position (snd jm)) (position memory) 15)
                 (indexed memories)).

Definition lastTimestamp (memories : list EpisodicMemory) : Z :=
  match last memories with
  | Some m => timestamp m
  | None => 0%Z
  end.

(** The loop of [_extractProximityPattern]: the count, the evidence and
    the semantic memory with the associations added so far. *)
Definition proximityScan (memories : list EpisodicMemory) (targetType : Z)
    (sm : SemanticMemory) : nat * list string * SemanticMemory :=
  fold_left (fun (acc : nat * list string * SemanticMemory) im =>
               let '(proximalCount, evidence, sm) := acc in
               let memory := snd im in
               match proximityNeighbours memories targetType (fst im) memory with
               | [] => acc
               | _ =>
                   (S proximalCount, evidence ++ [id memory],
                    addAssociation ("type_" +:+ pretty (entityType memory))
                                   ("type_" +:+ pretty targetType) (3 # 10) sm)
               end)
            (indexed memories) (0%nat, [], sm).

(** [_extractProximityPattern(memories, targetType, patternType, rule)] *)
Definition extractProximityPattern (memories : list EpisodicMemory) (targetType : Z)
    (patternType rule : string) (sm : SemanticMemory) : SemanticMemory :=
  let '(proximalCount, evidence, sm1) := proximityScan memories targetType sm in
  let confidence := ofNat proximalCount / ofNat (length memories) in
  if gtb confidence (3 # 10) then
    addPattern (mkPatternInput patternType rule confidence (length memories)
                               (lastTimestamp memories) evidence) sm1
  else sm1.

Definition clusterNeighbours (memories : list EpisodicMemory)
    (i : nat) (memory : EpisodicMemory) : list EpisodicMemory :=
  map snd
    (List.filter (fun jm =>
                    negb (fst jm =? i)%nat
                    && within (position (snd jm)) (position memory) 20)
                 (indexed memories)).

(** [_extractClusterPattern(memories, patternType, rule)] *)
Definition extractClusterPattern (memories : list EpisodicMemory)
    (patternType rule : string) (sm : SemanticMemory) : SemanticMemory :=
  let '(clusterCount, evidence) :=
    fold_left (fun (acc : nat * list string) im =>
                 if (2 <=? length (clusterNeighbours memories (fst im) (snd im)))%nat
                 then (S (fst acc), snd acc ++ [id (snd im)])
                 else acc)
              (indexed memories) (0%nat, []) in
  let confidence := ofNat clusterCount / ofNat (length memories) in
  if gtb confidence (4 # 10) then
    addPattern (mkPatternInput patternType rule confidence (length memories)
                               (lastTimestamp memories) evidence) sm
  else sm.

(** [extractResourcePatterns(memories)] *)
Definition extractResourcePatterns (memories : list EpisodicMemory)
    (sm : SemanticMemory) : SemanticMemory :=
  let resources := List.filter (fun m => (entityType m =? 0)%Z) memories in
  if (length resources <? 3)%nat then sm
  else
    extractClusterPattern resources "resource_clustering" "Resources tend to cluster"
      (extractProximityPattern resources 1 "resource_obstacle_proximity"
         "Resources are often near obstacles" sm).

(** *** The spatial index *)

(** The grid is keyed by the pair of cell coordinates (the source joins
    them into a string). *)
Record SpatialIndex := mkSpatialIndex {
  cellSize : Q;
  grid : gmap (Z * Z) (list EpisodicMemory)
}.

Definition cellOf (size v : Q) : Z := Qfloor (v / size).

(** [addMemory(memory)] *)
Definition addMemory (memory : EpisodicMemory) (ix : SpatialIndex) : SpatialIndex :=
  let key := (cellOf (cellSize ix) (x (position memory)),
              cellOf (cellSize ix) (y (position memory))) in
  mkSpatialIndex (cellSize ix)
                 (<[key := default [] (grid ix !! key) ++ [memory]]> (grid ix)).

(** [getMemoriesNear(x, y, radius)] *)
Definition getMemoriesNear (px py radius : Q) (ix : SpatialIndex) : list EpisodicMemory :=
  let minX := cellOf (cellSize ix) (px - radius) in
  let maxX := cellOf (cellSize ix) (px + radius) in
  let minY := cellOf (cellSize ix) (py - radius) in
  let maxY := cellOf (cellSize ix) (py + radius) in
  let memories :=
    flat_map (fun i =>
                flat_map (fun j => default [] (grid ix !! (i, j)))
                         (seqZ minY (maxY - minY + 1)))
             (seqZ minX (maxX - minX + 1)) in
  List.filter (fun m =>
                 leb ((x (position m) - px) * (x (position m) - px)
                      + (y (position m) - py) * (y (position m) - py))
                     (radius * radius)) memories.

(** *** The memory manager *)

Record MemoryManager := mkMemoryManager {
  options : Options;
  agentMemoryCache : gmap Z SemanticMemory;
  episodicQueue : list (Z * list EpisodicMemory);
  longTermMemory : gmap Z (list EpisodicMemory);
  spatialIndex : SpatialIndex;
  pendingSemanticUpdates : list Z;
  initialized : bool;
  syncInProgress : bool
}.

(** [new MemoryManager(world, options)] *)
Definition newMemoryManager (opts : Options) : MemoryManager :=
  mkMemoryManager opts ∅ [] ∅ (mkSpatialIndex (SPATIAL_CELL_SIZE opts) ∅) [] false false.

(** The component stores and the manager. *)
Record State := mkState {
  components : EnhancedMemory;
  manager : MemoryManager
}.

(** The context built by [recordEpisodicMemory]. *)
Definition contextOf (o : Occasion) : Context :=
  mkContext (orNullZ (currentAction o)) (orNullQ (successRate o))
            (orNullQ (agentEmotionalState o))
            (match effectType o with Some e => (0 <? e)%Z | None => false end).

(** The importance the event is recorded with. *)
Definition boostedImportance (event : Event) (c : Context) : Q :=
  let emotionalBoost :=
    if gtb (numeric (emotionalState c)) 70 || ltb (numeric (emotionalState c)) 30
    then 2 # 10 else 0 in
  Qmin 1 (orElse (eventImportance event) (5 # 10) + emotionalBoost).

(** The writes of [recordEpisodicMemory] into the component: the slot
    [agent * 10 + shortTermIndex] of the seven short-term stores, then the
    write index. *)
Definition writeShortTerm (agent : Z) (event : Event) (imp : Q) (time : Z)
    (em : EnhancedMemory) : EnhancedMemory :=
  let shortTermIndex0 := readZ (shortTermIndex em) agent in
  let capacity := readZ (shortTermCapacity em) agent in
  let slot := (agent * 10 + shortTermIndex0)%Z in
  mkEnhancedMemory
    (shortTermCapacity em)
    (<[agent := toUint8 (rem (shortTermIndex0 + 1) capacity)]> (shortTermIndex em))
    (<[slot := toUint32 (eventEntityId event)]> (shortTermIds em))
    (<[slot := toUint8 (Some (eventEntityType event))]> (shortTermTypes em))
    (<[slot := x (eventPosition event)]> (shortTermPositionsX em))
    (<[slot := y (eventPosition event)]> (shortTermPositionsY em))
    (<[slot := toUint32 time]> (shortTermTimestamps em))
    (<[slot := imp]> (shortTermImportance em))
    (<[slot := readQ (globalFidelity em) agent]> (shortTermFidelity em))
    (memoryId em) (lastSyncTime em) (semanticUpdateTime em) (globalFidelity em)
    (syncPending em) (semanticPending em).

(** [recordEpisodicMemory(agent, event)] *)
Definition recordEpisodicMemory (agent : Z) (event : Event) (o : Occasion)
    (st : State) : State * EpisodicMemory :=
  let em := components st in
  let mm := manager st in
  let memId := readZ (memoryId em) agent in
  let c := contextOf o in
  let imp := boostedImportance event c in
  let em' := writeShortTerm agent event imp (worldTime o) em in
  let queue0 :=
    if has (episodicQueue mm) memId then episodicQueue mm
    else set (episodicQueue mm) memId [] in
  let episodicMemory :=
    mkEpisodicMemory
      (pretty agent +:+ "-" +:+ pretty (worldTime o) +:+ "-" +:+ randomSuffix o)
      (worldTime o) (eventEntityId event) (eventEntityType event)
      (eventPosition event)
      (clamp01 (orElse (Some imp) (5 # 10)))
      c agent
      (clamp01 (orElse (Some (readQ (globalFidelity em) agent)) 1))
      (generateMemoryTags (eventEntityType event) imp (eventPosition event) c)
      (orElse (emotionalState c) 50)
      (clock o) in
  let memories := default [] (get queue0 memId) ++ [episodicMemory] in
  let queue1 := set queue0 memId memories in
  let pending :=
    if (5 <=? length memories)%nat then
      if bool_decide (memId ∈ pendingSemanticUpdates mm)
      then pendingSemanticUpdates mm
      else pendingSemanticUpdates mm ++ [memId]
    else pendingSemanticUpdates mm in
  (mkState em'
     (mkMemoryManager (options mm) (agentMemoryCache mm) queue1 (longTermMemory mm)
                      (addMemory episodicMemory (spatialIndex mm)) pending
                      (initialized mm) (syncInProgress mm)),
   episodicMemory).

(** The component part of [initializeAgentMemory(agent)] and the semantic
    memory it registers; the request that follows when cloud sync is
    enabled is [createCloudMemory] below.  (The guard
    [if (EnhancedMemory[agent]) return] reads a numeric property of the
    component object, which has none.) *)
Definition initializeAgentMemory (agent : Z) (time now : Z) (st : State) : State :=
  let em := components st in
  let mm := manager st in
  let memId := toUint32 (now + agent) in
  let slots := map (fun i => (agent * 10 + Z.of_nat i)%Z) (seq 0 10) in
  let clearZ (store : gmap Z Z) := fold_left (fun m k => <[k := 0%Z]> m) slots store in
  let clearQ (v : Q) (store : gmap Z Q) := fold_left (fun m k => <[k := v]> m) slots store in
  mkState
    (mkEnhancedMemory
       (<[agent := 10%Z]> (shortTermCapacity em))
       (<[agent := 0%Z]> (shortTermIndex em))
       (clearZ (shortTermIds em)) (clearZ (shortTermTypes em))
       (clearQ 0 (shortTermPositionsX em)) (clearQ 0 (shortTermPositionsY em))
       (clearZ (shortTermTimestamps em)) (clearQ 0 (shortTermImportance em))
       (clearQ 1 (shortTermFidelity em))
       (<[agent := memId]> (memoryId em))
       (<[agent := toUint32 time]> (lastSyncTime em))
       (<[agent := toUint32 time]> (semanticUpdateTime em))
       (<[agent := 1]> (globalFidelity em))
       (syncPending em) (semanticPending em))
    (mkMemoryManager (options mm)
       (<[memId := newSemanticMemory]> (agentMemoryCache mm))
       (episodicQueue mm) (longTermMemory mm) (spatialIndex mm)
       (pendingSemanticUpdates mm) (initialized mm) (syncInProgress mm)).

(** [getSemanticMemory(agent)] *)
Definition getSemanticMemory (agent : Z) (st : State) : SemanticMemory :=
  default newSemanticMemory
          (agentMemoryCache (manager st) !! readZ (memoryId (components st)) agent).

(** [!context.type || p.type.includes(context.type)]; [contextType] is
    [context.type], a string, [None] when the context has no such field;
    the empty string is falsy. *)
Definition relevantTo (contextType : option string) (p : SemanticPattern) : bool :=
  match contextType with
  | None => true
  | Some ty => (String.length ty =? 0)%nat || Text.includes ty (type p)
  end.

(** [findRelevantPatterns(agent, context = {})] *)
Definition findRelevantPatterns (agent : Z) (contextType : option string) (st : State)
    : list SemanticPattern :=
  let semantic := getSemanticMemory agent st in
  match patterns semantic with
  | [] => []
  | ps =>
      sort (fun a b => confidence b - confidence a)
           (List.filter (fun p => geb (confidence p)
                                      (PATTERN_CONFIDENCE_THRESHOLD (options (manager st)))
                                  && relevantTo contextType p)
                        ps)
  end.

(** [checkRecentlyRecorded(agent, entityId)], the helper of the memory
    system.  Its callback compares the stored id first; for a slot that
    holds [entityId] it goes on to read [memoryManager.world.time], and no
    [memoryManager] is in scope where the helper is declared. *)
Definition checkRecentlyRecorded (em : EnhancedMemory) (agent entityId : Z)
    : completion bool :=
  let capacity := readZ (shortTermCapacity em) agent in
  if existsb (fun i => (readZ (shortTermIds em) (agent * 10 + Z.of_nat i) =? entityId)%Z)
             (seq 0 (Z.to_nat capacity))
  then Throw (ReferenceError "memoryManager is not defined")
  else Normal false.

(** *** Cloud synchronisation *)

(** What a run leaves behind: requests with their outcome, console
    output, and the delays waited. *)
Inductive Effect :=
| Request (url : string) (ok : bool)
| Warn (msg : string)
| Info (msg : string)
| Sleep (ms : Z).

Record Run := mkRun {
  state : State;
  requests : nat;
  trace : list Effect
}.

(** An asynchronous method: it runs from a [Run] to a result, or to a
    rejection, and the [Run] it leaves.  Awaited calls are sequenced by
    [bind]; a rejection ends the method that awaits it. *)
Definition M (A : Type) : Type := Run -> completion A * Run.

Definition ret {A} (a : A) : M A := fun r => (Normal a, r).

Definition bind {A B} (m : M A) (k : A -> M B) : M B :=
  fun r =>
    match m r with
    | (Normal a, r') => k a r'
    | (Throw e, r') => (Throw e, r')
    end.

Notation "x <- m ;; k" := (bind m (fun x => k))
  (at level 100, m at next level, right associativity).

Definition emit (e : Effect) : M unit :=
  fun r => (Normal tt, mkRun (state r) (requests r) (trace r ++ [e])).

Definition getManager : M MemoryManager := fun r => (Normal (manager (state r)), r).

Definition putManager (mm : MemoryManager) : M unit :=
  fun r => (Normal tt, mkRun (mkState (components (state r)) mm) (requests r) (trace r)).

Definition setSyncInProgress (b : bool) (mm : MemoryManager) : MemoryManager :=
  mkMemoryManager (options mm) (agentMemoryCache mm) (episodicQueue mm)
                  (longTermMemory mm) (spatialIndex mm) (pendingSemanticUpdates mm)
                  (initialized mm) b.

Definition setEpisodicQueue (q : list (Z * list EpisodicMemory)) (mm : MemoryManager)
    : MemoryManager :=
  mkMemoryManager (options mm) (agentMemoryCache mm) q
                  (longTermMemory mm) (spatialIndex mm) (pendingSemanticUpdates mm)
                  (initialized mm) (syncInProgress mm).

(** Slices of [size] memories, at most [fuel] of them. *)
Fixpoint slices (fuel size : nat) (memories : list EpisodicMemory)
    : list (list EpisodicMemory) :=
  match fuel, memories with
  | _, [] => []
  | O, _ => []
  | S fuel', _ => take size memories :: slices fuel' size (drop size memories)
  end.

(** The batches of [syncEpisodicMemories], made by
    [for (let i = 0; i < memories.length; i += BATCH_SIZE)
       batches.push(memories.slice(i, i + BATCH_SIZE))].
    With a batch size of 0 and a memory in the queue [i] stays 0 and the
    loop does not end: [None].  Otherwise [i] grows in every round and the
    loop makes at most [memories.length] slices. *)
Definition batchesOf (size : nat) (memories : list EpisodicMemory)
    : option (list (list EpisodicMemory)) :=
  match size, memories with
  | O, _ :: _ => None
  | _, _ => Some (slices (length memories) size memories)
  end.

(** A method with a loop that may not end: [None] when it does not
    return. *)
Definition Loop (A : Type) : Type := Run -> option (completion A * Run).

(** A method that returns. *)
Definition returns {A} (m : M A) : Loop A := fun r => Some (m r).

(** The loop does not end. *)
Definition hangs {A} : Loop A := fun _ => None.

Definition bindLoop {A B} (m : Loop A) (k : A -> Loop B) : Loop B :=
  fun r =>
    match m r with
    | Some (Normal a, r') => k a r'
    | Some (Throw e, r') => Some (Throw e, r')
    | None => None
    end.

Notation "x <~ m ;; k" := (bindLoop m (fun x => k))
  (at level 100, m at next level, right associativity).

Section Transport.

(** The transport: [transport n] is the outcome of the [n]-th request of
    the run, [None] when it succeeds and the message of the error it
    rejects with otherwise. *)
Variable transport : nat -> option string.

(** [axios.post(url, ...)] *)
Definition post (url : string) : M unit :=
  fun r =>
    match transport (requests r) with
    | None =>
        (Normal tt, mkRun (state r) (S (requests r)) (trace r ++ [Request url true]))
    | Some msg =>
        (Throw (Rejected msg),
         mkRun (state r) (S (requests r)) (trace r ++ [Request url false]))
    end.

Definition errorMessage (e : error) : string :=
  match e with
  | TypeError msg | ReferenceError msg | Rejected msg => msg
  end.

(** The loop of [retryOperation], from [attempt] on; [fuel] is the number
    of rounds left, [retries - attempt].  The result is [None] when the
    loop ends without an attempt (the method then returns [undefined]). *)
Fixpoint retryLoop {A} (retryDelay : Z) (operation : M A) (retries attempt fuel : nat)
    : M (option A) :=
  match fuel with
  | O => ret None
  | S fuel' =>
      fun r =>
        match operation r with
        | (Normal a, r') => (Normal (Some a), r')
        | (Throw e, r') =>
            if (attempt =? retries - 1)%nat then (Throw e, r')
            else
              (_ <- emit (Warn ("HESMS: Retry " +:+ pretty (S attempt) +:+ "/"
                                +:+ pretty retries +:+ " failed: " +:+ errorMessage e)) ;;
               _ <- emit (Sleep (retryDelay * Z.of_nat (S attempt))) ;;
               retryLoop retryDelay operation retries (S attempt) fuel') r'
        end
  end.

(** [retryOperation(operation, retries = this.options.MAX_RETRIES)] *)
Definition retryOperation {A} (opts : Options) (operation : M A) (retries : nat)
    : M (option A) :=
  retryLoop (RETRY_DELAY opts) operation retries 0 retries.

(** [createCloudMemory(memoryId)] *)
Definition createCloudMemory (opts : Options) (memId : Z) : M unit :=
  if negb (ENABLE_CLOUD_SYNC opts) then ret tt
  else
    _ <- post (API_ENDPOINT opts +:+ "/memory/" +:+ pretty memId +:+ "/create") ;;
    emit (Info ("HESMS: Cloud memory created for ID " +:+ pretty memId)).

(** The operation retried for one batch. *)
Definition syncBatch (opts : Options) (memId : Z) (batch : list EpisodicMemory) : M unit :=
  _ <- post (API_ENDPOINT opts +:+ "/memory/" +:+ pretty memId +:+ "/episodic") ;;
  emit (Info ("HESMS: Synced " +:+ pretty (length batch) +:+ " memories for ID "
              +:+ pretty memId)).

Fixpoint syncBatches (opts : Options) (memId : Z) (batches : list (list EpisodicMemory))
    : M unit :=
  match batches with
  | [] => ret tt
  | batch :: rest =>
      _ <- retryOperation opts (syncBatch opts memId batch) (MAX_RETRIES opts) ;;
      syncBatches opts memId rest
  end.

(** The body of the loop of [syncEpisodicMemories] for one memory id: the
    queue of the id is sorted in place by decreasing importance, sent in
    batches, and emptied. *)
Definition syncQueue (memId : Z) : Loop unit :=
  mm <~ returns getManager ;;
  let memories :=
    sort (fun a b => importance b - importance a)
         (default [] (get (episodicQueue mm) memId)) in
  _ <~ returns (putManager (setEpisodicQueue (set (episodicQueue mm) memId memories) mm)) ;;
  match memories with
  | [] => returns (ret tt)
  | _ =>
      batches <~ match batchesOf (BATCH_SIZE (options mm)) memories with
                 | Some batches => returns (ret batches)
                 | None => hangs
                 end ;;
      _ <~ returns (syncBatches (options mm) memId batches) ;;
      mm' <~ returns getManager ;;
      returns (putManager (setEpisodicQueue (set (episodicQueue mm') memId []) mm'))
  end.

Fixpoint syncQueues (memoryIds : list Z) : Loop unit :=
  match memoryIds with
  | [] => returns (ret tt)
  | memId :: rest => _ <~ syncQueue memId ;; syncQueues rest
  end.

(** [syncEpisodicMemories()] *)
Definition syncEpisodicMemories : Loop unit :=
  mm <~ returns getManager ;;
  if negb (ENABLE_CLOUD_SYNC (options mm)) || syncInProgress mm
     || (size (episodicQueue mm) =? 0)%nat
  then returns (ret tt)
  else
    _ <~ returns (putManager (setSyncInProgress true mm)) ;;
    _ <~ syncQueues (keys (episodicQueue mm)) ;;
    mm' <~ returns getManager ;;
    returns (putManager (setSyncInProgress false mm')).


End Transport.

(** *** The enhanced decision system *)

(** What the decision system reads of the other components. *)
Record Perception := mkPerception {
  positionOf : Z -> Position;            (* [Position.x[e]], [Position.y[e]] *)
  entitiesDetected : Z -> Z;             (* [SensoryData.entitiesDetected[i]] *)
  isEnvironmental : Z -> bool;           (* [Environmental[e]] is truthy *)
  environmentalType : Z -> Z;            (* [Environmental.type[e]] *)
  isSensing : Z -> bool;                 (* [SensoryData[e]] is truthy *)
  cognitiveEmotionalState : Z -> option Q; (* [CognitiveState[a]?.emotionalState] *)
  cognitiveAdaptability : Z -> option Q;   (* [CognitiveState[a]?.adaptability] *)
  realityWaveActive : bool               (* [world.realityWave?.active] *)
}.

(** The [Goals] of an agent, as the system writes them. *)
Record Goal := mkGoal {
  primaryType : Z;
  targetEntity : Z;
  targetX : Q;
  targetY : Q;
  priority : Q
}.

Record Sighting := mkSighting { entity : Z; pos : Position }.

Record Entities := mkEntities {
  resources : list Sighting;
  obstacles : list Sighting;
  hazards : list Sighting;
  agents : list Sighting
}.

Definition cbind {A B} (c : completion A) (k : A -> completion B) : completion B :=
  match c with
  | Normal a => k a
  | Throw e => Throw e
  end.

(** The loop over the ten detection slots of the agent.  An environmental
    entity whose type is not 0, 1 or 2 selects no list, and the [push]
    on it throws. *)
Definition collectEntities (w : Perception) (agent : Z) : completion Entities :=
  fold_left (fun (acc : completion Entities) j =>
               cbind acc (fun es =>
                 let e := entitiesDetected w (agent * 10 + Z.of_nat j)%Z in
                 if (e =? 0)%Z then Normal es
                 else
                   let s := mkSighting e (positionOf w e) in
                   if isEnvironmental w e then
                     match environmentalType w e with
                     | 0%Z => Normal (mkEntities (resources es ++ [s]) (obstacles es)
                                                 (hazards es) (agents es))
                     | 1%Z => Normal (mkEntities (resources es) (obstacles es ++ [s])
                                                 (hazards es) (agents es))
                     | 2%Z => Normal (mkEntities (resources es) (obstacles es)
                                                 (hazards es ++ [s]) (agents es))
                     | _ => Throw (TypeError
                              "Cannot read properties of undefined (reading 'push')")
                     end
                   else if isSensing w e then
                     Normal (mkEntities (resources es) (obstacles es) (hazards es)
                                        (agents es ++ [s]))
                   else Normal es))
            (seq 0 10) (Normal (mkEntities [] [] [] [])).

Section Decision.

(** [Math.cos], [Math.sin], [Math.hypot] and [Math.PI * 2], and the
    sequence of values [Math.random()] returns. *)
Variable cos : Q -> Q.
Variable sin : Q -> Q.
Variable hypot : Q -> Q -> Q.
Variable twoPi : Q.
Variable random : nat -> Q.

(** The goal under construction and the number of random values drawn. *)
Record Draft := mkDraft {
  goalType : Z;
  draftX : Q;
  draftY : Q;
  draftEntity : Z;
  draftPriority : Q;
  drawn : nat
}.

(** The [switch] on the type of the most confident relevant pattern. *)
Definition applyTopPattern (w : Perception) (agentPos : Position)
    (es : Entities) (topPattern : SemanticPattern) (d : Draft) : completion Draft :=
  let n := drawn d in
  if bool_decide (type topPattern = "resource_obstacle_proximity") then
    match obstacles es, resources es with
    | _ :: _, [] =>
        match obstacles es
              !! Z.to_nat (Qfloor (random n * ofNat (length (obstacles es)))) with
        | Some obs =>
            let angle := random (n + 1) * twoPi in
            Normal (mkDraft 1
                      (x (pos obs) + cos angle * (5 + random (n + 2) * 5))
                      (y (pos obs) + sin angle * (5 + random (n + 3) * 5))
                      (draftEntity d) (60 * confidence topPattern) (n + 4))
        | None => Throw (TypeError "Cannot read properties of undefined (reading 'pos')")
        end
    | _, _ => Normal d
    end
  else if bool_decide (type topPattern = "resource_clustering") then
    match resources es with
    | [res] =>
        let angle := random n * twoPi in
        Normal (mkDraft 1
                  (x (pos res) + cos angle * (3 + random (n + 1) * 7))
                  (y (pos res) + sin angle * (3 + random (n + 2) * 7))
                  (draftEntity d) (55 * confidence topPattern) (n + 3))
    | _ => Normal d
    end
  else if bool_decide (type topPattern = "hazard_shift_stability") then
    match hazards es with
    | haz :: _ =>
        if realityWaveActive w && gtb (confidence topPattern) (7 # 10) then
          let dx := x agentPos - x (pos haz) in
          let dy := y agentPos - y (pos haz) in
          let dist := hypot dx dy in
          if gtb dist 0 then
            Normal (mkDraft 2 (x agentPos + dx / dist * 20) (y agentPos + dy / dist * 20)
                            (draftEntity d) (80 * confidence topPattern) n)
          else Normal d
        else Normal d
    | [] => Normal d
    end
  else Normal d.

(** The goal chosen when no memory raised the priority. *)
Definition fallbackGoal (agentPos : Position) (es : Entities) (d : Draft) : Draft :=
  let n := drawn d in
  match hazards es, resources es, agents es with
  | haz :: _, _, _ =>
      let dx := x agentPos - x (pos haz) in
      let dy := y agentPos - y (pos haz) in
      let dist := hypot dx dy in
      mkDraft 2 (x agentPos + dx / dist * 15) (y agentPos + dy / dist * 15)
              (draftEntity d) 70 n
  | [], res :: _, _ => mkDraft 1 (x (pos res)) (y (pos res)) (entity res) 50 n
  | [], [], agt :: _ =>
      if ltb (random n) (2 # 10)
      then mkDraft 3 (x (pos agt)) (y (pos agt)) (entity agt) 30 (n + 1)
      else
        let angle := random (n + 1) * twoPi in
        mkDraft 0 (x agentPos + cos angle * 10) (y agentPos + sin angle * 10)
                (draftEntity d) 20 (n + 2)
  | [], [], [] =>
      let angle := random n * twoPi in
      mkDraft 0 (x agentPos + cos angle * 10) (y agentPos + sin angle * 10)
              (draftEntity d) 20 (n + 1)
  end.

(** The body of the loop of the system built by
    [createEnhancedDecisionSystem], for one agent: the goal it writes and
    the number of random values drawn, or the exception it throws. *)
Definition decideAgent (w : Perception) (st : State) (agent : Z) (drawn0 : nat)
    : completion (Goal * nat) :=
  let memId := readZ (memoryId (components st)) agent in
  let agentPos := positionOf w agent in
  let emotional := orElse (cognitiveEmotionalState w agent) 50 in
  cbind (collectEntities w agent) (fun es =>
  let d0 := mkDraft 0 0 0 0 0 drawn0 in
  cbind (match findRelevantPatterns agent None st with
         | topPattern :: _ => applyTopPattern w agentPos es topPattern d0
         | [] => Normal d0
         end) (fun d1 =>
  let nearbyMemories :=
    getMemoriesNear (x agentPos) (y agentPos) 20 (spatialIndex (manager st)) in
  match longTermMemory (manager st) !! memId with
  | None => Throw (TypeError "Cannot read properties of undefined (reading 'filter')")
  | Some longTerm =>
      let emotionalMemories :=
        List.filter (fun m => ltb (Qabs (emotionalImpact m - emotional)) 10) longTerm in
      let p1 :=
        if existsb (fun m => (entityType m =? 2)%Z) nearbyMemories
        then draftPriority d1 + 20 else draftPriority d1 in
      let p2 :=
        if existsb (fun m => ltb (numeric (success (context m))) 50) emotionalMemories
        then p1 + 10 else p1 in
      let d2 := mkDraft (goalType d1) (draftX d1) (draftY d1) (draftEntity d1) p2 (drawn d1) in
      let d3 := if Qeq_bool p2 0 then fallbackGoal agentPos es d2 else d2 in
      Normal (mkGoal (goalType d3) (draftEntity d3) (draftX d3) (draftY d3)
                     (draftPriority d3), drawn d3)
  end)).

(** The system: the agents of the query in turn; the goals written so far
    and the random values drawn, or the exception that ends the call. *)
Definition decisionSystem (w : Perception) (st : State) (queried : list Z)
    : completion (gmap Z Goal * nat) :=
  fold_left (fun (acc : completion (gmap Z Goal * nat)) agent =>
               cbind acc (fun gn =>
                 cbind (decideAgent w st agent (snd gn)) (fun r =>
                   Normal (<[agent := fst r]> (fst gn), snd r))))
            queried (Normal (∅, 0%nat)).

End Decision.

End Hesms.

(* --------------------------------------------------------------------- *)
(** ** Runs and sample data of the memory extension                        *)
(* --------------------------------------------------------------------- *)

Module Scenarios.
Import Hesms.
Local Open Scope Q_scope.

(** The seven cells of the short-term stores at index [j]. *)
Definition shortTermSlot (em : EnhancedMemory) (j : Z)
    : option Z * option Z * option Q * option Q * option Z * option Q * option Q :=
  (shortTermIds em !! j, shortTermTypes em !! j,
   shortTermPositionsX em !! j, shortTermPositionsY em !! j,
   shortTermTimestamps em !! j, shortTermImportance em !! j,
   shortTermFidelity em !! j).

(** Successive calls of [recordEpisodicMemory] for one agent. *)
Definition recordAll (agent : Z) (calls : list (Event * Occasion)) (st : State) : State :=
  fold_left (fun st c => fst (recordEpisodicMemory agent (fst c) (snd c) st)) calls st.

Definition emptyComponents : EnhancedMemory :=
  mkEnhancedMemory ∅ ∅ ∅ ∅ ∅ ∅ ∅ ∅ ∅ ∅ ∅ ∅ ∅ ∅ ∅.

(** A manager just constructed, with agent 1 initialised at world time 0
    (clock 1000, so its memory id is 1001). *)
Definition freshState : State :=
  initializeAgentMemory 1 0 1000 (mkState emptyComponents (newMemoryManager CONFIG)).

(** An occasion at world time [t] for a calm agent (emotional state 50). *)
Definition calmAt (t : Z) : Occasion :=
  mkOccasion t (1000 + t) "abc" None None (Some 50) None.

(** A sighting of entity [e], of kind [ty], at [(px, py)]. *)
Definition sighting (e ty : Z) (px py : Q) : Event :=
  mkEvent e ty (mkPosition px py) (Some (6 # 10)).

(** Ten sightings of resources 100..109 by agent 1, at world times 0..9. *)
Definition tenSightings : list (Event * Occasion) :=
  map (fun i => (sighting (100 + Z.of_nat i) 0 1 1, calmAt (Z.of_nat i))) (seq 0 10).

(** The proximity rule in the words of the specification: a record of the
    reference kind has a neighbour when some record of the target kind
    lies within 15 units and within 10 ticks of it. *)
Definition specHasNeighbour (memories : list EpisodicMemory) (targetType : Z)
    (reference : EpisodicMemory) : bool :=
  existsb (fun m =>
             (entityType m =? targetType)%Z
             && (Z.abs (timestamp m - timestamp reference) <? 10)%Z
             && within (position m) (position reference) 15) memories.

(** The confidence of the specification: the fraction of the resource
    records that have an obstacle for neighbour. *)
Definition specProximityConfidence (memories : list EpisodicMemory) : Q :=
  let resources := List.filter (fun m => (entityType m =? 0)%Z) memories in
  ofNat (length (List.filter (specHasNeighbour memories 1) resources))
  / ofNat (length resources).

(** A record of entity [e], of kind [ty], seen at world time [t] at
    [(px, py)]. *)
Definition recordOf (e ty t : Z) (px py : Q) : EpisodicMemory :=
  snd (recordEpisodicMemory 1 (sighting e ty px py) (calmAt t) freshState).

(** Three resources, each one unit away from an obstacle seen at the same
    tick. *)
Definition resourcesByObstacles : list EpisodicMemory :=
  [ recordOf 11 0 1 10 10; recordOf 21 1 1 11 10;
    recordOf 12 0 2 30 10; recordOf 22 1 2 31 10;
    recordOf 13 0 3 50 10; recordOf 23 1 3 51 10 ].

Definition hasPatternOfType (ty : string) (sm : SemanticMemory) : bool :=
  existsb (fun p => bool_decide (type p = ty)) (patterns sm).

(** The trace of the rounds of [retryOperation] that fail and are
    retried, [count] of them from attempt [from] on: the request, the
    warning, and the delay [retryDelay * (attempt + 1)]. *)
Definition failedRounds (url msg : string) (retryDelay : Z) (retries from count : nat)
    : list Effect :=
  flat_map (fun attempt =>
              [ Request url false;
                Warn ("HESMS: Retry " +:+ pretty (S attempt) +:+ "/" +:+ pretty retries
                      +:+ " failed: " +:+ msg);
                Sleep (retryDelay * Z.of_nat (S attempt)) ])
           (seq from count).

Definition episodicUrl (opts : Options) (memId : Z) : string :=
  API_ENDPOINT opts +:+ "/memory/" +:+ pretty memId +:+ "/episodic".

(** A transport that rejects every request. *)
Definition unreachable (msg : string) : nat -> option string := fun _ => Some msg.

(** Agent 1 has recorded one sighting; nothing was requested yet. *)
Definition oneMemoryRun : Run :=
  mkRun (recordAll 1 [(sighting 100 0 1 1, calmAt 0)] freshState) 0 [].

End Scenarios.

(* --------------------------------------------------------------------- *)
(** ** Invariants and runs of knowledge entries                            *)
(* --------------------------------------------------------------------- *)

Module Invariants.
Import CrossReality.
Local Open Scope Q_scope.

(** The counters of an entry are consistent: no more successes than
    applications, and every transfer record has been written by at least
    one application and counts no more successes than applications. *)
Definition consistent (e : KnowledgeEntry) : Prop :=
  (successCount e <= applicationCount e)%nat
  /\ Forall (fun t => (1 <= total t)%nat /\ (success t <= total t)%nat)
            (values (transferSuccess e)).

(** Successive calls of [recordApplication], one per outcome. *)
Definition applyAll (now : Q) (environmentId : option Z) (outcomes : list bool)
    (e : KnowledgeEntry) : KnowledgeEntry :=
  fold_left (fun e ok => recordApplication now ok environmentId e) outcomes e.

Definition successes (outcomes : list bool) : nat :=
  length (List.filter (fun ok => ok) outcomes).

(** The weighted sum of [updateConfidence] for an entry of level [lv],
    from its three factors. *)
Definition weightedConfidence (lv : Level)
    (instanceFactor applicationFactor environmentFactor : Q) : Q :=
  match lv with
  | Low => (6 # 10) * instanceFactor + (3 # 10) * applicationFactor
           + (1 # 10) * environmentFactor
  | Mid => (4 # 10) * instanceFactor + (4 # 10) * applicationFactor
           + (2 # 10) * environmentFactor
  | High => (2 # 10) * instanceFactor + (5 # 10) * applicationFactor
            + (3 # 10) * environmentFactor
  end.

End Invariants.

(* --------------------------------------------------------------------- *)
(** ** Invariants of environment profiles                                  *)
(* --------------------------------------------------------------------- *)

Module Profiles.
Import CrossReality.
Local Open Scope Q_scope.

(** Every feature of the map is non-negative, as counts, densities and
    ratios are. *)
Definition nonNegative (m : list (string * Q)) : Prop :=
  Forall (fun kv => 0 <= snd kv) m.

Definition wellFormed (p : EnvironmentProfile) : Prop :=
  nonNegative (entityDistribution p)
  /\ nonNegative (spatialCharacteristics p)
  /\ nonNegative (stabilityMetrics p).

Definition nonNegativeObservations (o : Observations) : Prop :=
  nonNegative (entityCounts o)
  /\ nonNegative (spatialData o)
  /\ nonNegative (stabilityData o).

End Profiles.

(* --------------------------------------------------------------------- *)
(** ** Learning from experience (ArgOS-Framework-Integration.js)           *)
(* --------------------------------------------------------------------- *)

Module Learning.
Import CrossReality.
Local Open Scope Q_scope.

(** One element of [getRecentExperiences]; [experiencePositionRef] is
    the identity of the position object, which the experience shares with
    the memory it is made from. *)
Record Experience := mkExperience {
  experienceType : Z;
  experienceTimestamp : Z;
  experiencePosition : Hesms.Position;
  experiencePositionRef : nat;
  experienceContext : Hesms.Context;
  experienceOutcome : string
}.

(** [inferOutcome(memory)].  The context of a memory recorded by
    [recordEpisodicMemory] always has a [success] field ([null] or a
    number), so the first test decides. *)
Definition inferOutcome (memory : Hesms.EpisodicMemory) : string :=
  match Hesms.success (Hesms.context memory) with
  | Some q => if Qeq_bool q 0 then "failure" else "success"
  | None => "failure"
  end.

(** [getQuadrant(position)] *)
Definition getQuadrant (position : Hesms.Position) : Z :=
  let quadrantX := if ltb (Hesms.x position) 50 then 0%Z else 1%Z in
  let quadrantY := if ltb (Hesms.y position) 50 then 0%Z else 1%Z in
  (quadrantX + quadrantY * 2)%Z.

Definition extractResourcePattern (experience : Experience) (environmentId : Z)
    : Pattern :=
  mkPattern "resource_location" "Resource distribution pattern" Low
    [mkCondition "quadrant" "equals"
       (Some (VNum (inject_Z (getQuadrant (experiencePosition experience)))))
       None None false false]
    [("resourceProbability", ONum (7 # 10)); ("expectedValue", ONum 1)]
    false (Some environmentId).

Definition extractObstaclePattern (experience : Experience) (environmentId : Z)
    : Pattern :=
  mkPattern "obstacle_properties" "Obstacle characteristics" Low
    [mkCondition "position" "near"
       (Some (VObj (experiencePositionRef experience)
                   (Hesms.x (experiencePosition experience))
                   (Hesms.y (experiencePosition experience))))
       None (Some 15) false false]
    [("pathBlocked", OBool true); ("requiresNavigation", OBool true)]
    false (Some environmentId).

Definition extractHazardPattern (experience : Experience) (environmentId : Z)
    : Pattern :=
  mkPattern "hazard_behavior" "Hazard behavior pattern" Low
    [mkCondition "realityFluxActive" "equals"
       (Some (VBool (Hesms.realityShift (experienceContext experience))))
       None None false false]
    [("dangerLevel", ONum (8 # 10)); ("avoidanceDistance", ONum 20)]
    false (Some environmentId).

Definition extractAgentPattern (experience : Experience) (environmentId : Z)
    : Pattern :=
  mkPattern "agent_interaction" "Agent interaction pattern" Low
    [mkCondition "entityType" "equals" (Some (VNum 3)) None None false false]
    [("cooperationValue", ONum (6 # 10)); ("informationExchange", OBool true)]
    false (Some environmentId).

Definition extractRealityShiftPattern (experience : Experience) (environmentId : Z)
    : Pattern :=
  mkPattern "reality_flux_effect" "Reality flux effect pattern" Low
    [mkCondition "realityFluxActive" "equals" (Some (VBool true)) None None false false]
    [("environmentStability", ONum (3 # 10)); ("patternReliability", ONum (4 # 10));
     ("adaptationRequired", OBool true)]
    false (Some environmentId).

(** [extractKnowledgePatterns(experience, environmentId)] *)
Definition extractKnowledgePatterns (experience : Experience) (environmentId : Z)
    : list Pattern :=
  match experienceType experience with
  | 0%Z => [extractResourcePattern experience environmentId]
  | 1%Z => [extractObstaclePattern experience environmentId]
  | 2%Z => [extractHazardPattern experience environmentId]
  | 3%Z => [extractAgentPattern experience environmentId]
  | _ => []
  end
  ++ (if Hesms.realityShift (experienceContext experience)
      then [extractRealityShiftPattern experience environmentId]
      else []).

Section Update.

(** The identity of the position object of a memory; [newId n], the id
    generated by the [n]-th call of [addLowLevelKnowledge]; the clock. *)
Variable positionRef : Hesms.EpisodicMemory -> nat.
Variable newId : nat -> string.
Variable now : Q.

(** [getRecentExperiences(agent)]; [memory] holds the component stores and
    the memory manager, [worldTime] is [this.world.time]. *)
Definition getRecentExperiences (memory : Hesms.State) (worldTime : Z) (agent : Z)
    : list Experience :=
  let memId := Hesms.readZ (Hesms.memoryId (Hesms.components memory)) agent in
  let memories :=
    default [] (get (Hesms.episodicQueue (Hesms.manager memory)) memId) in
  let recentMemories :=
    List.filter (fun m => gtb (Hesms.importance m) (5 # 10)
                          && (worldTime - Hesms.timestamp m <? 100)%Z) memories in
  map (fun m => mkExperience (Hesms.entityType m) (Hesms.timestamp m)
                             (Hesms.position m) (positionRef m)
                             (Hesms.context m) (inferOutcome m))
      recentMemories.

(** One call of [addLowLevelKnowledge] inside [updateKnowledge]; the state
    is the system and the number of calls so far. *)
Definition learn (agent environmentId : Z) (st : System * nat) (p : Pattern)
    : System * nat :=
  (fst (addLowLevelKnowledge (newId (snd st)) now agent p (Some environmentId) (fst st)),
   S (snd st)).

(** [updateKnowledge(agent, currentTime)] *)
Definition updateKnowledge (memory : Hesms.State) (worldTime : Z) (agent : Z)
    (currentTime : Q) (s : System) (calls : nat) : System * nat :=
  match agentKnowledge s !! agent with
  | None => (s, calls)
  | Some _ =>
      let experiences := getRecentExperiences memory worldTime agent in
      let environmentId := currentEnvironmentId (componentOf s agent) in
      let st :=
        fold_left (fun st experience =>
                     fold_left (learn agent environmentId)
                               (extractKnowledgePatterns experience environmentId) st)
                  experiences (s, calls) in
      (syncKnowledgeToComponent agent (applyKnowledgeDecay agent currentTime (fst st)),
       snd st)
  end.

End Update.

(** The pattern types of the entries of a tier, in order. *)
Definition typesOf (tier : list (string * KnowledgeEntry)) : list string :=
  map (fun ke => ptype (pattern (snd ke))) tier.

(** The pattern was built by [extractKnowledgePatterns]. *)
Definition extracted (p : Pattern) : Prop :=
  exists experience environmentId, p ∈ extractKnowledgePatterns experience environmentId.

(** A tier as [updateKnowledge] builds it: entries under distinct ids,
    with extracted patterns, no two of the same pattern type. *)
Definition learned (tier : list (string * KnowledgeEntry)) : Prop :=
  NoDup (keys tier)
  /\ NoDup (typesOf tier)
  /\ Forall (fun ke => extracted (pattern (snd ke))) tier.

(** The knowledge of [agent] in [s'] is learned and has the mid and high
    tiers of [ak]; the other agents know in [s'] what they know in [s]. *)
Definition taught (agent : Z) (ak : AgentKnowledge) (s s' : System) : Prop :=
  (exists ak', agentKnowledge s' !! agent = Some ak'
               /\ learned (low ak') /\ mid ak' = mid ak /\ high ak' = high ak)
  /\ forall other, other <> agent ->
                   agentKnowledge s' !! other = agentKnowledge s !! other.

End Learning.

(* --------------------------------------------------------------------- *)
(** ** Sample runs of the cross-reality system                             *)
(* --------------------------------------------------------------------- *)

Module Runs.
Import CrossReality Learning.
Local Open Scope Q_scope.

(** Agent 1, initialised and standing in environment 1, knows nothing
    yet. *)
Definition pupil : System :=
  mkSystem []
    {[ 1%Z := mkKnowledge [] [] [] ]}
    {[ 1%Z := mkComponent 1 0 0 0 0 0 0 [] [] [] [] [] [] 0 (5 # 10) (3 # 10) (5 # 10) ]}.

(** The memory of agent 1 after it recorded, at world times 1 to 6, two
    resources, two obstacles, a hazard and another agent. *)
Definition walk : Hesms.State :=
  Scenarios.recordAll 1
    [ (Scenarios.sighting 11 0 10 10, Scenarios.calmAt 1);
      (Scenarios.sighting 21 1 11 10, Scenarios.calmAt 2);
      (Scenarios.sighting 12 0 70 10, Scenarios.calmAt 3);
      (Scenarios.sighting 22 1 71 60, Scenarios.calmAt 4);
      (Scenarios.sighting 31 2 40 40, Scenarios.calmAt 5);
      (Scenarios.sighting 41 3 45 45, Scenarios.calmAt 6) ]
    Scenarios.freshState.

(** Position objects are told apart by the entity they belong to. *)
Definition byEntity (m : Hesms.EpisodicMemory) : nat := Z.to_nat (Hesms.entityId m).

Definition knowledgeId (n : nat) : string := "knowledge-" +:+ pretty n.

(** The system after agent 1 has learned from its walk, at world time 7. *)
Definition schooled : System :=
  fst (updateKnowledge byEntity knowledgeId 7 walk 7 1 7 pupil 0).

End Runs.

(* --------------------------------------------------------------------- *)
(** ** Generalisation to principles (ArgOS-Framework-Integration.js)       *)
(* --------------------------------------------------------------------- *)

Module Principles.
Import CrossReality.
Local Open Scope Q_scope.

(** The key under which [findUniversalConditions] counts a condition. *)
Definition frequencyKey (condition : Condition) : string :=
  property condition +:+ ":" +:+ operator condition.

(** [findUniversalConditions(entries)].  A key holds a colon, so its split
    has the two pieces that the destructuring reads. *)
Definition findUniversalConditions (entries : list KnowledgeEntry) : list Condition :=
  let propertyFrequency :=
    fold_left (fun (frequency : list (string * nat)) condition =>
                 let key := frequencyKey condition in
                 set frequency key (default 0 (get frequency key) + 1)%nat)
              (flat_map (fun entry => conditions (pattern entry)) entries) [] in
  let commonProperties :=
    List.filter (fun kc => geb (ofNat (snd kc)) (ofNat (length entries) * (7 # 10)))
                propertyFrequency in
  map (fun kc =>
         let pieces := Text.splitString Text.colon (fst kc) in
         mkCondition (nth 0 pieces EmptyString) (nth 1 pieces EmptyString)
                     (Some VNull) None None false true)
      commonProperties.

(** The number of conditions of the entries that are counted under
    [key]. *)
Definition occurrences (key : string) (entries : list KnowledgeEntry) : nat :=
  length (List.filter (fun condition => bool_decide (frequencyKey condition = key))
                      (flat_map (fun entry => conditions (pattern entry)) entries)).

Section Generalize.
(** [newId n] is the id generated by the [n]-th call of
    [addMidLevelKnowledge] or [addHighLevelKnowledge]; [now] is the clock. *)
Variable newId : nat -> string.
Variable now : Q.

(** The body of the loop of [generalizeMidToHigh], for one type and its
    entries; the state is the high tier and the number of calls so far,
    [cached] are the ids of the cached environments. *)
Definition promoteType (cached : list Z) (st : list (string * KnowledgeEntry) * nat)
    (group : string * list KnowledgeEntry)
    : list (string * KnowledgeEntry) * nat :=
  let '(ty, entries) := group in
  if (length entries <? 3)%nat then st
  else
    let confidentEntries :=
      List.filter (fun entry => geb (confidence entry) ABSTRACTION_CONFIDENCE_THRESHOLD)
                  entries in
    if (length confidentEntries <? 2)%nat then st
    else
      let visited := dedup (flat_map environmentIds confidentEntries) in
      if (length visited <? 2)%nat then st
      else
        let highLevelPattern :=
          mkPattern ty ("Universal " +:+ ty +:+ " principle") High
                    (findUniversalConditions confidentEntries)
                    (aggregateOutcomes confidentEntries) true None in
        let '(highTier, calls) := st in
        (fst (addHighTier (newId calls) now cached highTier highLevelPattern), S calls).

(** [generalizeMidToHigh(agent, agentKnowledge)] *)
Definition generalizeMidToHigh (cached : list Z) (ak : AgentKnowledge) (calls : nat)
    : AgentKnowledge * nat :=
  if (size (mid ak) <? ABSTRACTION_INSTANCE_THRESHOLD)%nat then (ak, calls)
  else
    let st := fold_left (promoteType cached) (groupByType (mid ak)) (high ak, calls) in
    (mkKnowledge (low ak) (mid ak) (fst st), snd st).

Definition setLastGeneralizationTime (t : Q) (c : Component) : Component :=
  mkComponent (currentEnvironmentId c) (lastEnvironmentId c)
    (environmentTransitionTime c) (environmentSimilarity c)
    (lowLevelCount c) (midLevelCount c) (highLevelCount c)
    (lowLevelConfidence c) (midLevelConfidence c) (highLevelConfidence c)
    (lowLevelLastUsed c) (midLevelLastUsed c) (highLevelLastUsed c)
    t (adaptationRate c) (abstractionLevel c) (knowledgeTransferSuccess c).

Definition setAbstractionLevel (a : Q) (c : Component) : Component :=
  mkComponent (currentEnvironmentId c) (lastEnvironmentId c)
    (environmentTransitionTime c) (environmentSimilarity c)
    (lowLevelCount c) (midLevelCount c) (highLevelCount c)
    (lowLevelConfidence c) (midLevelConfidence c) (highLevelConfidence c)
    (lowLevelLastUsed c) (midLevelLastUsed c) (highLevelLastUsed c)
    (lastGeneralizationTime c) (adaptationRate c) a (knowledgeTransferSuccess c).

(** The level that [updateAbstractionLevel] computes. *)
Definition abstractionOf (ak : AgentKnowledge) : Q :=
  (ofNat (size (mid ak)) * (5 # 10) + ofNat (size (high ak)) * 1)
  / ofNat (size (low ak) + size (mid ak) + size (high ak)).

(** [updateAbstractionLevel(agent, agentKnowledge)] *)
Definition updateAbstractionLevel (agent : Z) (ak : AgentKnowledge) (s : System)
    : System :=
  let totalKnowledge := (size (low ak) + size (mid ak) + size (high ak))%nat in
  if (totalKnowledge =? 0)%nat then s
  else
    mkSystem (environments s) (agentKnowledge s)
             (<[agent := setAbstractionLevel (abstractionOf ak) (componentOf s agent)]>
                (components s)).

(** [generalizeKnowledge(agent, currentTime)] *)
Definition generalizeKnowledge (agent : Z) (currentTime : Q) (s : System) (calls : nat)
    : System * nat :=
  let c := componentOf s agent in
  if ltb (currentTime - lastGeneralizationTime c) GENERALIZATION_INTERVAL then (s, calls)
  else
    let s1 :=
      mkSystem (environments s) (agentKnowledge s)
               (<[agent := setLastGeneralizationTime currentTime c]> (components s)) in
    match agentKnowledge s1 !! agent with
    | None => (s1, calls)
    | Some ak =>
        let r1 := generalizeLowToMid newId now ak calls in
        let r2 := generalizeMidToHigh (keys (environments s1)) (fst r1) (snd r1) in
        let s2 :=
          mkSystem (environments s1) (<[agent := fst r2]> (agentKnowledge s1))
                   (components s1) in
        (updateAbstractionLevel agent (fst r2) (syncKnowledgeToComponent agent s2),
         snd r2)
    end.

End Generalize.

(** The mid tier supports a principle of pattern type [ty]: it holds at
    least 5 entries, at least 3 of them of that type, at least 2 of these
    with confidence at least 0.6, which between them list at least two
    environments. *)
Definition supportsPrinciple (midTier : list (string * KnowledgeEntry)) (ty : string)
    : Prop :=
  (5 <= length midTier)%nat
  /\ exists sameType sources : list KnowledgeEntry,
       sublist sameType (values midTier)
       /\ Forall (fun e => ptype (pattern e) = ty) sameType
       /\ (3 <= length sameType)%nat
       /\ sublist sources sameType
       /\ Forall (fun e => 6 # 10 <= confidence e) sources
       /\ (2 <= length sources)%nat
       /\ exists env1 env2 : Z,
            env1 <> env2
            /\ env1 ∈ flat_map environmentIds sources
            /\ env2 ∈ flat_map environmentIds sources.

End Principles.

(* --------------------------------------------------------------------- *)
(** ** Sample knowledge for the generalisation to principles               *)
(* --------------------------------------------------------------------- *)

Module Scholars.
Import CrossReality Principles.
Local Open Scope Q_scope.

(** A mid-level pattern of type [ty] with one condition on the quadrant. *)
Definition midPattern (ty : string) : Pattern :=
  mkPattern ty ("Generalized " +:+ ty +:+ " pattern") Mid
    [mkCondition "quadrant" "equals" None (Some (Some 0, Some 3)) None true false]
    [("resourceProbability", ONum (7 # 10))] false None.

(** Five mid-level entries: three of type [resource_location], learned in
    environments 1, 2 and 3 and of confidence 0.7, and two of other
    types. *)
Definition midTier : list (string * KnowledgeEntry) :=
  map (fun i =>
         let newId := "knowledge-mid-" +:+ pretty i in
         (newId,
          setConfidence (7 # 10)
            (newKnowledgeEntry newId 0
               (midPattern (if (i <? 3)%nat then "resource_location"
                            else "kind_" +:+ pretty i))
               Mid (Some (Z.of_nat (S i))))))
      (seq 0 5).

Definition scholar : AgentKnowledge := mkKnowledge [] midTier [].

End Scholars.

(* --------------------------------------------------------------------- *)
(** ** Decisions from knowledge (ArgOS-Framework-Integration.js)           *)
(* --------------------------------------------------------------------- *)

Module Decisions.
Import CrossReality Learning.
Local Open Scope Q_scope.

(** The [Goals] component of one agent; a target coordinate is [None]
    when it is [NaN]. *)
Record Goals := mkGoals {
  primaryType : Z;
  targetEntity : Z;
  targetX : option Q;
  targetY : option Q;
  priority : Q;
  completionPercentage : Q
}.

Definition zeroGoals : Goals := mkGoals 0 0 (Some 0) (Some 0) 0 0.

(** What the decision step reads of the other components, and the
    [Goals] it writes. *)
Record World := mkWorld {
  positionOf : Z -> Hesms.Position;      (* [Position.x[e]], [Position.y[e]] *)
  effectTypeOf : Z -> option Z;          (* [RealityFlux[agent]?.effectType] *)
  emotionalStateOf : Z -> Q;             (* [CognitiveState.emotionalState[agent]] *)
  adaptabilityOf : Z -> Q;               (* [CognitiveState.adaptability[agent]] *)
  entitiesDetected : Z -> Z;             (* [SensoryData.entitiesDetected[i]] *)
  entitiesDistance : Z -> Q;             (* [SensoryData.entitiesDistance[i]] *)
  isEnvironmental : Z -> bool;           (* [Environmental[e]] is truthy *)
  environmentalType : Z -> Z;            (* [Environmental.type[e]] *)
  isSensing : Z -> bool;                 (* [SensoryData[e]] is truthy *)
  goals : gmap Z Goals
}.

Definition goalsOf (w : World) (agent : Z) : Goals :=
  default zeroGoals (goals w !! agent).

Definition setGoals (agent : Z) (g : Goals) (w : World) : World :=
  mkWorld (positionOf w) (effectTypeOf w) (emotionalStateOf w) (adaptabilityOf w)
          (entitiesDetected w) (entitiesDistance w) (isEnvironmental w)
          (environmentalType w) (isSensing w) (<[agent := g]> (goals w)).

(** The object built by [getDecisionContext]. *)
Record DecisionContext := mkDecisionContext {
  contextPosition : Hesms.Position;
  quadrant : Z;
  goalType : Z;
  emotionalState : Q;
  adaptability : Q;
  realityFluxActive : bool;
  environmentId : Z;
  detectedEntities : list Z
}.

(** [getDetectedEntityTypes(agent)] *)
Definition getDetectedEntityTypes (w : World) (agent : Z) : list Z :=
  flat_map (fun i =>
              let entityId := entitiesDetected w (agent * 10 + Z.of_nat i)%Z in
              if (entityId =? 0)%Z then []
              else if isEnvironmental w entityId then [environmentalType w entityId]
              else if isSensing w entityId then [3%Z]
              else [])
           (seq 0 10).

(** [getDecisionContext(agent)] *)
Definition getDecisionContext (w : World) (s : System) (agent : Z) : DecisionContext :=
  mkDecisionContext
    (positionOf w agent)
    (getQuadrant (positionOf w agent))
    (primaryType (goalsOf w agent))
    (emotionalStateOf w agent)
    (adaptabilityOf w agent)
    (match effectTypeOf w agent with Some e => (0 <? e)%Z | None => false end)
    (currentEnvironmentId (componentOf s agent))
    (getDetectedEntityTypes w agent).

(** The value of a property of the context: a number, a boolean, the
    position object or the array of detected types. *)
Inductive ContextValue :=
| CNum (q : Q)
| CBool (b : bool)
| CPosition (position : Hesms.Position)
| CTypes (types : list Z).

(** [context[property]]; [None] is [undefined].  Only the properties of
    the context itself are modelled, not those that every object inherits
    ([constructor], [toString], ...). *)
Definition contextProperty (context : DecisionContext) (name : string)
    : option ContextValue :=
  if bool_decide (name = "position") then Some (CPosition (contextPosition context))
  else if bool_decide (name = "quadrant") then Some (CNum (inject_Z (quadrant context)))
  else if bool_decide (name = "goalType") then Some (CNum (inject_Z (goalType context)))
  else if bool_decide (name = "emotionalState") then Some (CNum (emotionalState context))
  else if bool_decide (name = "adaptability") then Some (CNum (adaptability context))
  else if bool_decide (name = "realityFluxActive")
       then Some (CBool (realityFluxActive context))
  else if bool_decide (name = "environmentId")
       then Some (CNum (inject_Z (environmentId context)))
  else if bool_decide (name = "detectedEntities")
       then Some (CTypes (detectedEntities context))
  else None.

(** [value === condition.value]; the objects of the context are new ones,
    identical to no value of a condition. *)
Definition strictEquals (v : ContextValue) (cv : option Value) : bool :=
  match v, cv with
  | CNum a, Some (VNum b) => Qeq_bool a b
  | CBool a, Some (VBool b) => Bool.eqb a b
  | _, _ => false
  end.

(** The operands of [>] and [<] as numbers; [None] is [NaN].  An array is
    first turned into the string of its elements joined by commas, an
    object into ["[object Object]"]. *)
Definition contextNumber (v : ContextValue) : option Q :=
  match v with
  | CNum q => Some q
  | CBool b => Some (if b then 1 else 0)
  | CPosition _ => None
  | CTypes [] => Some 0
  | CTypes [n] => Some (inject_Z n)
  | CTypes _ => None
  end.

Definition conditionNumber (cv : option Value) : option Q :=
  match cv with
  | Some v => toNumber v
  | None => None
  end.

(** [value > condition.value] and [value < condition.value].  When both
    operands are objects their strings are compared: the two position
    objects have the same string, and the string of an array of numbers
    (empty, or starting with a digit or a minus sign) sorts before
    ["[object Object]"]. *)
Definition greaterThan (v : ContextValue) (cv : option Value) : bool :=
  match v, cv with
  | CPosition _, Some (VObj _ _ _) => false
  | CTypes _, Some (VObj _ _ _) => false
  | _, _ =>
      match contextNumber v, conditionNumber cv with
      | Some a, Some b => gtb a b
      | _, _ => false
      end
  end.

Definition lessThan (v : ContextValue) (cv : option Value) : bool :=
  match v, cv with
  | CPosition _, Some (VObj _ _ _) => false
  | CTypes _, Some (VObj _ _ _) => true
  | _, _ =>
      match contextNumber v, conditionNumber cv with
      | Some a, Some b => ltb a b
      | _, _ => false
      end
  end.

(** [checkCondition(condition, context)] *)
Definition checkCondition (condition : Condition) (context : DecisionContext)
    : completion bool :=
  if bool_decide (property condition = "") then Normal false
  else
    match contextProperty context (property condition) with
    | None => Normal false
    | Some v =>
        if bool_decide (operator condition = "equals")
        then Normal (strictEquals v (value condition))
        else if bool_decide (operator condition = "notEquals")
        then Normal (negb (strictEquals v (value condition)))
        else if bool_decide (operator condition = "greaterThan")
        then Normal (greaterThan v (value condition))
        else if bool_decide (operator condition = "lessThan")
        then Normal (lessThan v (value condition))
        else if bool_decide (operator condition = "contains")
        then Normal (match v, value condition with
                     | CTypes types, Some (VNum q) =>
                         existsb (fun n => Qeq_bool (inject_Z n) q) types
                     | _, _ => false
                     end)
        else if bool_decide (operator condition = "near")
        then match v with
             | CPosition position =>
                 match value condition with
                 | None =>
                     Throw (TypeError "Cannot read properties of undefined (reading 'x')")
                 | Some VNull =>
                     Throw (TypeError "Cannot read properties of null (reading 'x')")
                 | Some (VObj _ cx cy) =>
                     let dx := cx - Hesms.x position in
                     let dy := cy - Hesms.y position in
                     let limit :=
                       match threshold condition with
                       | Some t => if Qeq_bool t 0 then 10 else t
                       | None => 10
                       end in
                     Normal (leb 0 limit && leb (dx * dx + dy * dy) (limit * limit))
                 | Some _ => Normal false
                 end
             | _ => Normal false
             end
        else Normal false
    end.

(** The loop of [calculateMatchConfidence]: the number of conditions that
    match. *)
Fixpoint countMatches (conditions : list Condition) (context : DecisionContext)
    : completion nat :=
  match conditions with
  | [] => Normal 0%nat
  | condition :: rest =>
      match checkCondition condition context with
      | Throw e => Throw e
      | Normal b =>
          match countMatches rest context with
          | Throw e => Throw e
          | Normal n => Normal (if b then S n else n)
          end
      end
  end.

(** [calculateMatchConfidence(context)] *)
Definition calculateMatchConfidence (context : DecisionContext) (e : KnowledgeEntry)
    : completion Q :=
  match countMatches (conditions (pattern e)) context with
  | Throw err => Throw err
  | Normal conditionMatches =>
      let totalConditions := length (conditions (pattern e)) in
      if (0 <? totalConditions)%nat
      then Normal (confidence e * (ofNat conditionMatches / ofNat totalConditions))
      else Normal (confidence e)
  end.

(** The loop of [findApplicableKnowledge]: the matches, each an entry
    (with its key in the map) and its match confidence. *)
Fixpoint collectMatches (tier : list (string * KnowledgeEntry)) (context : DecisionContext)
    : completion (list (string * KnowledgeEntry * Q)) :=
  match tier with
  | [] => Normal []
  | (k, entry) :: rest =>
      if ltb (confidence entry) MINIMUM_KNOWLEDGE_CONFIDENCE
      then collectMatches rest context
      else if negb (isApplicableInEnvironment (environmentId context) entry)
      then collectMatches rest context
      else
        match calculateMatchConfidence context entry with
        | Throw err => Throw err
        | Normal matchConfidence =>
            match collectMatches rest context with
            | Throw err => Throw err
            | Normal matches =>
                Normal (if geb matchConfidence VALIDATION_THRESHOLD
                        then (k, entry, matchConfidence) :: matches
                        else matches)
            end
        end
  end.

(** [findApplicableKnowledge(knowledgeMap, context)] *)
Definition findApplicableKnowledge (tier : list (string * KnowledgeEntry))
    (context : DecisionContext) : completion (list (string * KnowledgeEntry)) :=
  match collectMatches tier context with
  | Throw err => Throw err
  | Normal matches =>
      Normal (map fst (sort (fun a b => snd b - snd a) matches))
  end.

(** The search of [applyKnowledgeToDecisions]: the entry applied and its
    level; the high tier is tried first, then the mid tier, then the low
    tier. *)
Definition selectKnowledge (ak : AgentKnowledge) (context : DecisionContext)
    : completion (option (string * KnowledgeEntry * Level)) :=
  match findApplicableKnowledge (high ak) context with
  | Throw err => Throw err
  | Normal ((k, e) :: _) => Normal (Some (k, e, High))
  | Normal [] =>
      match findApplicableKnowledge (mid ak) context with
      | Throw err => Throw err
      | Normal ((k, e) :: _) => Normal (Some (k, e, Mid))
      | Normal [] =>
          match findApplicableKnowledge (low ak) context with
          | Throw err => Throw err
          | Normal ((k, e) :: _) => Normal (Some (k, e, Low))
          | Normal [] => Normal None
          end
      end
  end.

(** *** The decision and its application *)

Record Parameters := mkParameters {
  pathfinding : bool;
  detourDistance : option Q;
  dangerLevel : option OutcomeValue;
  avoidanceDistance : option OutcomeValue;
  cooperate : option bool;
  conservativeMovement : bool;
  reduceGoalDistance : bool
}.

Definition noParameters : Parameters :=
  mkParameters false None None None None false false.

(** A target is [{x, y}]; a coordinate is [None] when it is [NaN]. *)
Record Decision := mkDecision {
  decisionType : string;
  target : option (option Q * option Q);
  decisionPriority : Q;
  parameters : Parameters
}.

(** [v || d] on a property of an outcome: [undefined], [0] and [false]
    are falsy. *)
Definition orDefault (v : option OutcomeValue) (d : Q) : OutcomeValue :=
  match v with
  | Some (ONum q) => if Qeq_bool q 0 then ONum d else ONum q
  | Some (OBool true) => OBool true
  | _ => ONum d
  end.

Definition truthy (v : option OutcomeValue) : bool :=
  match v with
  | Some (ONum q) => negb (Qeq_bool q 0)
  | Some (OBool b) => b
  | None => false
  end.

(** [a % b] on numbers, for [b] other than 0: the remainder has the sign
    of the dividend. *)
Definition remainder (a b : Q) : Q :=
  a - b * inject_Z (Z.quot (Qnum (a / b)) (QDen (a / b))).

(** The target that [makeDecisionFromKnowledge] computes from the value
    of the condition on the quadrant. *)
Definition quadrantTarget (v : option Value) : option Q * option Q :=
  match conditionNumber v with
  | Some targetQuadrant =>
      (Some (remainder targetQuadrant 2 * 50 + 25),
       Some (inject_Z (Qfloor (targetQuadrant / 2)) * 50 + 25))
  | None => (None, None)
  end.

(** [makeDecisionFromKnowledge(agent, knowledge, context)] *)
Definition makeDecisionFromKnowledge (knowledge : KnowledgeEntry)
    (context : DecisionContext) : Decision :=
  let p := pattern knowledge in
  let out := outcome p in
  if bool_decide (ptype p = "resource_location") then
    mkDecision "seek_resource"
      (match find (fun c => bool_decide (property c = "quadrant")) (conditions p) with
       | Some quadrantCondition =>
           match value quadrantCondition with
           | Some VNull => None
           | v => Some (quadrantTarget v)
           end
       | None => None
       end)
      60 noParameters
  else if bool_decide (ptype p = "obstacle_properties") then
    mkDecision "navigate_obstacle" None 55
      (if truthy (get out "requiresNavigation")
       then mkParameters true (Some 10) None None None false false
       else noParameters)
  else if bool_decide (ptype p = "hazard_behavior") then
    mkDecision "avoid_hazard" None
      (if existsb (Z.eqb 2) (detectedEntities context) then 85 else 75)
      (mkParameters false None
         (Some (orDefault (get out "dangerLevel") (5 # 10)))
         (Some (orDefault (get out "avoidanceDistance") 15))
         None false false)
  else if bool_decide (ptype p = "agent_interaction") then
    mkDecision "interact_agent" None 40
      (mkParameters false None None None
         (Some (gtb (outcomeNumber (orDefault (get out "cooperationValue") (5 # 10)))
                    (5 # 10)))
         false false)
  else if bool_decide (ptype p = "reality_flux_effect") then
    mkDecision "adapt_flux" None 80
      (mkParameters false None None None None true true)
  else
    match goalType context with
    | 1%Z => mkDecision "gather_resource" None 50 noParameters
    | 2%Z => mkDecision "avoid_hazard" None 70 noParameters
    | 3%Z => mkDecision "approach_agent" None 45 noParameters
    | _ => mkDecision "default" None 50 noParameters
    end.

(** [findClosestEntityOfType(agent, entityType)]; [None] is [null]. *)
Definition findClosestEntityOfType (w : World) (agent entityType : Z) : option Z :=
  fst (fold_left
         (fun (acc : option Z * option Q) i =>
            let entityId := entitiesDetected w (agent * 10 + Z.of_nat i)%Z in
            if (entityId =? 0)%Z then acc
            else
              let type :=
                if isEnvironmental w entityId then environmentalType w entityId
                else if isSensing w entityId && (entityType =? 3)%Z then 3%Z
                else (-1)%Z in
              if (type =? entityType)%Z then
                let distance := entitiesDistance w (agent * 10 + Z.of_nat i)%Z in
                match snd acc with
                | Some closestDistance =>
                    if ltb distance closestDistance
                    then (Some entityId, Some distance) else acc
                | None => (Some entityId, Some distance)
                end
              else acc)
         (seq 0 10) (None, None)).

(** [evaluateDecisionSuccess(agent, decision)] *)
Definition evaluateDecisionSuccess (w : World) (agent : Z) : bool :=
  gtb (completionPercentage (goalsOf w agent)) 50.

Definition setLastUsed (t : Q) (e : KnowledgeEntry) : KnowledgeEntry :=
  mkEntry (entryId e) (pattern e) (level e) (confidence e) (instances e)
          (environmentIds e) (created e) (lastConfirmed e) t
          (applicationCount e) (successCount e) (transferSuccess e).

Definition tierOf (lv : Level) (ak : AgentKnowledge) : list (string * KnowledgeEntry) :=
  match lv with Low => low ak | Mid => mid ak | High => high ak end.

Definition setTier (lv : Level) (tier : list (string * KnowledgeEntry))
    (ak : AgentKnowledge) : AgentKnowledge :=
  match lv with
  | Low => mkKnowledge tier (mid ak) (high ak)
  | Mid => mkKnowledge (low ak) tier (high ak)
  | High => mkKnowledge (low ak) (mid ak) tier
  end.

Definition capacityOf (lv : Level) : nat :=
  match lv with
  | Low => LOW_LEVEL_CAPACITY
  | Mid => MID_LEVEL_CAPACITY
  | High => HIGH_LEVEL_CAPACITY
  end.

(** [values.findIndex(k => k.id === knowledge.id)]; [None] is [-1]. *)
Fixpoint findIndex (newId : string) (entries : list KnowledgeEntry) : option nat :=
  match entries with
  | [] => None
  | e :: rest =>
      if bool_decide (entryId e = newId) then Some 0%nat
      else option_map S (findIndex newId rest)
  end.

(** The component part of [updateKnowledgeUsage]: the cell of the entry
    in the mirror of its tier. *)
Definition markUsed (lv : Level) (index : nat) (t : Q) (c : Component) : Component :=
  mkComponent (currentEnvironmentId c) (lastEnvironmentId c)
    (environmentTransitionTime c) (environmentSimilarity c)
    (lowLevelCount c) (midLevelCount c) (highLevelCount c)
    (lowLevelConfidence c) (midLevelConfidence c) (highLevelConfidence c)
    (match lv with Low => <[index := t]> (lowLevelLastUsed c) | _ => lowLevelLastUsed c end)
    (match lv with Mid => <[index := t]> (midLevelLastUsed c) | _ => midLevelLastUsed c end)
    (match lv with High => <[index := t]> (highLevelLastUsed c) | _ => highLevelLastUsed c end)
    (lastGeneralizationTime c) (adaptationRate c) (abstractionLevel c)
    (knowledgeTransferSuccess c).

Definition setKnowledgeTransferSuccess (r : Q) (c : Component) : Component :=
  mkComponent (currentEnvironmentId c) (lastEnvironmentId c)
    (environmentTransitionTime c) (environmentSimilarity c)
    (lowLevelCount c) (midLevelCount c) (highLevelCount c)
    (lowLevelConfidence c) (midLevelConfidence c) (highLevelConfidence c)
    (lowLevelLastUsed c) (midLevelLastUsed c) (highLevelLastUsed c)
    (lastGeneralizationTime c) (adaptationRate c) (abstractionLevel c) r.

Section Apply.

(** [Math.sqrt], and the clock. *)
Variable sqrt : Q -> Q.
Variable now : Q.

(** The goals written for a decision that moves the agent relative to
    another entity at [entityPosition]: away from it by [distance] when
    [fromAgent], to a point [distance] from it otherwise. *)
Definition relativeTarget (agentPosition entityPosition : Hesms.Position)
    (distance : Q) (fromAgent : bool) (g : Goals) : Goals :=
  let dx := Hesms.x agentPosition - Hesms.x entityPosition in
  let dy := Hesms.y agentPosition - Hesms.y entityPosition in
  let length := sqrt (dx * dx + dy * dy) in
  if gtb length 0 then
    let origin := if fromAgent then agentPosition else entityPosition in
    mkGoals (primaryType g) (targetEntity g)
            (Some (Hesms.x origin + dx / length * distance))
            (Some (Hesms.y origin + dy / length * distance))
            (priority g) (completionPercentage g)
  else g.

Definition setPrimaryType (t : Z) (g : Goals) : Goals :=
  mkGoals t (targetEntity g) (targetX g) (targetY g) (priority g)
          (completionPercentage g).

Definition setPriority (p : Q) (g : Goals) : Goals :=
  mkGoals (primaryType g) (targetEntity g) (targetX g) (targetY g) p
          (completionPercentage g).

(** [applyDecisionToAgent(agent, decision, appliedKnowledge)]: the goals
    of the agent afterwards. *)
Definition applyDecisionToAgent (w : World) (agent : Z) (decision : Decision) : Goals :=
  let g := goalsOf w agent in
  let agentPosition := positionOf w agent in
  if bool_decide (decisionType decision = "seek_resource") then
    let g1 := setPrimaryType 1 g in
    let g2 :=
      match target decision with
      | Some (tx, ty) =>
          mkGoals (primaryType g1) (targetEntity g1) tx ty (priority g1)
                  (completionPercentage g1)
      | None => g1
      end in
    setPriority (decisionPriority decision) g2
  else if bool_decide (decisionType decision = "navigate_obstacle") then
    let g1 := setPrimaryType 0 g in
    let g2 :=
      match findClosestEntityOfType w agent 1 with
      | Some obstacleEntity =>
          relativeTarget agentPosition (positionOf w obstacleEntity)
            (match detourDistance (parameters decision) with
             | Some d => if Qeq_bool d 0 then 10 else d
             | None => 10
             end) false g1
      | None => g1
      end in
    setPriority (decisionPriority decision) g2
  else if bool_decide (decisionType decision = "avoid_hazard") then
    let g1 := setPrimaryType 2 g in
    let g2 :=
      match findClosestEntityOfType w agent 2 with
      | Some hazardEntity =>
          relativeTarget agentPosition (positionOf w hazardEntity)
            (outcomeNumber (orDefault (avoidanceDistance (parameters decision)) 15))
            true g1
      | None => g1
      end in
    setPriority (decisionPriority decision) g2
  else if bool_decide (decisionType decision = "interact_agent") then
    let g1 := setPrimaryType 3 g in
    let g2 :=
      match findClosestEntityOfType w agent 3 with
      | Some targetAgent =>
          mkGoals (primaryType g1) targetAgent
                  (Some (Hesms.x (positionOf w targetAgent)))
                  (Some (Hesms.y (positionOf w targetAgent)))
                  (priority g1) (completionPercentage g1)
      | None => g1
      end in
    setPriority (decisionPriority decision) g2
  else if bool_decide (decisionType decision = "adapt_flux") then
    let g1 :=
      if reduceGoalDistance (parameters decision) then
        match targetX g, targetY g with
        | Some currentX, Some currentY =>
            let dx := currentX - Hesms.x agentPosition in
            let dy := currentY - Hesms.y agentPosition in
            let length := sqrt (dx * dx + dy * dy) in
            if gtb length 10 then
              mkGoals (primaryType g) (targetEntity g)
                      (Some (Hesms.x agentPosition + dx / length * 10))
                      (Some (Hesms.y agentPosition + dy / length * 10))
                      (priority g) (completionPercentage g)
            else g
        | _, _ => g
        end
      else g in
    setPriority (Qmax (priority g1) (decisionPriority decision)) g1
  else g.

(** [applyKnowledgeToDecisions(agent, currentTime)] *)
Definition applyKnowledgeToDecisions (agent : Z) (currentTime : Q)
    (st : System * World) : completion (System * World) :=
  let '(s, w) := st in
  match agentKnowledge s !! agent with
  | None => Normal st
  | Some ak =>
      let context := getDecisionContext w s agent in
      match selectKnowledge ak context with
      | Throw err => Throw err
      | Normal None => Normal st
      | Normal (Some (k, appliedKnowledge, appliedLevel)) =>
          let decision := makeDecisionFromKnowledge appliedKnowledge context in
          let w' := setGoals agent (applyDecisionToAgent w agent decision) w in
          let environmentId := currentEnvironmentId (componentOf s agent) in
          let success := evaluateDecisionSuccess w' agent in
          let used :=
            setLastUsed currentTime
              (recordApplication now success (Some environmentId) appliedKnowledge) in
          let tier := set (tierOf appliedLevel ak) k used in
          let c := componentOf s agent in
          let c1 :=
            match appliedLevel with
            | Low => c
            | _ =>
                setKnowledgeTransferSuccess
                  (knowledgeTransferSuccess c * (9 # 10)
                   + (if success then 1 # 10 else 0)) c
            end in
          let c2 :=
            match findIndex (entryId used) (values tier) with
            | Some index =>
                if (index <? capacityOf appliedLevel)%nat
                then markUsed appliedLevel index currentTime c1 else c1
            | None => c1
            end in
          Normal (mkSystem (environments s)
                           (<[agent := setTier appliedLevel tier ak]> (agentKnowledge s))
                           (<[agent := c2]> (components s)),
                  w')
      end
  end.

End Apply.

End Decisions.

(* --------------------------------------------------------------------- *)
(** ** Orders and samples for the decisions                                *)
(* --------------------------------------------------------------------- *)

Module Ranking.
Import CrossReality Learning Decisions.
Local Open Scope Q_scope.

(** The list is in decreasing order of [f]: no element is ranked higher
    than one before it. *)
Fixpoint descending {A : Type} (f : A -> Q) (l : list A) : Prop :=
  match l with
  | [] => True
  | a :: l' => Forall (fun b => f b <= f a) l' /\ descending f l'
  end.

(** The match confidence of an entry in a context, 0 when the
    computation throws. *)
Definition matchConfidenceOf (context : DecisionContext) (e : KnowledgeEntry) : Q :=
  match calculateMatchConfidence context e with
  | Normal m => m
  | Throw _ => 0
  end.

(** The five kinds of pattern that [extractKnowledgePatterns] builds. *)
Inductive Kind := Resource | Obstacle | Hazard | Agent | Shift.

Definition extractPattern (kind : Kind) (experience : Experience) (environmentId : Z)
    : Pattern :=
  match kind with
  | Resource => extractResourcePattern experience environmentId
  | Obstacle => extractObstaclePattern experience environmentId
  | Hazard => extractHazardPattern experience environmentId
  | Agent => extractAgentPattern experience environmentId
  | Shift => extractRealityShiftPattern experience environmentId
  end.

(** What the condition of a pattern of each kind asks of the context: the
    quadrant of the experience, a position within 15 units of the obstacle,
    the same state of the reality flux as in the experience, a property
    [entityType] (that no context has), an active reality flux. *)
Definition holdsIn (kind : Kind) (experience : Experience) (context : DecisionContext)
    : bool :=
  match kind with
  | Resource => (quadrant context =? getQuadrant (experiencePosition experience))%Z
  | Obstacle =>
      let dx := Hesms.x (experiencePosition experience)
                - Hesms.x (contextPosition context) in
      let dy := Hesms.y (experiencePosition experience)
                - Hesms.y (contextPosition context) in
      leb (dx * dx + dy * dy) (15 * 15)
  | Hazard =>
      Bool.eqb (realityFluxActive context)
               (Hesms.realityShift (experienceContext experience))
  | Agent => false
  | Shift => realityFluxActive context
  end.

(** A resource met at (10, 10) by a calm agent, and the low tier of an
    agent that has met it six times in environment 1: one entry with five
    instances. *)
Definition spring : Experience :=
  mkExperience 0 1 (Hesms.mkPosition 10 10) 0
               (Hesms.mkContext None None (Some 50) false) "failure".

Definition trail : list (string * KnowledgeEntry) :=
  fold_left (fun tier i =>
               fst (addLowTier ("knowledge-" +:+ pretty i) 0 tier
                               (extractResourcePattern spring 1) (Some 1%Z)))
            (seq 0 6) [].

Definition guide : System :=
  mkSystem []
    {[ 1%Z := mkKnowledge trail [] [] ]}
    {[ 1%Z := mkComponent 1 0 0 0 0 0 0 [] [] [] [] [] [] 0 (5 # 10) (3 # 10) (5 # 10) ]}.

(** A world in which agent 1 stands at (20, 30) and senses nothing. *)
Definition meadow : World :=
  mkWorld (fun _ => Hesms.mkPosition 20 30) (fun _ => None) (fun _ => 50) (fun _ => 50)
          (fun _ => 0%Z) (fun _ => 0) (fun _ => false) (fun _ => 0%Z) (fun _ => false) ∅.

End Ranking.

(* --------------------------------------------------------------------- *)
(** ** The cross-reality system (ArgOS-Framework-Integration.js)           *)
(* --------------------------------------------------------------------- *)

Module Cycle.
Import CrossReality Learning Principles Decisions.
Local Open Scope Q_scope.

(** [initializeAgentCrossRealityKnowledge(agent)]; [worldTime] is
    [this.world.time].  (The guard [if (CrossRealityKnowledge[agent]) return]
    reads a numeric property of the component object, which has none.) *)
Definition initializeAgentCrossRealityKnowledge (worldTime : Q) (agent : Z) (s : System)
    : System :=
  mkSystem (environments s)
    (<[agent := mkKnowledge [] [] []]> (agentKnowledge s))
    (<[agent :=
         mkComponent 0 0 0 1 0 0 0
           (replicate LOW_LEVEL_CAPACITY 0) (replicate MID_LEVEL_CAPACITY 0)
           (replicate HIGH_LEVEL_CAPACITY 0)
           (replicate LOW_LEVEL_CAPACITY 0) (replicate MID_LEVEL_CAPACITY 0)
           (replicate HIGH_LEVEL_CAPACITY 0)
           worldTime (5 # 10) (3 # 10) (5 # 10)]>
       (components s)).

Section Process.

(** [Math.sqrt]; the identity of the position object of a memory; the id
    generated by the [n]-th construction of a knowledge entry; the clock. *)
Variable sqrt : Q -> Q.
Variable positionRef : Hesms.EpisodicMemory -> nat.
Variable newId : nat -> string.
Variable now : Q.

(** The body of the loop of the system built by [createSystem], for one
    agent: what the agent is seen to be in ([view], [o]), the memory
    manager, the world, the system and the number of entries constructed
    so far. *)
Definition processAgent (memory : Hesms.State) (view : AgentView) (o : Observations)
    (worldTime : Z) (agent : Z) (currentTime : Q) (st : System * World * nat)
    : completion (System * World * nat) :=
  let '(s, w, calls) := st in
  let s1 := updateEnvironment now view o agent currentTime s in
  let r2 := updateKnowledge positionRef newId now memory worldTime agent currentTime
                            s1 calls in
  let r3 := generalizeKnowledge newId now agent currentTime (fst r2) (snd r2) in
  match applyKnowledgeToDecisions sqrt now agent currentTime (fst r3, w) with
  | Throw err => Throw err
  | Normal (s4, w') => Normal (s4, w', snd r3)
  end.

(** What happens to the system: an agent is initialised, or an agent is
    processed in the world as the other systems have left it. *)
Inductive Event :=
| Initialize (worldTime : Q) (agent : Z)
| Process (memory : Hesms.State) (view : AgentView) (o : Observations) (w : World)
          (worldTime : Z) (agent : Z) (currentTime : Q).

Definition runEvent (event : Event) (st : System * nat) : completion (System * nat) :=
  match event with
  | Initialize worldTime agent =>
      Normal (initializeAgentCrossRealityKnowledge worldTime agent (fst st), snd st)
  | Process memory view o w worldTime agent currentTime =>
      match processAgent memory view o worldTime agent currentTime (fst st, w, snd st) with
      | Throw err => Throw err
      | Normal (s', _, calls') => Normal (s', calls')
      end
  end.

(** A run of the system from [st]; it ends with the first exception. *)
Definition run (events : list Event) (st : System * nat) : completion (System * nat) :=
  fold_left (fun acc event =>
               match acc with
               | Normal st => runEvent event st
               | Throw err => Throw err
               end)
            events (Normal st).

End Process.

(** A [CrossRealitySystem] just constructed. *)
Definition newSystem : System := mkSystem [] ∅ ∅.

(** Every agent knows low-level knowledge only, as [updateKnowledge]
    builds it. *)
Definition lowLevelOnly (s : System) : Prop :=
  forall agent ak,
    agentKnowledge s !! agent = Some ak ->
    learned (low ak) /\ mid ak = [] /\ high ak = [].

End Cycle.

(* --------------------------------------------------------------------- *)
(** ** Predicates on the stores of the memory manager                      *)
(* --------------------------------------------------------------------- *)

Module Stores.
Import Hesms.
Local Open Scope Q_scope.

(** The memory is held in some cell of the index. *)
Definition indexedIn (ix : SpatialIndex) (m : EpisodicMemory) : Prop :=
  exists key l, grid ix !! key = Some l /\ m ∈ l.

(** Every memory of the index is held in the cell of its position, as
    [addMemory] files it. *)
Definition filed (ix : SpatialIndex) : Prop :=
  forall key l m,
    grid ix !! key = Some l -> m ∈ l ->
    key = (cellOf (cellSize ix) (x (position m)), cellOf (cellSize ix) (y (position m))).

(** The squared distance of the memory from a point. *)
Definition squaredDistance (m : EpisodicMemory) (px py : Q) : Q :=
  (x (position m) - px) * (x (position m) - px)
  + (y (position m) - py) * (y (position m) - py).

End Stores.

(* --------------------------------------------------------------------- *)
(** ** Transports and traces of the cloud synchronisation                  *)
(* --------------------------------------------------------------------- *)

Module Sync.
Import Hesms.
Local Open Scope Q_scope.

(** A transport that accepts every request. *)
Definition reliable : nat -> option string := fun _ => None.

(** A transport that rejects the requests number [from] to
    [from + count - 1] with [msg], and accepts the others. *)
Definition flaky (msg : string) (from count : nat) : nat -> option string :=
  fun n => if (from <=? n)%nat && (n <? from + count)%nat then Some msg else None.

(** The trace of a batch that is accepted. *)
Definition accepted (opts : Options) (memId : Z) (batch : list EpisodicMemory)
    : list Effect :=
  [ Request (API_ENDPOINT opts +:+ "/memory/" +:+ pretty memId +:+ "/episodic") true;
    Info ("HESMS: Synced " +:+ pretty (length batch) +:+ " memories for ID "
          +:+ pretty memId) ].

(** The batches that [syncEpisodicMemories] makes of the queue of
    [memId] (none when the slicing does not end). *)
Definition batchesFor (mm : MemoryManager) (memId : Z) : list (list EpisodicMemory) :=
  let memories :=
    sort (fun a b => importance b - importance a)
         (default [] (get (episodicQueue mm) memId)) in
  default [] (batchesOf (BATCH_SIZE (options mm)) memories).


(** The run [r] of a manager built with the option [MAX_RETRIES: n]. *)
Definition withMaxRetries (n : nat) (r : Run) : Run :=
  let mm := manager (state r) in
  let o := options mm in
  mkRun (mkState (components (state r))
                 (mkMemoryManager
                    (mkOptions (API_ENDPOINT o) (MEMORY_SYNC_INTERVAL o)
                               (SEMANTIC_UPDATE_INTERVAL o) (MAX_EPISODIC_MEMORY_AGE o)
                               (MEMORY_DECAY_RATE o) (PATTERN_CONFIDENCE_THRESHOLD o)
                               (ENABLE_CLOUD_SYNC o) (BATCH_SIZE o) (RETRY_DELAY o) n
                               (CONSOLIDATION_INTERVAL o) (SPATIAL_CELL_SIZE o))
                    (agentMemoryCache mm) (episodicQueue mm) (longTermMemory mm)
                    (spatialIndex mm) (pendingSemanticUpdates mm) (initialized mm)
                    (syncInProgress mm)))
        (requests r) (trace r).

(** The trace of the queues of [memoryIds] when every batch is accepted
    at its first attempt. *)
Definition sent (mm : MemoryManager) (memoryIds : list Z) : list Effect :=
  flat_map (fun memId => flat_map (accepted (options mm) memId) (batchesFor mm memId))
           memoryIds.

End Sync.

(* --------------------------------------------------------------------- *)
(** ** Invariants of the semantic patterns                                 *)
(* --------------------------------------------------------------------- *)

Module Patterns.
Import Hesms.
Local Open Scope Q_scope.






End Patterns.

(* --------------------------------------------------------------------- *)
(** ** Upkeep of the memories: importance, reality shifts, consolidation   *)
(* --------------------------------------------------------------------- *)

Module Upkeep.
Import Hesms.
Local Open Scope Q_scope.

(** [calculateImportance(type, entityId, agent)] before its clamp, on what
    it reads of the other components: [Goals[agent]?.primaryType],
    [RealityFlux[entityId]?.effectType] and
    [CognitiveState[agent]?.emotionalState] ([None]: [undefined], for
    which every comparison is false). *)
Definition rawImportance (ty : Z) (primaryType entityEffect : option Z)
    (emotional : option Q) : Q :=
  let importance0 :=
    match ty with
    | 0%Z => 7 # 10
    | 1%Z => 4 # 10
    | 2%Z => 8 # 10
    | _ => 5 # 10
    end in
  let importance1 :=
    if bool_decide (primaryType = Some 1%Z) && (ty =? 0)%Z
    then importance0 + (2 # 10) else importance0 in
  let importance2 :=
    if bool_decide (primaryType = Some 2%Z) && (ty =? 2)%Z
    then importance1 + (2 # 10) else importance1 in
  let importance3 :=
    if match entityEffect with Some e => (0 <? e)%Z | None => false end
    then importance2 + (1 # 10) else importance2 in
  if match emotional with Some e => gtb e 70 || ltb e 30 | None => false end
  then importance3 + (15 # 100) else importance3.

Definition calculateImportance (ty : Z) (primaryType entityEffect : option Z)
    (emotional : option Q) : Q :=
  Qmin 1 (Qmax (1 # 10) (rawImportance ty primaryType entityEffect emotional)).

Definition setGlobalFidelity (agent : Z) (v : Q) (em : EnhancedMemory) : EnhancedMemory :=
  mkEnhancedMemory
    (shortTermCapacity em) (shortTermIndex em) (shortTermIds em) (shortTermTypes em)
    (shortTermPositionsX em) (shortTermPositionsY em) (shortTermTimestamps em)
    (shortTermImportance em) (shortTermFidelity em)
    (memoryId em) (lastSyncTime em) (semanticUpdateTime em)
    (<[agent := v]> (globalFidelity em))
    (syncPending em) (semanticPending em).

(** A distorted slot: its timestamp or its type, and its fidelity. *)
Definition setSlot (slot : Z) (ts ty : option Z) (fid : Q) (em : EnhancedMemory)
    : EnhancedMemory :=
  mkEnhancedMemory
    (shortTermCapacity em) (shortTermIndex em) (shortTermIds em)
    (match ty with Some t => <[slot := t]> (shortTermTypes em) | None => shortTermTypes em end)
    (shortTermPositionsX em) (shortTermPositionsY em)
    (match ts with
     | Some t => <[slot := t]> (shortTermTimestamps em)
     | None => shortTermTimestamps em
     end)
    (shortTermImportance em)
    (<[slot := fid]> (shortTermFidelity em))
    (memoryId em) (lastSyncTime em) (semanticUpdateTime em) (globalFidelity em)
    (syncPending em) (semanticPending em).

(** [q | 0], for a number between -2^31 and 2^31: the fraction is cut. *)
Definition truncate (q : Q) : Z := if Qle_bool 0 q then Qfloor q else Qceiling q.

Section Shift.

(** [Math.random()]: [random n] is the [n]-th number drawn. *)
Variable random : nat -> Q.

(** [distortTemporalMemories(agent)]; the second number is drawn only for
    a slot that is distorted. *)
Definition distortTemporalMemories (agent : Z) (em0 : EnhancedMemory) (drawn0 : nat)
    : EnhancedMemory * nat :=
  let capacity := readZ (shortTermCapacity em0) agent in
  fold_left (fun (acc : EnhancedMemory * nat) i =>
               let '(em, drawn) := acc in
               let slot := (agent * 10 + i)%Z in
               if ltb (random drawn) (3 # 10)
                  && (0 <? readZ (shortTermTimestamps em) slot)%Z
               then
                 (setSlot slot
                    (Some (toUint32 (readZ (shortTermTimestamps em) slot
                                     + truncate (random (S drawn) * 20 - 10))))
                    None
                    (readQ (shortTermFidelity em) slot * (9 # 10)) em,
                  S (S drawn))
               else (em, S drawn))
            (seqZ 0 capacity) (em0, drawn0).

(** [distortTypeMemories(agent)] *)
Definition distortTypeMemories (agent : Z) (em0 : EnhancedMemory) (drawn0 : nat)
    : EnhancedMemory * nat :=
  let capacity := readZ (shortTermCapacity em0) agent in
  fold_left (fun (acc : EnhancedMemory * nat) i =>
               let '(em, drawn) := acc in
               let slot := (agent * 10 + i)%Z in
               if ltb (random drawn) (3 # 10)
                  && (readZ (shortTermTypes em) slot <=? 2)%Z
               then
                 (setSlot slot None
                    (Some (toUint8 (Some (truncate (random (S drawn) * 3)))))
                    (readQ (shortTermFidelity em) slot * (9 # 10)) em,
                  S (S drawn))
               else (em, S drawn))
            (seqZ 0 capacity) (em0, drawn0).

(** [processRealityShift(agent)]; [pos] is the agent's [Position] and the
    occasion holds [RealityFlux[agent]?.effectType]. *)
Definition processRealityShift (agent : Z) (pos : Position) (o : Occasion)
    (st : State) (drawn : nat) : State * nat :=
  let realityEffect := default 0%Z (orNullZ (effectType o)) in
  if (0 <? realityEffect)%Z then
    let '(em1, drawn1) :=
      match realityEffect with
      | 1%Z => (setGlobalFidelity agent
                  (readQ (globalFidelity (components st)) agent * (8 # 10))
                  (components st), drawn)
      | 2%Z => distortTemporalMemories agent (components st) drawn
      | 3%Z => distortTypeMemories agent (components st) drawn
      | _ => (components st, drawn)
      end in
    let st2 :=
      fst (recordEpisodicMemory agent (mkEvent agent 99 pos (Some (9 # 10))) o
                                (mkState em1 (manager st))) in
    (mkState (setGlobalFidelity agent
                (Qmax (2 # 10) (readQ (globalFidelity (components st2)) agent))
                (components st2))
             (manager st2),
     drawn1)
  else
    (mkState (setGlobalFidelity agent
                (Qmin 1 (readQ (globalFidelity (components st)) agent + (1 # 100)))
                (components st))
             (manager st),
     drawn).

End Shift.

Section Consolidate.

(** [semantic.updateFromEpisodic(memories, timestamp)]: it reads the
    memories and changes the semantic memory only. *)
Variable updateFromEpisodic : list EpisodicMemory -> Z -> SemanticMemory -> SemanticMemory.

(** The body of the loop of [consolidateMemories] for the entry of
    [memId]. *)
Definition consolidateEntry (time : Z) (mm : MemoryManager) (memId : Z) : MemoryManager :=
  let episodicMemories := default [] (get (episodicQueue mm) memId) in
  let importantMemories :=
    List.filter (fun m => gtb (importance m) (7 # 10)) episodicMemories in
  let longTerm0 :=
    match longTermMemory mm !! memId with
    | Some _ => longTermMemory mm
    | None => <[memId := []]> (longTermMemory mm)
    end in
  let longTerm1 :=
    <[memId := default [] (longTerm0 !! memId) ++ importantMemories]> longTerm0 in
  let queue1 :=
    set (episodicQueue mm) memId
        (List.filter (fun m => leb (importance m) (7 # 10)) episodicMemories) in
  let semantic := default newSemanticMemory (agentMemoryCache mm !! memId) in
  mkMemoryManager (options mm)
    (<[memId := updateFromEpisodic importantMemories time semantic]> (agentMemoryCache mm))
    queue1 longTerm1 (spatialIndex mm) (pendingSemanticUpdates mm)
    (initialized mm) (syncInProgress mm).

(** [consolidateMemories()]: the entries of [episodicQueue] in the order of
    its keys (setting the value of a key that is present does not change
    the iteration). *)
Definition consolidateMemories (time : Z) (mm : MemoryManager) : MemoryManager :=
  fold_left (consolidateEntry time) (keys (episodicQueue mm)) mm.

End Consolidate.

(** The global fidelity of an agent is between 0.2 and 1. *)
Definition faithful (agent : Z) (st : State) : Prop :=
  2 # 10 <= readQ (globalFidelity (components st)) agent <= 1.

End Upkeep.

(* ===================================================================== *)
(** * Part II: properties                                                 *)
(* ===================================================================== *)

Import CrossReality.

Local Open Scope Q_scope.

(** ** Numbers *)

Lemma ltb_spec (a b : Q) : ltb a b = true <-> a < b.
Proof.
  unfold ltb. rewrite negb_true_iff.
  split; intros H.
  - apply Qnot_le_lt. intros Hle. apply Qle_bool_iff in Hle. congruence.
  - destruct (Qle_bool b a) eqn:E; [|reflexivity].
    apply Qle_bool_iff in E. exfalso. exact (Qlt_not_le _ _ H E).
Qed.

Lemma ltb_false (a b : Q) : ltb a b = false <-> b <= a.
Proof.
  unfold ltb. rewrite negb_false_iff. apply Qle_bool_iff.
Qed.

Lemma geb_spec (a b : Q) : geb a b = true <-> b <= a.
Proof. unfold geb, leb. apply Qle_bool_iff. Qed.

Lemma Qmax_lower (a b : Q) : a <= Qmax a b.
Proof. apply Q.le_max_l. Qed.

Lemma Qmax_cases (a b : Q) :
  (b <= a /\ Qmax a b == a) \/ (a <= b /\ Qmax a b == b).
Proof.
  destruct (Q.max_spec a b) as [[H1 H2]|[H1 H2]].
  - right. split; [apply Qlt_le_weak; exact H1 | exact H2].
  - left. split; [exact H1 | exact H2].
Qed.

(** ** Decay of knowledge entries *)

Lemma applyDecay_confidence (t : Q) (e : KnowledgeEntry) :
  confidence (applyDecay t e) = decayedConfidence t e.
Proof. reflexivity. Qed.

Lemma applyDecay_floor (t : Q) (e : KnowledgeEntry) :
  MINIMUM_KNOWLEDGE_CONFIDENCE <= confidence (applyDecay t e).
Proof.
  rewrite applyDecay_confidence. unfold decayedConfidence. apply Qmax_lower.
Qed.

(** C10: for every knowledge entry, at any level, and every current time,
    [applyDecay] leaves a confidence of at least
    MINIMUM_KNOWLEDGE_CONFIDENCE (0.2); hence the test
    [entry.confidence < MINIMUM_KNOWLEDGE_CONFIDENCE] that follows the decay
    in [applyKnowledgeDecay] is never true, and the loop deletes nothing:
    the tier keeps all its entries, each one decayed. *)
Theorem C10_decay_floor_pruning_unreachable
    (e : KnowledgeEntry) (currentTime : Q) (tier : list (string * KnowledgeEntry)) :
  MINIMUM_KNOWLEDGE_CONFIDENCE <= confidence (applyDecay currentTime e)
  /\ MINIMUM_KNOWLEDGE_CONFIDENCE == 2 # 10
  /\ belowMinimum (applyDecay currentTime e) = false
  /\ decayTier currentTime tier
     = map (fun ke => (fst ke, applyDecay currentTime (snd ke))) tier
  /\ length (decayTier currentTime tier) = length tier.
Proof.
  assert (Hnever : forall e', belowMinimum (applyDecay currentTime e') = false).
  { intros e'. unfold belowMinimum. apply ltb_false. apply applyDecay_floor. }
  assert (Hmap : decayTier currentTime tier
                 = map (fun ke => (fst ke, applyDecay currentTime (snd ke))) tier).
  { unfold decayTier. induction tier as [|ke tier IH]; [reflexivity|].
    cbn [flat_map map]. rewrite Hnever, IH. reflexivity. }
  split; [apply applyDecay_floor|].
  split; [reflexivity|].
  split; [apply Hnever|].
  split; [exact Hmap|].
  rewrite Hmap. apply length_map.
Qed.

(** C8, as the code has it: [applyDecay] sets the confidence to the larger
    of 0.2 and [c - 0.05 * (elapsed / 1000) * m], where [elapsed] is
    [currentTime - lastUsed] and [m] is 1.2, 1.0 or 0.8 for a low-, mid- or
    high-level entry.  So the confidence drops by exactly
    [0.05 * (elapsed / 1000) * m] when that leaves at least 0.2, it does not
    increase when no time has run backwards and it was at least 0.2, and
    nothing but the confidence changes. *)
Theorem C8_applyDecay_clamped (e : KnowledgeEntry) (currentTime : Q) :
  let m := match level e with Low => 12 # 10 | Mid => 1 | High => 8 # 10 end in
  let d := (5 # 100) * ((currentTime - lastUsed e) / 1000) * m in
  confidence (applyDecay currentTime e) == Qmax (2 # 10) (confidence e - d)
  /\ (2 # 10 <= confidence e - d ->
      confidence (applyDecay currentTime e) == confidence e - d)
  /\ (lastUsed e <= currentTime -> 2 # 10 <= confidence e ->
      confidence (applyDecay currentTime e) <= confidence e)
  /\ applyDecay currentTime e = setConfidence (confidence (applyDecay currentTime e)) e.
Proof.
  intros m d.
  assert (Hd : KNOWLEDGE_DECAY_RATE * ((currentTime - lastUsed e) / 1000)
               * levelMultiplier (level e) == d).
  { unfold d, m, KNOWLEDGE_DECAY_RATE, levelMultiplier.
    destruct (level e); reflexivity. }
  assert (Hc : confidence (applyDecay currentTime e) == Qmax (2 # 10) (confidence e - d)).
  { rewrite applyDecay_confidence. unfold decayedConfidence, MINIMUM_KNOWLEDGE_CONFIDENCE.
    rewrite Hd. reflexivity. }
  split; [exact Hc|].
  split.
  - intros Hfloor. rewrite Hc.
    destruct (Qmax_cases (2 # 10) (confidence e - d)) as [[H1 H2]|[H1 H2]].
    + rewrite H2. apply Qle_antisym; assumption.
    + exact H2.
  - split; [|reflexivity].
    intros Htime Hconf. rewrite Hc.
    assert (Hpos : 0 <= d).
    { unfold d. apply Qmult_le_0_compat.
      - apply Qmult_le_0_compat; [discriminate|].
        apply Qle_shift_div_l; [reflexivity|]. lra.
      - unfold m. destruct (level e); discriminate. }
    apply Q.max_lub; lra.
Qed.

(** C8, witness: a fresh low-level entry (confidence 0.5) last used at time
    0 and decayed at time 1000 loses exactly 0.05 * 1.2. *)
Lemma C8_applyDecay_clamped_witness :
  confidence (applyDecay 1000 (newKnowledgeEntry "k" 0 Samples.resourcePattern Low None))
  == (5 # 10) - (5 # 100) * (12 # 10).
Proof.
  destruct (C8_applyDecay_clamped
              (newKnowledgeEntry "k" 0 Samples.resourcePattern Low None) 1000)
    as (_ & Hexact & _).
  cbn in Hexact. rewrite Hexact.
  - reflexivity.
  - vm_compute. discriminate.
Defined.

(** C8, counterexample: a low-level entry that [adaptKnowledge] has
    discounted twice has confidence 0.0968; decayed at the very time it
    was last used (no time elapsed) its confidence is raised to 0.2. *)
Lemma C8_counterexample_confidence_increases :
  confidence Samples.shakenEntry == 968 # 10000
  /\ lastUsed Samples.shakenEntry == 0
  /\ confidence (applyDecay 0 Samples.shakenEntry) == 2 # 10
  /\ ~ confidence (applyDecay 0 Samples.shakenEntry) <= confidence Samples.shakenEntry.
Proof.
  split; [reflexivity|]. split; [reflexivity|]. split; [reflexivity|].
  vm_compute. intros H. apply H. reflexivity.
Qed.

(** ** Applicability of an entry in an environment *)

Lemma includes_In (l : list Z) (z : Z) : includes l z = true <-> In z l.
Proof.
  unfold includes. rewrite existsb_exists. split.
  - intros (x & Hin & Heq). apply Z.eqb_eq in Heq. subst. exact Hin.
  - intros Hin. exists z. split; [exact Hin | apply Z.eqb_refl].
Qed.

Lemma ofNat_nonneg (n : nat) : 0 <= ofNat n.
Proof.
  unfold ofNat. change 0 with (inject_Z 0). rewrite <- Zle_Qle. lia.
Qed.

Lemma ofNat_pos (n : nat) : (0 < n)%nat -> 0 < ofNat n.
Proof.
  intros Hn. unfold ofNat. change 0 with (inject_Z 0). rewrite <- Zlt_Qlt. lia.
Qed.

(** The rates of records that count an application are numbers, and so
    are their sum and their mean. *)
Lemma rate_applied (t : Transfer) :
  (1 <= total t)%nat -> rate t = Num (ofNat (success t) / ofNat (total t)).
Proof.
  intros Htotal. unfold rate.
  destruct (Nat.eqb_spec (total t) 0) as [Hz|_]; [lia | reflexivity].
Qed.













(** ** Ordered maps and the stable sort *)

Section OrderedMapFacts.
Context {K V : Type} `{EqDecision K}.

Lemma set_length_le (m : list (K * V)) (k : K) (v : V) :
  (length (set m k v) <= S (length m))%nat.
Proof.
  induction m as [|[k' v'] m IH]; cbn; [lia|].
  destruct (decide (k' = k)); cbn; lia.
Qed.

Lemma set_length_in (m : list (K * V)) (k : K) (v : V) :
  k ∈ keys m -> length (set m k v) = length m.
Proof.
  induction m as [|[k' v'] m IH]; cbn.
  - intros Hin. apply elem_of_nil in Hin. contradiction.
  - intros Hin. destruct (decide (k' = k)); cbn; [reflexivity|].
    f_equal. apply IH. apply elem_of_cons in Hin. destruct Hin; [congruence | assumption].
Qed.

Lemma delete_length_le (m : list (K * V)) (k : K) :
  (length (delete m k) <= length m)%nat.
Proof.
  induction m as [|[k' v'] m IH]; cbn; [lia|].
  destruct (decide (k' = k)); cbn; lia.
Qed.

Lemma delete_length_in (m : list (K * V)) (k : K) :
  k ∈ keys m -> (length (delete m k) < length m)%nat.
Proof.
  induction m as [|[k' v'] m IH]; cbn.
  - intros Hin. apply elem_of_nil in Hin. contradiction.
  - intros Hin. destruct (decide (k' = k)); cbn.
    + pose proof (delete_length_le m k). lia.
    + apply elem_of_cons in Hin. destruct Hin as [|Hin]; [congruence|].
      specialize (IH Hin). lia.
Qed.

Lemma delete_not_in (m : list (K * V)) (k : K) :
  k ∉ keys m -> delete m k = m.
Proof.
  induction m as [|[k' v'] m IH]; cbn; [reflexivity|].
  intros Hnot. apply not_elem_of_cons in Hnot. destruct Hnot as [Hne Hnot].
  destruct (decide (k' = k)); [congruence|].
  f_equal. apply IH. exact Hnot.
Qed.

Lemma delete_middle (before after : list (K * V)) (k : K) (v : V) :
  NoDup (keys (before ++ (k, v) :: after)) ->
  delete (before ++ (k, v) :: after) k = before ++ after.
Proof.
  induction before as [|[k' v'] before IH]; cbn; intros Hnd.
  - destruct (decide (k = k)); [|contradiction].
    apply delete_not_in. apply NoDup_cons in Hnd. apply Hnd.
  - apply NoDup_cons in Hnd. destruct Hnd as [Hnotin Hnd].
    destruct (decide (k' = k)) as [->|Hne].
    + exfalso. apply Hnotin. unfold keys. rewrite map_app.
      apply elem_of_app. right. cbn. apply elem_of_cons. left. reflexivity.
    + f_equal. apply IH. exact Hnd.
Qed.

Lemma keys_set_in (m : list (K * V)) (k k0 : K) (v : V) :
  k0 ∈ keys (set m k v) <-> k0 = k \/ k0 ∈ keys m.
Proof.
  induction m as [|[k' v'] m IH]; cbn.
  - rewrite elem_of_cons, elem_of_nil. tauto.
  - destruct (decide (k' = k)) as [->|Hne]; cbn.
    + rewrite !elem_of_cons. tauto.
    + unfold keys in IH. rewrite !elem_of_cons, IH. tauto.
Qed.

Lemma set_NoDup (m : list (K * V)) (k : K) (v : V) :
  NoDup (keys m) -> NoDup (keys (set m k v)).
Proof.
  induction m as [|[k' v'] m IH]; cbn; intros Hnd.
  - apply NoDup_singleton.
  - apply NoDup_cons in Hnd. destruct Hnd as [Hnotin Hnd].
    destruct (decide (k' = k)) as [->|Hne]; cbn.
    + apply NoDup_cons. split; assumption.
    + apply NoDup_cons. split; [|apply IH; exact Hnd].
      intros Hin. apply keys_set_in in Hin. destruct Hin; [congruence | contradiction].
Qed.

Lemma keys_delete_in (m : list (K * V)) (k k0 : K) :
  k0 ∈ keys (delete m k) -> k0 ∈ keys m.
Proof.
  induction m as [|[k' v'] m IH]; cbn; [tauto|].
  destruct (decide (k' = k)); cbn; rewrite !elem_of_cons; unfold keys in IH; tauto.
Qed.

Lemma delete_NoDup (m : list (K * V)) (k : K) :
  NoDup (keys m) -> NoDup (keys (delete m k)).
Proof.
  induction m as [|[k' v'] m IH]; cbn; intros Hnd; [constructor|].
  apply NoDup_cons in Hnd. destruct Hnd as [Hnotin Hnd].
  destruct (decide (k' = k)); cbn; [apply IH; exact Hnd|].
  apply NoDup_cons. split; [|apply IH; exact Hnd].
  intros Hin. apply Hnotin. eapply keys_delete_in. exact Hin.
Qed.

End OrderedMapFacts.

Section SortFacts.
Context {A : Type} (cmp : A -> A -> Q).

Lemma head_insertSorted (x : A) (l : list A) :
  head (insertSorted cmp x l)
  = match head l with
    | None => Some x
    | Some y => if Qle_bool (cmp x y) 0 then Some x else Some y
    end.
Proof.
  destruct l as [|y l]; cbn; [reflexivity|].
  destruct (Qle_bool (cmp x y) 0); reflexivity.
Qed.

End SortFacts.

(** ** Capacity of the knowledge tiers *)

Import Spec.

Lemma weakestEntry_cons (x : string * KnowledgeEntry) (l : list (string * KnowledgeEntry)) :
  weakestEntry (x :: l)
  = match weakestEntry l with
    | None => Some x
    | Some y =>
        if Qle_bool (confidence (snd x) - confidence (snd y)) 0 then Some x else Some y
    end.
Proof. unfold weakestEntry. cbn [sort]. apply head_insertSorted. Qed.

Lemma weakestEntry_nil_inv (l : list (string * KnowledgeEntry)) :
  weakestEntry l = None -> l = [].
Proof.
  destruct l as [|x l]; [reflexivity|].
  rewrite weakestEntry_cons.
  destruct (weakestEntry l) as [y|]; [|discriminate].
  destruct (Qle_bool _ _); discriminate.
Qed.

(** The head of the sorted entries is the first entry of lowest
    confidence. *)
Lemma weakestEntry_firstWeakest (tier : list (string * KnowledgeEntry)) :
  tier <> [] ->
  exists before w after,
    firstWeakest tier before w after /\ weakestEntry tier = Some w.
Proof.
  induction tier as [|x tier IH]; [congruence|]. intros _.
  rewrite weakestEntry_cons.
  destruct tier as [|x' tier'].
  - exists [], x, []. cbn. repeat split; constructor.
  - destruct IH as (before & w & after & (Heq & Hbefore & Hafter) & Hw); [congruence|].
    rewrite Hw.
    destruct (Qle_bool (confidence (snd x) - confidence (snd w)) 0) eqn:E.
    + apply Qle_bool_iff in E.
      exists [], x, (x' :: tier'). split; [|reflexivity].
      split; [reflexivity|]. split; [constructor|].
      rewrite Heq. apply Forall_app. split.
      * eapply Forall_impl; [exact Hbefore|]. cbn. intros ke Hke. lra.
      * constructor; [lra|].
        eapply Forall_impl; [exact Hafter|]. cbn. intros ke Hke. lra.
    + assert (Hlt : confidence (snd w) < confidence (snd x)).
      { apply Qnot_le_lt. intros Hle.
        assert (Hb : Qle_bool (confidence (snd x) - confidence (snd w)) 0 = true)
          by (apply Qle_bool_iff; lra).
        congruence. }
      exists (x :: before), w, after. split; [|reflexivity].
      split; [rewrite Heq; reflexivity|].
      split; [constructor; assumption | assumption].
Qed.

Lemma makeRoom_full (capacity : nat) (tier : list (string * KnowledgeEntry)) :
  NoDup (keys tier) -> (0 < capacity <= length tier)%nat ->
  exists before w after,
    firstWeakest tier before w after /\ makeRoom capacity tier = before ++ after.
Proof.
  intros Hnd [Hpos Hfull].
  destruct (weakestEntry_firstWeakest tier) as (before & w & after & Hfw & Hw).
  { intros ->. cbn in Hfull. lia. }
  exists before, w, after. split; [exact Hfw|].
  unfold makeRoom, size.
  destruct (Nat.leb_spec capacity (length tier)) as [_|Hlt]; [|lia].
  rewrite Hw. destruct Hfw as (Heq & _). destruct w as [k e]. cbn [fst].
  rewrite Heq in Hnd |- *. apply delete_middle. exact Hnd.
Qed.

Lemma makeRoom_length (capacity : nat) (tier : list (string * KnowledgeEntry)) :
  (0 < capacity)%nat -> (length tier <= capacity)%nat ->
  (length (makeRoom capacity tier) < capacity)%nat.
Proof.
  intros Hpos Hle. unfold makeRoom, size.
  destruct (Nat.leb_spec capacity (length tier)) as [Hfull|Hlt]; [|exact Hlt].
  destruct (weakestEntry_firstWeakest tier) as (before & w & after & (Heq & _) & Hw).
  { intros ->. cbn in Hfull. lia. }
  rewrite Hw.
  assert (Hin : fst w ∈ keys tier).
  { rewrite Heq. unfold keys. rewrite map_app. apply elem_of_app. right.
    cbn. apply elem_of_cons. left. reflexivity. }
  pose proof (delete_length_in tier (fst w) Hin). lia.
Qed.

Lemma makeRoom_NoDup (capacity : nat) (tier : list (string * KnowledgeEntry)) :
  NoDup (keys tier) -> NoDup (keys (makeRoom capacity tier)).
Proof.
  intros Hnd. unfold makeRoom.
  destruct (capacity <=? size tier)%nat; [|exact Hnd].
  destruct (weakestEntry tier); [apply delete_NoDup|]; exact Hnd.
Qed.

Lemma findExisting_key (matches : KnowledgeEntry -> bool)
    (tier : list (string * KnowledgeEntry)) (k : string) (e : KnowledgeEntry) :
  findExisting matches tier = Some (k, e) -> k ∈ keys tier.
Proof.
  unfold findExisting. intros Hfind. apply find_some in Hfind. destruct Hfind as [Hin _].
  unfold keys. apply list_elem_of_In. apply (in_map fst) in Hin. exact Hin.
Qed.

(** What the three insertions share: the tier after the call, when the
    search found [existing] and the entry built for the other case is
    [newEntry]. *)
Lemma insertion_bound (capacity : nat) (tier : list (string * KnowledgeEntry))
    (matches : KnowledgeEntry -> bool) (update : KnowledgeEntry -> KnowledgeEntry)
    (newEntry : KnowledgeEntry) :
  (0 < capacity)%nat -> (length tier <= capacity)%nat ->
  (length (match findExisting matches tier with
           | Some (k, existingEntry) => set tier k (update existingEntry)
           | None => set (makeRoom capacity tier) (entryId newEntry) newEntry
           end) <= capacity)%nat.
Proof.
  intros Hpos Hle.
  destruct (findExisting matches tier) as [[k e]|] eqn:Hfind.
  - rewrite set_length_in; [exact Hle|]. eapply findExisting_key. exact Hfind.
  - pose proof (makeRoom_length capacity tier Hpos Hle).
    pose proof (set_length_le (makeRoom capacity tier) (entryId newEntry) newEntry). lia.
Qed.

(** C6: the tiers hold at most 20 (low), 15 (mid) and 10 (high) entries.
    For each tier: an insertion into a tier within its capacity leaves it
    within its capacity; and the insertion of a pattern that matches no
    existing entry into a tier at capacity evicts the first entry, in
    insertion order, among those of lowest confidence, and stores the new
    entry. *)
Theorem C6_capacity_eviction
    (newId : string) (now : Q) (tier : list (string * KnowledgeEntry))
    (p : Pattern) (environmentId : option Z)
    (sourceEntries : list KnowledgeEntry) (environments : list Z) :
  NoDup (keys tier) ->
  (LOW_LEVEL_CAPACITY = 20 /\ MID_LEVEL_CAPACITY = 15 /\ HIGH_LEVEL_CAPACITY = 10)%nat
  /\ (let r := addLowTier newId now tier p environmentId in
      ((length tier <= LOW_LEVEL_CAPACITY)%nat ->
       (length (fst r) <= LOW_LEVEL_CAPACITY)%nat)
      /\ ((LOW_LEVEL_CAPACITY <= length tier)%nat ->
          findExisting (fun e => patternsMatch (pattern e) p) tier = None ->
          evictsWeakest tier (fst r) (snd r)))
  /\ (let r := addMidTier newId now tier p sourceEntries in
      ((length tier <= MID_LEVEL_CAPACITY)%nat ->
       (length (fst r) <= MID_LEVEL_CAPACITY)%nat)
      /\ ((MID_LEVEL_CAPACITY <= length tier)%nat ->
          findExisting (fun e => patternsMatch (pattern e) p) tier = None ->
          evictsWeakest tier (fst r) (snd r)))
  /\ (let r := addHighTier newId now environments tier p in
      ((length tier <= HIGH_LEVEL_CAPACITY)%nat ->
       (length (fst r) <= HIGH_LEVEL_CAPACITY)%nat)
      /\ ((HIGH_LEVEL_CAPACITY <= length tier)%nat ->
          findExisting (fun e => bool_decide (ptype (pattern e) = ptype p)
                                 && universalPrinciple (pattern e)) tier = None ->
          evictsWeakest tier (fst r) (snd r))).
Proof.
  intros Hnd.
  split; [repeat split|].
  split; [|split].
  - cbv zeta. unfold addLowTier. split.
    + intros Hle.
      pose proof (insertion_bound LOW_LEVEL_CAPACITY tier
                    (fun e => patternsMatch (pattern e) p)
                    (addInstance now p environmentId)
                    (newKnowledgeEntry newId now p Low environmentId)) as Hb.
      destruct (findExisting _ tier) as [[k e]|]; cbn [fst];
        apply Hb; [unfold LOW_LEVEL_CAPACITY; lia | exact Hle
                  | unfold LOW_LEVEL_CAPACITY; lia | exact Hle].
    + intros Hfull ->. cbn [fst snd].
      destruct (makeRoom_full LOW_LEVEL_CAPACITY tier Hnd) as (b & w & a & Hfw & Hroom).
      { unfold LOW_LEVEL_CAPACITY in *. lia. }
      exists b, w, a. split; [exact Hfw|]. rewrite Hroom. reflexivity.
  - cbv zeta. unfold addMidTier. split.
    + intros Hle.
      pose proof (insertion_bound MID_LEVEL_CAPACITY tier
                    (fun e => patternsMatch (pattern e) p)
                    (fun e => pushMissing (dedup (flat_map environmentIds sourceEntries))
                                (addInstance now p None e))
                    (addInstance now p None
                       (pushMissing (dedup (flat_map environmentIds sourceEntries))
                          (newKnowledgeEntry newId now p Mid None)))) as Hb.
      destruct (findExisting _ tier) as [[k e]|]; cbn [fst];
        apply Hb; [unfold MID_LEVEL_CAPACITY; lia | exact Hle
                  | unfold MID_LEVEL_CAPACITY; lia | exact Hle].
    + intros Hfull ->. cbn [fst snd].
      destruct (makeRoom_full MID_LEVEL_CAPACITY tier Hnd) as (b & w & a & Hfw & Hroom).
      { unfold MID_LEVEL_CAPACITY in *. lia. }
      exists b, w, a. split; [exact Hfw|]. rewrite Hroom. reflexivity.
  - cbv zeta. unfold addHighTier. split.
    + intros Hle.
      pose proof (insertion_bound HIGH_LEVEL_CAPACITY tier
                    (fun e => bool_decide (ptype (pattern e) = ptype p)
                              && universalPrinciple (pattern e))
                    (fun e => pushMissing environments (addInstance now p None e))
                    (addInstance now p None
                       (pushMissing environments
                          (newKnowledgeEntry newId now p High None)))) as Hb.
      destruct (findExisting _ tier) as [[k e]|]; cbn [fst];
        apply Hb; [unfold HIGH_LEVEL_CAPACITY; lia | exact Hle
                  | unfold HIGH_LEVEL_CAPACITY; lia | exact Hle].
    + intros Hfull ->. cbn [fst snd].
      destruct (makeRoom_full HIGH_LEVEL_CAPACITY tier Hnd) as (b & w & a & Hfw & Hroom).
      { unfold HIGH_LEVEL_CAPACITY in *. lia. }
      exists b, w, a. split; [exact Hfw|]. rewrite Hroom. reflexivity.
Qed.

(** C6, witness: a twenty-first pattern inserted into the full low tier of
    [Samples.fullLowTier] evicts [knowledge-4], the first of the three
    entries of confidence 0.2, and the tier still holds twenty entries. *)
Lemma C6_capacity_eviction_witness :
  evictsWeakest Samples.fullLowTier
    (fst (addLowTier "knowledge-20" 1 Samples.fullLowTier
            (Samples.numberedPattern 20) (Some 1%Z)))
    (snd (addLowTier "knowledge-20" 1 Samples.fullLowTier
            (Samples.numberedPattern 20) (Some 1%Z)))
  /\ keys (fst (addLowTier "knowledge-20" 1 Samples.fullLowTier
                  (Samples.numberedPattern 20) (Some 1%Z)))
     = map (fun i => "knowledge-" +:+ pretty i) (seq 0 4 ++ seq 5 16).
Proof.
  split; [|vm_compute; reflexivity].
  destruct (C6_capacity_eviction "knowledge-20" 1 Samples.fullLowTier
              (Samples.numberedPattern 20) (Some 1%Z) [] [])
    as (_ & (_ & Hevict) & _).
  - apply (bool_decide_unpack _). vm_compute. reflexivity.
  - apply Hevict.
    + vm_compute. lia.
    + vm_compute. reflexivity.
Defined.

(** ** Generalisation from the low to the mid tier *)

Section OrderedMapLookup.
Context {K V : Type} `{EqDecision K}.

Lemma get_set (m : list (K * V)) (k k0 : K) (v : V) :
  get (set m k v) k0 = if decide (k = k0) then Some v else get m k0.
Proof.
  induction m as [|[k' v'] m IH]; cbn.
  - destruct (decide (k = k0)); reflexivity.
  - destruct (decide (k' = k)) as [->|Hne]; cbn.
    + destruct (decide (k = k0)); reflexivity.
    + rewrite IH. destruct (decide (k' = k0)) as [->|]; [|reflexivity].
      destruct (decide (k = k0)); [congruence | reflexivity].
Qed.

Lemma elem_of_get (m : list (K * V)) (k : K) (v : V) :
  NoDup (keys m) -> (k, v) ∈ m -> get m k = Some v.
Proof.
  induction m as [|[k' v'] m IH]; cbn; intros Hnd Hin.
  - apply elem_of_nil in Hin. contradiction.
  - apply NoDup_cons in Hnd. destruct Hnd as [Hnotin Hnd].
    apply elem_of_cons in Hin. destruct Hin as [Heq|Hin].
    + inversion Heq; subst. destruct (decide (k' = k')); [reflexivity | contradiction].
    + destruct (decide (k' = k)) as [->|Hne]; [|apply IH; assumption].
      exfalso. apply Hnotin. unfold keys.
      apply (list_elem_of_fmap_2 fst) in Hin. exact Hin.
Qed.

Lemma elem_of_set (m : list (K * V)) (k : K) (v : V) (kv : K * V) :
  kv ∈ set m k v -> kv = (k, v) \/ kv ∈ m.
Proof.
  induction m as [|[k' v'] m IH]; cbn.
  - rewrite elem_of_cons. tauto.
  - destruct (decide (k' = k)); rewrite !elem_of_cons; tauto.
Qed.


End OrderedMapLookup.

Lemma filter_sublist {A : Type} (f : A -> bool) (l : list A) :
  sublist (List.filter f l) l.
Proof.
  induction l as [|x l IH]; cbn; [constructor|].
  destruct (f x); constructor; exact IH.
Qed.

Lemma filter_Forall {A : Type} (f : A -> bool) (l : list A) :
  Forall (fun x => f x = true) (List.filter f l).
Proof.
  apply Forall_forall. intros x Hin. apply list_elem_of_In in Hin.
  apply filter_In in Hin. apply Hin.
Qed.

(** The entries of a tier that have pattern type [ty], in order. *)
Lemma groupByType_get (tier : list (string * KnowledgeEntry)) (ty : string) :
  get (groupByType tier) ty
  = match List.filter (fun e => bool_decide (ptype (pattern e) = ty)) (values tier) with
    | [] => None
    | es => Some es
    end.
Proof.
  unfold groupByType, values.
  induction tier as [|ke tier IH] using rev_ind; [reflexivity|].
  rewrite fold_left_app, map_app, List.filter_app. cbn [fold_left map List.filter].
  rewrite get_set. destruct (decide (ptype (pattern (snd ke)) = ty)) as [Heq|Hne].
  - rewrite bool_decide_eq_true_2 by exact Heq.
    rewrite Heq, IH.
    destruct (List.filter _ (map snd tier)); reflexivity.
  - rewrite bool_decide_eq_false_2 by exact Hne.
    rewrite IH, app_nil_r. reflexivity.
Qed.

Lemma groupByType_NoDup (tier : list (string * KnowledgeEntry)) :
  NoDup (keys (groupByType tier)).
Proof.
  unfold groupByType.
  induction tier as [|ke tier IH] using rev_ind; [constructor|].
  rewrite fold_left_app. cbn [fold_left]. apply set_NoDup. exact IH.
Qed.

Lemma groupByType_elem (tier : list (string * KnowledgeEntry))
    (ty : string) (entries : list KnowledgeEntry) :
  (ty, entries) ∈ groupByType tier ->
  entries = List.filter (fun e => bool_decide (ptype (pattern e) = ty)) (values tier).
Proof.
  intros Hin. apply elem_of_get in Hin; [|apply groupByType_NoDup].
  rewrite groupByType_get in Hin.
  destruct (List.filter _ (values tier)); congruence.
Qed.

Lemma pushMissing_keeps (envs : list Z) (e : KnowledgeEntry) :
  entryId (pushMissing envs e) = entryId e /\ pattern (pushMissing envs e) = pattern e.
Proof.
  unfold pushMissing. revert e.
  induction envs as [|z envs IH]; intros e; cbn [fold_left]; [split; reflexivity|].
  destruct (includes (environmentIds e) z); [apply IH|].
  destruct (IH (setEnvironmentIds (environmentIds e ++ [z]) e)) as [H1 H2].
  rewrite H1, H2. split; reflexivity.
Qed.

Lemma addInstance_keeps (now : Q) (p : Pattern) (env : option Z) (e : KnowledgeEntry) :
  entryId (addInstance now p env e) = entryId e
  /\ pattern (addInstance now p env e) = pattern e.
Proof.
  unfold addInstance, updateConfidence. cbn [level].
  destruct (level e); split; reflexivity.
Qed.


Lemma common_condition (entries : list KnowledgeEntry) :
  findCommonConditions entries <> [] ->
  exists prop op, Forall (hasCondition prop op) entries.
Proof.
  unfold findCommonConditions.
  destruct entries as [|first entries]; [congruence|].
  set (all := first :: entries).
  destruct (List.filter _ (conditions (pattern first))) as [|c cs] eqn:Hf;
    [cbn; congruence|]. intros _.
  assert (Hin : In c (List.filter
                        (fun condition =>
                           forallb (fun entry =>
                                      existsb (sameKind condition)
                                              (conditions (pattern entry))) all)
                        (conditions (pattern first)))).
  { rewrite Hf. left. reflexivity. }
  apply filter_In in Hin. destruct Hin as [_ Hall].
  exists (property c), (operator c).
  apply Forall_forall. intros e He. apply list_elem_of_In in He.
  rewrite forallb_forall in Hall. specialize (Hall e He).
  apply existsb_exists in Hall. destruct Hall as (c' & Hc' & Hkind).
  unfold sameKind in Hkind. apply andb_true_iff in Hkind. destruct Hkind as [Hp Ho].
  apply bool_decide_eq_true in Hp. apply bool_decide_eq_true in Ho.
  exists c'. split; [apply list_elem_of_In; exact Hc' | split; assumption].
Qed.

Section GeneralizeFacts.
Variable newId : nat -> string.
Variable now : Q.

(** One round of the loop of [generalizeLowToMid] either leaves the mid
    tier alone or, the three thresholds being met, adds a pattern of the
    type to it. *)
Lemma generalizeType_cases (st : list (string * KnowledgeEntry) * nat)
    (ty : string) (entries : list KnowledgeEntry) :
  generalizeType newId now st (ty, entries) = st
  \/ ((5 <= length entries)%nat
      /\ (3 <= length (List.filter (fun e => geb (confidence e) (6 # 10)) entries))%nat
      /\ findCommonConditions
           (List.filter (fun e => geb (confidence e) (6 # 10)) entries) <> []
      /\ exists p,
          ptype p = ty
          /\ generalizeType newId now st (ty, entries)
             = (fst (addMidTier (newId (snd st)) now (fst st) p
                       (List.filter (fun e => geb (confidence e) (6 # 10)) entries)),
                S (snd st))).
Proof.
  unfold generalizeType, ABSTRACTION_INSTANCE_THRESHOLD, ABSTRACTION_CONFIDENCE_THRESHOLD.
  destruct (Nat.ltb_spec (length entries) 5) as [|H5]; [left; reflexivity|].
  set (confident := List.filter (fun e => geb (confidence e) (6 # 10)) entries).
  destruct (Nat.ltb_spec (length confident) 3) as [|H3]; [left; reflexivity|].
  destruct (findCommonConditions confident) as [|c cs] eqn:Hc; [left; reflexivity|].
  right. split; [exact H5|]. split; [exact H3|]. split; [congruence|].
  destruct st as [midTier calls].
  eexists. split; [|reflexivity]. reflexivity.
Qed.

Lemma thresholds_promotable (lowTier : list (string * KnowledgeEntry))
    (ty : string) (entries : list KnowledgeEntry) :
  (ty, entries) ∈ groupByType lowTier ->
  (5 <= length entries)%nat ->
  (3 <= length (List.filter (fun e => geb (confidence e) (6 # 10)) entries))%nat ->
  findCommonConditions (List.filter (fun e => geb (confidence e) (6 # 10)) entries) <> [] ->
  promotable lowTier ty.
Proof.
  intros Hgroup H5 H3 Hcommon. apply groupByType_elem in Hgroup.
  exists entries, (List.filter (fun e => geb (confidence e) (6 # 10)) entries).
  split; [rewrite Hgroup; apply filter_sublist|].
  split.
  { rewrite Hgroup. eapply Forall_impl; [apply filter_Forall|].
    cbn. intros e He. apply bool_decide_eq_true in He. exact He. }
  split; [exact H5|].
  split; [apply filter_sublist|].
  split.
  { eapply Forall_impl; [apply filter_Forall|].
    cbn. intros e He. apply geb_spec in He. exact He. }
  split; [exact H3|].
  apply common_condition. exact Hcommon.
Qed.


Lemma generalize_fold_unchanged (lowTier : list (string * KnowledgeEntry))
    (groups : list (string * list KnowledgeEntry))
    (st : list (string * KnowledgeEntry) * nat) :
  (forall g, g ∈ groups -> g ∈ groupByType lowTier) ->
  (forall ty, ~ promotable lowTier ty) ->
  fold_left (generalizeType newId now) groups st = st.
Proof.
  revert st. induction groups as [|[ty entries] groups IH]; intros st Hgroups Hnone;
    cbn [fold_left]; [reflexivity|].
  assert (Hg : (ty, entries) ∈ groupByType lowTier).
  { apply Hgroups. apply elem_of_cons. left. reflexivity. }
  destruct (generalizeType_cases st ty entries) as [->|(H5 & H3 & Hc & _)].
  - apply IH; [|exact Hnone].
    intros g Hin. apply Hgroups. apply elem_of_cons. right. exact Hin.
  - exfalso. apply (Hnone ty). eapply thresholds_promotable; eassumption.
Qed.

End GeneralizeFacts.



(** ** Adaptation of knowledge to a new environment *)

Lemma updateEnvironmentProfile_knowledge (now : Q) (o : Observations)
    (environmentId : Z) (s : System) :
  agentKnowledge (updateEnvironmentProfile now o environmentId s) = agentKnowledge s.
Proof.
  unfold updateEnvironmentProfile. destruct (environmentId =? 0)%Z; reflexivity.
Qed.

Lemma syncKnowledgeToComponent_knowledge (agent : Z) (s : System) :
  agentKnowledge (syncKnowledgeToComponent agent s) = agentKnowledge s.
Proof.
  unfold syncKnowledgeToComponent. destruct (agentKnowledge s !! agent); reflexivity.
Qed.

Lemma adaptedTier_map (spared : KnowledgeEntry -> bool) (af af' w : Q)
    (tier : list (string * KnowledgeEntry)) :
  af == af' ->
  adaptedTier spared (1 - af' * w) tier
    (map (fun ke => if negb (spared (snd ke))
                    then (fst ke, discount af w (snd ke))
                    else ke) tier).
Proof.
  intros Hf. unfold adaptedTier.
  induction tier as [|ke tier IH]; cbn [map]; constructor; [|exact IH].
  destruct (spared (snd ke)); cbn [negb fst snd]; split; try reflexivity.
  unfold discounted, discount. cbn [confidence setConfidence]. split; [|reflexivity].
  rewrite Hf. reflexivity.
Qed.

Lemma adaptedTier_map_all (af af' w : Q) (tier : list (string * KnowledgeEntry)) :
  af == af' ->
  adaptedTier (fun _ => false) (1 - af' * w) tier
    (map (fun ke => (fst ke, discount af w (snd ke))) tier).
Proof.
  intros Hf. unfold adaptedTier.
  induction tier as [|ke tier IH]; cbn [map]; constructor; [|exact IH].
  cbn [fst snd]. split; [reflexivity|].
  unfold discounted, discount. cbn [confidence setConfidence]. split; [|reflexivity].
  rewrite Hf. reflexivity.
Qed.

Lemma adaptKnowledge_tiers (agent newEnvironmentId previousEnvironmentId : Z)
    (similarity : Q) (s : System) (ak : AgentKnowledge) :
  agentKnowledge s !! agent = Some ak ->
  similarity < 6 # 10 ->
  exists ak',
    agentKnowledge (adaptKnowledge agent newEnvironmentId previousEnvironmentId
                                   similarity s) !! agent = Some ak'
    /\ adaptedTier (isApplicableInEnvironment newEnvironmentId)
                   (1 - (1 - similarity) * (7 # 10)) (low ak) (low ak')
    /\ adaptedTier (isApplicableInEnvironment newEnvironmentId)
                   (1 - (1 - similarity) * (4 # 10)) (mid ak) (mid ak')
    /\ adaptedTier (fun _ => false)
                   (1 - (1 - similarity) * (1 # 10)) (high ak) (high ak').
Proof.
  intros Hak Hsim. unfold adaptKnowledge. rewrite Hak.
  assert (Haf : Qmax (1 # 10) (1 - similarity) == 1 - similarity).
  { destruct (Qmax_cases (1 # 10) (1 - similarity)) as [[H1 H2]|[H1 H2]]; [lra | exact H2]. }
  eexists. split.
  - cbn [agentKnowledge]. rewrite syncKnowledgeToComponent_knowledge.
    cbn [agentKnowledge]. apply lookup_insert_eq.
  - cbn [low mid high].
    split; [apply adaptedTier_map; exact Haf|].
    split; [apply adaptedTier_map; exact Haf|].
    apply adaptedTier_map_all; exact Haf.
Qed.

(** C4, as the code has it.  When [updateEnvironment] detects a new
    environment whose similarity with the current one is below 0.6, with
    [adaptationFactor = 1 - similarity]: every low-level entry that is not
    applicable in the new environment has its confidence multiplied by
    [1 - adaptationFactor * 0.7], every mid-level entry that is not
    applicable by [1 - adaptationFactor * 0.4], and every high-level entry
    (all of them are applicable) by [1 - adaptationFactor * 0.1]; low- and
    mid-level entries that are applicable are unchanged, and nothing but
    confidences changes.  When the environment is the same, or the
    similarity is at least 0.6, the knowledge of every agent is unchanged. *)
Theorem C4_adaptation_on_transition
    (now : Q) (v : AgentView) (o : Observations) (agent : Z) (currentTime : Q)
    (s : System) (ak : AgentKnowledge) :
  agentKnowledge s !! agent = Some ak ->
  let newEnvironmentId := detectEnvironmentId v in
  let current := currentEnvironmentId (componentOf s agent) in
  let similarity := calculateEnvironmentSimilarity (environments s) newEnvironmentId current in
  let s' := updateEnvironment now v o agent currentTime s in
  (newEnvironmentId <> current -> similarity < 6 # 10 ->
   exists ak',
     agentKnowledge s' !! agent = Some ak'
     /\ adaptedTier (isApplicableInEnvironment newEnvironmentId)
                    (1 - (1 - similarity) * (7 # 10)) (low ak) (low ak')
     /\ adaptedTier (isApplicableInEnvironment newEnvironmentId)
                    (1 - (1 - similarity) * (4 # 10)) (mid ak) (mid ak')
     /\ adaptedTier (fun _ => false)
                    (1 - (1 - similarity) * (1 # 10)) (high ak) (high ak'))
  /\ (newEnvironmentId = current \/ 6 # 10 <= similarity ->
      agentKnowledge s' = agentKnowledge s).
Proof.
  intros Hak newEnvironmentId current similarity s'.
  subst s'. unfold updateEnvironment.
  fold newEnvironmentId. fold current. fold similarity.
  rewrite updateEnvironmentProfile_knowledge.
  split.
  - intros Hne Hsim.
    destruct (Z.eqb_spec newEnvironmentId current) as [|_]; [contradiction|].
    cbn [negb].
    assert (Hlt : ltb similarity ENVIRONMENT_TRANSITION_THRESHOLD = true)
      by (apply ltb_spec; exact Hsim).
    rewrite Hlt.
    apply adaptKnowledge_tiers; [exact Hak | exact Hsim].
  - intros [Heq|Hsim].
    + destruct (Z.eqb_spec newEnvironmentId current) as [_|]; [|contradiction].
      reflexivity.
    + destruct (Z.eqb_spec newEnvironmentId current) as [_|_]; [reflexivity|].
      cbn [negb].
      assert (Hge : ltb similarity ENVIRONMENT_TRANSITION_THRESHOLD = false)
        by (apply ltb_false; exact Hsim).
      rewrite Hge. reflexivity.
Qed.

(** C4, witness: agent 7 of [Samples.travellerSystem] moves from
    environment 1 to the diagonal environment 4 (similarity 0.4, so
    [adaptationFactor = 0.6]); its high-level entry of confidence 0.5 is
    left with [0.5 * (1 - 0.6 * 0.1)]. *)
Lemma C4_adaptation_on_transition_witness :
  exists ak',
    agentKnowledge (updateEnvironment 0 Samples.farCorner Samples.noObservations
                                      7 10 Samples.travellerSystem) !! 7%Z = Some ak'
    /\ adaptedTier (fun _ => false) (1 - (1 - (4 # 10)) * (1 # 10))
                   [("knowledge-9", Samples.principle)] (high ak').
Proof.
  destruct (C4_adaptation_on_transition 0 Samples.farCorner Samples.noObservations
              7 10 Samples.travellerSystem
              (mkKnowledge [] [] [("knowledge-9", Samples.principle)]))
    as (Hadapt & _).
  - vm_compute. reflexivity.
  - destruct Hadapt as (ak' & Hak' & _ & _ & Hhigh).
    + vm_compute. discriminate.
    + vm_compute. reflexivity.
    + exists ak'. split; [exact Hak' | exact Hhigh].
Defined.

(** C4, counterexample: the high-level entry of agent 7 is applicable in
    the new environment 4, and the transition (similarity 0.4) still lowers
    its confidence, from 0.5 to 0.47. *)
Lemma C4_counterexample_applicable_entry_discounted :
  isApplicableInEnvironment 4 Samples.principle = true
  /\ confidence Samples.principle == 5 # 10
  /\ exists ak' e',
      agentKnowledge (updateEnvironment 0 Samples.farCorner Samples.noObservations
                                        7 10 Samples.travellerSystem) !! 7%Z = Some ak'
      /\ high ak' = [("knowledge-9", e')]
      /\ confidence e' == 47 # 100
      /\ ~ confidence e' == confidence Samples.principle.
Proof.
  split; [reflexivity|]. split; [reflexivity|].
  eexists. eexists. split; [vm_compute; reflexivity|].
  split; [reflexivity|]. split; [reflexivity|].
  vm_compute. discriminate.
Qed.

(** ** The short-term ring buffer *)

Section ShortTerm.
Import Hesms Scenarios.
Local Open Scope Z_scope.

Lemma record_components (agent : Z) (event : Event) (o : Occasion) (st : State) :
  components (fst (recordEpisodicMemory agent event o st))
  = writeShortTerm agent event (boostedImportance event (contextOf o)) (worldTime o)
                   (components st).
Proof. reflexivity. Qed.

Lemma writeShortTerm_index (agent : Z) (event : Event) (imp : Q) (time : Z)
    (em : EnhancedMemory) (i : Z) :
  readZ (shortTermCapacity em) agent = 10 ->
  readZ (shortTermIndex em) agent = i -> 0 <= i < 10 ->
  readZ (shortTermCapacity (writeShortTerm agent event imp time em)) agent = 10
  /\ readZ (shortTermIndex (writeShortTerm agent event imp time em)) agent = (i + 1) mod 10.
Proof.
  intros Hcap Hidx Hi. unfold writeShortTerm. cbn [shortTermCapacity shortTermIndex].
  split; [exact Hcap|].
  unfold readZ at 1. rewrite lookup_insert_eq. cbn [default].
  rewrite Hcap, Hidx. unfold rem. cbn [Z.eqb toUint8].
  rewrite Z.rem_mod_nonneg by lia.
  pose proof (Z.mod_pos_bound (i + 1) 10 ltac:(lia)).
  apply Z.mod_small. lia.
Qed.

Lemma writeShortTerm_outside (agent : Z) (event : Event) (imp : Q) (time : Z)
    (em : EnhancedMemory) (j : Z) :
  0 <= readZ (shortTermIndex em) agent < 10 ->
  j < agent * 10 \/ agent * 10 + 10 <= j ->
  shortTermSlot (writeShortTerm agent event imp time em) j = shortTermSlot em j.
Proof.
  intros Hi Hj. unfold shortTermSlot, writeShortTerm.
  cbn [shortTermIds shortTermTypes shortTermPositionsX shortTermPositionsY
       shortTermTimestamps shortTermImportance shortTermFidelity].
  rewrite !lookup_insert_ne by lia. reflexivity.
Qed.

Lemma writeShortTerm_slot (agent : Z) (event : Event) (imp : Q) (time : Z)
    (em : EnhancedMemory) :
  shortTermSlot (writeShortTerm agent event imp time em)
                (agent * 10 + readZ (shortTermIndex em) agent)
  = (Some (toUint32 (eventEntityId event)),
     Some (toUint8 (Some (eventEntityType event))),
     Some (x (eventPosition event)), Some (y (eventPosition event)),
     Some (toUint32 time), Some imp, Some (readQ (globalFidelity em) agent)).
Proof.
  unfold shortTermSlot, writeShortTerm.
  cbn [shortTermIds shortTermTypes shortTermPositionsX shortTermPositionsY
       shortTermTimestamps shortTermImportance shortTermFidelity].
  rewrite !lookup_insert_eq. reflexivity.
Qed.

(** The invariant of the ring: from write index [i], [n] calls later the
    index is [(i + n) mod 10], and no cell outside the ten slots of the
    agent has changed. *)
Lemma recordAll_ring (agent : Z) (calls : list (Event * Occasion)) :
  forall (st : State) (i : Z),
    readZ (shortTermCapacity (components st)) agent = 10 ->
    readZ (shortTermIndex (components st)) agent = i -> 0 <= i < 10 ->
    readZ (shortTermCapacity (components (recordAll agent calls st))) agent = 10
    /\ readZ (shortTermIndex (components (recordAll agent calls st))) agent
       = (i + Z.of_nat (length calls)) mod 10
    /\ forall j, j < agent * 10 \/ agent * 10 + 10 <= j ->
                 shortTermSlot (components (recordAll agent calls st)) j
                 = shortTermSlot (components st) j.
Proof.
  induction calls as [|[event o] calls IH]; intros st i Hcap Hidx Hi.
  - cbn [recordAll fold_left length Z.of_nat].
    split; [exact Hcap|]. split; [|reflexivity].
    rewrite Z.add_0_r, Z.mod_small by lia. exact Hidx.
  - change (recordAll agent ((event, o) :: calls) st)
      with (recordAll agent calls (fst (recordEpisodicMemory agent event o st))).
    set (st1 := fst (recordEpisodicMemory agent event o st)).
    destruct (writeShortTerm_index agent event (boostedImportance event (contextOf o))
                (worldTime o) (components st) i Hcap Hidx Hi) as [Hcap1 Hidx1].
    rewrite <- record_components in Hcap1, Hidx1. fold st1 in Hcap1, Hidx1.
    destruct (IH st1 ((i + 1) mod 10) Hcap1 Hidx1) as (Hc & Hx & Hout).
    { apply Z.mod_pos_bound. lia. }
    split; [exact Hc|]. split.
    + rewrite Hx. rewrite Zplus_mod_idemp_l. f_equal.
      cbn [length]. lia.
    + intros j Hj. rewrite (Hout j Hj). unfold st1. rewrite record_components.
      apply writeShortTerm_outside; [rewrite Hidx; exact Hi | exact Hj].
Qed.

End ShortTerm.

(** C9: for an agent whose short-term memory has the configured capacity
    10 and write index 0, after any number [n] of calls of
    [recordEpisodicMemory] the capacity is still 10, the write index is
    [n mod 10], within 0..9, and no cell outside the agent's ten slots
    [agent * 10 .. agent * 10 + 9] has been written; the next call fills
    slot [n mod 10] with its event, so the eleventh call ([n = 10])
    overwrites slot 0 and leaves slot 10 alone. *)
Theorem C9_short_term_ring_buffer
    (agent : Z) (calls : list (Hesms.Event * Hesms.Occasion)) (st : Hesms.State) :
  Hesms.readZ (Hesms.shortTermCapacity (Hesms.components st)) agent = 10%Z ->
  Hesms.readZ (Hesms.shortTermIndex (Hesms.components st)) agent = 0%Z ->
  let st' := Scenarios.recordAll agent calls st in
  let index' := Hesms.readZ (Hesms.shortTermIndex (Hesms.components st')) agent in
  Hesms.readZ (Hesms.shortTermCapacity (Hesms.components st')) agent = 10%Z
  /\ index' = (Z.of_nat (length calls) mod 10)%Z
  /\ (0 <= index' < 10)%Z
  /\ (forall j, (j < agent * 10 \/ agent * 10 + 10 <= j)%Z ->
                Scenarios.shortTermSlot (Hesms.components st') j
                = Scenarios.shortTermSlot (Hesms.components st) j)
  /\ (forall event o,
        let st'' := fst (Hesms.recordEpisodicMemory agent event o st') in
        Hesms.shortTermIds (Hesms.components st'')
          !! (agent * 10 + Z.of_nat (length calls) mod 10)%Z
        = Some (Hesms.toUint32 (Hesms.eventEntityId event))
        /\ Hesms.shortTermTimestamps (Hesms.components st'')
             !! (agent * 10 + Z.of_nat (length calls) mod 10)%Z
           = Some (Hesms.toUint32 (Hesms.worldTime o))
        /\ (length calls = 10%nat ->
            Hesms.shortTermIds (Hesms.components st'') !! (agent * 10 + 0)%Z
            = Some (Hesms.toUint32 (Hesms.eventEntityId event))
            /\ Scenarios.shortTermSlot (Hesms.components st'') (agent * 10 + 10)%Z
               = Scenarios.shortTermSlot (Hesms.components st) (agent * 10 + 10)%Z)).
Proof.
  intros Hcap Hidx st' index'.
  destruct (recordAll_ring agent calls st 0%Z Hcap Hidx ltac:(lia)) as (Hc & Hx & Hout).
  fold st' in Hc, Hx, Hout. fold index' in Hx. rewrite Z.add_0_l in Hx.
  assert (Hrange : (0 <= index' < 10)%Z).
  { rewrite Hx. apply Z.mod_pos_bound. lia. }
  split; [exact Hc|]. split; [exact Hx|]. split; [exact Hrange|].
  split; [exact Hout|].
  intros event o st''.
  pose proof (writeShortTerm_slot agent event
                (Hesms.boostedImportance event (Hesms.contextOf o))
                (Hesms.worldTime o) (Hesms.components st')) as Hslot.
  rewrite <- record_components in Hslot. fold st'' in Hslot.
  fold index' in Hslot. rewrite Hx in Hslot.
  unfold Scenarios.shortTermSlot in Hslot.
  injection Hslot as Hids _ _ _ Hts _ _.
  split; [exact Hids|]. split; [exact Hts|].
  intros Hlen. rewrite Hlen in Hids. split; [exact Hids|].
  unfold st''. rewrite record_components.
  rewrite writeShortTerm_outside; [apply Hout; lia | exact Hrange | lia].
Qed.

(** C9, witness: agent 1, freshly initialised, records ten sightings and
    then entity 77; the eleventh record lands in slot 0 of the agent (cell
    10 of the store), and cell 20, past the agent's ten slots, is as it
    was. *)
Lemma C9_short_term_ring_buffer_witness :
  Hesms.shortTermIds
    (Hesms.components
       (fst (Hesms.recordEpisodicMemory 1 (Scenarios.sighting 77 0 1 1)
               (Scenarios.calmAt 10)
               (Scenarios.recordAll 1 Scenarios.tenSightings Scenarios.freshState))))
    !! 10%Z = Some 77%Z
  /\ Scenarios.shortTermSlot
       (Hesms.components
          (fst (Hesms.recordEpisodicMemory 1 (Scenarios.sighting 77 0 1 1)
                  (Scenarios.calmAt 10)
                  (Scenarios.recordAll 1 Scenarios.tenSightings Scenarios.freshState))))
       20%Z
     = Scenarios.shortTermSlot (Hesms.components Scenarios.freshState) 20%Z.
Proof.
  destruct (C9_short_term_ring_buffer 1 Scenarios.tenSightings Scenarios.freshState)
    as (_ & _ & _ & _ & Hnext).
  - vm_compute. reflexivity.
  - vm_compute. reflexivity.
  - destruct (Hnext (Scenarios.sighting 77 0 1 1) (Scenarios.calmAt 10))
      as (_ & _ & Heleventh).
    destruct (Heleventh eq_refl) as [Hslot0 Hslot10].
    split; [exact Hslot0 | exact Hslot10].
Defined.

(** ** The proximity pattern of the semantic distiller *)

Section Distiller.
Import Hesms Scenarios.
Local Open Scope Q_scope.

Lemma filter_none {A : Type} (f : A -> bool) (l : list A) :
  (forall a, In a l -> f a = false) -> List.filter f l = [].
Proof.
  induction l as [|a l IH]; intros Hall; cbn; [reflexivity|].
  rewrite (Hall a) by (left; reflexivity).
  apply IH. intros b Hb. apply Hall. right. exact Hb.
Qed.

Lemma indexed_member (memories : list EpisodicMemory) (jm : nat * EpisodicMemory) :
  In jm (indexed memories) -> In (snd jm) memories.
Proof.
  intros Hin. apply list_elem_of_In in Hin. unfold indexed in Hin.
  apply elem_of_lookup_imap in Hin. destruct Hin as (i & m & -> & Hlook).
  cbn [snd]. apply list_elem_of_In. eapply list_elem_of_lookup_2. exact Hlook.
Qed.

(** Among memories none of which has the target kind, no memory has a
    neighbour. *)
Lemma proximityNeighbours_none (memories : list EpisodicMemory) (targetType : Z)
    (i : nat) (memory : EpisodicMemory) :
  (forall m, In m memories -> entityType m <> targetType) ->
  proximityNeighbours memories targetType i memory = [].
Proof.
  intros Hkind. unfold proximityNeighbours.
  rewrite filter_none; [reflexivity|].
  intros jm Hjm. apply indexed_member in Hjm. apply Hkind in Hjm.
  apply Z.eqb_neq in Hjm. rewrite Hjm.
  rewrite andb_false_r. reflexivity.
Qed.

Lemma proximityScan_none (memories : list EpisodicMemory) (targetType : Z)
    (sm : SemanticMemory) :
  (forall m, In m memories -> entityType m <> targetType) ->
  proximityScan memories targetType sm = (0%nat, [], sm).
Proof.
  intros Hkind. unfold proximityScan.
  generalize (indexed memories) as l. generalize (0%nat, @nil string, sm) as acc.
  intros acc l. revert acc.
  induction l as [|im l IH]; intros acc; cbn [fold_left]; [reflexivity|].
  destruct acc as [[n ev] sm'].
  rewrite proximityNeighbours_none by exact Hkind. apply IH.
Qed.

(** Called on resources with the obstacle kind for target, as
    [extractResourcePatterns] does, [_extractProximityPattern] changes
    nothing. *)
Lemma extractProximityPattern_resources (memories : list EpisodicMemory)
    (patternType rule : string) (sm : SemanticMemory) :
  extractProximityPattern (List.filter (fun m => (entityType m =? 0)%Z) memories)
                          1 patternType rule sm = sm.
Proof.
  unfold extractProximityPattern. rewrite proximityScan_none.
  - unfold gtb, ltb. 
    assert (H0 : Qle_bool (ofNat 0 / ofNat (length (List.filter
                   (fun m => (entityType m =? 0)%Z) memories))) (3 # 10) = true).
    { apply Qle_bool_iff. unfold Qdiv. rewrite Qmult_0_l. discriminate. }
    rewrite H0. reflexivity.
  - intros m Hm. apply filter_In in Hm. destruct Hm as [_ Hm].
    apply Z.eqb_eq in Hm. rewrite Hm. discriminate.
Qed.

Lemma mergePattern_types (ps ps' : list SemanticPattern) (p : PatternInput) :
  mergePattern ps p = Some ps' -> map type ps' = map type ps.
Proof.
  revert ps'. induction ps as [|q ps IH]; intros ps'; cbn; [discriminate|].
  destruct (bool_decide (type q = inType p)).
  - intros [= <-]. reflexivity.
  - destruct (mergePattern ps p) as [merged|]; cbn; [|discriminate].
    intros [= <-]. cbn. f_equal. apply IH. reflexivity.
Qed.

Lemma addPattern_types (p : PatternInput) (sm : SemanticMemory) (ty : string) :
  inType p <> ty ->
  hasPatternOfType ty (addPattern p sm) = hasPatternOfType ty sm.
Proof.
  intros Hne. unfold hasPatternOfType, addPattern. cbn [patterns].
  assert (Hvia : forall l, existsb (fun q => bool_decide (type q = ty)) l
                           = existsb (fun t => bool_decide (t = ty)) (map type l)).
  { induction l as [|q l IH]; cbn; [reflexivity | rewrite IH; reflexivity]. }
  destruct (mergePattern (patterns sm) p) as [merged|] eqn:Hm.
  - rewrite !Hvia. rewrite (mergePattern_types _ _ _ Hm). reflexivity.
  - rewrite existsb_app. cbn [existsb type].
    rewrite (bool_decide_eq_false_2 _ Hne). rewrite !orb_false_r. reflexivity.
Qed.

Lemma extractClusterPattern_types (memories : list EpisodicMemory)
    (patternType rule : string) (sm : SemanticMemory) (ty : string) :
  patternType <> ty ->
  hasPatternOfType ty (extractClusterPattern memories patternType rule sm)
  = hasPatternOfType ty sm.
Proof.
  intros Hne. unfold extractClusterPattern.
  destruct (fold_left _ (indexed memories) (0%nat, [])) as [clusterCount ev].
  destruct (gtb _ _); [|reflexivity].
  apply addPattern_types. exact Hne.
Qed.

End Distiller.

(** C3, what the code does: [extractResourcePatterns] hands
    [_extractProximityPattern] the resource records only, so its search
    for an obstacle among them never finds one; the call changes nothing,
    and a semantic memory without a 'resource_obstacle_proximity' pattern
    has none afterwards, whatever the records.  On
    [Scenarios.resourcesByObstacles] every one of the three resources has
    an obstacle one unit away at the same tick (the fraction of the
    specification is 1), and no proximity pattern is emitted. *)
Theorem C3_proximity_pattern_never_emitted :
  (forall (memories : list Hesms.EpisodicMemory) (sm : Hesms.SemanticMemory),
     Scenarios.hasPatternOfType "resource_obstacle_proximity"
       (Hesms.extractResourcePatterns memories sm)
     = Scenarios.hasPatternOfType "resource_obstacle_proximity" sm)
  /\ (3 <= length (List.filter (fun m => (Hesms.entityType m =? 0)%Z)
                               Scenarios.resourcesByObstacles))%nat
  /\ Scenarios.specProximityConfidence Scenarios.resourcesByObstacles == 1
  /\ Scenarios.hasPatternOfType "resource_obstacle_proximity"
       (Hesms.extractResourcePatterns Scenarios.resourcesByObstacles
                                      Hesms.newSemanticMemory) = false.
Proof.
  assert (Hgen : forall memories sm,
             Scenarios.hasPatternOfType "resource_obstacle_proximity"
               (Hesms.extractResourcePatterns memories sm)
             = Scenarios.hasPatternOfType "resource_obstacle_proximity" sm).
  { intros memories sm. unfold Hesms.extractResourcePatterns.
    destruct (length _ <? 3)%nat; [reflexivity|].
    rewrite extractProximityPattern_resources.
    apply extractClusterPattern_types. discriminate. }
  split; [exact Hgen|].
  split; [vm_compute; lia|].
  split; [vm_compute; reflexivity|].
  rewrite Hgen. reflexivity.
Qed.

(** ** The decision system and agents without long-term memories *)

Section DecisionFacts.
Import Hesms Scenarios.

Variable cos : Q -> Q.
Variable sin : Q -> Q.
Variable hypot : Q -> Q -> Q.
Variable twoPi : Q.
Variable random : nat -> Q.

Lemma record_longTermMemory (agent : Z) (event : Event) (o : Occasion) (st : State) :
  longTermMemory (manager (fst (recordEpisodicMemory agent event o st)))
  = longTermMemory (manager st).
Proof. reflexivity. Qed.

Lemma recordAll_longTermMemory (agent : Z) (calls : list (Event * Occasion)) (st : State) :
  longTermMemory (manager (recordAll agent calls st)) = longTermMemory (manager st).
Proof.
  revert st. induction calls as [|c calls IH]; intros st; [reflexivity|].
  change (recordAll agent (c :: calls) st)
    with (recordAll agent calls (fst (recordEpisodicMemory agent (fst c) (snd c) st))).
  rewrite IH. apply record_longTermMemory.
Qed.

(** Without a long-term list for the memory id of the agent, the body of
    the decision loop throws. *)
Lemma decideAgent_throws (w : Perception) (st : State) (agent : Z) (drawn0 : nat) :
  longTermMemory (manager st) !! readZ (memoryId (components st)) agent = None ->
  exists e, decideAgent cos sin hypot twoPi random w st agent drawn0 = Throw e.
Proof.
  intros Hnone. unfold decideAgent.
  destruct (collectEntities w agent) as [es|e]; cbn [cbind]; [|eexists; reflexivity].
  match goal with
  | |- context [cbind ?c _] => destruct c as [d1|e]
  end; cbn [cbind]; [|eexists; reflexivity].
  rewrite Hnone. eexists. reflexivity.
Qed.

Lemma decisionSystem_thrown (w : Perception) (st : State) (queried : list Z) (e : error) :
  fold_left (fun (acc : completion (gmap Z Goal * nat)) agent =>
               cbind acc (fun gn =>
                 cbind (decideAgent cos sin hypot twoPi random w st agent (snd gn))
                       (fun r => Normal (<[agent := fst r]> (fst gn), snd r))))
            queried (Throw e) = Throw e.
Proof. induction queried as [|a queried IH]; cbn; [reflexivity | exact IH]. Qed.

Lemma decisionSystem_throws (w : Perception) (st : State) (agent : Z) (queried : list Z) :
  longTermMemory (manager st) !! readZ (memoryId (components st)) agent = None ->
  agent ∈ queried ->
  exists e, decisionSystem cos sin hypot twoPi random w st queried = Throw e.
Proof.
  intros Hnone Hin. unfold decisionSystem.
  generalize (Normal (∅ : gmap Z Goal, 0%nat)) as acc.
  induction queried as [|a queried IH]; intros acc.
  - apply elem_of_nil in Hin. contradiction.
  - cbn [fold_left].
    destruct acc as [gn|e]; cbn [cbind]; [|exists e; apply decisionSystem_thrown].
    apply elem_of_cons in Hin. destruct Hin as [<-|Hin].
    + destruct (decideAgent_throws w st agent (snd gn) Hnone) as [e ->].
      cbn [cbind]. exists e. apply decisionSystem_thrown.
    + apply IH. exact Hin.
Qed.

(** What the claim says of missing data does hold for the semantic
    queries: without a semantic memory for the agent they answer with an
    empty memory and an empty list. *)
Lemma semantic_queries_default (st : State) (agent : Z) (contextType : option string) :
  agentMemoryCache (manager st) !! readZ (memoryId (components st)) agent = None ->
  getSemanticMemory agent st = newSemanticMemory
  /\ findRelevantPatterns agent contextType st = [].
Proof.
  intros Hnone. unfold findRelevantPatterns, getSemanticMemory.
  rewrite Hnone. split; reflexivity.
Qed.

(** For an agent without the component (capacity 0) the helper of the
    memory system answers [false]. *)
Lemma checkRecentlyRecorded_uninitialised (em : EnhancedMemory) (agent entityId : Z) :
  readZ (shortTermCapacity em) agent = 0%Z ->
  checkRecentlyRecorded em agent entityId = Normal false.
Proof. intros Hcap. unfold checkRecentlyRecorded. rewrite Hcap. reflexivity. Qed.

(** For an initialised agent it throws as soon as the entity asked about
    is the one just recorded. *)
Lemma checkRecentlyRecorded_throws (agent : Z) (event : Event) (o : Occasion) (st : State) :
  readZ (shortTermCapacity (components st)) agent = 10%Z ->
  (0 <= readZ (shortTermIndex (components st)) agent < 10)%Z ->
  (0 <= eventEntityId event < 4294967296)%Z ->
  checkRecentlyRecorded (components (fst (recordEpisodicMemory agent event o st)))
                        agent (eventEntityId event)
  = Throw (ReferenceError "memoryManager is not defined").
Proof.
  intros Hcap Hidx Hid. unfold checkRecentlyRecorded.
  rewrite record_components.
  replace (readZ (shortTermCapacity (writeShortTerm agent event
             (boostedImportance event (contextOf o)) (worldTime o) (components st))) agent)
    with 10%Z by (symmetry; exact Hcap).
  match goal with
  | |- (if ?b then _ else _) = _ => assert (Hb : b = true); [|rewrite Hb; reflexivity]
  end.
  apply existsb_exists.
  exists (Z.to_nat (readZ (shortTermIndex (components st)) agent)). split.
  - apply in_seq. change (Z.to_nat 10) with 10%nat. lia.
  - rewrite Z2Nat.id by lia. apply Z.eqb_eq.
    unfold writeShortTerm. cbn [shortTermIds].
    unfold readZ at 1. rewrite lookup_insert_eq. cbn [default]. unfold toUint32.
    apply Z.mod_small. exact Hid.
Qed.

End DecisionFacts.

(** C1, what the code does: for an agent initialised by
    [initializeAgentMemory] in a manager just constructed, and after any
    number of calls of [recordEpisodicMemory], the manager still has no
    long-term list for the agent's memory id (only [consolidateMemories]
    creates one), and the enhanced decision system, which calls [filter]
    on [longTermMemory.get(memoryId)], throws: for the agent alone, and
    for every query result the agent is in.  This holds whatever the
    perception, the options and the values of [Math.random]. *)
Theorem C1_decision_system_throws_without_long_term_memory
    (cos sin : Q -> Q) (hypot : Q -> Q -> Q) (twoPi : Q) (random : nat -> Q)
    (w : Hesms.Perception) (opts : Hesms.Options) (agent time now : Z)
    (calls : list (Hesms.Event * Hesms.Occasion)) (drawn0 : nat) :
  let st :=
    Scenarios.recordAll agent calls
      (Hesms.initializeAgentMemory agent time now
         (Hesms.mkState Scenarios.emptyComponents (Hesms.newMemoryManager opts))) in
  Hesms.longTermMemory (Hesms.manager st) = ∅
  /\ (exists e, Hesms.decideAgent cos sin hypot twoPi random w st agent drawn0
                = Throw e)
  /\ (forall queried, agent ∈ queried ->
        exists e, Hesms.decisionSystem cos sin hypot twoPi random w st queried
                  = Throw e).
Proof.
  intros st.
  assert (Hempty : Hesms.longTermMemory (Hesms.manager st) = ∅).
  { unfold st. rewrite recordAll_longTermMemory. reflexivity. }
  assert (Hnone : Hesms.longTermMemory (Hesms.manager st)
                    !! Hesms.readZ (Hesms.memoryId (Hesms.components st)) agent = None).
  { rewrite Hempty. apply lookup_empty. }
  split; [exact Hempty|].
  split; [apply decideAgent_throws; exact Hnone|].
  intros queried Hin. eapply decisionSystem_throws; eassumption.
Qed.

(** ** Retries and the synchronisation of episodic memories *)

Section SyncFacts.
Import Hesms Scenarios.

Variable msg : string.

Lemma post_unreachable (url : string) (r : Run) :
  post (unreachable msg) url r
  = (Throw (Rejected msg),
     mkRun (state r) (S (requests r)) (trace r ++ [Request url false])).
Proof. reflexivity. Qed.


Lemma retryLoop_failed_round {A : Type} (retryDelay : Z) (operation : M A)
    (retries attempt fuel : nat) (r r' : Run) (e : error) :
  operation r = (Throw e, r') ->
  retryLoop retryDelay operation retries attempt (S fuel) r
  = if (attempt =? retries - 1)%nat then (Throw e, r')
    else retryLoop retryDelay operation retries (S attempt) fuel
           (mkRun (state r') (requests r')
                  (trace r'
                   ++ [Warn ("HESMS: Retry " +:+ pretty (S attempt) +:+ "/"
                             +:+ pretty retries +:+ " failed: " +:+ errorMessage e)]
                   ++ [Sleep (retryDelay * Z.of_nat (S attempt))])).
Proof.
  intros Hop. cbn [retryLoop]. rewrite Hop.
  destruct (attempt =? retries - 1)%nat; [reflexivity|].
  unfold bind, emit. cbn [state requests trace].
  rewrite <- app_assoc. reflexivity.
Qed.



Lemma sort_nil_inv {A : Type} (cmp : A -> A -> Q) (l : list A) :
  sort cmp l = [] -> l = [].
Proof.
  destruct l as [|a l]; [reflexivity|]. cbn [sort].
  destruct (sort cmp l) as [|b l']; cbn; [discriminate|].
  destruct (Qle_bool (cmp a b) 0); discriminate.
Qed.

Lemma get_Some_key {V : Type} (m : list (Z * V)) (k : Z) (v : V) :
  get m k = Some v -> k ∈ keys m.
Proof.
  induction m as [|[k' v'] m IH]; cbn; [discriminate|].
  destruct (decide (k' = k)) as [->|Hne]; intros Hget.
  - apply elem_of_cons. left. reflexivity.
  - apply elem_of_cons. right. apply IH. exact Hget.
Qed.





(** With a batch size of 0 and a memory in the queue of [memId] the round
    does not return: the slicing loop does not end. *)
Lemma syncQueue_hangs (memId : Z) (r : Run) :
  default [] (get (episodicQueue (manager (state r))) memId) <> [] ->
  BATCH_SIZE (options (manager (state r))) = 0%nat ->
  syncQueue (unreachable msg) memId r = None.
Proof.
  intros Hsome Hzero. unfold syncQueue, bindLoop at 1, returns at 1, getManager.
  rewrite Hzero.
  destruct (sort (fun a b => importance b - importance a)
                 (default [] (get (episodicQueue (manager (state r))) memId)))
    as [|m ms] eqn:Hsorted.
  - apply sort_nil_inv in Hsorted. contradiction.
  - reflexivity.
Qed.



End SyncFacts.




(* ===================================================================== *)
(** * Part III: further properties of the code                            *)
(* ===================================================================== *)

(** ** Confidence and counters of a knowledge entry *)

Import Invariants.

Lemma ofNat_le (a b : nat) : (a <= b)%nat -> ofNat a <= ofNat b.
Proof. intros Hab. unfold ofNat. rewrite <- Zle_Qle. lia. Qed.

Lemma ratio_unit (a b : nat) :
  (a <= b)%nat -> (0 < b)%nat -> 0 <= ofNat a / ofNat b <= 1.
Proof.
  intros Hab Hb. pose proof (ofNat_pos b Hb) as Hpos.
  pose proof (ofNat_nonneg a) as Ha. pose proof (ofNat_le a b Hab) as Hle.
  split.
  - apply Qle_shift_div_l; [exact Hpos|]. lra.
  - apply Qle_shift_div_r; [exact Hpos|]. lra.
Qed.

Lemma capped_unit (q : Q) : 0 <= q -> 0 <= Qmin 1 q <= 1.
Proof.
  intros Hq. split; [apply Q.min_glb; lra | apply Q.le_min_l].
Qed.

Lemma ratio_nonneg (a : nat) (d : Q) : 0 < d -> 0 <= ofNat a / d.
Proof.
  intros Hd. apply Qle_shift_div_l; [exact Hd|].
  pose proof (ofNat_nonneg a). lra.
Qed.

Lemma updateConfidence_unit (e : KnowledgeEntry) :
  (successCount e <= applicationCount e)%nat ->
  0 <= confidence (updateConfidence e) <= 1.
Proof.
  intros Hcount. unfold updateConfidence.
  set (i := Qmin 1 (ofNat (length (instances e)) / ofNat ABSTRACTION_INSTANCE_THRESHOLD)).
  set (a := if (0 <? applicationCount e)%nat
            then ofNat (successCount e) / ofNat (applicationCount e) else 5 # 10).
  set (v := Qmin 1 (ofNat (length (environmentIds e)) / 3)).
  assert (Hi : 0 <= i <= 1).
  { apply capped_unit. apply ratio_nonneg. reflexivity. }
  assert (Hv : 0 <= v <= 1).
  { apply capped_unit. apply ratio_nonneg. reflexivity. }
  assert (Ha : 0 <= a <= 1).
  { unfold a. destruct (Nat.ltb_spec 0 (applicationCount e)) as [Hpos|_].
    - apply ratio_unit; assumption.
    - split; discriminate. }
  clearbody i a v.
  destruct (level e); cbv beta iota zeta delta [confidence setConfidence]; lra.
Qed.

Lemma updateConfidence_fields (e : KnowledgeEntry) :
  updateConfidence e = setConfidence (confidence (updateConfidence e)) e.
Proof. unfold updateConfidence. destruct (level e); reflexivity. Qed.

Lemma set_values_Forall {V : Type} (P : V -> Prop) (m : list (Z * V)) (k : Z) (v : V) :
  Forall P (values m) -> P v -> Forall P (values (set m k v)).
Proof.
  induction m as [|[k' v'] m IH]; cbn; intros Hall Hv.
  - constructor; [exact Hv | constructor].
  - apply Forall_cons in Hall. destruct Hall as [Hv' Hall].
    destruct (decide (k' = k)); cbn.
    + constructor; assumption.
    + constructor; [exact Hv' | apply IH; assumption].
Qed.

Lemma get_values_Forall {V : Type} (P : V -> Prop) (m : list (Z * V)) (k : Z) (v : V) :
  Forall P (values m) -> get m k = Some v -> P v.
Proof.
  induction m as [|[k' v'] m IH]; cbn; intros Hall Hget; [discriminate|].
  apply Forall_cons in Hall. destruct Hall as [Hv' Hall].
  destruct (decide (k' = k)); [congruence | apply IH; assumption].
Qed.

Lemma recordApplication_consistent (now : Q) (ok : bool) (environmentId : option Z)
    (e : KnowledgeEntry) :
  consistent e -> consistent (recordApplication now ok environmentId e).
Proof.
  intros [Hcount Hts]. unfold recordApplication.
  rewrite updateConfidence_fields. unfold consistent.
  cbn [setConfidence successCount applicationCount transferSuccess].
  split; [destruct ok; lia|].
  destruct (truthyId environmentId) as [z|]; [|exact Hts].
  apply set_values_Forall; [exact Hts|].
  destruct (get (transferSuccess e) z) as [t|] eqn:Hget;
    cbn [default from_option id success total].
  - pose proof (get_values_Forall _ _ _ _ Hts Hget) as [H1 H2].
    destruct ok; lia.
  - destruct ok; lia.
Qed.

Lemma addInstance_consistent (now : Q) (p : Pattern) (environmentId : option Z)
    (e : KnowledgeEntry) :
  consistent e -> consistent (addInstance now p environmentId e).
Proof.
  intros [Hcount Hts]. unfold addInstance. rewrite updateConfidence_fields.
  split; [exact Hcount | exact Hts].
Qed.

Lemma newKnowledgeEntry_consistent (newId : string) (now : Q) (p : Pattern)
    (lv : Level) (environmentId : option Z) :
  consistent (newKnowledgeEntry newId now p lv environmentId).
Proof. split; [cbn; lia | constructor]. Qed.

Lemma discount_consistent (factor weight : Q) (e : KnowledgeEntry) :
  consistent e -> consistent (discount factor weight e).
Proof. intros Hc. exact Hc. Qed.

(** X1: [addInstance] and [recordApplication] keep the counters of an entry
    consistent (no more successes than applications, overall and in every
    transfer record), and on such an entry the confidence they recompute
    lies between 0 and 1. *)
Theorem X1_confidence_stays_in_unit_interval
    (now : Q) (p : Pattern) (environmentId : option Z) (ok : bool)
    (e : KnowledgeEntry) :
  consistent e ->
  (consistent (addInstance now p environmentId e)
   /\ 0 <= confidence (addInstance now p environmentId e) <= 1)
  /\ (consistent (recordApplication now ok environmentId e)
      /\ 0 <= confidence (recordApplication now ok environmentId e) <= 1).
Proof.
  intros Hc. split; split.
  - apply addInstance_consistent; exact Hc.
  - unfold addInstance. cbn [confidence].
    apply updateConfidence_unit. apply Hc.
  - apply recordApplication_consistent; exact Hc.
  - unfold recordApplication. apply updateConfidence_unit.
    cbn [successCount applicationCount]. destruct Hc as [Hcount _].
    destruct ok; lia.
Qed.

(** X1, witness: the twice discounted entry of [Samples.shakenEntry] is
    consistent; a failed application in environment 1 leaves its
    confidence within the unit interval. *)
Lemma X1_confidence_stays_in_unit_interval_witness :
  0 <= confidence (recordApplication 5 false (Some 1%Z) Samples.shakenEntry) <= 1.
Proof.
  apply (X1_confidence_stays_in_unit_interval 5 Samples.resourcePattern
           (Some 1%Z) false Samples.shakenEntry).
  split; [cbn; lia | constructor].
Defined.

(** ** Counting applications *)

Lemma recordApplication_fields (now : Q) (ok : bool) (environmentId : option Z)
    (e : KnowledgeEntry) :
  let e' := recordApplication now ok environmentId e in
  applicationCount e' = S (applicationCount e)
  /\ successCount e' = (if ok then S (successCount e) else successCount e)
  /\ instances e' = instances e
  /\ environmentIds e' = environmentIds e
  /\ level e' = level e
  /\ pattern e' = pattern e
  /\ entryId e' = entryId e.
Proof.
  cbn zeta. unfold recordApplication. rewrite updateConfidence_fields.
  repeat split; reflexivity.
Qed.

Lemma recordApplication_confidence (now : Q) (ok : bool) (environmentId : option Z)
    (e : KnowledgeEntry) :
  confidence (recordApplication now ok environmentId e)
  = weightedConfidence (level e)
      (Qmin 1 (ofNat (length (instances e)) / ofNat ABSTRACTION_INSTANCE_THRESHOLD))
      (ofNat (if ok then S (successCount e) else successCount e)
       / ofNat (S (applicationCount e)))
      (Qmin 1 (ofNat (length (environmentIds e)) / 3)).
Proof.
  unfold recordApplication, updateConfidence, weightedConfidence.
  cbn [level instances environmentIds applicationCount successCount Nat.ltb Nat.leb].
  destruct (level e); reflexivity.
Qed.

Lemma successes_snoc (outcomes : list bool) (ok : bool) :
  successes (outcomes ++ [ok])
  = (successes outcomes + (if ok then 1 else 0))%nat.
Proof.
  unfold successes. rewrite List.filter_app, length_app.
  destruct ok; reflexivity.
Qed.

Lemma applyAll_snoc (now : Q) (environmentId : option Z) (outcomes : list bool)
    (ok : bool) (e : KnowledgeEntry) :
  applyAll now environmentId (outcomes ++ [ok]) e
  = recordApplication now ok environmentId (applyAll now environmentId outcomes e).
Proof. unfold applyAll. rewrite fold_left_app. reflexivity. Qed.

Lemma applyAll_fields (now : Q) (environmentId : option Z) (outcomes : list bool)
    (e : KnowledgeEntry) :
  let e' := applyAll now environmentId outcomes e in
  applicationCount e' = (applicationCount e + length outcomes)%nat
  /\ successCount e' = (successCount e + successes outcomes)%nat
  /\ instances e' = instances e
  /\ environmentIds e' = environmentIds e
  /\ level e' = level e
  /\ pattern e' = pattern e
  /\ entryId e' = entryId e.
Proof.
  cbn zeta. induction outcomes as [|ok outcomes IH] using rev_ind.
  - cbn. unfold successes. cbn. repeat split; lia.
  - rewrite applyAll_snoc, successes_snoc, length_app.
    destruct IH as (Ha & Hs & Hi & He & Hl & Hp & Hid).
    destruct (recordApplication_fields now ok environmentId
                (applyAll now environmentId outcomes e))
      as (Ha' & Hs' & Hi' & He' & Hl' & Hp' & Hid').
    rewrite Ha', Hs', Hi', He', Hl', Hp', Hid', Ha, Hs.
    repeat split; try assumption; [cbn; lia|].
    destruct ok; lia.
Qed.

(** X2: [n >= 1] applications of an entry, [k] of them successful, add [n]
    to its application count and [k] to its success count, leave its
    instances, environments, level, pattern and id alone, and leave the
    confidence at the weighted sum of its level with the application factor
    [(successCount + k) / (applicationCount + n)]. *)
Theorem X2_applications_are_counted
    (now : Q) (environmentId : option Z) (outcomes : list bool) (e : KnowledgeEntry) :
  outcomes <> [] ->
  let e' := applyAll now environmentId outcomes e in
  applicationCount e' = (applicationCount e + length outcomes)%nat
  /\ successCount e' = (successCount e + successes outcomes)%nat
  /\ instances e' = instances e
  /\ environmentIds e' = environmentIds e
  /\ level e' = level e /\ pattern e' = pattern e /\ entryId e' = entryId e
  /\ confidence e'
     = weightedConfidence (level e)
         (Qmin 1 (ofNat (length (instances e)) / ofNat ABSTRACTION_INSTANCE_THRESHOLD))
         (ofNat (successCount e + successes outcomes)
          / ofNat (applicationCount e + length outcomes))
         (Qmin 1 (ofNat (length (environmentIds e)) / 3)).
Proof.
  intros Hne. cbn zeta.
  destruct (applyAll_fields now environmentId outcomes e)
    as (Ha & Hs & Hi & He & Hl & Hp & Hid).
  repeat (split; [assumption|]).
  destruct outcomes as [|ok outcomes _] using rev_ind; [congruence|].
  rewrite applyAll_snoc, recordApplication_confidence.
  destruct (applyAll_fields now environmentId outcomes e)
    as (Ha' & Hs' & Hi' & He' & Hl' & _).
  rewrite Ha', Hs', Hi', He', Hl', successes_snoc, length_app.
  f_equal. f_equal; f_equal; destruct ok; cbn; lia.
Qed.

(** X2, witness: a new low-level entry of environment 1 applied five
    times, four times with success, has application factor 0.8 and
    confidence [0.3 * 0.8 + 0.1 / 3]. *)
Lemma X2_applications_are_counted_witness :
  let e := applyAll 0 (Some 1%Z) [true; true; false; true; true]
             (newKnowledgeEntry "knowledge-0-1" 0 Samples.resourcePattern Low (Some 1%Z)) in
  applicationCount e = 5%nat /\ successCount e = 4%nat
  /\ confidence e == (3 # 10) * (8 # 10) + (1 # 10) * (1 # 3).
Proof.
  cbn zeta.
  destruct (X2_applications_are_counted 0 (Some 1%Z) [true; true; false; true; true]
              (newKnowledgeEntry "knowledge-0-1" 0 Samples.resourcePattern Low (Some 1%Z)))
    as (Ha & Hs & _ & _ & _ & _ & _ & Hc); [discriminate|].
  split; [exact Ha|]. split; [exact Hs|].
  rewrite Hc. vm_compute. reflexivity.
Defined.

(** ** Transfer records *)

Lemma rate_unit (t : Transfer) :
  (1 <= total t)%nat -> (success t <= total t)%nat ->
  exists r, rate t = Num r /\ 0 <= r <= 1.
Proof.
  intros Htotal Hle. rewrite (rate_applied t Htotal).
  eexists. split; [reflexivity|]. apply ratio_unit; lia.
Qed.

Lemma sum_rates (ts : list Transfer) (s : Q) :
  Forall (fun t => (1 <= total t)%nat /\ (success t <= total t)%nat) ts ->
  exists s',
    fold_left (fun sum t => addRate sum (rate t)) ts (Num s) = Num s'
    /\ s <= s' <= s + ofNat (length ts).
Proof.
  revert s. induction ts as [|t ts IH]; intros s Hall.
  - exists s. split; [reflexivity|]. change (ofNat (length [])) with 0. lra.
  - apply Forall_cons in Hall. destruct Hall as [[Htotal Hle] Hall].
    destruct (rate_unit t Htotal Hle) as (r & Hr & Hr0 & Hr1).
    cbn [fold_left]. rewrite Hr. cbn [addRate].
    destruct (IH (s + r) Hall) as (s' & Hs' & Hlo & Hhi).
    exists s'. split; [exact Hs'|].
    assert (Hlen : ofNat (length (t :: ts)) == 1 + ofNat (length ts)).
    { unfold ofNat. cbn [length]. rewrite Nat2Z.inj_succ, <- Z.add_1_l.
      rewrite inject_Z_plus. reflexivity. }
    rewrite Hlen. split; lra.
Qed.

(** Consistent counters: every transfer record counts an application. *)
Lemma consistent_applied (e : KnowledgeEntry) : consistent e -> Spec.applied e.
Proof.
  intros [_ Hts]. unfold Spec.applied.
  eapply Forall_impl; [exact Hts|]. intros t [Htotal _]. exact Htotal.
Qed.

(** X3: on an entry with consistent counters that has transfer records,
    the average success rate that [isApplicableInEnvironment] computes is
    a number (no division by zero) between 0 and 1; for a mid-level
    entry not known in the environment, applicability is then the
    comparison of that average with the validation threshold 0.7. *)
Theorem X3_transfer_average_is_a_rate (environmentId : Z) (e : KnowledgeEntry) :
  consistent e ->
  values (transferSuccess e) <> [] ->
  exists a,
    averageSuccessRate (values (transferSuccess e)) = Num a
    /\ 0 <= a <= 1
    /\ (level e = Mid -> includes (environmentIds e) environmentId = false ->
        isApplicableInEnvironment environmentId e = geb a VALIDATION_THRESHOLD).
Proof.
  intros [_ Hts] Hne. unfold averageSuccessRate.
  destruct (sum_rates (values (transferSuccess e)) 0 Hts) as (s & Hs & Hlo & Hhi).
  rewrite Hs.
  destruct (Nat.eqb_spec (length (values (transferSuccess e))) 0) as [Hz|Hlen].
  { destruct (values (transferSuccess e)); [congruence | discriminate Hz]. }
  eexists. split; [reflexivity|].
  assert (Hpos : 0 < ofNat (length (values (transferSuccess e)))).
  { apply ofNat_pos. lia. }
  split; [split|].
  - apply Qle_shift_div_l; [exact Hpos | lra].
  - apply Qle_shift_div_r; [exact Hpos | lra].
  - intros Hmid Hno. unfold isApplicableInEnvironment, averageSuccessRate.
    rewrite Hmid, Hno, Hs.
    destruct (values (transferSuccess e)) as [|t ts]; [congruence|].
    destruct (Nat.eqb_spec (length (t :: ts)) 0) as [Hz|_]; [discriminate Hz|].
    reflexivity.
Qed.

(** X3, witness: a mid-level entry applied in environment 2 three times,
    twice with success, has the average rate 2/3 there. *)
Lemma X3_transfer_average_is_a_rate_witness :
  exists a,
    averageSuccessRate
      (values (transferSuccess
                 (applyAll 0 (Some 2%Z) [true; false; true]
                    (newKnowledgeEntry "knowledge-0-2" 0 Samples.resourcePattern Mid
                                       (Some 1%Z))))) = Num a
    /\ 0 <= a <= 1.
Proof.
  destruct (X3_transfer_average_is_a_rate 3
              (applyAll 0 (Some 2%Z) [true; false; true]
                 (newKnowledgeEntry "knowledge-0-2" 0 Samples.resourcePattern Mid
                                    (Some 1%Z))))
    as (a & Ha & Hunit & _).
  - split; [vm_compute; lia|]. vm_compute. repeat constructor.
  - discriminate.
  - exists a. split; [exact Ha | exact Hunit].
Defined.

(** ** Deduplication of low-level knowledge *)

Lemma sameKind_refl (c : Condition) : sameKind c c = true.
Proof.
  unfold sameKind. rewrite !bool_decide_eq_true_2 by reflexivity. reflexivity.
Qed.

Lemma patternsMatch_refl (p : Pattern) : patternsMatch p p = true.
Proof.
  unfold patternsMatch.
  rewrite bool_decide_eq_true_2 by reflexivity. rewrite Nat.eqb_refl. cbn [negb].
  apply forallb_forall. intros c Hin.
  destruct (find (sameKind c) (conditions p)) eqn:Hfind; [reflexivity|].
  pose proof (find_none _ _ Hfind c Hin) as Hno.
  rewrite sameKind_refl in Hno. discriminate.
Qed.

Lemma keys_set_present {K V : Type} `{EqDecision K} (m : list (K * V)) (k : K) (v : V) :
  k ∈ keys m -> keys (set m k v) = keys m.
Proof.
  induction m as [|[k' v'] m IH]; cbn.
  - intros Hin. apply elem_of_nil in Hin. contradiction.
  - intros Hin. destruct (decide (k' = k)) as [->|Hne]; cbn; [reflexivity|].
    f_equal. apply IH. apply elem_of_cons in Hin. destruct Hin; [congruence | assumption].
Qed.

Lemma elem_of_set_new {K V : Type} `{EqDecision K} (m : list (K * V)) (k : K) (v : V) :
  (k, v) ∈ set m k v.
Proof.
  induction m as [|[k' v'] m IH]; cbn.
  - apply elem_of_cons. left. reflexivity.
  - destruct (decide (k' = k)); apply elem_of_cons; [left; reflexivity | right; exact IH].
Qed.

Lemma findExisting_elem (matches : KnowledgeEntry -> bool)
    (tier : list (string * KnowledgeEntry)) (k : string) (e : KnowledgeEntry) :
  findExisting matches tier = Some (k, e) -> (k, e) ∈ tier /\ matches e = true.
Proof.
  unfold findExisting. intros Hfind. apply find_some in Hfind.
  destruct Hfind as [Hin Hm]. split; [apply list_elem_of_In; exact Hin | exact Hm].
Qed.

Lemma findExisting_found (matches : KnowledgeEntry -> bool)
    (tier : list (string * KnowledgeEntry)) (ke : string * KnowledgeEntry) :
  ke ∈ tier -> matches (snd ke) = true ->
  exists k e, findExisting matches tier = Some (k, e).
Proof.
  intros Hin Hm. unfold findExisting.
  destruct (find (fun ke => matches (snd ke)) tier) as [[k e]|] eqn:Hfind.
  - exists k, e. reflexivity.
  - apply list_elem_of_In in Hin.
    pose proof (find_none _ _ Hfind ke Hin) as Hno. cbn in Hno. congruence.
Qed.

Lemma addLowTier_holds_match (newId : string) (now : Q)
    (tier : list (string * KnowledgeEntry)) (p : Pattern) (environmentId : option Z) :
  exists ke, ke ∈ fst (addLowTier newId now tier p environmentId)
             /\ patternsMatch (pattern (snd ke)) p = true.
Proof.
  unfold addLowTier.
  destruct (findExisting (fun e => patternsMatch (pattern e) p) tier) as [[k e]|] eqn:Hfind.
  - apply findExisting_elem in Hfind. destruct Hfind as [_ Hm].
    exists (k, addInstance now p environmentId e). split; [apply elem_of_set_new|].
    cbn [snd]. destruct (addInstance_keeps now p environmentId e) as [_ ->]. exact Hm.
  - eexists. split; [apply elem_of_set_new|]. cbn [snd pattern newKnowledgeEntry].
    apply patternsMatch_refl.
Qed.

(** X4: a pattern is not stored twice.  When [addLowLevelKnowledge] is
    called again with the pattern of the previous call, whatever the
    environment, it creates no entry: the ids of the tier are unchanged,
    and the entry it returns is an entry of the tier with one more
    instance. *)
Theorem X4_same_pattern_adds_an_instance
    (id1 id2 : string) (now1 now2 : Q) (tier : list (string * KnowledgeEntry))
    (p : Pattern) (env1 env2 : option Z) :
  let tier1 := fst (addLowTier id1 now1 tier p env1) in
  let r := addLowTier id2 now2 tier1 p env2 in
  keys (fst r) = keys tier1
  /\ exists k e, (k, e) ∈ tier1
                 /\ snd r = addInstance now2 p env2 e
                 /\ (k, snd r) ∈ fst r
                 /\ length (instances (snd r)) = S (length (instances e)).
Proof.
  cbn zeta.
  destruct (addLowTier_holds_match id1 now1 tier p env1) as (ke & Hin & Hm).
  set (tier1 := fst (addLowTier id1 now1 tier p env1)) in *.
  destruct (findExisting_found (fun e => patternsMatch (pattern e) p) tier1 ke Hin Hm)
    as (k & e & Hfind).
  assert (Hr : addLowTier id2 now2 tier1 p env2
               = (set tier1 k (addInstance now2 p env2 e), addInstance now2 p env2 e)).
  { unfold addLowTier. rewrite Hfind. reflexivity. }
  rewrite Hr. cbn [fst snd].
  split.
  - apply keys_set_present. eapply findExisting_key. exact Hfind.
  - exists k, e. apply findExisting_elem in Hfind. destruct Hfind as [Hke _].
    split; [exact Hke|]. split; [reflexivity|]. split; [apply elem_of_set_new|].
    unfold addInstance, updateConfidence. cbn [level instances].
    destruct (level e); cbn [instances setConfidence]; rewrite length_app; cbn; lia.
Qed.

(** ** Environment ids *)



(** ** Environment profiles and their similarity *)

Import Profiles.

Lemma get_nonNegative (m : list (string * Q)) (k : string) :
  nonNegative m -> 0 <= default 0 (get m k).
Proof.
  unfold nonNegative. induction m as [|[k' v] m IH]; cbn; intros Hall.
  - lra.
  - apply Forall_cons in Hall. destruct Hall as [Hv Hall].
    destruct (decide (k' = k)); [exact Hv | apply IH; exact Hall].
Qed.

Lemma set_nonNegative (m : list (string * Q)) (k : string) (v : Q) :
  nonNegative m -> 0 <= v -> nonNegative (set m k v).
Proof.
  unfold nonNegative. induction m as [|[k' v'] m IH]; cbn; intros Hall Hv.
  - constructor; [exact Hv | constructor].
  - apply Forall_cons in Hall. destruct Hall as [Hv' Hall].
    destruct (decide (k' = k)).
    + constructor; assumption.
    + constructor; [exact Hv' | apply IH; assumption].
Qed.

Lemma movingAverage_nonNegative (m obs : list (string * Q)) :
  nonNegative m -> nonNegative obs -> nonNegative (movingAverage m obs).
Proof.
  unfold movingAverage. revert m.
  induction obs as [|[k v] obs IH]; intros m Hm Hobs; cbn [fold_left]; [exact Hm|].
  apply Forall_cons in Hobs. destruct Hobs as [Hv Hobs]. cbn [fst snd] in *.
  apply IH; [|exact Hobs].
  apply set_nonNegative; [exact Hm|].
  pose proof (get_nonNegative m k Hm) as Hget.
  assert (H1 : 0 <= default 0 (get m k) * (8 # 10)) by (apply Qmult_le_0_compat; lra).
  assert (H2 : 0 <= v * (2 # 10)) by (apply Qmult_le_0_compat; lra).
  lra.
Qed.

Lemma normalised_difference (a b : Q) :
  0 <= a -> 0 <= b -> 0 < Qmax a b ->
  0 <= 1 - Qabs (a - b) / Qmax a b <= 1.
Proof.
  intros Ha Hb Hmax.
  assert (Habs : 0 <= Qabs (a - b) <= Qmax a b).
  { split; [apply Qabs_nonneg|].
    apply Qabs_Qle_condition.
    pose proof (Q.le_max_l a b). pose proof (Q.le_max_r a b). split; lra. }
  assert (Hdiv : 0 <= Qabs (a - b) / Qmax a b <= 1).
  { split.
    - apply Qle_shift_div_l; [exact Hmax | lra].
    - apply Qle_shift_div_r; [exact Hmax | lra]. }
  lra.
Qed.

Lemma ofNat_S (n : nat) : ofNat (S n) == ofNat n + 1.
Proof.
  unfold ofNat. rewrite Nat2Z.inj_succ, <- Z.add_1_r, inject_Z_plus. reflexivity.
Qed.

Lemma compareFeatures_bound (a b : list (string * Q)) (acc : Q * nat) :
  nonNegative a -> nonNegative b ->
  0 <= fst acc <= ofNat (snd acc) ->
  0 <= fst (compareFeatures a b acc) <= ofNat (snd (compareFeatures a b acc)).
Proof.
  intros Ha Hb. unfold compareFeatures.
  generalize (fold_left (fun ks k => if bool_decide (k ∈ ks) then ks else ks ++ [k])
                        (keys a ++ keys b) []).
  intros allKeys. revert acc.
  induction allKeys as [|k allKeys IH]; intros acc Hacc; cbn [fold_left]; [exact Hacc|].
  apply IH.
  destruct (gtb (Qmax (default 0 (get a k)) (default 0 (get b k))) 0) eqn:Hgt;
    [|exact Hacc].
  apply ltb_spec in Hgt. cbn [fst snd]. rewrite ofNat_S.
  pose proof (normalised_difference _ _ (get_nonNegative a k Ha)
                (get_nonNegative b k Hb) Hgt).
  lra.
Qed.

(** X6: for profiles whose features are non-negative, the similarity that
    [calculateSimilarity] computes lies between 0 and 1; and [update] with
    non-negative observations keeps the features of a profile
    non-negative. *)
Theorem X6_similarity_is_a_fraction
    (now : Q) (o : Observations) (p otherProfile : EnvironmentProfile) :
  wellFormed p -> wellFormed otherProfile -> nonNegativeObservations o ->
  0 <= calculateSimilarity p otherProfile <= 1
  /\ wellFormed (updateProfile now o p).
Proof.
  intros (Hp1 & Hp2 & Hp3) (Hq1 & Hq2 & Hq3) (Ho1 & Ho2 & Ho3). split.
  - unfold calculateSimilarity.
    set (acc := compareFeatures _ _ _).
    assert (Hacc : 0 <= fst acc <= ofNat (snd acc)).
    { unfold acc. repeat (apply compareFeatures_bound; try assumption).
      cbn [fst snd]. change (ofNat 0) with 0. lra. }
    destruct (Nat.ltb_spec 0 (snd acc)) as [Hpos|_]; [|lra].
    pose proof (ofNat_pos _ Hpos) as Hn. split.
    + apply Qle_shift_div_l; [exact Hn | lra].
    + apply Qle_shift_div_r; [exact Hn | lra].
  - unfold wellFormed, updateProfile. cbn.
    repeat split; apply movingAverage_nonNegative; assumption.
Qed.

(** X6, witness: two profiles after one visit each, one in which a
    resource and an obstacle were seen, one in which two resources were
    seen. *)
Lemma X6_similarity_is_a_fraction_witness :
  0 <= calculateSimilarity
         (updateProfile 1 (mkObservations [("0", 1); ("1", 1)] [("entityDensity", 2 # 10)] [])
                        (newEnvironmentProfile 1 0))
         (updateProfile 2 (mkObservations [("0", 2)] [("entityDensity", 2 # 10)] [])
                        (newEnvironmentProfile 2 0)) <= 1.
Proof.
  apply (X6_similarity_is_a_fraction 0 Samples.noObservations).
  - repeat split; vm_compute;
      repeat (apply Forall_cons; split; [discriminate|]); constructor.
  - repeat split; vm_compute;
      repeat (apply Forall_cons; split; [discriminate|]); constructor.
  - repeat split; constructor.
Defined.

(** ** The cache of environment profiles *)

Section OrderedMapMore.
Context {K V : Type} `{EqDecision K}.

Lemma get_None_keys (m : list (K * V)) (k : K) : get m k = None -> k ∉ keys m.
Proof.
  induction m as [|[k' v'] m IH]; cbn; intros Hget.
  - apply not_elem_of_nil.
  - destruct (decide (k' = k)) as [->|Hne]; [discriminate|].
    apply not_elem_of_cons. split; [congruence | apply IH; exact Hget].
Qed.

Lemma set_absent (m : list (K * V)) (k : K) (v : V) :
  k ∉ keys m -> set m k v = m ++ [(k, v)].
Proof.
  induction m as [|[k' v'] m IH]; cbn; intros Hnot; [reflexivity|].
  apply not_elem_of_cons in Hnot. destruct Hnot as [Hne Hnot].
  destruct (decide (k' = k)); [congruence|]. f_equal. apply IH. exact Hnot.
Qed.

Lemma get_delete_ne (m : list (K * V)) (k k0 : K) :
  k <> k0 -> get (delete m k) k0 = get m k0.
Proof.
  intros Hne. induction m as [|[k' v'] m IH]; cbn; [reflexivity|].
  destruct (decide (k' = k)) as [->|Hne'].
  - destruct (decide (k = k0)); [contradiction | exact IH].
  - cbn. rewrite IH. reflexivity.
Qed.

Lemma Forall_set (P : K * V -> Prop) (m : list (K * V)) (k : K) (v : V) :
  Forall P m -> P (k, v) -> Forall P (set m k v).
Proof.
  induction m as [|[k' v'] m IH]; cbn; intros Hall Hv.
  - constructor; [exact Hv | constructor].
  - apply Forall_cons in Hall. destruct Hall as [Hv' Hall].
    destruct (decide (k' = k)).
    + constructor; assumption.
    + constructor; [exact Hv' | apply IH; assumption].
Qed.

Lemma Forall_delete (P : K * V -> Prop) (m : list (K * V)) (k : K) :
  Forall P m -> Forall P (delete m k).
Proof.
  induction m as [|[k' v'] m IH]; cbn; intros Hall; [constructor|].
  apply Forall_cons in Hall. destruct Hall as [Hv' Hall].
  destruct (decide (k' = k)); [apply IH; exact Hall|].
  constructor; [exact Hv' | apply IH; exact Hall].
Qed.

End OrderedMapMore.

(** The head of a list sorted by increasing [f] is the first element of
    the list at which [f] is least. *)
Lemma head_sort_first_minimum {A : Type} (f : A -> Q) (l : list A) :
  l <> [] ->
  exists before w after,
    l = before ++ w :: after
    /\ Forall (fun a => f w < f a) before
    /\ Forall (fun a => f w <= f a) after
    /\ head (sort (fun a b => f a - f b) l) = Some w.
Proof.
  induction l as [|x l IH]; [congruence|]. intros _.
  cbn [sort]. rewrite head_insertSorted.
  destruct l as [|x' l'].
  - exists [], x, []. cbn. repeat split; constructor.
  - destruct IH as (before & w & after & Heq & Hbefore & Hafter & Hw); [congruence|].
    rewrite Hw.
    destruct (Qle_bool (f x - f w) 0) eqn:E.
    + apply Qle_bool_iff in E.
      exists [], x, (x' :: l'). split; [reflexivity|]. split; [constructor|].
      split; [|reflexivity].
      rewrite Heq. apply Forall_app. split.
      * eapply Forall_impl; [exact Hbefore|]. cbn. intros a Ha. lra.
      * constructor; [lra|].
        eapply Forall_impl; [exact Hafter|]. cbn. intros a Ha. lra.
    + assert (Hlt : f w < f x).
      { apply Qnot_le_lt. intros Hle.
        assert (Hb : Qle_bool (f x - f w) 0 = true) by (apply Qle_bool_iff; lra).
        congruence. }
      exists (x :: before), w, after. split; [rewrite Heq; reflexivity|].
      split; [constructor; assumption|]. split; [assumption | reflexivity].
Qed.

Lemma snoc_split {A : Type} (before after l : list A) (w x : A) :
  before ++ w :: after = l ++ [x] ->
  (after = [] /\ before = l /\ w = x)
  \/ exists after', after = after' ++ [x] /\ l = before ++ w :: after'.
Proof.
  intros Heq. destruct after as [|y after' _] using rev_ind.
  - left. change (before ++ [w]) with (before ++ [w]) in Heq.
    apply app_inj_tail in Heq. destruct Heq as [-> ->]. repeat split.
  - right. exists after'.
    change (before ++ w :: after' ++ [y]) with (before ++ (w :: after') ++ [y]) in Heq.
    rewrite app_assoc in Heq. apply app_inj_tail in Heq. destruct Heq as [<- ->].
    split; reflexivity.
Qed.

(** X7: the cache of environment profiles.  With at most 5 profiles
    cached under distinct ids, none of them updated after the present
    clock value, [updateEnvironmentProfile] for an environment other than 0
    leaves at most 5 profiles under distinct ids, none updated after [now],
    and the environment just visited is among them, updated at [now]. *)
Theorem X7_visited_environment_is_cached
    (now : Q) (o : Observations) (environmentId : Z) (s : System) :
  environmentId <> 0%Z ->
  (length (environments s) <= MAX_ENVIRONMENT_CACHE)%nat ->
  NoDup (keys (environments s)) ->
  Forall (fun kp => lastUpdated (snd kp) <= now) (environments s) ->
  let s' := updateEnvironmentProfile now o environmentId s in
  (length (environments s') <= MAX_ENVIRONMENT_CACHE)%nat
  /\ NoDup (keys (environments s'))
  /\ Forall (fun kp => lastUpdated (snd kp) <= now) (environments s')
  /\ exists profile,
       get (environments s') environmentId = Some profile
       /\ lastUpdated profile = now
       /\ visitCount profile
          = match get (environments s) environmentId with
            | Some before => S (visitCount before)
            | None => 2%nat
            end.
Proof.
  intros Hid Hlen Hnd Hold. cbn zeta. unfold updateEnvironmentProfile.
  destruct (Z.eqb_spec environmentId 0) as [|_]; [contradiction|]. cbn [environments].
  destruct (get (environments s) environmentId) as [before|] eqn:Hget.
  - (* the environment is cached: its profile is updated in place *)
    pose proof (get_Some_key _ _ _ Hget) as Hin.
    split; [rewrite set_length_in by exact Hin; exact Hlen|].
    split; [apply set_NoDup; exact Hnd|].
    split; [apply Forall_set; [exact Hold | cbn; lra]|].
    eexists. rewrite get_set. destruct (decide (environmentId = environmentId)) as [_|];
      [|contradiction].
    split; [reflexivity|]. split; reflexivity.
  - (* a new profile is cached, and the oldest profile evicted if need be *)
    pose proof (get_None_keys _ _ Hget) as Hnot.
    set (profile := newEnvironmentProfile environmentId now).
    rewrite (set_absent _ _ profile Hnot).
    set (envs1 := environments s ++ [(environmentId, profile)]).
    assert (Hnd1 : NoDup (keys envs1)).
    { unfold envs1. rewrite <- (set_absent _ _ profile Hnot). apply set_NoDup. exact Hnd. }
    assert (Hold1 : Forall (fun kp => lastUpdated (snd kp) <= now) envs1).
    { apply Forall_app. split; [exact Hold|]. constructor; [cbn; lra | constructor]. }
    assert (Hget1 : get envs1 environmentId = Some profile).
    { unfold envs1. rewrite <- (set_absent _ _ profile Hnot), get_set.
      destruct (decide (environmentId = environmentId)); [reflexivity | contradiction]. }
    assert (Hlen1 : length envs1 = S (length (environments s))).
    { unfold envs1. rewrite length_app. cbn. lia. }
    assert (Hfinish : forall envs2,
               (length envs2 <= MAX_ENVIRONMENT_CACHE)%nat ->
               NoDup (keys envs2) ->
               Forall (fun kp => lastUpdated (snd kp) <= now) envs2 ->
               get envs2 environmentId = Some profile ->
               let envs := if has envs2 environmentId
                           then set envs2 environmentId (updateProfile now o profile)
                           else envs2 in
               (length envs <= MAX_ENVIRONMENT_CACHE)%nat
               /\ NoDup (keys envs)
               /\ Forall (fun kp => lastUpdated (snd kp) <= now) envs
               /\ exists p, get envs environmentId = Some p
                            /\ lastUpdated p = now /\ visitCount p = 2%nat).
    { intros envs2 Hlen2 Hnd2 Hold2 Hget2. cbn zeta. unfold has. rewrite Hget2.
      pose proof (get_Some_key _ _ _ Hget2) as Hin2.
      split; [rewrite set_length_in by exact Hin2; exact Hlen2|].
      split; [apply set_NoDup; exact Hnd2|].
      split; [apply Forall_set; [exact Hold2 | cbn; lra]|].
      eexists. rewrite get_set.
      destruct (decide (environmentId = environmentId)); [|contradiction].
      split; [reflexivity|]. split; reflexivity. }
    unfold size.
    destruct (Nat.ltb_spec MAX_ENVIRONMENT_CACHE (length envs1)) as [Hfull|Hroom].
    + destruct (head_sort_first_minimum (fun a => lastUpdated (snd a)) envs1)
        as (before & w & after & Heq & Hbefore & _ & Hhead).
      { unfold envs1. intros Hnil. apply app_eq_nil in Hnil. destruct Hnil; discriminate. }
      rewrite Hhead.
      assert (Hw : fst w <> environmentId /\ fst w ∈ keys envs1).
      { pose proof (eq_sym Heq) as Heq'. unfold envs1 in Heq'.
        destruct (snoc_split _ _ _ _ _ Heq') as [(Hafter & Hb & Hwx)|(after' & Hafter & Henv)].
        - exfalso. subst before w. destruct (environments s) as [|a l] eqn:Henvs.
          + rewrite Hlen1 in Hfull. unfold MAX_ENVIRONMENT_CACHE in Hfull.
            cbn [length] in Hfull. lia.
          + apply Forall_cons in Hbefore. destruct Hbefore as [Hlt _].
            apply Forall_cons in Hold. destruct Hold as [Hle _].
            cbn in Hlt. lra.
        - split.
          + intros Hw. apply Hnot. rewrite Henv. unfold keys. rewrite map_app.
            apply elem_of_app. right. cbn. apply elem_of_cons. left. symmetry. exact Hw.
          + rewrite Heq. unfold keys. rewrite map_app. apply elem_of_app. right.
            cbn. apply elem_of_cons. left. reflexivity. }
      destruct Hw as [Hne Hin].
      apply Hfinish.
      * pose proof (delete_length_in envs1 (fst w) Hin). unfold MAX_ENVIRONMENT_CACHE in *. lia.
      * apply delete_NoDup. exact Hnd1.
      * apply Forall_delete. exact Hold1.
      * rewrite get_delete_ne by exact Hne. exact Hget1.
    + apply Hfinish; assumption.
Qed.

(** X7, witness: agent 7 of [Samples.travellerSystem] visits environment 4
    at time 3 while no environment is cached. *)
Lemma X7_visited_environment_is_cached_witness :
  exists profile,
    get (environments (updateEnvironmentProfile 3 Samples.noObservations 4
                         Samples.travellerSystem)) 4%Z = Some profile
    /\ lastUpdated profile = 3 /\ visitCount profile = 2%nat.
Proof.
  destruct (X7_visited_environment_is_cached 3 Samples.noObservations 4
              Samples.travellerSystem) as (_ & _ & _ & profile & Hget & Hnow & Hcount).
  - discriminate.
  - cbn. unfold MAX_ENVIRONMENT_CACHE. lia.
  - constructor.
  - constructor.
  - exists profile. split; [exact Hget|]. split; [exact Hnow | exact Hcount].
Defined.

(** ** Learning from experience *)

Import Learning.

Lemma extracted_cases (p : Pattern) :
  extracted p ->
  exists experience environmentId,
    p = extractResourcePattern experience environmentId
    \/ p = extractObstaclePattern experience environmentId
    \/ p = extractHazardPattern experience environmentId
    \/ p = extractAgentPattern experience environmentId
    \/ p = extractRealityShiftPattern experience environmentId.
Proof.
  intros (experience & environmentId & Hin). exists experience, environmentId.
  unfold extractKnowledgePatterns in Hin. apply elem_of_app in Hin.
  destruct Hin as [Hin|Hin].
  - destruct (experienceType experience) as [|n|n].
    + apply list_elem_of_singleton in Hin. tauto.
    + destruct n as [[n|n|]|[n|n|]|]; try (apply elem_of_nil in Hin; contradiction);
        apply list_elem_of_singleton in Hin; tauto.
    + apply elem_of_nil in Hin. contradiction.
  - destruct (Hesms.realityShift (experienceContext experience)).
    + apply list_elem_of_singleton in Hin. tauto.
    + apply elem_of_nil in Hin. contradiction.
Qed.

(** The five pattern types of extracted patterns. *)
Lemma extracted_type (p : Pattern) :
  extracted p ->
  ptype p ∈ ["resource_location"; "obstacle_properties"; "hazard_behavior";
             "agent_interaction"; "reality_flux_effect"].
Proof.
  intros Hp. destruct (extracted_cases p Hp) as (ex & env & [->|[->|[->|[->| ->]]]]);
    cbn [ptype extractResourcePattern extractObstaclePattern extractHazardPattern
         extractAgentPattern extractRealityShiftPattern];
    repeat first [apply list_elem_of_here | apply list_elem_of_further].
Qed.

(** Two extracted patterns of one type match, whatever the experiences
    they are extracted from. *)
Lemma extracted_match (p q : Pattern) :
  extracted p -> extracted q -> ptype p = ptype q -> patternsMatch p q = true.
Proof.
  intros Hp Hq Htype.
  destruct (extracted_cases p Hp) as (ex & env & [->|[->|[->|[->| ->]]]]);
    destruct (extracted_cases q Hq) as (ex' & env' & [->|[->|[->|[->| ->]]]]);
    cbn [ptype extractResourcePattern extractObstaclePattern extractHazardPattern
         extractAgentPattern extractRealityShiftPattern] in Htype;
    try discriminate; reflexivity.
Qed.

Section OrderedMapShape.
Context {K V : Type} `{EqDecision K}.

Lemma set_cases (m : list (K * V)) (k : K) (v : V) :
  ((k ∉ keys m) /\ set m k v = m ++ [(k, v)])
  \/ exists before v0 after,
       m = before ++ (k, v0) :: after /\ set m k v = before ++ (k, v) :: after.
Proof.
  induction m as [|[k' v'] m IH]; cbn.
  - left. split; [apply not_elem_of_nil | reflexivity].
  - destruct (decide (k' = k)) as [->|Hne].
    + right. exists [], v', m. split; reflexivity.
    + destruct IH as [[Hnot Hset]|(before & v0 & after & Hm & Hset)].
      * left. split; [|rewrite Hset; reflexivity].
        apply not_elem_of_cons. split; [congruence | exact Hnot].
      * right. exists ((k', v') :: before), v0, after.
        rewrite Hset, Hm. split; reflexivity.
Qed.

Lemma set_middle (before after : list (K * V)) (k : K) (v v' : V) :
  NoDup (keys (before ++ (k, v) :: after)) ->
  set (before ++ (k, v) :: after) k v' = before ++ (k, v') :: after.
Proof.
  induction before as [|[k0 v0] before IH]; cbn; intros Hnd.
  - destruct (decide (k = k)); [reflexivity | contradiction].
  - apply NoDup_cons in Hnd. destruct Hnd as [Hnotin Hnd].
    destruct (decide (k0 = k)) as [->|Hne].
    + exfalso. apply Hnotin. unfold keys. rewrite map_app. apply elem_of_app. right.
      cbn. apply elem_of_cons. left. reflexivity.
    + f_equal. apply IH. exact Hnd.
Qed.

Lemma delete_sublist (m : list (K * V)) (k : K) : sublist (delete m k) m.
Proof.
  induction m as [|[k' v'] m IH]; cbn; [constructor|].
  destruct (decide (k' = k)); constructor; exact IH.
Qed.

End OrderedMapShape.

Lemma learned_sublist (tier tier' : list (string * KnowledgeEntry)) :
  sublist tier' tier -> learned tier -> learned tier'.
Proof.
  intros Hsub (Hkeys & Htypes & Hall). split; [|split].
  - eapply sublist_NoDup; [exact Hkeys | apply fmap_sublist; exact Hsub].
  - eapply sublist_NoDup; [exact Htypes | apply fmap_sublist; exact Hsub].
  - apply Forall_forall. intros ke Hke. rewrite Forall_forall in Hall.
    apply Hall. eapply elem_of_sublist; eassumption.
Qed.

Lemma makeRoom_sublist (capacity : nat) (tier : list (string * KnowledgeEntry)) :
  sublist (makeRoom capacity tier) tier.
Proof.
  unfold makeRoom. destruct (capacity <=? size tier)%nat; [|reflexivity].
  destruct (weakestEntry tier); [apply delete_sublist | reflexivity].
Qed.

Lemma learned_replace (before after : list (string * KnowledgeEntry))
    (k : string) (e e' : KnowledgeEntry) :
  learned (before ++ (k, e) :: after) ->
  pattern e' = pattern e ->
  learned (before ++ (k, e') :: after).
Proof.
  intros (Hkeys & Htypes & Hall) Hpat. unfold learned, keys, typesOf in *.
  rewrite !map_app in *. cbn [map fst snd] in *.
  split; [exact Hkeys|]. split; [rewrite Hpat; exact Htypes|].
  apply Forall_app in Hall. destruct Hall as [Hb Ha].
  apply Forall_cons in Ha. destruct Ha as [He Ha].
  apply Forall_app. split; [exact Hb|]. constructor; [|exact Ha].
  cbn [snd] in *. rewrite Hpat. exact He.
Qed.

Lemma learned_insert (tier : list (string * KnowledgeEntry))
    (k : string) (e : KnowledgeEntry) :
  learned tier -> extracted (pattern e) -> ptype (pattern e) ∉ typesOf tier ->
  learned (set tier k e).
Proof.
  intros (Hkeys & Htypes & Hall) He Hnew. split; [|split].
  - apply set_NoDup. exact Hkeys.
  - destruct (set_cases tier k e) as [[_ ->]|(before & v0 & after & Htier & ->)].
    + unfold typesOf. rewrite map_app. cbn [map snd].
      apply NoDup_app. split; [exact Htypes|]. split; [|apply NoDup_singleton].
      intros ty Hty Hin. apply list_elem_of_singleton in Hin. subst ty.
      apply Hnew. exact Hty.
    + rewrite Htier in Htypes, Hnew. unfold typesOf in *.
      rewrite map_app in *. cbn [map snd] in *.
      apply NoDup_app in Htypes. destruct Htypes as (Hb & Hdisj & Ha).
      apply NoDup_cons in Ha. destruct Ha as [_ Ha].
      apply NoDup_app. split; [exact Hb|]. split.
      * intros ty Hty Hin. apply elem_of_cons in Hin. destruct Hin as [->|Hin].
        -- apply Hnew. apply elem_of_app. left. exact Hty.
        -- apply (Hdisj ty Hty). apply elem_of_cons. right. exact Hin.
      * apply NoDup_cons. split; [|exact Ha].
        intros Hin. apply Hnew. apply elem_of_app. right. apply elem_of_cons.
        right. exact Hin.
  - apply Forall_set; [exact Hall | exact He].
Qed.

(** [addLowLevelKnowledge] with an extracted pattern keeps the tier
    learned. *)
Lemma learned_addLowTier (newId : string) (now : Q)
    (tier : list (string * KnowledgeEntry)) (p : Pattern) (environmentId : option Z) :
  learned tier -> extracted p ->
  learned (fst (addLowTier newId now tier p environmentId)).
Proof.
  intros Hl Hp. unfold addLowTier.
  destruct (findExisting (fun e => patternsMatch (pattern e) p) tier) as [[k e]|] eqn:Hfind.
  - cbn [fst]. apply findExisting_elem in Hfind. destruct Hfind as [Hin _].
    apply list_elem_of_split in Hin. destruct Hin as (before & after & ->).
    rewrite set_middle by apply Hl.
    eapply learned_replace; [exact Hl|].
    apply addInstance_keeps.
  - cbn [fst].
    assert (Hnew : ptype p ∉ typesOf tier).
    { intros Hin. unfold typesOf in Hin. apply list_elem_of_fmap in Hin.
      destruct Hin as (ke & Hty & Hke).
      assert (Hm : patternsMatch (pattern (snd ke)) p = true).
      { apply extracted_match; [|exact Hp | congruence].
        destruct Hl as (_ & _ & Hall). rewrite Forall_forall in Hall.
        apply Hall. exact Hke. }
      unfold findExisting in Hfind. apply list_elem_of_In in Hke.
      pose proof (find_none _ _ Hfind ke Hke) as Hno. cbn in Hno. congruence. }
    apply learned_insert.
    + eapply learned_sublist; [apply makeRoom_sublist | exact Hl].
    + exact Hp.
    + intros Hin. apply Hnew. cbn [pattern newKnowledgeEntry] in Hin.
      eapply elem_of_sublist; [exact Hin|].
      apply fmap_sublist. apply makeRoom_sublist.
Qed.

(** No entry falls below the minimum after [applyDecay], so the decay
    loop keeps every entry, with its id and pattern. *)
Lemma decayTier_map (currentTime : Q) (tier : list (string * KnowledgeEntry)) :
  decayTier currentTime tier
  = map (fun ke => (fst ke, applyDecay currentTime (snd ke))) tier.
Proof.
  unfold decayTier. induction tier as [|ke tier IH]; cbn [flat_map map]; [reflexivity|].
  rewrite IH.
  assert (Hkeep : belowMinimum (applyDecay currentTime (snd ke)) = false).
  { unfold belowMinimum. apply ltb_false. apply applyDecay_floor. }
  rewrite Hkeep. reflexivity.
Qed.

Lemma learned_decayTier (currentTime : Q) (tier : list (string * KnowledgeEntry)) :
  learned tier -> learned (decayTier currentTime tier).
Proof.
  intros (Hkeys & Htypes & Hall). rewrite decayTier_map.
  unfold learned, keys, typesOf in *. rewrite !map_map. cbn [fst snd].
  split; [exact Hkeys|]. split; [exact Htypes|].
  apply Forall_fmap. eapply Forall_impl; [exact Hall|]. intros ke He. exact He.
Qed.

Lemma learned_length (tier : list (string * KnowledgeEntry)) :
  learned tier -> (length tier <= 5)%nat.
Proof.
  intros (_ & Htypes & Hall).
  assert (Hsub : typesOf tier
                 ⊆+ ["resource_location"; "obstacle_properties"; "hazard_behavior";
                     "agent_interaction"; "reality_flux_effect"]).
  { apply NoDup_submseteq; [exact Htypes|]. intros ty Hin.
    unfold typesOf in Hin. apply list_elem_of_fmap in Hin.
    destruct Hin as (ke & -> & Hke). apply extracted_type.
    rewrite Forall_forall in Hall. apply Hall. exact Hke. }
  apply submseteq_length in Hsub. unfold typesOf in Hsub.
  rewrite length_map in Hsub. exact Hsub.
Qed.

Section LearningFacts.
Variable positionRef : Hesms.EpisodicMemory -> nat.
Variable newId : nat -> string.
Variable now : Q.

Lemma learn_learned (agent environmentId : Z) (ak : AgentKnowledge) (s : System)
    (patterns : list Pattern) (st : System * nat) :
  Forall extracted patterns ->
  taught agent ak s (fst st) ->
  taught agent ak s (fst (fold_left (learn newId now agent environmentId) patterns st)).
Proof.
  revert st. induction patterns as [|p patterns IH]; intros st Hall Hst;
    cbn [fold_left]; [exact Hst|].
  apply Forall_cons in Hall. destruct Hall as [Hp Hall].
  apply IH; [exact Hall|].
  destruct Hst as [(ak' & Hak & Hl & Hmid & Hhigh) Hframe].
  unfold taught, learn, addLowLevelKnowledge. cbn [fst]. rewrite Hak.
  cbn [fst agentKnowledge].
  split.
  - eexists. rewrite lookup_insert_eq. split; [reflexivity|]. cbn [low mid high].
    split; [apply learned_addLowTier; assumption|]. split; assumption.
  - intros other Hother. rewrite lookup_insert_ne by congruence. apply Hframe. exact Hother.
Qed.

Lemma extractKnowledgePatterns_extracted (experience : Experience) (environmentId : Z) :
  Forall extracted (extractKnowledgePatterns experience environmentId).
Proof.
  apply Forall_forall. intros p Hin. exists experience, environmentId. exact Hin.
Qed.

Lemma updateKnowledge_learned
    (memory : Hesms.State) (worldTime : Z) (agent : Z) (currentTime : Q)
    (s : System) (calls : nat) (ak : AgentKnowledge) :
  agentKnowledge s !! agent = Some ak ->
  learned (low ak) ->
  (exists ak',
     agentKnowledge (fst (updateKnowledge positionRef newId now memory worldTime agent
                                          currentTime s calls)) !! agent = Some ak'
     /\ learned (low ak')
     /\ (length (low ak') <= 5)%nat
     /\ mid ak' = decayTier currentTime (mid ak)
     /\ high ak' = decayTier currentTime (high ak))
  /\ forall other, other <> agent ->
        agentKnowledge (fst (updateKnowledge positionRef newId now memory worldTime agent
                                             currentTime s calls)) !! other
        = agentKnowledge s !! other.
Proof.
  intros Hak Hl. unfold updateKnowledge. rewrite Hak. cbn [fst].
  set (environmentId := currentEnvironmentId (componentOf s agent)).
  set (experiences := getRecentExperiences positionRef memory worldTime agent).
  assert (Hfold : forall st : System * nat,
             taught agent ak s (fst st) ->
             taught agent ak s
               (fst (fold_left
                       (fun st experience =>
                          fold_left (learn newId now agent environmentId)
                                    (extractKnowledgePatterns experience environmentId) st)
                       experiences st))).
  { induction experiences as [|experience experiences IH]; intros st Hst;
      cbn [fold_left]; [exact Hst|].
    apply IH. apply learn_learned; [apply extractKnowledgePatterns_extracted | exact Hst]. }
  destruct (Hfold (s, calls)) as [(ak1 & Hak1 & Hl1 & Hmid1 & Hhigh1) Hframe].
  { split; [|intros other _; reflexivity].
    exists ak. cbn [fst]. repeat split; try assumption; apply Hl. }
  rewrite syncKnowledgeToComponent_knowledge. unfold applyKnowledgeDecay.
  rewrite Hak1. cbn [agentKnowledge]. split.
  - rewrite lookup_insert_eq.
    eexists. split; [reflexivity|]. cbn [low mid high applyKnowledgeDecayTiers].
    split; [apply learned_decayTier; exact Hl1|].
    split; [apply learned_length; apply learned_decayTier; exact Hl1|].
    split; congruence.
  - intros other Hother. rewrite lookup_insert_ne by congruence. apply Hframe. exact Hother.
Qed.

(** X8: [updateKnowledge] keeps the low tier of the agent learned: entries
    under distinct ids whose patterns are extracted ones, no two of the
    same pattern type; hence at most 5 entries, far below the capacity of
    20.  It also decays the mid and high tiers and does nothing else to
    them. *)
Theorem X8_learning_keeps_one_entry_per_type
    (memory : Hesms.State) (worldTime : Z) (agent : Z) (currentTime : Q)
    (s : System) (calls : nat) (ak : AgentKnowledge) :
  agentKnowledge s !! agent = Some ak ->
  learned (low ak) ->
  exists ak',
    agentKnowledge (fst (updateKnowledge positionRef newId now memory worldTime agent
                                         currentTime s calls)) !! agent = Some ak'
    /\ learned (low ak')
    /\ (length (low ak') <= 5)%nat
    /\ mid ak' = decayTier currentTime (mid ak)
    /\ high ak' = decayTier currentTime (high ak).
Proof.
  intros Hak Hl.
  destruct (updateKnowledge_learned memory worldTime agent currentTime s calls ak Hak Hl)
    as [Hagent _].
  exact Hagent.
Qed.

End LearningFacts.

(** X8, witness: agent 1 of [Runs.pupil] learns from the six memories of
    [Runs.walk]: one entry for each of the four kinds of entity seen. *)
Lemma X8_learning_keeps_one_entry_per_type_witness :
  exists ak',
    agentKnowledge Runs.schooled !! 1%Z = Some ak'
    /\ learned (low ak') /\ (length (low ak') <= 5)%nat.
Proof.
  destruct (X8_learning_keeps_one_entry_per_type Runs.byEntity Runs.knowledgeId 7
              Runs.walk 7 1 7 Runs.pupil 0 (mkKnowledge [] [] []))
    as (ak' & Hak & Hl & Hlen & _).
  - reflexivity.
  - split; [constructor|]. split; constructor.
  - exists ak'. split; [exact Hak|]. split; [exact Hl | exact Hlen].
Defined.

(** ** Generalisation of learned knowledge *)

Import Principles.

Lemma typesOf_values (tier : list (string * KnowledgeEntry)) :
  typesOf tier = map (fun e => ptype (pattern e)) (values tier).
Proof. unfold typesOf, values. rewrite map_map. reflexivity. Qed.

Lemma same_type_once (tier : list (string * KnowledgeEntry))
    (sameType : list KnowledgeEntry) (ty : string) :
  NoDup (typesOf tier) -> sublist sameType (values tier) ->
  Forall (fun e => ptype (pattern e) = ty) sameType ->
  (length sameType <= 1)%nat.
Proof.
  intros Hnd Hsub Hall.
  assert (Hnd' : NoDup (map (fun e => ptype (pattern e)) sameType)).
  { eapply sublist_NoDup; [|apply fmap_sublist; exact Hsub].
    rewrite <- typesOf_values. exact Hnd. }
  destruct sameType as [|a [|b l]]; cbn [length]; try lia.
  exfalso. apply Forall_cons in Hall. destruct Hall as [Ha Hall].
  apply Forall_cons in Hall. destruct Hall as [Hb _].
  cbn [map] in Hnd'. apply NoDup_cons in Hnd'. destruct Hnd' as [Hnot _].
  apply Hnot. rewrite Ha, Hb. apply elem_of_cons. left. reflexivity.
Qed.

Lemma no_type_promotable (tier : list (string * KnowledgeEntry)) :
  NoDup (typesOf tier) -> forall ty, ~ promotable tier ty.
Proof.
  intros Hnd ty (sameType & sources & Hsub & Hty & H5 & _).
  pose proof (same_type_once tier sameType ty Hnd Hsub Hty). lia.
Qed.

Lemma generalizeLowToMid_distinct_types (newId : nat -> string) (now : Q)
    (ak : AgentKnowledge) (calls : nat) :
  NoDup (typesOf (low ak)) -> generalizeLowToMid newId now ak calls = (ak, calls).
Proof.
  intros Hnd. unfold generalizeLowToMid.
  rewrite (generalize_fold_unchanged newId now (low ak)).
  - destruct ak; reflexivity.
  - intros g Hg. exact Hg.
  - apply no_type_promotable. exact Hnd.
Qed.

Lemma updateAbstractionLevel_knowledge (agent : Z) (ak : AgentKnowledge) (s : System) :
  agentKnowledge (updateAbstractionLevel agent ak s) = agentKnowledge s.
Proof.
  unfold updateAbstractionLevel. destruct (_ =? 0)%nat; reflexivity.
Qed.

Lemma generalizeKnowledge_distinct_types
    (newId : nat -> string) (now : Q) (agent : Z) (currentTime : Q)
    (s : System) (calls : nat) (ak : AgentKnowledge) :
  agentKnowledge s !! agent = Some ak ->
  NoDup (typesOf (low ak)) ->
  (length (mid ak) < ABSTRACTION_INSTANCE_THRESHOLD)%nat ->
  generalizeLowToMid newId now ak calls = (ak, calls)
  /\ generalizeMidToHigh newId now (keys (environments s)) ak calls = (ak, calls)
  /\ agentKnowledge (fst (generalizeKnowledge newId now agent currentTime s calls))
     = agentKnowledge s
  /\ snd (generalizeKnowledge newId now agent currentTime s calls) = calls.
Proof.
  intros Hak Hnd Hmid.
  assert (Hlow : generalizeLowToMid newId now ak calls = (ak, calls))
    by (apply generalizeLowToMid_distinct_types; exact Hnd).
  assert (Hhigh : forall cached, generalizeMidToHigh newId now cached ak calls = (ak, calls)).
  { intros cached. unfold generalizeMidToHigh, size.
    destruct (Nat.ltb_spec (length (mid ak)) ABSTRACTION_INSTANCE_THRESHOLD);
      [reflexivity | lia]. }
  split; [exact Hlow|]. split; [apply Hhigh|].
  unfold generalizeKnowledge.
  destruct (ltb _ GENERALIZATION_INTERVAL); [split; reflexivity|].
  cbn [agentKnowledge environments]. rewrite Hak, Hlow. cbn [fst snd].
  rewrite Hhigh. cbn [fst snd]. split; [|reflexivity].
  rewrite updateAbstractionLevel_knowledge, syncKnowledgeToComponent_knowledge.
  cbn [agentKnowledge]. apply insert_id. exact Hak.
Qed.

(** X9: knowledge in which no two low-level entries have the same pattern
    type (as [updateKnowledge] keeps it) and fewer than 5 mid-level entries
    is never generalised: [generalizeLowToMid] and [generalizeKnowledge]
    leave the knowledge of every agent as it is and construct no entry. *)
Theorem X9_distinct_types_are_never_generalised
    (newId : nat -> string) (now : Q) (agent : Z) (currentTime : Q)
    (s : System) (calls : nat) (ak : AgentKnowledge) :
  agentKnowledge s !! agent = Some ak ->
  NoDup (typesOf (low ak)) ->
  (length (mid ak) < ABSTRACTION_INSTANCE_THRESHOLD)%nat ->
  generalizeLowToMid newId now ak calls = (ak, calls)
  /\ generalizeMidToHigh newId now (keys (environments s)) ak calls = (ak, calls)
  /\ agentKnowledge (fst (generalizeKnowledge newId now agent currentTime s calls))
     = agentKnowledge s
  /\ snd (generalizeKnowledge newId now agent currentTime s calls) = calls.
Proof.
  intros Hak Hnd Hmid.
  destruct (generalizeKnowledge_distinct_types newId now agent currentTime s calls ak
              Hak Hnd Hmid) as (Hlow & Hhigh & Hknow & Hcalls).
  split; [exact Hlow|]. split; [exact Hhigh|]. split; [exact Hknow | exact Hcalls].
Qed.

(** X9, witness: the knowledge that agent 1 learned in [Runs.schooled]
    is left alone by a generalisation at time 100. *)
Lemma X9_distinct_types_are_never_generalised_witness :
  agentKnowledge (fst (generalizeKnowledge Runs.knowledgeId 100 1 100 Runs.schooled 6))
  = agentKnowledge Runs.schooled.
Proof.
  destruct (agentKnowledge Runs.schooled !! 1%Z) as [ak|] eqn:Hak;
    [|vm_compute in Hak; discriminate].
  apply (X9_distinct_types_are_never_generalised Runs.knowledgeId 100 1 100
           Runs.schooled 6 ak Hak).
  - vm_compute in Hak. injection Hak as <-. vm_compute.
    repeat (apply NoDup_cons; split;
            [rewrite ?elem_of_cons, elem_of_nil; intros H;
             repeat destruct H as [H|H]; try discriminate; exact H|]).
    apply NoDup_nil. exact I.
  - vm_compute in Hak. injection Hak as <-. vm_compute. lia.
Defined.

(** ** Generalisation from the mid to the high tier *)

Lemma addHighTier_entries (newId : string) (now : Q) (cached : list Z)
    (tier : list (string * KnowledgeEntry)) (p : Pattern)
    (ke : string * KnowledgeEntry) :
  ke ∈ fst (addHighTier newId now cached tier p) ->
  continues tier (snd ke) \/ pattern (snd ke) = p.
Proof.
  unfold addHighTier.
  destruct (findExisting _ tier) as [[k existing]|] eqn:Hfind; cbn [fst]; intros Hin.
  - apply elem_of_set in Hin. destruct Hin as [->|Hin].
    + left. exists (k, existing). cbn [snd].
      split; [apply (findExisting_elem _ _ _ _ Hfind)|].
      destruct (pushMissing_keeps cached (addInstance now p None existing)) as [H1 H2].
      destruct (addInstance_keeps now p None existing) as [H3 H4].
      rewrite H1, H2, H3, H4. split; reflexivity.
    + left. exists ke. repeat split. exact Hin.
  - apply elem_of_set in Hin. destruct Hin as [->|Hin].
    + right. cbn [snd].
      destruct (pushMissing_keeps cached (newKnowledgeEntry newId now p High None))
        as [_ H2].
      destruct (addInstance_keeps now p None
                  (pushMissing cached (newKnowledgeEntry newId now p High None)))
        as [_ H3].
      rewrite H3, H2. reflexivity.
    + left. exists ke. repeat split.
      eapply elem_of_sublist; [exact Hin | apply makeRoom_sublist].
Qed.

Lemma dedup_fold (l acc : list Z) :
  NoDup acc ->
  NoDup (fold_left (fun acc z => if includes acc z then acc else acc ++ [z]) l acc)
  /\ forall z, z ∈ fold_left (fun acc z => if includes acc z then acc else acc ++ [z]) l acc
               -> z ∈ acc \/ z ∈ l.
Proof.
  revert acc. induction l as [|a l IH]; intros acc Hnd; cbn [fold_left].
  - split; [exact Hnd|]. intros z Hz. left. exact Hz.
  - destruct (includes acc a) eqn:Hinc.
    + destruct (IH acc Hnd) as [H1 H2]. split; [exact H1|].
      intros z Hz. destruct (H2 z Hz) as [|]; [left; assumption|].
      right. apply elem_of_cons. right. assumption.
    + assert (Hnd' : NoDup (acc ++ [a])).
      { apply NoDup_app. split; [exact Hnd|]. split; [|apply NoDup_singleton].
        intros z Hz Hin. apply list_elem_of_singleton in Hin. subst z.
        apply list_elem_of_In in Hz. apply includes_In in Hz. congruence. }
      destruct (IH (acc ++ [a]) Hnd') as [H1 H2]. split; [exact H1|].
      intros z Hz. destruct (H2 z Hz) as [Hacc|Hl].
      * apply elem_of_app in Hacc. destruct Hacc as [|Ha]; [left; assumption|].
        apply list_elem_of_singleton in Ha. subst z. right. apply elem_of_cons.
        left. reflexivity.
      * right. apply elem_of_cons. right. assumption.
Qed.

Lemma dedup_two (l : list Z) :
  (2 <= length (dedup l))%nat -> exists a b, a <> b /\ a ∈ l /\ b ∈ l.
Proof.
  intros Hlen. unfold dedup in Hlen.
  destruct (dedup_fold l [] NoDup_nil_2) as [Hnd Hin].
  destruct (fold_left _ l []) as [|a [|b r]]; cbn [length] in Hlen; try lia.
  exists a, b. split; [|split].
  - intros ->. apply NoDup_cons in Hnd. destruct Hnd as [Hnot _]. apply Hnot.
    apply elem_of_cons. left. reflexivity.
  - destruct (Hin a) as [Hnil|]; [apply elem_of_cons; left; reflexivity | | assumption].
    apply elem_of_nil in Hnil. contradiction.
  - destruct (Hin b) as [Hnil|];
      [apply elem_of_cons; right; apply elem_of_cons; left; reflexivity | | assumption].
    apply elem_of_nil in Hnil. contradiction.
Qed.

Section PrincipleFacts.
Variable newId : nat -> string.
Variable now : Q.
Variable cached : list Z.

Lemma promoteType_cases (st : list (string * KnowledgeEntry) * nat)
    (ty : string) (entries : list KnowledgeEntry) :
  promoteType newId now cached st (ty, entries) = st
  \/ ((3 <= length entries)%nat
      /\ (2 <= length (List.filter (fun e => geb (confidence e) (6 # 10)) entries))%nat
      /\ (2 <= length (dedup (flat_map environmentIds
                                (List.filter (fun e => geb (confidence e) (6 # 10))
                                             entries))))%nat
      /\ exists p,
          ptype p = ty /\ universalPrinciple p = true /\ plevel p = High
          /\ promoteType newId now cached st (ty, entries)
             = (fst (addHighTier (newId (snd st)) now cached (fst st) p), S (snd st))).
Proof.
  unfold promoteType, ABSTRACTION_CONFIDENCE_THRESHOLD.
  destruct (Nat.ltb_spec (length entries) 3) as [|H3]; [left; reflexivity|].
  set (confident := List.filter (fun e => geb (confidence e) (6 # 10)) entries).
  destruct (Nat.ltb_spec (length confident) 2) as [|H2]; [left; reflexivity|].
  destruct (Nat.ltb_spec (length (dedup (flat_map environmentIds confident))) 2)
    as [|He]; [left; reflexivity|].
  right. split; [exact H3|]. split; [exact H2|]. split; [exact He|].
  destruct st as [highTier calls].
  eexists. split; [|split; [|split; [|reflexivity]]]; reflexivity.
Qed.

Lemma thresholds_support (midTier : list (string * KnowledgeEntry))
    (ty : string) (entries : list KnowledgeEntry) :
  (5 <= length midTier)%nat ->
  (ty, entries) ∈ groupByType midTier ->
  (3 <= length entries)%nat ->
  (2 <= length (List.filter (fun e => geb (confidence e) (6 # 10)) entries))%nat ->
  (2 <= length (dedup (flat_map environmentIds
                         (List.filter (fun e => geb (confidence e) (6 # 10))
                                      entries))))%nat ->
  supportsPrinciple midTier ty.
Proof.
  intros H5 Hgroup H3 H2 He. apply groupByType_elem in Hgroup.
  split; [exact H5|].
  exists entries, (List.filter (fun e => geb (confidence e) (6 # 10)) entries).
  split; [rewrite Hgroup; apply filter_sublist|].
  split.
  { rewrite Hgroup. eapply Forall_impl; [apply filter_Forall|].
    cbn. intros e Hty. apply bool_decide_eq_true in Hty. exact Hty. }
  split; [exact H3|].
  split; [apply filter_sublist|].
  split.
  { eapply Forall_impl; [apply filter_Forall|].
    cbn. intros e Hc. apply geb_spec in Hc. exact Hc. }
  split; [exact H2|].
  destruct (dedup_two _ He) as (a & b & Hab & Ha & Hb).
  exists a, b. split; [exact Hab|]. split; assumption.
Qed.

Lemma promote_fold_invariant (midTier high0 : list (string * KnowledgeEntry))
    (groups : list (string * list KnowledgeEntry))
    (st : list (string * KnowledgeEntry) * nat) :
  (5 <= length midTier)%nat ->
  (forall g, g ∈ groups -> g ∈ groupByType midTier) ->
  (forall ke, ke ∈ fst st ->
              continues high0 (snd ke)
              \/ (universalPrinciple (pattern (snd ke)) = true
                  /\ supportsPrinciple midTier (ptype (pattern (snd ke))))) ->
  forall ke, ke ∈ fst (fold_left (promoteType newId now cached) groups st) ->
             continues high0 (snd ke)
             \/ (universalPrinciple (pattern (snd ke)) = true
                 /\ supportsPrinciple midTier (ptype (pattern (snd ke)))).
Proof.
  intros H5. revert st.
  induction groups as [|[ty entries] groups IH]; intros st Hgroups Hinv;
    cbn [fold_left]; [exact Hinv|].
  apply IH.
  - intros g Hg. apply Hgroups. apply elem_of_cons. right. exact Hg.
  - assert (Hg : (ty, entries) ∈ groupByType midTier).
    { apply Hgroups. apply elem_of_cons. left. reflexivity. }
    destruct (promoteType_cases st ty entries)
      as [->|(H3 & H2 & He & p & Hp & Hu & _ & ->)]; [exact Hinv|].
    cbn [fst]. intros ke Hke.
    apply addHighTier_entries in Hke. destruct Hke as [(ke0 & Hin0 & Hid & Hpat)|Hnew].
    + destruct (Hinv ke0 Hin0) as [(ke1 & Hin1 & Hid1 & Hpat1)|Hprom].
      * left. exists ke1. split; [exact Hin1|]. split; congruence.
      * right. rewrite <- Hpat. exact Hprom.
    + right. rewrite Hnew, Hp. split; [exact Hu|].
      eapply thresholds_support; eassumption.
Qed.

End PrincipleFacts.

(** X10: after [generalizeMidToHigh], every entry of the high tier either
    continues an entry the tier already held (same id and pattern) or is a
    universal principle of a pattern type that the mid tier supports: at
    least 5 mid-level entries, at least 3 of that type, at least 2 of these
    with confidence at least 0.6, listing at least two distinct
    environments between them.  The low and mid tiers are not touched. *)
Theorem X10_principle_needs_two_confident_sources
    (newId : nat -> string) (now : Q) (cached : list Z)
    (ak : AgentKnowledge) (calls : nat) :
  let ak' := fst (generalizeMidToHigh newId now cached ak calls) in
  low ak' = low ak
  /\ mid ak' = mid ak
  /\ forall ke : string * KnowledgeEntry,
       ke ∈ high ak' ->
       continues (high ak) (snd ke)
       \/ (universalPrinciple (pattern (snd ke)) = true
           /\ supportsPrinciple (mid ak) (ptype (pattern (snd ke)))).
Proof.
  cbv zeta. unfold generalizeMidToHigh, size.
  destruct (Nat.ltb_spec (length (mid ak)) ABSTRACTION_INSTANCE_THRESHOLD) as [Hlt|H5];
    cbn [fst high low mid]; (split; [reflexivity|]); (split; [reflexivity|]).
  - intros ke Hke. left. exists ke. repeat split. exact Hke.
  - apply promote_fold_invariant.
    + exact H5.
    + intros g Hg. exact Hg.
    + cbn [fst]. intros ke Hke. left. exists ke. repeat split. exact Hke.
Qed.

(** X10, witness: from the five mid-level entries of [Scholars.midTier],
    three of them confident entries of type [resource_location] learned in
    three environments, the generalisation creates one principle, of that
    type, and the mid tier supports it. *)
Lemma X10_principle_needs_two_confident_sources_witness :
  exists ke,
    high (fst (generalizeMidToHigh (fun n => "knowledge-high-" +:+ pretty n) 1 [1%Z; 2%Z]
                 Scholars.scholar 0))
    = [ke]
    /\ ptype (pattern (snd ke)) = "resource_location"
    /\ supportsPrinciple (mid Scholars.scholar) "resource_location"
    /\ mid (fst (generalizeMidToHigh (fun n => "knowledge-high-" +:+ pretty n) 1
                   [1%Z; 2%Z] Scholars.scholar 0))
       = mid Scholars.scholar.
Proof.
  destruct (X10_principle_needs_two_confident_sources
              (fun n => "knowledge-high-" +:+ pretty n) 1 [1%Z; 2%Z]
              Scholars.scholar 0)
    as (_ & Hmid & Hhigh).
  eexists. split; [vm_compute; reflexivity|]. split; [reflexivity|].
  split; [|exact Hmid].
  match goal with
  | |- supportsPrinciple _ ?ty =>
      destruct (Hhigh
                  (hd ("", Samples.principle)
                      (high (fst (generalizeMidToHigh
                                    (fun n => "knowledge-high-" +:+ pretty n) 1
                                    [1%Z; 2%Z] Scholars.scholar 0)))))
        as [(ke0 & Hin & _)|[_ Hs]]
  end.
  - vm_compute. apply elem_of_cons. left. reflexivity.
  - cbn in Hin. apply elem_of_nil in Hin. contradiction.
  - exact Hs.
Defined.

(** ** Universal conditions *)

Lemma splitString_cons (sep : Ascii.ascii) (s : string) :
  exists piece pieces, Text.splitString sep s = piece :: pieces.
Proof.
  induction s as [|c s IH]; cbn [Text.splitString].
  - eexists _, _. reflexivity.
  - destruct (Ascii.eqb c sep); [eexists _, _; reflexivity|].
    destruct IH as (piece & pieces & ->). eexists _, _. reflexivity.
Qed.

Lemma splitString_join (sep : Ascii.ascii) (p o : string) :
  Text.occurs sep p = false ->
  Text.splitString sep (p +:+ String sep o) = p :: Text.splitString sep o.
Proof.
  induction p as [|c p IH]; cbn [Text.occurs]; intros Hp.
  - change ("" +:+ String sep o) with (String sep o). cbn [Text.splitString].
    rewrite Ascii.eqb_refl. reflexivity.
  - apply orb_false_iff in Hp. destruct Hp as [Hc Hp].
    change (String c p +:+ String sep o) with (String c (p +:+ String sep o)).
    cbn [Text.splitString]. rewrite Hc, (IH Hp). reflexivity.
Qed.

Lemma splitString_plain (sep : Ascii.ascii) (s : string) :
  Text.occurs sep s = false -> Text.splitString sep s = [s].
Proof.
  induction s as [|c s IH]; cbn [Text.splitString Text.occurs]; intros Hs; [reflexivity|].
  apply orb_false_iff in Hs. destruct Hs as [Hc Hs].
  rewrite Hc, (IH Hs). reflexivity.
Qed.

(** A key is split back into the property and the operator it was made
    of, when neither holds a colon. *)
Lemma frequencyKey_split (c : Condition) :
  Text.occurs Text.colon (property c) = false ->
  Text.occurs Text.colon (operator c) = false ->
  Text.splitString Text.colon (frequencyKey c) = [property c; operator c].
Proof.
  intros Hp Ho. unfold frequencyKey.
  change (":" +:+ operator c) with (String Text.colon (operator c)).
  rewrite splitString_join by exact Hp. rewrite splitString_plain by exact Ho.
  reflexivity.
Qed.

Lemma frequency_get (cs : list Condition) (key : string) :
  get (fold_left (fun (frequency : list (string * nat)) condition =>
                    set frequency (frequencyKey condition)
                        (default 0 (get frequency (frequencyKey condition)) + 1)%nat)
                 cs []) key
  = match length (List.filter (fun c => bool_decide (frequencyKey c = key)) cs) with
    | O => None
    | S n => Some (S n)
    end.
Proof.
  induction cs as [|c cs IH] using rev_ind; [reflexivity|].
  rewrite fold_left_app, List.filter_app, length_app. cbn [fold_left List.filter].
  rewrite get_set. destruct (decide (frequencyKey c = key)) as [Heq|Hne].
  - rewrite bool_decide_eq_true_2 by exact Heq. rewrite Heq, IH. cbn [length].
    destruct (length (List.filter _ cs)) as [|n]; cbn [default from_option id];
      f_equal; lia.
  - rewrite bool_decide_eq_false_2 by exact Hne. rewrite IH. cbn [length].
    rewrite Nat.add_0_r. reflexivity.
Qed.

Lemma frequency_NoDup (cs : list Condition) :
  NoDup (keys (fold_left (fun (frequency : list (string * nat)) condition =>
                            set frequency (frequencyKey condition)
                                (default 0 (get frequency (frequencyKey condition)) + 1)%nat)
                         cs [])).
Proof.
  induction cs as [|c cs IH] using rev_ind; [constructor|].
  rewrite fold_left_app. cbn [fold_left]. apply set_NoDup. exact IH.
Qed.

(** X11: every condition of [findUniversalConditions] has the value
    [null], is marked universal, and stands for a key under which at least
    70% as many conditions are counted as there are entries; it keeps the
    property and the operator of a condition counted under that key when
    neither of them holds a colon. *)
Theorem X11_universal_conditions_are_frequent
    (entries : list KnowledgeEntry) (c : Condition) :
  c ∈ findUniversalConditions entries ->
  value c = Some VNull /\ valueRange c = None /\ threshold c = None
  /\ universal c = true /\ generalized c = false
  /\ exists entry c0,
       entry ∈ entries /\ c0 ∈ conditions (pattern entry)
       /\ ofNat (length entries) * (7 # 10)
          <= ofNat (occurrences (frequencyKey c0) entries)
       /\ (Text.occurs Text.colon (property c0) = false ->
           Text.occurs Text.colon (operator c0) = false ->
           property c = property c0 /\ operator c = operator c0).
Proof.
  unfold findUniversalConditions. intros Hin.
  apply list_elem_of_fmap in Hin. destruct Hin as ([key count] & -> & Hkc).
  cbn [value valueRange threshold universal generalized property operator fst].
  repeat (split; [reflexivity|]).
  apply list_elem_of_In in Hkc. apply filter_In in Hkc. destruct Hkc as [Hkc Hfreq].
  apply list_elem_of_In in Hkc. cbn [snd] in Hfreq. apply geb_spec in Hfreq.
  apply elem_of_get in Hkc; [|apply frequency_NoDup].
  rewrite frequency_get in Hkc.
  destruct (List.filter (fun c => bool_decide (frequencyKey c = key))
                        (flat_map (fun entry => conditions (pattern entry)) entries))
    as [|c0 rest] eqn:Hfilter; [discriminate|].
  assert (Hc0 : In c0 (List.filter (fun c => bool_decide (frequencyKey c = key))
                         (flat_map (fun entry => conditions (pattern entry)) entries))).
  { rewrite Hfilter. left. reflexivity. }
  apply filter_In in Hc0. destruct Hc0 as [Hflat Hkey].
  apply bool_decide_eq_true in Hkey. apply in_flat_map in Hflat.
  destruct Hflat as (entry & Hentry & Hcond).
  exists entry, c0. split; [apply list_elem_of_In; exact Hentry|].
  split; [apply list_elem_of_In; exact Hcond|]. split.
  - unfold occurrences. rewrite Hkey, Hfilter.
    cbn [length] in Hkc. injection Hkc as <-. exact Hfreq.
  - intros Hp Ho. rewrite <- Hkey, frequencyKey_split by assumption.
    split; reflexivity.
Qed.

(** X11, witness: the three resource entries of [Scholars.midTier] share
    the condition on the quadrant, which becomes the one universal
    condition. *)
Lemma X11_universal_conditions_are_frequent_witness :
  exists c,
    findUniversalConditions (take 3 (values Scholars.midTier)) = [c]
    /\ property c = "quadrant" /\ operator c = "equals" /\ value c = Some VNull.
Proof.
  eexists. split; [vm_compute; reflexivity|]. split; [reflexivity|].
  split; [reflexivity|].
  apply (X11_universal_conditions_are_frequent (take 3 (values Scholars.midTier))).
  vm_compute. apply elem_of_cons. left. reflexivity.
Defined.

(** ** The abstraction level *)




(** ** Applicable knowledge *)

Import Decisions Ranking.

Section SortOrder.
Context {A : Type}.
Variable cmp : A -> A -> Q.

Lemma insertSorted_elem (a x : A) (l : list A) :
  x ∈ insertSorted cmp a l <-> x = a \/ x ∈ l.
Proof.
  induction l as [|y l IH]; cbn [insertSorted].
  - rewrite list_elem_of_singleton, elem_of_nil. tauto.
  - destruct (Qle_bool (cmp a y) 0); rewrite !elem_of_cons; [tauto|].
    rewrite IH. tauto.
Qed.

Lemma sort_elem (x : A) (l : list A) : x ∈ sort cmp l <-> x ∈ l.
Proof.
  induction l as [|a l IH]; cbn [sort]; [reflexivity|].
  rewrite insertSorted_elem, elem_of_cons, IH. reflexivity.
Qed.

Lemma insertSorted_length (a : A) (l : list A) :
  length (insertSorted cmp a l) = S (length l).
Proof.
  induction l as [|y l IH]; cbn [insertSorted]; [reflexivity|].
  destruct (Qle_bool (cmp a y) 0); cbn [length]; [reflexivity|].
  rewrite IH. reflexivity.
Qed.

Lemma sort_length (l : list A) : length (sort cmp l) = length l.
Proof.
  induction l as [|a l IH]; cbn [sort]; [reflexivity|].
  rewrite insertSorted_length, IH. reflexivity.
Qed.

End SortOrder.

Lemma insertSorted_descending {A : Type} (f : A -> Q) (a : A) (l : list A) :
  descending f l -> descending f (insertSorted (fun x y => f y - f x) a l).
Proof.
  induction l as [|y l IH]; cbn [insertSorted descending].
  - intros _. split; [constructor | exact I].
  - intros [Hy Hl]. destruct (Qle_bool (f y - f a) 0) eqn:E.
    + apply Qle_bool_iff in E. cbn [descending]. split; [|split; assumption].
      constructor; [lra|]. eapply Forall_impl; [exact Hy|]. cbn. intros b Hb. lra.
    + assert (Hlt : f a < f y).
      { apply Qnot_le_lt. intros Hle.
        assert (Hb : Qle_bool (f y - f a) 0 = true) by (apply Qle_bool_iff; lra).
        congruence. }
      cbn [descending]. split; [|apply IH; exact Hl].
      apply Forall_forall. intros b Hb. apply insertSorted_elem in Hb.
      destruct Hb as [->|Hb]; [lra|]. rewrite Forall_forall in Hy. apply Hy. exact Hb.
Qed.

Lemma sort_descending {A : Type} (f : A -> Q) (l : list A) :
  descending f (sort (fun x y => f y - f x) l).
Proof.
  induction l as [|a l IH]; cbn [sort]; [exact I|].
  apply insertSorted_descending. exact IH.
Qed.

Lemma descending_map {A B : Type} (f : A -> Q) (g : B -> Q) (h : A -> B) (l : list A) :
  (forall a, a ∈ l -> g (h a) == f a) ->
  descending f l -> descending g (map h l).
Proof.
  induction l as [|a l IH]; cbn [map descending]; intros Heq; [tauto|].
  intros [Ha Hl]. split.
  - apply Forall_fmap. apply Forall_forall. intros b Hb. cbn.
    rewrite Forall_forall in Ha.
    rewrite (Heq a) by (apply elem_of_cons; left; reflexivity).
    rewrite (Heq b) by (apply elem_of_cons; right; exact Hb).
    apply Ha. exact Hb.
  - apply IH; [|exact Hl]. intros b Hb. apply Heq. apply elem_of_cons. right. exact Hb.
Qed.

Lemma countMatches_bound (conditions : list Condition) (context : DecisionContext)
    (n : nat) :
  countMatches conditions context = Normal n -> (n <= length conditions)%nat.
Proof.
  revert n. induction conditions as [|c conditions IH]; intros n; cbn [countMatches length].
  - intros [= <-]. lia.
  - destruct (checkCondition c context) as [b|]; [|discriminate].
    destruct (countMatches conditions context) as [m|]; [|discriminate].
    intros [= <-]. specialize (IH m eq_refl). destruct b; lia.
Qed.

(** The match confidence is the confidence scaled down by the share of
    the conditions that match. *)
Lemma calculateMatchConfidence_bound (context : DecisionContext) (e : KnowledgeEntry)
    (m : Q) :
  0 <= confidence e ->
  calculateMatchConfidence context e = Normal m ->
  0 <= m <= confidence e.
Proof.
  intros Hc. unfold calculateMatchConfidence.
  destruct (countMatches (conditions (pattern e)) context) as [n|] eqn:Hn; [|discriminate].
  apply countMatches_bound in Hn.
  destruct (Nat.ltb_spec 0 (length (conditions (pattern e)))) as [Hpos|_];
    intros [= <-]; [|lra].
  destruct (ratio_unit n (length (conditions (pattern e))) Hn Hpos) as [H0 H1].
  split; [apply Qmult_le_0_compat; assumption|].
  assert (H : confidence e * (ofNat n / ofNat (length (conditions (pattern e))))
              <= confidence e * 1).
  { rewrite !(Qmult_comm (confidence e)). apply Qmult_le_compat_r; assumption. }
  lra.
Qed.

Lemma collectMatches_sound (tier : list (string * KnowledgeEntry))
    (context : DecisionContext) (matches : list (string * KnowledgeEntry * Q)) :
  collectMatches tier context = Normal matches ->
  Forall (fun kem =>
            fst kem ∈ tier
            /\ MINIMUM_KNOWLEDGE_CONFIDENCE <= confidence (snd (fst kem))
            /\ isApplicableInEnvironment (environmentId context) (snd (fst kem)) = true
            /\ calculateMatchConfidence context (snd (fst kem)) = Normal (snd kem)
            /\ VALIDATION_THRESHOLD <= snd kem) matches.
Proof.
  revert matches. induction tier as [|[k entry] tier IH]; intros matches;
    cbn [collectMatches].
  - intros [= <-]. constructor.
  - assert (Hrest : forall ms, collectMatches tier context = Normal ms ->
                Forall (fun kem =>
                          fst kem ∈ (k, entry) :: tier
                          /\ MINIMUM_KNOWLEDGE_CONFIDENCE <= confidence (snd (fst kem))
                          /\ isApplicableInEnvironment (environmentId context)
                                                       (snd (fst kem)) = true
                          /\ calculateMatchConfidence context (snd (fst kem))
                             = Normal (snd kem)
                          /\ VALIDATION_THRESHOLD <= snd kem) ms).
    { intros ms Hms. eapply Forall_impl; [apply IH; exact Hms|].
      cbn. intros kem (H1 & H2). split; [apply elem_of_cons; right; exact H1 | exact H2]. }
    destruct (ltb (confidence entry) MINIMUM_KNOWLEDGE_CONFIDENCE) eqn:Hmin;
      [apply Hrest|].
    destruct (isApplicableInEnvironment (environmentId context) entry) eqn:Happ;
      cbn [negb]; [|apply Hrest].
    destruct (calculateMatchConfidence context entry) as [m|] eqn:Hm; [|discriminate].
    destruct (collectMatches tier context) as [ms|]; [|discriminate].
    destruct (geb m VALIDATION_THRESHOLD) eqn:Hval; intros [= <-]; [|apply Hrest; reflexivity].
    constructor; [|apply Hrest; reflexivity].
    cbn [fst snd]. split; [apply elem_of_cons; left; reflexivity|].
    split; [apply ltb_false; exact Hmin|]. split; [exact Happ|].
    split; [exact Hm | apply geb_spec; exact Hval].
Qed.

(** X13: when [findApplicableKnowledge] returns, every entry it returns is
    an entry of the tier that applies in the environment of the context,
    has a match confidence of at least 0.7, and hence a confidence of at
    least 0.7 itself; the entries come in decreasing order of match
    confidence. *)
Theorem X13_applicable_knowledge_is_confident_and_ranked
    (tier : list (string * KnowledgeEntry)) (context : DecisionContext)
    (found : list (string * KnowledgeEntry)) :
  findApplicableKnowledge tier context = Normal found ->
  Forall (fun ke =>
            ke ∈ tier
            /\ isApplicableInEnvironment (environmentId context) (snd ke) = true
            /\ VALIDATION_THRESHOLD <= matchConfidenceOf context (snd ke)
            /\ VALIDATION_THRESHOLD <= confidence (snd ke)) found
  /\ descending (fun ke => matchConfidenceOf context (snd ke)) found.
Proof.
  unfold findApplicableKnowledge.
  destruct (collectMatches tier context) as [matches|] eqn:Hcollect; [|discriminate].
  intros [= <-]. apply collectMatches_sound in Hcollect.
  rewrite Forall_forall in Hcollect.
  assert (Hsorted : forall kem, kem ∈ sort (fun a b => snd b - snd a) matches ->
                                kem ∈ matches).
  { intros kem Hin. apply sort_elem in Hin. exact Hin. }
  split.
  - apply Forall_fmap. apply Forall_forall. intros kem Hin. cbn.
    destruct (Hcollect kem (Hsorted kem Hin)) as (Hmem & Hmin & Happ & Hm & Hval).
    split; [exact Hmem|]. split; [exact Happ|].
    unfold matchConfidenceOf. rewrite Hm. split; [exact Hval|].
    assert (H0 : 0 <= confidence (snd (fst kem))).
    { unfold MINIMUM_KNOWLEDGE_CONFIDENCE in Hmin. lra. }
    pose proof (calculateMatchConfidence_bound context _ _ H0 Hm). lra.
  - apply (descending_map (fun kem : string * KnowledgeEntry * Q => snd kem)).
    + intros kem Hin. destruct (Hcollect kem (Hsorted kem Hin)) as (_ & _ & _ & Hm & _).
      unfold matchConfidenceOf. rewrite Hm. reflexivity.
    + apply (sort_descending (fun kem : string * KnowledgeEntry * Q => snd kem)).
Qed.

(** X13, witness: in [Ranking.meadow] agent 1 stands in the quadrant of
    the resource it has learned about; the entry is found, with a
    confidence of at least 0.7. *)
Lemma X13_applicable_knowledge_is_confident_and_ranked_witness :
  exists ke,
    findApplicableKnowledge trail (getDecisionContext meadow guide 1) = Normal [ke]
    /\ VALIDATION_THRESHOLD <= confidence (snd ke).
Proof.
  eexists. split; [vm_compute; reflexivity|].
  match goal with
  | |- _ <= confidence (snd ?ke) =>
      destruct (X13_applicable_knowledge_is_confident_and_ranked trail
                  (getDecisionContext meadow guide 1) [ke]) as [Hall _]
  end.
  - vm_compute. reflexivity.
  - apply Forall_cons in Hall. destruct Hall as [(_ & _ & _ & Hc) _]. exact Hc.
Defined.

(** ** What learned knowledge asks of the context *)

Lemma Qeq_bool_inject (a b : Z) : Qeq_bool (inject_Z a) (inject_Z b) = (a =? b)%Z.
Proof.
  destruct (Z.eqb_spec a b) as [->|Hne].
  - apply Qeq_bool_iff. reflexivity.
  - destruct (Qeq_bool (inject_Z a) (inject_Z b)) eqn:E; [|reflexivity].
    apply Qeq_bool_iff in E. apply (proj1 (inject_Z_injective a b)) in E. contradiction.
Qed.

Lemma single_condition (context : DecisionContext) (e : KnowledgeEntry)
    (c : Condition) (b : bool) :
  conditions (pattern e) = [c] ->
  checkCondition c context = Normal b ->
  exists m, calculateMatchConfidence context e = Normal m
            /\ m == (if b then confidence e else 0).
Proof.
  intros Hc Hb. unfold calculateMatchConfidence. rewrite Hc.
  cbn [countMatches length Nat.ltb Nat.leb]. rewrite Hb.
  eexists. split; [reflexivity|]. destruct b; unfold ofNat; cbn; field.
Qed.

Lemma extractPattern_match
    (kind : Kind) (experience : Experience) (environmentId : Z)
    (context : DecisionContext) (e : KnowledgeEntry) :
  pattern e = extractPattern kind experience environmentId ->
  exists m,
    calculateMatchConfidence context e = Normal m
    /\ m == (if holdsIn kind experience context then confidence e else 0).
Proof.
  intros Hp. destruct kind; cbn [extractPattern holdsIn] in *.
  - eapply single_condition; [rewrite Hp; reflexivity|].
    unfold checkCondition. cbn -[Qeq_bool inject_Z getQuadrant]. f_equal.
    apply Qeq_bool_inject.
  - eapply single_condition; [rewrite Hp; reflexivity|].
    unfold checkCondition. cbn. reflexivity.
  - eapply single_condition; [rewrite Hp; reflexivity|].
    unfold checkCondition. cbn. reflexivity.
  - eapply (single_condition _ _ _ false); [rewrite Hp; reflexivity|].
    unfold checkCondition. cbn. reflexivity.
  - eapply single_condition; [rewrite Hp; reflexivity|].
    unfold checkCondition. cbn. f_equal.
    destruct (realityFluxActive context); reflexivity.
Qed.

(** X14: an entry whose pattern was extracted from an experience has one
    condition, and checking it never throws: its match confidence is the
    confidence of the entry when the context is in the quadrant of the
    resource, within 15 units of the obstacle, in the same state of reality
    flux as the hazard was met in, or under an active reality flux, and 0
    otherwise; for a pattern about another agent it is always 0, since the
    context has no property [entityType]. *)
Theorem X14_learned_knowledge_matches_its_origin
    (kind : Kind) (experience : Experience) (environmentId : Z)
    (context : DecisionContext) (e : KnowledgeEntry) :
  pattern e = extractPattern kind experience environmentId ->
  exists m,
    calculateMatchConfidence context e = Normal m
    /\ m == (if holdsIn kind experience context then confidence e else 0).
Proof.
  intros Hp.
  destruct (extractPattern_match kind experience environmentId context e Hp)
    as (m & Hm & Heq).
  exists m. split; [exact Hm | exact Heq].
Qed.

(** X14, witness: the entry of [Ranking.trail] matches with its full
    confidence in the context of [Ranking.meadow]. *)
Lemma X14_learned_knowledge_matches_its_origin_witness :
  exists ke m,
    trail = [ke]
    /\ calculateMatchConfidence (getDecisionContext meadow guide 1) (snd ke) = Normal m
    /\ m == confidence (snd ke).
Proof.
  eexists. 
  match goal with
  | |- exists m, _ = [?ke] /\ _ =>
      destruct (X14_learned_knowledge_matches_its_origin Resource spring 1
                  (getDecisionContext meadow guide 1)
                  (snd (hd ke trail))) as (m & Hm & Heq)
  end.
  - vm_compute. reflexivity.
  - exists m. split; [vm_compute; reflexivity|]. split; [exact Hm | exact Heq].
Defined.

(** ** A principle about obstacles *)

Lemma frequency_same_key (cs : list Condition) (key : string) (m : nat) :
  Forall (fun c => frequencyKey c = key) cs ->
  fold_left (fun (frequency : list (string * nat)) condition =>
               set frequency (frequencyKey condition)
                   (default 0 (get frequency (frequencyKey condition)) + 1)%nat)
            cs [(key, m)]
  = [(key, (m + length cs)%nat)].
Proof.
  revert m. induction cs as [|c cs IH]; intros m Hall; cbn [fold_left length].
  - rewrite Nat.add_0_r. reflexivity.
  - apply Forall_cons in Hall. destruct Hall as [Hc Hall]. rewrite Hc.
    cbn [set get]. destruct (decide (key = key)) as [_|]; [|contradiction].
    cbn [default from_option id]. rewrite (IH _ Hall). do 2 f_equal. lia.
Qed.

Lemma obstacle_conditions (entries : list KnowledgeEntry) :
  Forall (fun e => exists experience environmentId,
                     pattern e = extractObstaclePattern experience environmentId)
         entries ->
  Forall (fun c => frequencyKey c = "position:near")
         (flat_map (fun entry => conditions (pattern entry)) entries)
  /\ length (flat_map (fun entry => conditions (pattern entry)) entries) = length entries.
Proof.
  induction entries as [|e entries IH]; intros Hall; cbn [flat_map].
  - split; [constructor | reflexivity].
  - apply Forall_cons in Hall. destruct Hall as [(ex & env & Hp) Hall].
    destruct (IH Hall) as [Hkeys Hlen]. rewrite Hp.
    cbn [conditions extractObstaclePattern app length]. split.
    + constructor; [reflexivity | exact Hkeys].
    + rewrite Hlen. reflexivity.
Qed.

(** X15: the principle that [findUniversalConditions] draws from entries
    about obstacles has the one condition that the position is near
    [null].  Checking it throws a TypeError in every context: so does the
    match confidence of an entry with these conditions, and the search of a
    tier that begins with such an entry at the high level with a confidence
    of at least 0.2. *)
Theorem X15_principle_about_obstacles_throws
    (entries : list KnowledgeEntry) (context : DecisionContext) (e : KnowledgeEntry)
    (k : string) (rest : list (string * KnowledgeEntry)) :
  entries <> [] ->
  Forall (fun e => exists experience environmentId,
                     pattern e = extractObstaclePattern experience environmentId)
         entries ->
  conditions (pattern e) = findUniversalConditions entries ->
  findUniversalConditions entries
  = [mkCondition "position" "near" (Some VNull) None None false true]
  /\ calculateMatchConfidence context e
     = Throw (TypeError "Cannot read properties of null (reading 'x')")
  /\ (level e = High -> MINIMUM_KNOWLEDGE_CONFIDENCE <= confidence e ->
      findApplicableKnowledge ((k, e) :: rest) context
      = Throw (TypeError "Cannot read properties of null (reading 'x')")).
Proof.
  intros Hne Hall Hconditions.
  assert (Hu : findUniversalConditions entries
               = [mkCondition "position" "near" (Some VNull) None None false true]).
  { unfold findUniversalConditions.
    destruct (obstacle_conditions entries Hall) as [Hkeys Hlen].
    destruct (flat_map (fun entry => conditions (pattern entry)) entries)
      as [|c cs] eqn:Hflat.
    { destruct entries; [congruence | discriminate]. }
    apply Forall_cons in Hkeys. destruct Hkeys as [Hc Hkeys].
    cbn [fold_left set]. rewrite Hc. cbn [get default from_option id Nat.add].
    rewrite (frequency_same_key cs "position:near" 1 Hkeys).
    cbn [List.filter snd].
    assert (Hfreq : geb (ofNat (1 + length cs)) (ofNat (length entries) * (7 # 10)) = true).
    { apply geb_spec. rewrite <- Hlen. cbn [length Nat.add].
      pose proof (ofNat_nonneg (S (length cs))). lra. }
    rewrite Hfreq. reflexivity. }
  assert (Hm : calculateMatchConfidence context e
               = Throw (TypeError "Cannot read properties of null (reading 'x')")).
  { unfold calculateMatchConfidence. rewrite Hconditions, Hu. reflexivity. }
  split; [exact Hu|]. split; [exact Hm|].
  intros Hlevel Hmin. unfold findApplicableKnowledge. cbn [collectMatches].
  assert (Hlt : ltb (confidence e) MINIMUM_KNOWLEDGE_CONFIDENCE = false)
    by (apply ltb_false; exact Hmin).
  rewrite Hlt. unfold isApplicableInEnvironment. rewrite Hlevel. cbn [negb].
  rewrite Hm. reflexivity.
Qed.

(** X15, witness: the principle drawn from the entry for one obstacle met
    at (11, 10). *)
Lemma X15_principle_about_obstacles_throws_witness :
  calculateMatchConfidence (getDecisionContext meadow guide 1)
    (newKnowledgeEntry "knowledge-high-0" 0
       (mkPattern "obstacle_properties" "Universal obstacle_properties principle" High
          [mkCondition "position" "near" (Some VNull) None None false true]
          [] true None) High None)
  = Throw (TypeError "Cannot read properties of null (reading 'x')").
Proof.
  apply (X15_principle_about_obstacles_throws
           [newKnowledgeEntry "knowledge-1" 0
              (extractObstaclePattern
                 (mkExperience 1 2 (Hesms.mkPosition 11 10) 21
                               (Hesms.mkContext None None (Some 50) false) "failure") 1)
              Low (Some 1%Z)]
           _ _ "knowledge-high-0" []).
  - discriminate.
  - constructor; [|constructor]. eexists _, _. reflexivity.
  - vm_compute. reflexivity.
Defined.

(** ** The target of a decision about a resource *)

Lemma getQuadrant_range (position : Hesms.Position) :
  getQuadrant position = 0%Z \/ getQuadrant position = 1%Z
  \/ getQuadrant position = 2%Z \/ getQuadrant position = 3%Z.
Proof.
  unfold getQuadrant.
  destruct (ltb (Hesms.x position) 50), (ltb (Hesms.y position) 50); cbn; tauto.
Qed.

(** X16: the decision made from an entry about a resource is to seek the
    resource, with priority 60, at the centre of the quadrant in which the
    resource was met: the target has coordinates 25 or 75 and lies in
    that quadrant; applying the decision writes this goal. *)
Theorem X16_resource_target_is_the_centre_of_its_quadrant
    (sqrt : Q -> Q) (experience : Experience) (environmentId : Z)
    (context : DecisionContext) (e : KnowledgeEntry) (w : World) (agent : Z) :
  pattern e = extractResourcePattern experience environmentId ->
  exists tx ty,
    makeDecisionFromKnowledge e context
    = mkDecision "seek_resource" (Some (Some tx, Some ty)) 60 noParameters
    /\ (tx == 25 \/ tx == 75) /\ (ty == 25 \/ ty == 75)
    /\ getQuadrant (Hesms.mkPosition tx ty) = getQuadrant (experiencePosition experience)
    /\ applyDecisionToAgent sqrt w agent (makeDecisionFromKnowledge e context)
       = mkGoals 1 (targetEntity (goalsOf w agent)) (Some tx) (Some ty) 60
                 (completionPercentage (goalsOf w agent)).
Proof.
  intros Hp. unfold makeDecisionFromKnowledge. rewrite Hp.
  cbn -[getQuadrant quadrantTarget inject_Z].
  unfold quadrantTarget. cbn [conditionNumber toNumber].
  eexists _, _. split; [reflexivity|].
  destruct (getQuadrant_range (experiencePosition experience)) as [Hq|[Hq|[Hq|Hq]]];
    rewrite Hq; repeat split; try (left; vm_compute; reflexivity);
    try (right; vm_compute; reflexivity).
Qed.

(** X16, witness: the entry of [Ranking.trail], learned at (10, 10),
    sends the agent to (25, 25). *)
Lemma X16_resource_target_is_the_centre_of_its_quadrant_witness :
  exists tx ty,
    target (makeDecisionFromKnowledge (snd (hd ("", Samples.principle) trail))
                                      (getDecisionContext meadow guide 1))
    = Some (Some tx, Some ty)
    /\ tx == 25 /\ ty == 25.
Proof.
  destruct (X16_resource_target_is_the_centre_of_its_quadrant (fun q => q) spring 1
              (getDecisionContext meadow guide 1)
              (snd (hd ("", Samples.principle) trail)) meadow 1)
    as (tx & ty & Hd & _ & _ & _ & _).
  - vm_compute. reflexivity.
  - exists tx, ty. rewrite Hd. split; [reflexivity|].
    vm_compute in Hd. injection Hd as <- <-. split; reflexivity.
Defined.

(** ** A run of the system *)

Import Cycle.

Lemma learned_map (g : string * KnowledgeEntry -> string * KnowledgeEntry)
    (tier : list (string * KnowledgeEntry)) :
  (forall ke, fst (g ke) = fst ke /\ pattern (snd (g ke)) = pattern (snd ke)) ->
  learned tier -> learned (map g tier).
Proof.
  intros Hg (Hkeys & Htypes & Hall). unfold learned, keys, typesOf in *.
  rewrite !map_map.
  rewrite (map_ext (fun ke => fst (g ke)) fst) by (intros ke; apply Hg).
  rewrite (map_ext (fun ke => ptype (pattern (snd (g ke))))
                   (fun ke => ptype (pattern (snd ke))))
    by (intros ke; destruct (Hg ke) as [_ ->]; reflexivity).
  split; [exact Hkeys|]. split; [exact Htypes|].
  apply Forall_fmap. eapply Forall_impl; [exact Hall|].
  intros ke He. cbn. destruct (Hg ke) as [_ ->]. exact He.
Qed.

Lemma adaptKnowledge_knowledge (agent newEnvironmentId previousEnvironmentId : Z)
    (similarity : Q) (s : System) :
  match agentKnowledge s !! agent with
  | None =>
      agentKnowledge (adaptKnowledge agent newEnvironmentId previousEnvironmentId
                                     similarity s) = agentKnowledge s
  | Some ak =>
      exists low' mid' high',
        agentKnowledge (adaptKnowledge agent newEnvironmentId previousEnvironmentId
                                       similarity s)
        = <[agent := mkKnowledge low' mid' high']> (agentKnowledge s)
        /\ (learned (low ak) -> learned low')
        /\ (mid ak = [] -> mid' = [])
        /\ (high ak = [] -> high' = [])
  end.
Proof.
  unfold adaptKnowledge. destruct (agentKnowledge s !! agent) as [ak|]; [|reflexivity].
  eexists _, _, _. cbn [agentKnowledge]. rewrite syncKnowledgeToComponent_knowledge.
  cbn [agentKnowledge]. split; [reflexivity|]. split; [|split].
  - apply learned_map. intros ke.
    destruct (negb (isApplicableInEnvironment newEnvironmentId (snd ke)));
      split; reflexivity.
  - intros ->. reflexivity.
  - intros ->. reflexivity.
Qed.

Section RunFacts.
Variable sqrt : Q -> Q.
Variable positionRef : Hesms.EpisodicMemory -> nat.
Variable newId : nat -> string.
Variable now : Q.

(** The knowledge of [agent] is low-level only in [s'] if it was in [s],
    and the other agents know in [s'] what they know in [s]. *)
Lemma updateEnvironment_lowLevelOnly (view : AgentView) (o : Observations)
    (agent : Z) (currentTime : Q) (s : System) :
  lowLevelOnly s -> lowLevelOnly (updateEnvironment now view o agent currentTime s).
Proof.
  intros Hinv. unfold updateEnvironment.
  intros a ak. rewrite updateEnvironmentProfile_knowledge.
  destruct (negb (detectEnvironmentId view =? currentEnvironmentId (componentOf s agent))%Z);
    [|apply Hinv].
  destruct (ltb _ ENVIRONMENT_TRANSITION_THRESHOLD); [|apply Hinv].
  match goal with
  | |- agentKnowledge (adaptKnowledge ?a1 ?n ?p ?sim ?s0) !! _ = _ -> _ =>
      pose proof (adaptKnowledge_knowledge a1 n p sim s0) as Hadapt
  end.
  cbn [agentKnowledge] in Hadapt.
  destruct (agentKnowledge s !! agent) as [ak0|] eqn:Hak0.
  - destruct Hadapt as (low' & mid' & high' & -> & Hl & Hm & Hh).
    destruct (Hinv agent ak0 Hak0) as (Hl0 & Hm0 & Hh0).
    destruct (decide (a = agent)) as [->|Hne].
    + rewrite lookup_insert_eq. intros [= <-]. cbn [low mid high].
      split; [apply Hl; exact Hl0|]. split; [apply Hm; exact Hm0 | apply Hh; exact Hh0].
    + rewrite lookup_insert_ne by congruence. apply Hinv.
  - rewrite Hadapt. apply Hinv.
Qed.

Lemma updateKnowledge_lowLevelOnly (memory : Hesms.State) (worldTime : Z) (agent : Z)
    (currentTime : Q) (s : System) (calls : nat) :
  lowLevelOnly s ->
  lowLevelOnly (fst (updateKnowledge positionRef newId now memory worldTime agent
                                     currentTime s calls)).
Proof.
  intros Hinv.
  destruct (agentKnowledge s !! agent) as [ak|] eqn:Hak.
  - destruct (Hinv agent ak Hak) as (Hl & Hm & Hh).
    destruct (updateKnowledge_learned positionRef newId now memory worldTime agent
                currentTime s calls ak Hak Hl)
      as [(ak' & Hak' & Hl' & _ & Hm' & Hh') Hframe].
    intros a aka. destruct (decide (a = agent)) as [->|Hne].
    + rewrite Hak'. intros [= <-]. split; [exact Hl'|].
      rewrite Hm', Hh', Hm, Hh. split; reflexivity.
    + rewrite Hframe by exact Hne. apply Hinv.
  - unfold updateKnowledge. rewrite Hak. exact Hinv.
Qed.

Lemma generalizeKnowledge_lowLevelOnly (agent : Z) (currentTime : Q)
    (s : System) (calls : nat) :
  lowLevelOnly s ->
  agentKnowledge (fst (generalizeKnowledge newId now agent currentTime s calls))
  = agentKnowledge s.
Proof.
  intros Hinv.
  destruct (agentKnowledge s !! agent) as [ak|] eqn:Hak.
  - destruct (Hinv agent ak Hak) as (Hl & Hm & Hh).
    apply (generalizeKnowledge_distinct_types newId now agent currentTime s calls ak Hak).
    + apply Hl.
    + rewrite Hm. cbn. unfold ABSTRACTION_INSTANCE_THRESHOLD. lia.
  - unfold generalizeKnowledge.
    destruct (ltb _ GENERALIZATION_INTERVAL); [reflexivity|].
    cbn [agentKnowledge]. rewrite Hak. reflexivity.
Qed.

Lemma extracted_kind (p : Pattern) :
  extracted p ->
  exists kind experience environmentId, p = extractPattern kind experience environmentId.
Proof.
  intros Hp. destruct (extracted_cases p Hp) as (ex & env & [->|[->|[->|[->| ->]]]]).
  - exists Resource, ex, env. reflexivity.
  - exists Obstacle, ex, env. reflexivity.
  - exists Hazard, ex, env. reflexivity.
  - exists Agent, ex, env. reflexivity.
  - exists Shift, ex, env. reflexivity.
Qed.

(** Searching a tier of extracted patterns never throws. *)
Lemma collectMatches_extracted (tier : list (string * KnowledgeEntry))
    (context : DecisionContext) :
  Forall (fun ke => extracted (pattern (snd ke))) tier ->
  exists matches, collectMatches tier context = Normal matches.
Proof.
  induction tier as [|[k entry] tier IH]; intros Hall; cbn [collectMatches].
  - eexists. reflexivity.
  - apply Forall_cons in Hall. destruct Hall as [He Hall].
    destruct (IH Hall) as (ms & Hms). rewrite Hms.
    destruct (ltb (confidence entry) MINIMUM_KNOWLEDGE_CONFIDENCE); [eexists; reflexivity|].
    destruct (negb (isApplicableInEnvironment (environmentId context) entry));
      [eexists; reflexivity|].
    cbn [snd] in He. destruct (extracted_kind _ He) as (kind & ex & env & Hp).
    destruct (extractPattern_match kind ex env context entry Hp) as (m & -> & _).
    eexists. reflexivity.
Qed.

Lemma findApplicableKnowledge_head (tier : list (string * KnowledgeEntry))
    (context : DecisionContext) (ke : string * KnowledgeEntry)
    (found : list (string * KnowledgeEntry)) :
  findApplicableKnowledge tier context = Normal (ke :: found) -> ke ∈ tier.
Proof.
  unfold findApplicableKnowledge.
  destruct (collectMatches tier context) as [matches|] eqn:Hcollect; [|discriminate].
  intros [= Hsort]. apply collectMatches_sound in Hcollect.
  rewrite Forall_forall in Hcollect.
  destruct (sort (fun a b => snd b - snd a) matches) as [|kem sorted] eqn:Hs;
    [discriminate|].
  cbn [map] in Hsort. injection Hsort as <- _.
  apply Hcollect. apply (sort_elem (fun a b => snd b - snd a)). rewrite Hs.
  apply elem_of_cons. left. reflexivity.
Qed.

Lemma applyKnowledgeToDecisions_lowLevelOnly (agent : Z) (currentTime : Q)
    (s : System) (w : World) :
  lowLevelOnly s ->
  exists s' w',
    applyKnowledgeToDecisions sqrt now agent currentTime (s, w) = Normal (s', w')
    /\ lowLevelOnly s'.
Proof.
  intros Hinv. unfold applyKnowledgeToDecisions.
  destruct (agentKnowledge s !! agent) as [ak|] eqn:Hak;
    [|eexists _, _; split; [reflexivity | exact Hinv]].
  destruct (Hinv agent ak Hak) as (Hl & Hm & Hh).
  unfold selectKnowledge. rewrite Hm, Hh.
  change (findApplicableKnowledge [] (getDecisionContext w s agent)) with
    (@Normal (list (string * KnowledgeEntry)) []).
  cbn iota.
  destruct (collectMatches_extracted (low ak) (getDecisionContext w s agent))
    as (matches & Hcollect); [apply Hl|].
  destruct (findApplicableKnowledge (low ak) (getDecisionContext w s agent))
    as [[|[k e] found]|] eqn:Hfound.
  - eexists _, _. split; [reflexivity | exact Hinv].
  - apply findApplicableKnowledge_head in Hfound.
    eexists _, _. split; [reflexivity|].
    intros a aka. cbn [agentKnowledge].
    destruct (decide (a = agent)) as [->|Hne]; [|rewrite lookup_insert_ne by congruence;
                                                  apply Hinv].
    rewrite lookup_insert_eq. intros [= <-]. cbn [setTier tierOf low mid high].
    rewrite Hm, Hh. split; [|split; reflexivity].
    apply list_elem_of_split in Hfound. destruct Hfound as (before & after & Hlow).
    rewrite Hlow in Hl |- *. rewrite set_middle by apply Hl.
    eapply learned_replace; [exact Hl|].
    unfold setLastUsed. cbn [pattern].
    apply (recordApplication_fields now _ _ e).
  - exfalso. unfold findApplicableKnowledge in Hfound. rewrite Hcollect in Hfound.
    discriminate.
Qed.

Lemma processAgent_lowLevelOnly (memory : Hesms.State) (view : AgentView)
    (o : Observations) (worldTime : Z) (agent : Z) (currentTime : Q)
    (s : System) (w : World) (calls : nat) :
  lowLevelOnly s ->
  exists s' w' calls',
    processAgent sqrt positionRef newId now memory view o worldTime agent currentTime
                 (s, w, calls) = Normal (s', w', calls')
    /\ lowLevelOnly s'.
Proof.
  intros Hinv. unfold processAgent.
  pose proof (updateEnvironment_lowLevelOnly view o agent currentTime s Hinv) as H1.
  set (s1 := updateEnvironment now view o agent currentTime s) in *.
  pose proof (updateKnowledge_lowLevelOnly memory worldTime agent currentTime s1 calls H1)
    as H2.
  set (r2 := updateKnowledge positionRef newId now memory worldTime agent currentTime
                             s1 calls) in *.
  pose proof (generalizeKnowledge_lowLevelOnly agent currentTime (fst r2) (snd r2) H2)
    as H3.
  set (r3 := generalizeKnowledge newId now agent currentTime (fst r2) (snd r2)) in *.
  assert (H3' : lowLevelOnly (fst r3)).
  { intros a aka. rewrite H3. apply H2. }
  destruct (applyKnowledgeToDecisions_lowLevelOnly agent currentTime (fst r3) w H3')
    as (s' & w' & Happly & H4).
  rewrite Happly. exists s', w', (snd r3). split; [reflexivity | exact H4].
Qed.

(** X17: a run of the system never gets beyond low-level knowledge.
    From a state in which every agent knows low-level knowledge only (as
    in a system just constructed), any sequence of initialisations and of
    processings of agents, whatever the memories, the environments and the
    world, runs to its end without an exception from the knowledge, and
    leaves a state of the same kind: the mid and high tiers of every agent
    are empty and the low tier holds at most 5 entries, one per extracted
    pattern type. *)
Theorem X17_the_system_stays_at_low_level_knowledge
    (events : list Event) (s : System) (calls : nat) :
  lowLevelOnly s ->
  exists s' calls',
    run sqrt positionRef newId now events (s, calls) = Normal (s', calls')
    /\ lowLevelOnly s'
    /\ forall agent ak,
         agentKnowledge s' !! agent = Some ak ->
         (length (low ak) <= 5)%nat /\ mid ak = [] /\ high ak = [].
Proof.
  intros Hinv.
  assert (Hrun : exists s' calls',
             run sqrt positionRef newId now events (s, calls) = Normal (s', calls')
             /\ lowLevelOnly s').
  { unfold run. revert s calls Hinv.
    induction events as [|event events IH]; intros s calls Hinv; cbn [fold_left].
    - exists s, calls. split; [reflexivity | exact Hinv].
    - destruct event as [worldTime agent|memory view o w worldTime agent currentTime];
        cbn [runEvent fst snd].
      + apply IH. intros a aka. unfold initializeAgentCrossRealityKnowledge.
        cbn [agentKnowledge]. destruct (decide (a = agent)) as [->|Hne].
        * rewrite lookup_insert_eq. intros [= <-]. cbn [low mid high].
          split; [|split; reflexivity]. split; [constructor|]. split; constructor.
        * rewrite lookup_insert_ne by congruence. apply Hinv.
      + destruct (processAgent_lowLevelOnly memory view o worldTime agent currentTime
                    s w calls Hinv) as (s' & w' & calls' & -> & Hinv').
        apply IH. exact Hinv'. }
  destruct Hrun as (s' & calls' & Hrun & Hinv').
  exists s', calls'. split; [exact Hrun|]. split; [exact Hinv'|].
  intros agent ak Hak. destruct (Hinv' agent ak Hak) as (Hl & Hm & Hh).
  split; [apply learned_length; exact Hl|]. split; assumption.
Qed.

End RunFacts.

(** X17, witness: a system just constructed in which agent 1 is
    initialised and then processed twice with the memories of
    [Runs.walk]. *)
Lemma X17_the_system_stays_at_low_level_knowledge_witness :
  exists s' calls',
    run (fun q => q) Runs.byEntity Runs.knowledgeId 7
        [ Initialize 0 1;
          Process Runs.walk Samples.farCorner Samples.noObservations meadow 7 1 7;
          Process Runs.walk Samples.farCorner Samples.noObservations meadow 8 1 8 ]
        (newSystem, 0%nat)
    = Normal (s', calls')
    /\ lowLevelOnly s'.
Proof.
  destruct (X17_the_system_stays_at_low_level_knowledge (fun q => q) Runs.byEntity
              Runs.knowledgeId 7
              [ Initialize 0 1;
                Process Runs.walk Samples.farCorner Samples.noObservations meadow 7 1 7;
                Process Runs.walk Samples.farCorner Samples.noObservations meadow 8 1 8 ]
              newSystem 0) as (s' & calls' & Hrun & Hinv & _).
  - intros agent ak Hak. vm_compute in Hak. discriminate.
  - exists s', calls'. split; [exact Hrun | exact Hinv].
Defined.

(* --------------------------------------------------------------------- *)
(** ** The spatial index of the memory manager                             *)
(* --------------------------------------------------------------------- *)

Section SpatialFacts.
Import Hesms Stores.

Lemma cellOf_monotone (size a b : Q) :
  0 < size -> a <= b -> (cellOf size a <= cellOf size b)%Z.
Proof.
  intros Hsize Hab. unfold cellOf. apply Qfloor_resp_le.
  unfold Qdiv. apply Qmult_le_compat_r; [exact Hab|].
  apply Qlt_le_weak. apply Qinv_lt_0_compat. exact Hsize.
Qed.

Lemma within_radius (d e r : Q) : 0 <= r -> d * d + e * e <= r * r -> - r <= d <= r.
Proof. intros Hr Hd. split; nra. Qed.

Lemma addMemory_filed (memory : EpisodicMemory) (ix : SpatialIndex) :
  filed ix -> filed (addMemory memory ix).
Proof.
  intros Hfiled key l m. unfold addMemory. cbn [grid cellSize].
  set (key0 := (cellOf (cellSize ix) (x (position memory)),
                cellOf (cellSize ix) (y (position memory)))).
  destruct (decide (key = key0)) as [->|Hne].
  - rewrite lookup_insert_eq. intros [= <-] Hin.
    apply elem_of_app in Hin. destruct Hin as [Hin|Hin].
    + destruct (grid ix !! key0) as [l0|] eqn:Hl0; cbn in Hin.
      * apply (Hfiled key0 l0 m Hl0 Hin).
      * apply elem_of_nil in Hin. contradiction.
    + apply list_elem_of_singleton in Hin. subst m. reflexivity.
  - rewrite lookup_insert_ne by congruence. apply Hfiled.
Qed.

Lemma addMemory_indexedIn (memory m : EpisodicMemory) (ix : SpatialIndex) :
  indexedIn (addMemory memory ix) m <-> m = memory \/ indexedIn ix m.
Proof.
  unfold indexedIn, addMemory. cbn [grid].
  set (key0 := (cellOf (cellSize ix) (x (position memory)),
                cellOf (cellSize ix) (y (position memory)))).
  split.
  - intros (key & l & Hl & Hin). destruct (decide (key = key0)) as [->|Hne].
    + rewrite lookup_insert_eq in Hl. injection Hl as <-.
      apply elem_of_app in Hin. destruct Hin as [Hin|Hin].
      * right. destruct (grid ix !! key0) as [l0|] eqn:Hl0; cbn in Hin.
        -- exists key0, l0. split; assumption.
        -- apply elem_of_nil in Hin. contradiction.
      * left. apply list_elem_of_singleton in Hin. exact Hin.
    + rewrite lookup_insert_ne in Hl by congruence. right. exists key, l. split; assumption.
  - intros [->|(key & l & Hl & Hin)].
    + exists key0. eexists. rewrite lookup_insert_eq. split; [reflexivity|].
      apply elem_of_app. right. apply list_elem_of_singleton. reflexivity.
    + destruct (decide (key = key0)) as [->|Hne].
      * exists key0. eexists. rewrite lookup_insert_eq. split; [reflexivity|].
        apply elem_of_app. left. rewrite Hl. exact Hin.
      * exists key, l. rewrite lookup_insert_ne by congruence. split; assumption.
Qed.

Lemma getMemoriesNear_spec (px py radius : Q) (ix : SpatialIndex) (m : EpisodicMemory) :
  0 < cellSize ix -> 0 <= radius -> filed ix ->
  (m ∈ getMemoriesNear px py radius ix
   <-> indexedIn ix m /\ squaredDistance m px py <= radius * radius).
Proof.
  intros Hsize Hradius Hfiled. unfold getMemoriesNear, squaredDistance.
  rewrite list_elem_of_In, filter_In. unfold leb. rewrite Qle_bool_iff.
  split.
  - intros [Hin Hd]. split; [|exact Hd].
    apply in_flat_map in Hin. destruct Hin as (i & _ & Hin).
    apply in_flat_map in Hin. destruct Hin as (j & _ & Hin).
    destruct (grid ix !! (i, j)) as [l|] eqn:Hl; cbn in Hin; [|contradiction].
    exists (i, j), l. split; [exact Hl | apply list_elem_of_In; exact Hin].
  - intros [(key & l & Hl & Hin) Hd]. split; [|exact Hd].
    pose proof (Hfiled key l m Hl Hin) as Hkey.
    destruct (within_radius _ _ _ Hradius Hd) as [Hx1 Hx2].
    assert (Hd' : (y (position m) - py) * (y (position m) - py)
                  + (x (position m) - px) * (x (position m) - px) <= radius * radius)
      by lra.
    destruct (within_radius _ _ _ Hradius Hd') as [Hy1 Hy2].
    apply in_flat_map. exists (cellOf (cellSize ix) (x (position m))). split.
    { apply list_elem_of_In. apply elem_of_seqZ.
      pose proof (cellOf_monotone (cellSize ix) (px - radius) (x (position m)) Hsize
                    ltac:(lra)).
      pose proof (cellOf_monotone (cellSize ix) (x (position m)) (px + radius) Hsize
                    ltac:(lra)).
      lia. }
    apply in_flat_map. exists (cellOf (cellSize ix) (y (position m))). split.
    { apply list_elem_of_In. apply elem_of_seqZ.
      pose proof (cellOf_monotone (cellSize ix) (py - radius) (y (position m)) Hsize
                    ltac:(lra)).
      pose proof (cellOf_monotone (cellSize ix) (y (position m)) (py + radius) Hsize
                    ltac:(lra)).
      lia. }
    rewrite <- Hkey, Hl. cbn. apply list_elem_of_In. exact Hin.
Qed.

End SpatialFacts.

(** X18: the spatial index finds what it holds.  For a positive cell size
    and a radius that is not negative, in an index whose memories are filed
    in the cells of their positions, [getMemoriesNear] returns exactly the
    memories of the index at a distance of at most the radius; [addMemory]
    keeps the index filed and adds its memory; so the memory that
    [recordEpisodicMemory] returns is found again around its own
    position. *)
Theorem X18_spatial_index_finds_what_it_holds
    (agent : Z) (event : Hesms.Event) (o : Hesms.Occasion) (st : Hesms.State)
    (px py radius : Q) (m : Hesms.EpisodicMemory) :
  0 < Hesms.cellSize (Hesms.spatialIndex (Hesms.manager st)) ->
  0 <= radius ->
  Stores.filed (Hesms.spatialIndex (Hesms.manager st)) ->
  let ix := Hesms.spatialIndex (Hesms.manager st) in
  let recorded := Hesms.recordEpisodicMemory agent event o st in
  let ix' := Hesms.spatialIndex (Hesms.manager (fst recorded)) in
  (m ∈ Hesms.getMemoriesNear px py radius ix
   <-> Stores.indexedIn ix m /\ Stores.squaredDistance m px py <= radius * radius)
  /\ Stores.filed ix'
  /\ (Stores.indexedIn ix' m <-> m = snd recorded \/ Stores.indexedIn ix m)
  /\ snd recorded ∈ Hesms.getMemoriesNear (Hesms.x (Hesms.eventPosition event))
                                          (Hesms.y (Hesms.eventPosition event))
                                          radius ix'.
Proof.
  intros Hsize Hradius Hfiled. cbn zeta.
  split; [apply getMemoriesNear_spec; assumption|].
  unfold Hesms.recordEpisodicMemory. cbn [fst snd Hesms.manager Hesms.spatialIndex].
  set (memory := Hesms.mkEpisodicMemory _ _ _ _ _ _ _ _ _ _ _ _).
  split; [apply addMemory_filed; exact Hfiled|].
  split; [apply addMemory_indexedIn|].
  apply getMemoriesNear_spec.
  - exact Hsize.
  - exact Hradius.
  - apply addMemory_filed. exact Hfiled.
  - split; [apply addMemory_indexedIn; left; reflexivity|].
    unfold Stores.squaredDistance, memory. cbn [Hesms.position].
    assert (H0 : 0 <= radius * radius) by (apply Qmult_le_0_compat; assumption).
    lra.
Qed.

(** X18, witness: the first sighting recorded by agent 1 of
    [Scenarios.freshState], found again within radius 0. *)
Lemma X18_spatial_index_finds_what_it_holds_witness :
  snd (Hesms.recordEpisodicMemory 1 (Scenarios.sighting 100 0 1 1) (Scenarios.calmAt 0)
                                  Scenarios.freshState)
  ∈ Hesms.getMemoriesNear 1 1 0
      (Hesms.spatialIndex
         (Hesms.manager
            (fst (Hesms.recordEpisodicMemory 1 (Scenarios.sighting 100 0 1 1)
                                             (Scenarios.calmAt 0) Scenarios.freshState)))).
Proof.
  apply (X18_spatial_index_finds_what_it_holds 1 (Scenarios.sighting 100 0 1 1)
           (Scenarios.calmAt 0) Scenarios.freshState 1 1 0
           (snd (Hesms.recordEpisodicMemory 1 (Scenarios.sighting 100 0 1 1)
                                            (Scenarios.calmAt 0) Scenarios.freshState))).
  - reflexivity.
  - discriminate.
  - intros key l m Hl. vm_compute in Hl. discriminate.
Defined.

(** ** Relevant patterns *)

Lemma startsWith_spec (needle haystack : string) :
  Text.startsWith needle haystack = true <-> exists after, haystack = needle +:+ after.
Proof.
  revert haystack. induction needle as [|a needle IH]; intros haystack.
  - cbn [Text.startsWith]. split; [|reflexivity]. intros _. exists haystack. reflexivity.
  - destruct haystack as [|b haystack]; cbn [Text.startsWith].
    + split; [discriminate|]. intros [after Hafter]. discriminate Hafter.
    + rewrite andb_true_iff, Ascii.eqb_eq, IH. split.
      * intros [-> [after ->]]. exists after. reflexivity.
      * intros [after Hafter].
        change (String a needle +:+ after) with (String a (needle +:+ after)) in Hafter.
        injection Hafter as -> ->. split; [reflexivity|]. exists after. reflexivity.
Qed.

(** [includes] is the substring test. *)
Lemma includes_spec (needle haystack : string) :
  Text.includes needle haystack = true
  <-> exists before after, haystack = before +:+ needle +:+ after.
Proof.
  induction haystack as [|b haystack IH]; cbn [Text.includes];
    rewrite orb_true_iff, startsWith_spec.
  - split.
    + intros [[after Hafter]|Hfalse]; [|discriminate].
      exists EmptyString, after. exact Hafter.
    + intros (before & after & Heq). left.
      destruct before as [|c before]; [exists after; exact Heq|].
      discriminate Heq.
  - rewrite IH. split.
    + intros [[after Hafter]|(before & after & ->)].
      * exists EmptyString, after. exact Hafter.
      * exists (String b before), after. reflexivity.
    + intros (before & after & Heq).
      destruct before as [|c before].
      * left. exists after. exact Heq.
      * right.
        change (String c before +:+ needle +:+ after)
          with (String c (before +:+ needle +:+ after)) in Heq.
        injection Heq as -> ->. exists before, after. reflexivity.
Qed.

Lemma relevantTo_spec (contextType : option string) (p : Hesms.SemanticPattern) :
  Hesms.relevantTo contextType p = true
  <-> match contextType with
      | None => True
      | Some ty =>
          ty = EmptyString
          \/ exists before after, Hesms.type p = before +:+ ty +:+ after
      end.
Proof.
  unfold Hesms.relevantTo. destruct contextType as [ty|]; [|tauto].
  rewrite orb_true_iff, includes_spec, Nat.eqb_eq.
  destruct ty as [|c ty]; cbn [String.length]; [tauto|].
  split; (intros [H|H]; [discriminate H | right; exact H]).
Qed.

(** X19: [findRelevantPatterns] returns exactly the patterns of the
    semantic memory of the agent whose confidence is at least the
    threshold of the manager's options and, when the context has a
    non-empty [type], whose type contains it as a substring; they come in
    decreasing order of confidence, as many as the filter keeps.  For a
    context without [type] (the call of the decision system) the
    confidence alone decides. *)
Theorem X19_relevant_patterns_are_confident_and_ranked
    (agent : Z) (contextType : option string) (st : Hesms.State) :
  let threshold := Hesms.PATTERN_CONFIDENCE_THRESHOLD (Hesms.options (Hesms.manager st)) in
  let known := Hesms.patterns (Hesms.getSemanticMemory agent st) in
  (forall p, p ∈ Hesms.findRelevantPatterns agent contextType st
             <-> p ∈ known /\ threshold <= Hesms.confidence p
                 /\ match contextType with
                    | None => True
                    | Some ty =>
                        ty = EmptyString
                        \/ exists before after,
                             Hesms.type p = before +:+ ty +:+ after
                    end)
  /\ descending Hesms.confidence (Hesms.findRelevantPatterns agent contextType st)
  /\ length (Hesms.findRelevantPatterns agent contextType st)
     = length (List.filter (fun p => geb (Hesms.confidence p) threshold
                                     && Hesms.relevantTo contextType p) known)
  /\ (forall p, p ∈ Hesms.findRelevantPatterns agent None st
                <-> p ∈ known /\ threshold <= Hesms.confidence p).
Proof.
  cbn zeta.
  assert (Hmem : forall ct p,
             p ∈ Hesms.findRelevantPatterns agent ct st
             <-> p ∈ Hesms.patterns (Hesms.getSemanticMemory agent st)
                 /\ Hesms.PATTERN_CONFIDENCE_THRESHOLD (Hesms.options (Hesms.manager st))
                    <= Hesms.confidence p
                 /\ Hesms.relevantTo ct p = true).
  { intros ct p. unfold Hesms.findRelevantPatterns.
    destruct (Hesms.patterns (Hesms.getSemanticMemory agent st)) as [|q known] eqn:Hknown.
    - rewrite elem_of_nil. tauto.
    - rewrite sort_elem, list_elem_of_In, filter_In, andb_true_iff, geb_spec.
      rewrite <- list_elem_of_In. tauto. }
  split; [|split; [|split]].
  - intros p. rewrite Hmem, relevantTo_spec. reflexivity.
  - unfold Hesms.findRelevantPatterns.
    destruct (Hesms.patterns (Hesms.getSemanticMemory agent st)); [exact I|].
    apply (sort_descending Hesms.confidence).
  - unfold Hesms.findRelevantPatterns.
    destruct (Hesms.patterns (Hesms.getSemanticMemory agent st)); [reflexivity|].
    apply sort_length.
  - intros p. rewrite Hmem. cbn [Hesms.relevantTo]. tauto.
Qed.

(* --------------------------------------------------------------------- *)
(** ** Batches, retries and a synchronisation that succeeds                *)
(* --------------------------------------------------------------------- *)

Section SyncMore.
Import Hesms Scenarios Sync.

Lemma slices_spec (size : nat) (fuel : nat) :
  (1 <= size)%nat ->
  forall memories : list EpisodicMemory,
    (length memories <= fuel)%nat ->
    concat (slices fuel size memories) = memories
    /\ Forall (fun batch => (1 <= length batch <= size)%nat)
              (slices fuel size memories)
    /\ (length memories <= size * length (slices fuel size memories))%nat
    /\ (size * length (slices fuel size memories) < length memories + size)%nat.
Proof.
  intros Hsize. induction fuel as [|fuel IH]; intros memories Hfuel.
  - destruct memories; [|cbn in Hfuel; lia]. cbn.
    split; [reflexivity|]. split; [constructor|]. lia.
  - destruct memories as [|m memories].
    { cbn. split; [reflexivity|]. split; [constructor|]. lia. }
    cbn [slices].
    assert (Hdrop : (length (drop size (m :: memories)) <= fuel)%nat).
    { rewrite length_drop. cbn [length] in *. lia. }
    destruct (IH (drop size (m :: memories)) Hdrop) as (Hc & Hall & Hlo & Hhi).
    cbn [concat length]. rewrite Hc, take_drop.
    split; [reflexivity|]. split.
    + constructor; [|exact Hall]. rewrite length_take. cbn [length]. lia.
    + rewrite length_drop in Hlo, Hhi. cbn [length] in *.
      destruct (length (slices fuel size (drop size (m :: memories)))) as [|n].
      * rewrite Nat.mul_0_r in Hlo, Hhi. lia.
      * rewrite !Nat.mul_succ_r in *. split; lia.
Qed.

Lemma batchesOf_positive (size : nat) (memories : list EpisodicMemory) :
  (1 <= size)%nat ->
  batchesOf size memories = Some (slices (length memories) size memories).
Proof.
  intros Hsize. unfold batchesOf. destruct size as [|size]; [lia | reflexivity].
Qed.

(** X20: the batches of [syncEpisodicMemories].  For a batch size of at
    least 1 the slicing loop ends, and the slices of a queue, put together
    again, are the queue; every batch holds at least one memory and at
    most the batch size; and there are just enough of them:
    [size * (count - 1) < length <= size * count]. *)
Theorem X20_batches_partition_the_queue
    (size : nat) (memories : list EpisodicMemory) :
  (1 <= size)%nat ->
  exists batches,
    batchesOf size memories = Some batches
    /\ concat batches = memories
    /\ Forall (fun batch => (1 <= length batch <= size)%nat) batches
    /\ (length memories <= size * length batches)%nat
    /\ (size * length batches < length memories + size)%nat.
Proof.
  intros Hsize. eexists. split; [apply batchesOf_positive; exact Hsize|].
  apply slices_spec; [exact Hsize | lia].
Qed.

Lemma post_flaky (msg url : string) (from count : nat) (r : Run) :
  post (flaky msg from count) url r
  = if (from <=? requests r)%nat && (requests r <? from + count)%nat
    then (Throw (Rejected msg),
          mkRun (state r) (S (requests r)) (trace r ++ [Request url false]))
    else (Normal tt, mkRun (state r) (S (requests r)) (trace r ++ [Request url true])).
Proof.
  unfold post, flaky.
  destruct ((from <=? requests r)%nat && (requests r <? from + count)%nat); reflexivity.
Qed.

Lemma retryLoop_recovers (opts : Options) (memId : Z) (batch : list EpisodicMemory)
    (msg : string) (base count retries : nat) :
  forall (left attempt fuel : nat) (r : Run),
    (attempt + left = count)%nat ->
    requests r = (base + attempt)%nat ->
    (count < attempt + S fuel)%nat ->
    (attempt + S fuel = retries)%nat ->
    retryLoop (RETRY_DELAY opts) (syncBatch (flaky msg base count) opts memId batch)
              retries attempt (S fuel) r
    = (Normal (Some tt),
       mkRun (state r) (base + count + 1)
             (trace r
              ++ failedRounds (episodicUrl opts memId) msg (RETRY_DELAY opts) retries
                              attempt left
              ++ accepted opts memId batch)).
Proof.
  induction left as [|left IH]; intros attempt fuel r Hleft Hreq Hfuel Hsum.
  - cbn [retryLoop]. unfold syncBatch at 1, bind. rewrite post_flaky.
    replace ((base <=? requests r)%nat && (requests r <? base + count)%nat) with false.
    2:{ symmetry. apply andb_false_iff. right. apply Nat.ltb_ge. lia. }
    unfold emit. cbn [state requests trace failedRounds seq flat_map app].
    f_equal. f_equal; [lia|]. unfold accepted. rewrite <- app_assoc. reflexivity.
  - assert (Hop : syncBatch (flaky msg base count) opts memId batch r
                  = (Throw (Rejected msg),
                     mkRun (state r) (S (requests r))
                           (trace r ++ [Request (episodicUrl opts memId) false]))).
    { unfold syncBatch, bind. rewrite post_flaky.
      replace ((base <=? requests r)%nat && (requests r <? base + count)%nat) with true.
      2:{ symmetry. apply andb_true_iff. split; [apply Nat.leb_le | apply Nat.ltb_lt]; lia. }
      reflexivity. }
    rewrite (retryLoop_failed_round _ _ _ _ _ _ _ _ Hop).
    replace (attempt =? retries - 1)%nat with false
      by (symmetry; apply Nat.eqb_neq; lia).
    destruct fuel as [|fuel]; [lia|].
    rewrite (IH (S attempt) fuel) by (cbn [requests]; lia).
    cbn [state requests trace]. f_equal. f_equal.
    unfold failedRounds. cbn [seq flat_map errorMessage].
    rewrite <- !app_assoc. reflexivity.
Qed.

(** X21: [retryOperation] recovers.  When the transport rejects the first
    [count] requests of a batch and [count] is less than the number of
    retries, the operation succeeds at attempt [count + 1]: the trace shows
    [count] failed rounds, each with its warning and a delay of
    [RETRY_DELAY * attempt], and then the accepted request.  With 0
    retries the operation is not run at all and the method returns
    [undefined]. *)
Theorem X21_retry_recovers_after_failures
    (opts : Options) (memId : Z) (batch : list EpisodicMemory) (msg : string)
    (count retries : nat) (r : Run) :
  (count < retries)%nat ->
  retryOperation opts (syncBatch (flaky msg (requests r) count) opts memId batch) retries r
  = (Normal (Some tt),
     mkRun (state r) (requests r + count + 1)
           (trace r
            ++ failedRounds (episodicUrl opts memId) msg (RETRY_DELAY opts) retries 0 count
            ++ accepted opts memId batch))
  /\ retryOperation opts (syncBatch (flaky msg (requests r) count) opts memId batch) 0 r
     = (Normal None, r).
Proof.
  intros Hcount. split; [|reflexivity].
  unfold retryOperation. destruct retries as [|fuel]; [lia|].
  apply (retryLoop_recovers opts memId batch msg (requests r) count (S fuel) count 0 fuel r);
    lia.
Qed.

End SyncMore.

(** X21, witness: the one memory of [Scenarios.oneMemoryRun] is accepted
    at the third of three attempts. *)
Lemma X21_retry_recovers_after_failures_witness :
  fst (Hesms.retryOperation Hesms.CONFIG
         (Hesms.syncBatch (Sync.flaky "ECONNREFUSED" 0 2) Hesms.CONFIG 1001 []) 3
         Scenarios.oneMemoryRun)
  = Normal (Some tt).
Proof.
  destruct (X21_retry_recovers_after_failures Hesms.CONFIG 1001 [] "ECONNREFUSED" 2 3
              Scenarios.oneMemoryRun) as [Hrun _]; [lia|].
  change (Hesms.requests Scenarios.oneMemoryRun) with 0%nat in Hrun.
  rewrite Hrun. reflexivity.
Defined.

(** X20, witness: 120 memories in batches of 50. *)
Lemma X20_batches_partition_the_queue_witness :
  exists batches,
    Hesms.batchesOf 50 (replicate 120 (Scenarios.recordOf 11 0 1 10 10)) = Some batches
    /\ Forall (fun batch : list Hesms.EpisodicMemory => (1 <= length batch <= 50)%nat)
              batches
    /\ (50 * length batches < 120 + 50)%nat.
Proof.
  destruct (X20_batches_partition_the_queue 50
              (replicate 120 (Scenarios.recordOf 11 0 1 10 10)))
    as (batches & Hsome & _ & Hall & _ & Hcount); [lia|].
  exists batches. split; [exact Hsome|]. split; [exact Hall | exact Hcount].
Defined.

Section SyncRuns.
Import Hesms Scenarios Sync.

(** A transport and a condition on the options under which every batch of
    a queue is settled with [cost] requests and the trace [effects]. *)
Variable transport : nat -> option string.
Variable enough : Options -> Prop.
Variable cost : nat.
Variable effects : Options -> Z -> list EpisodicMemory -> list Effect.
Hypothesis batches_settled :
  forall (opts : Options) (memId : Z) (batches : list (list EpisodicMemory)) (r : Run),
    enough opts ->
    syncBatches transport opts memId batches r
    = (Normal tt,
       mkRun (state r) (requests r + cost * length batches)
             (trace r ++ flat_map (effects opts memId) batches)).
Hypothesis batches_end : forall opts : Options, enough opts -> (1 <= BATCH_SIZE opts)%nat.

Lemma set_set {V : Type} (m : list (Z * V)) (k : Z) (v v' : V) :
  set (set m k v) k v' = set m k v'.
Proof.
  induction m as [|[k0 v0] m IH]; cbn.
  - destruct (decide (k = k)); [reflexivity | contradiction].
  - destruct (decide (k0 = k)) as [->|Hne]; cbn.
    + destruct (decide (k = k)); [reflexivity | contradiction].
    + destruct (decide (k0 = k)); [contradiction|]. f_equal. exact IH.
Qed.

Lemma flat_map_ext_elem {A B : Type} (f g : A -> list B) (l : list A) :
  (forall a, a ∈ l -> f a = g a) -> flat_map f l = flat_map g l.
Proof.
  induction l as [|a l IH]; intros Hext; [reflexivity|].
  cbn [flat_map]. rewrite (Hext a) by (apply elem_of_cons; left; reflexivity).
  rewrite IH; [reflexivity|].
  intros a' Hin. apply Hext. apply elem_of_cons. right. exact Hin.
Qed.

Lemma syncQueue_settled (memId : Z) (r : Run) :
  let mm := manager (state r) in
  enough (options mm) ->
  syncQueue transport memId r
  = Some (Normal tt,
          mkRun (mkState (components (state r))
                         (setEpisodicQueue (set (episodicQueue mm) memId []) mm))
                (requests r + cost * length (batchesFor mm memId))
                (trace r ++ flat_map (effects (options mm) memId) (batchesFor mm memId))).
Proof.
  intros mm Henough. unfold syncQueue, bindLoop at 1, returns at 1, getManager. fold mm.
  unfold batchesFor.
  rewrite (batchesOf_positive _ _ (batches_end _ Henough)).
  cbn [default from_option id].
  destruct (sort (fun a b => importance b - importance a)
                 (default [] (get (episodicQueue mm) memId))) as [|m ms].
  - unfold bindLoop, returns, putManager, ret. cbn [length slices flat_map].
    rewrite Nat.mul_0_r, Nat.add_0_r, app_nil_r. reflexivity.
  - unfold bindLoop at 1, returns at 1, putManager.
    unfold bindLoop at 1, returns at 1, ret. cbn beta iota.
    unfold bindLoop at 1, returns at 1.
    cbn [state manager options setEpisodicQueue].
    rewrite batches_settled by exact Henough.
    unfold bindLoop, returns, getManager.
    cbn [state manager components requests trace options setEpisodicQueue episodicQueue
         agentMemoryCache longTermMemory spatialIndex pendingSemanticUpdates initialized
         syncInProgress].
    rewrite set_set. reflexivity.
Qed.

Lemma syncQueues_settled (memoryIds : list Z) :
  forall r : Run,
    let mm := manager (state r) in
    enough (options mm) ->
    NoDup memoryIds ->
    exists q',
      syncQueues transport memoryIds r
      = Some (Normal tt,
              mkRun (mkState (components (state r)) (setEpisodicQueue q' mm))
                    (requests r + cost * length (flat_map (batchesFor mm) memoryIds))
                    (trace r
                     ++ flat_map (fun memId => flat_map (effects (options mm) memId)
                                                        (batchesFor mm memId))
                                 memoryIds))
      /\ (forall k, get q' k
                    = if decide (k ∈ memoryIds) then Some [] else get (episodicQueue mm) k)
      /\ (memoryIds ⊆ keys (episodicQueue mm) -> keys q' = keys (episodicQueue mm)).
Proof.
  induction memoryIds as [|memId memoryIds IH]; intros r mm Henough Hnd.
  - exists (episodicQueue mm). cbn [syncQueues flat_map length].
    rewrite Nat.mul_0_r, Nat.add_0_r, app_nil_r. split; [|split].
    + unfold returns, ret. destruct r as [[comps m0] n tr]. destruct m0. reflexivity.
    + intros k. destruct (decide (k ∈ [])) as [Hin|]; [|reflexivity].
      apply elem_of_nil in Hin. contradiction.
    + reflexivity.
  - apply NoDup_cons in Hnd. destruct Hnd as [Hfresh Hnd].
    cbn [syncQueues]. unfold bindLoop at 1.
    rewrite (syncQueue_settled memId r Henough). fold mm.
    set (mm1 := setEpisodicQueue (set (episodicQueue mm) memId []) mm).
    set (r1 := mkRun _ _ _).
    destruct (IH r1) as (q' & Hrun & Hget & Hkeys); [exact Henough | exact Hnd |].
    assert (Hsame : forall k, k ∈ memoryIds -> batchesFor mm1 k = batchesFor mm k).
    { intros k Hin. unfold batchesFor, mm1. cbn [episodicQueue setEpisodicQueue options].
      rewrite get_set. destruct (decide (memId = k)) as [->|]; [contradiction | reflexivity]. }
    exists q'. split; [|split].
    + rewrite Hrun. unfold r1. cbn [state manager components requests trace].
      fold mm1. f_equal. f_equal. f_equal.
      * cbn [flat_map]. rewrite length_app, Nat.mul_add_distr_l, <- Nat.add_assoc.
        rewrite (flat_map_ext_elem (batchesFor mm1) (batchesFor mm) memoryIds Hsame).
        reflexivity.
      * cbn [flat_map]. rewrite <- app_assoc. change (options mm1) with (options mm).
        rewrite (flat_map_ext_elem
                   (fun k => flat_map (effects (options mm) k) (batchesFor mm1 k))
                   (fun k => flat_map (effects (options mm) k) (batchesFor mm k))
                   memoryIds).
        -- reflexivity.
        -- intros k Hin. cbn beta. rewrite (Hsame k Hin). reflexivity.
    + intros k. rewrite Hget. unfold r1. cbn [state manager]. fold mm1.
      destruct (decide (k ∈ memoryIds)) as [Hin|Hout].
      * destruct (decide (k ∈ memId :: memoryIds)) as [|Hno]; [reflexivity|].
        exfalso. apply Hno. apply elem_of_cons. right. exact Hin.
      * unfold mm1. cbn [episodicQueue setEpisodicQueue]. rewrite get_set.
        destruct (decide (memId = k)) as [->|Hne].
        -- destruct (decide (k ∈ k :: memoryIds)) as [|Hno]; [reflexivity|].
           exfalso. apply Hno. apply elem_of_cons. left. reflexivity.
        -- destruct (decide (k ∈ memId :: memoryIds)) as [Hin|]; [|reflexivity].
           apply elem_of_cons in Hin. destruct Hin as [->|Hin]; contradiction.
    + intros Hsub. unfold r1 in Hkeys. cbn [state manager] in Hkeys. fold mm1 in Hkeys.
      assert (Hhead : memId ∈ keys (episodicQueue mm)).
      { apply Hsub. apply elem_of_cons. left. reflexivity. }
      assert (Hk1 : keys (episodicQueue mm1) = keys (episodicQueue mm)).
      { unfold mm1. cbn [episodicQueue setEpisodicQueue].
        apply keys_set_present. exact Hhead. }
      rewrite <- Hk1. apply Hkeys. rewrite Hk1.
      intros k Hin. apply Hsub. apply elem_of_cons. right. exact Hin.
Qed.

Lemma syncEpisodicMemories_settled (r : Run) :
  let mm := manager (state r) in
  ENABLE_CLOUD_SYNC (options mm) = true ->
  syncInProgress mm = false ->
  enough (options mm) ->
  NoDup (keys (episodicQueue mm)) ->
  exists r',
    syncEpisodicMemories transport r = Some (Normal tt, r')
    /\ syncInProgress (manager (state r')) = false
    /\ keys (episodicQueue (manager (state r'))) = keys (episodicQueue mm)
    /\ (forall k, k ∈ keys (episodicQueue mm) ->
                  get (episodicQueue (manager (state r'))) k = Some [])
    /\ requests r'
       = (requests r + cost * length (flat_map (batchesFor mm) (keys (episodicQueue mm))))%nat
    /\ trace r'
       = trace r
         ++ flat_map (fun memId => flat_map (effects (options mm) memId)
                                            (batchesFor mm memId))
                     (keys (episodicQueue mm)).
Proof.
  intros mm Henabled Hidle Henough Hnd.
  unfold syncEpisodicMemories, bindLoop at 1, returns at 1, getManager. fold mm.
  rewrite Henabled, Hidle. cbn [negb orb].
  destruct (episodicQueue mm) as [|kv q] eqn:Hq.
  - cbn [size length Nat.eqb keys map flat_map]. exists r. unfold returns, ret.
    split; [reflexivity|]. split; [exact Hidle|]. fold mm. rewrite Hq.
    split; [reflexivity|]. split.
    + intros k Hin. apply elem_of_nil in Hin. contradiction.
    + rewrite Nat.mul_0_r, Nat.add_0_r, app_nil_r. split; reflexivity.
  - change (size (kv :: q) =? 0)%nat with false. cbn iota. rewrite <- Hq in *.
    unfold bindLoop at 1, returns at 1, putManager. unfold bindLoop at 1.
    set (r0 := mkRun _ _ _).
    destruct (syncQueues_settled (keys (episodicQueue mm)) r0)
      as (q' & Hrun & Hget & Hkeys); [exact Henough | exact Hnd |].
    cbn [state manager components requests trace setSyncInProgress episodicQueue options]
      in Hrun, Hget, Hkeys.
    change (episodicQueue (setSyncInProgress true mm)) with (episodicQueue mm).
    rewrite Hrun. unfold bindLoop, returns, getManager, putManager.
    eexists. split; [reflexivity|].
    cbn [state manager components requests trace setSyncInProgress setEpisodicQueue
         episodicQueue syncInProgress options].
    split; [reflexivity|]. split; [apply Hkeys; intros k Hin; exact Hin|]. split.
    + intros k Hin. rewrite Hget. destruct (decide (k ∈ keys (episodicQueue mm)));
        [reflexivity | contradiction].
    + split; reflexivity.
Qed.

End SyncRuns.

Section SyncOutcomes.
Import Hesms Scenarios Sync.

Lemma retryOperation_reliable (opts : Options) (memId : Z) (batch : list EpisodicMemory)
    (retries : nat) (r : Run) :
  (1 <= retries)%nat ->
  retryOperation opts (syncBatch reliable opts memId batch) retries r
  = (Normal (Some tt),
     mkRun (state r) (S (requests r)) (trace r ++ accepted opts memId batch)).
Proof.
  intros Hretries. unfold retryOperation. destruct retries as [|fuel]; [lia|].
  cbn [retryLoop]. unfold syncBatch, bind, post, reliable, emit.
  cbn [state requests trace]. unfold accepted. rewrite <- app_assoc. reflexivity.
Qed.

Lemma syncBatches_reliable (opts : Options) (memId : Z)
    (batches : list (list EpisodicMemory)) :
  forall r : Run,
    (1 <= MAX_RETRIES opts)%nat ->
    syncBatches reliable opts memId batches r
    = (Normal tt,
       mkRun (state r) (requests r + 1 * length batches)
             (trace r ++ flat_map (accepted opts memId) batches)).
Proof.
  induction batches as [|batch batches IH]; intros r Hretries.
  - cbn [syncBatches flat_map length]. unfold ret.
    rewrite Nat.mul_0_r, Nat.add_0_r, app_nil_r. destruct r. reflexivity.
  - cbn [syncBatches]. unfold bind at 1.
    rewrite retryOperation_reliable by exact Hretries.
    rewrite IH by exact Hretries. cbn [state requests trace flat_map length].
    rewrite <- app_assoc. f_equal. f_equal. lia.
Qed.

Lemma syncBatches_without_retries (transport : nat -> option string) (opts : Options)
    (memId : Z) (batches : list (list EpisodicMemory)) :
  forall r : Run,
    MAX_RETRIES opts = 0%nat ->
    syncBatches transport opts memId batches r
    = (Normal tt,
       mkRun (state r) (requests r + 0 * length batches)
             (trace r ++ flat_map (fun _ : list EpisodicMemory => []) batches)).
Proof.
  induction batches as [|batch batches IH]; intros r Hretries.
  - cbn [syncBatches flat_map length]. unfold ret.
    rewrite Nat.add_0_r, app_nil_r. destruct r. reflexivity.
  - cbn [syncBatches]. unfold bind at 1. rewrite Hretries.
    unfold retryOperation. cbn [retryLoop]. unfold ret at 1.
    rewrite IH by exact Hretries.
    cbn [flat_map app]. reflexivity.
Qed.

Lemma flat_map_silent {A B C : Type} (g : A -> list B) (l : list A) :
  flat_map (fun a => flat_map (fun _ : B => @nil C) (g a)) l = [].
Proof.
  induction l as [|a l IH]; [reflexivity|]. cbn [flat_map]. rewrite IH, app_nil_r.
  induction (g a) as [|b bs IHb]; [reflexivity | exact IHb].
Qed.

(** X22: a synchronisation that succeeds.  With cloud sync enabled, no
    synchronisation in progress, at least one retry, a batch size of at
    least 1 (with 0 the slicing of a queue does not end) and a transport
    that accepts every request, [syncEpisodicMemories] completes; it sends one
    request for every batch of every queue, queue after queue in the order
    of the keys of [episodicQueue], each followed by its message; it keeps
    the keys of [episodicQueue] and leaves every queue empty, and
    [syncInProgress] is false again. *)
Theorem X22_reliable_sync_sends_every_batch_once (r : Run) :
  let mm := manager (state r) in
  ENABLE_CLOUD_SYNC (options mm) = true ->
  syncInProgress mm = false ->
  (1 <= MAX_RETRIES (options mm))%nat ->
  (1 <= BATCH_SIZE (options mm))%nat ->
  NoDup (keys (episodicQueue mm)) ->
  exists r',
    syncEpisodicMemories reliable r = Some (Normal tt, r')
    /\ syncInProgress (manager (state r')) = false
    /\ keys (episodicQueue (manager (state r'))) = keys (episodicQueue mm)
    /\ (forall k, k ∈ keys (episodicQueue mm) ->
                  get (episodicQueue (manager (state r'))) k = Some [])
    /\ requests r'
       = (requests r + length (flat_map (batchesFor mm) (keys (episodicQueue mm))))%nat
    /\ trace r' = trace r ++ sent mm (keys (episodicQueue mm)).
Proof.
  intros mm Henabled Hidle Hretries Hbatch Hnd.
  destruct (syncEpisodicMemories_settled reliable
              (fun opts => (1 <= MAX_RETRIES opts)%nat /\ (1 <= BATCH_SIZE opts)%nat)
              1 accepted
              (fun opts memId batches r0 H =>
                 syncBatches_reliable opts memId batches r0 (proj1 H))
              (fun opts H => proj2 H)
              r Henabled Hidle (conj Hretries Hbatch) Hnd)
    as (r' & Hrun & Hflag & Hkeys & Hget & Hreq & Htrace).
  exists r'. rewrite Nat.mul_1_l in Hreq. repeat split; assumption.
Qed.

(** X23: no retries, no requests.  With [MAX_RETRIES] 0 (and a batch
    size of at least 1, so that the slicing of a queue ends) the loop of
    [retryOperation] has no round, so whatever the transport,
    [syncEpisodicMemories] completes without a request and without a
    message, and still leaves every queue empty: the memories that waited
    are dropped without being sent. *)
Theorem X23_sync_without_retries_drops_the_queues
    (transport : nat -> option string) (r : Run) :
  let mm := manager (state r) in
  ENABLE_CLOUD_SYNC (options mm) = true ->
  syncInProgress mm = false ->
  MAX_RETRIES (options mm) = 0%nat ->
  (1 <= BATCH_SIZE (options mm))%nat ->
  NoDup (keys (episodicQueue mm)) ->
  exists r',
    syncEpisodicMemories transport r = Some (Normal tt, r')
    /\ requests r' = requests r
    /\ trace r' = trace r
    /\ keys (episodicQueue (manager (state r'))) = keys (episodicQueue mm)
    /\ forall k, k ∈ keys (episodicQueue mm) ->
                 get (episodicQueue (manager (state r'))) k = Some [].
Proof.
  intros mm Henabled Hidle Hretries Hbatch Hnd.
  destruct (syncEpisodicMemories_settled transport
              (fun opts => MAX_RETRIES opts = 0%nat /\ (1 <= BATCH_SIZE opts)%nat) 0
              (fun _ _ _ => [])
              (fun opts memId batches r0 H =>
                 syncBatches_without_retries transport opts memId batches r0 (proj1 H))
              (fun opts H => proj2 H)
              r Henabled Hidle (conj Hretries Hbatch) Hnd)
    as (r' & Hrun & Hflag & Hkeys & Hget & Hreq & Htrace).
  exists r'. split; [exact Hrun|]. split; [rewrite Hreq; cbn; lia|].
  split; [|split; assumption].
  rewrite Htrace. rewrite flat_map_silent. apply app_nil_r.
Qed.

End SyncOutcomes.

(** X22, witness: the one memory of [Scenarios.oneMemoryRun] is sent with
    one request. *)
Lemma X22_reliable_sync_sends_every_batch_once_witness :
  exists r',
    Hesms.syncEpisodicMemories Sync.reliable Scenarios.oneMemoryRun = Some (Normal tt, r')
    /\ Hesms.requests r' = 1%nat
    /\ Hesms.episodicQueue (Hesms.manager (Hesms.state r')) = [(1001%Z, [])].
Proof.
  destruct (X22_reliable_sync_sends_every_batch_once Scenarios.oneMemoryRun)
    as (r' & Hrun & _ & _ & _ & Hreq & _).
  - reflexivity.
  - reflexivity.
  - vm_compute. lia.
  - vm_compute. lia.
  - vm_compute. apply NoDup_singleton.
  - exists r'. split; [exact Hrun|]. split; [rewrite Hreq; vm_compute; reflexivity|].
    vm_compute in Hrun. injection Hrun as <-. reflexivity.
Defined.

(** X23, witness: built with [MAX_RETRIES: 0], the same manager drops the
    memory without a request. *)
Lemma X23_sync_without_retries_drops_the_queues_witness :
  exists r',
    Hesms.syncEpisodicMemories (Scenarios.unreachable "ECONNREFUSED")
      (Sync.withMaxRetries 0 Scenarios.oneMemoryRun) = Some (Normal tt, r')
    /\ Hesms.requests r' = 0%nat
    /\ Hesms.episodicQueue (Hesms.manager (Hesms.state r')) = [(1001%Z, [])].
Proof.
  destruct (X23_sync_without_retries_drops_the_queues
              (Scenarios.unreachable "ECONNREFUSED")
              (Sync.withMaxRetries 0 Scenarios.oneMemoryRun))
    as (r' & Hrun & Hreq & _).
  - reflexivity.
  - reflexivity.
  - reflexivity.
  - vm_compute. lia.
  - vm_compute. apply NoDup_singleton.
  - exists r'. split; [exact Hrun|]. split; [rewrite Hreq; reflexivity|].
    vm_compute in Hrun. injection Hrun as <-. reflexivity.
Defined.

(* --------------------------------------------------------------------- *)
(** ** What [recordEpisodicMemory] leaves in the manager                   *)
(* --------------------------------------------------------------------- *)

Section Recording.
Import Hesms Scenarios.
Local Open Scope Q_scope.

Lemma clamp01_unit (q : Q) : 0 <= clamp01 q <= 1.
Proof.
  unfold clamp01.
  destruct (Q.max_spec 0 q) as [[Hlt Hmax]|[Hge Hmax]];
    destruct (Q.min_spec 1 (Qmax 0 q)) as [[Hm Hmin]|[Hle Hmin]];
    rewrite Hmin; rewrite ?Hmax in *; lra.
Qed.

Lemma clamp01_id (q : Q) : 0 <= q <= 1 -> clamp01 q == q.
Proof.
  intros [H0 H1]. unfold clamp01.
  destruct (Q.max_spec 0 q) as [[Hlt Hmax]|[Hge Hmax]];
    destruct (Q.min_spec 1 (Qmax 0 q)) as [[Hm Hmin]|[Hle Hmin]];
    rewrite Hmin; rewrite ?Hmax in *; lra.
Qed.

Lemma orElse_nonzero (q d : Q) : ~ q == 0 -> orElse (Some q) d = q.
Proof.
  intros Hq. unfold orElse, orNullQ.
  destruct (Qeq_bool q 0) eqn:E; [|reflexivity].
  apply Qeq_bool_iff in E. contradiction.
Qed.

Lemma get_has_default {V : Type} (q : list (Z * list V)) (k : Z) :
  default [] (get (if has q k then q else set q k []) k) = default [] (get q k)
  /\ forall k0, k0 <> k -> get (if has q k then q else set q k []) k0 = get q k0.
Proof.
  unfold has. destruct (get q k) as [v|] eqn:Hget.
  - rewrite Hget. split; [reflexivity|]. intros k0 _. reflexivity.
  - split.
    + rewrite get_set. destruct (decide (k = k)); [reflexivity | contradiction].
    + intros k0 Hne. rewrite get_set. destruct (decide (k = k0)); [congruence | reflexivity].
Qed.

Lemma recordEpisodicMemory_queued
    (agent : Z) (event : Event) (o : Occasion) (st : State) :
  let memId := readZ (memoryId (components st)) agent in
  let before := manager st in
  let after := manager (fst (recordEpisodicMemory agent event o st)) in
  let memory := snd (recordEpisodicMemory agent event o st) in
  get (episodicQueue after) memId
  = Some (default [] (get (episodicQueue before) memId) ++ [memory])
  /\ (forall k, k <> memId -> get (episodicQueue after) k = get (episodicQueue before) k)
  /\ (timestamp memory = worldTime o /\ agentId memory = agent
      /\ entityId memory = eventEntityId event
      /\ position memory = eventPosition event)
  /\ (0 <= importance memory <= 1 /\ 0 <= fidelity memory <= 1)
  /\ forall k,
       k ∈ pendingSemanticUpdates after
       <-> k ∈ pendingSemanticUpdates before
           \/ (k = memId
               /\ (5 <= S (length (default [] (get (episodicQueue before) memId))))%nat).
Proof.
  cbn zeta. unfold recordEpisodicMemory.
  cbn [fst snd manager episodicQueue pendingSemanticUpdates timestamp agentId entityId
       position importance fidelity].
  set (memId := readZ (memoryId (components st)) agent).
  set (q := episodicQueue (manager st)).
  destruct (get_has_default q memId) as [Hsame Hother].
  set (memory := mkEpisodicMemory _ _ _ _ _ _ _ _ _ _ _ _).
  split; [|split; [|split; [|split]]].
  - rewrite get_set. destruct (decide (memId = memId)); [|contradiction].
    rewrite Hsame. reflexivity.
  - intros k Hne. rewrite get_set. destruct (decide (memId = k)); [congruence|].
    apply Hother. exact Hne.
  - repeat split; reflexivity.
  - split; apply clamp01_unit.
  - intros k. rewrite Hsame, length_app. cbn [length]. rewrite Nat.add_1_r.
    destruct (5 <=? S (length (default [] (get q memId))))%nat eqn:Hfive.
    + apply Nat.leb_le in Hfive.
      destruct (bool_decide (memId ∈ pendingSemanticUpdates (manager st))) eqn:Hin.
      * apply bool_decide_eq_true_1 in Hin. split; [tauto|].
        intros [Hk|[-> _]]; assumption.
      * rewrite elem_of_app, list_elem_of_singleton. split.
        -- intros [Hk| ->]; [left; exact Hk | right; split; [reflexivity | exact Hfive]].
        -- intros [Hk|[-> _]]; [left; exact Hk | right; reflexivity].
    + apply Nat.leb_gt in Hfive. split; [tauto|]. intros [Hk|[_ Hlen]]; [exact Hk | lia].
Qed.

(** X24: what [recordEpisodicMemory] leaves in the manager.  The memory
    it returns is appended to the queue of the agent's memory id (created
    empty when the id had none) and no other queue changes; the memory
    carries the world time, the agent and the event's entity, and an
    importance and a fidelity between 0 and 1; the memory id is pending a
    semantic update afterwards exactly when it was before or its queue now
    holds at least 5 memories, and no other id becomes pending. *)
Theorem X24_recorded_memory_is_queued
    (agent : Z) (event : Event) (o : Occasion) (st : State) :
  let memId := readZ (memoryId (components st)) agent in
  let before := manager st in
  let after := manager (fst (recordEpisodicMemory agent event o st)) in
  let memory := snd (recordEpisodicMemory agent event o st) in
  get (episodicQueue after) memId
  = Some (default [] (get (episodicQueue before) memId) ++ [memory])
  /\ (forall k, k <> memId -> get (episodicQueue after) k = get (episodicQueue before) k)
  /\ (timestamp memory = worldTime o /\ agentId memory = agent
      /\ entityId memory = eventEntityId event
      /\ position memory = eventPosition event)
  /\ (0 <= importance memory <= 1 /\ 0 <= fidelity memory <= 1)
  /\ forall k,
       k ∈ pendingSemanticUpdates after
       <-> k ∈ pendingSemanticUpdates before
           \/ (k = memId
               /\ (5 <= S (length (default [] (get (episodicQueue before) memId))))%nat).
Proof. apply recordEpisodicMemory_queued. Qed.

(** Whether the agent's emotional state, when it has one that is not 0,
    lies between 30 and 70. *)
Lemma boost_cases (o : Occasion) :
  (if gtb (numeric (emotionalState (contextOf o))) 70
      || ltb (numeric (emotionalState (contextOf o))) 30
   then 2 # 10 else 0)
  = match agentEmotionalState o with
    | Some e => if gtb e 70 || ltb e 30 then 2 # 10 else 0
    | None => 2 # 10
    end.
Proof.
  unfold contextOf. cbn [emotionalState]. unfold orNullQ, numeric.
  destruct (agentEmotionalState o) as [e|]; [|reflexivity].
  destruct (Qeq_bool e 0) eqn:E; [|reflexivity].
  apply Qeq_bool_iff in E. cbn [default from_option id].
  assert (Hlt : ltb e 30 = true) by (apply ltb_spec; rewrite E; reflexivity).
  rewrite Hlt, !orb_true_r. reflexivity.
Qed.

Lemma recordEpisodicMemory_importance
    (agent : Z) (event : Event) (o : Occasion) (st : State) :
  0 < orElse (eventImportance event) (5 # 10) ->
  importance (snd (recordEpisodicMemory agent event o st))
  == Qmin 1 (orElse (eventImportance event) (5 # 10)
             + match agentEmotionalState o with
               | Some e => if gtb e 70 || ltb e 30 then 2 # 10 else 0
               | None => 2 # 10
               end).
Proof.
  intros Hpos. unfold recordEpisodicMemory. cbn [snd importance].
  unfold boostedImportance. rewrite boost_cases.
  set (boost := match agentEmotionalState o with
                | Some e => if gtb e 70 || ltb e 30 then 2 # 10 else 0
                | None => 2 # 10
                end).
  assert (Hboost : 0 <= boost).
  { unfold boost. destruct (agentEmotionalState o) as [e|]; [|lra].
    destruct (gtb e 70 || ltb e 30); lra. }
  set (v := orElse (eventImportance event) (5 # 10)) in *.
  assert (Hrange : 0 < Qmin 1 (v + boost) <= 1).
  { destruct (Q.min_spec 1 (v + boost)) as [[Hlt Hmin]|[Hle Hmin]]; rewrite Hmin; lra. }
  rewrite orElse_nonzero by lra.
  apply clamp01_id. lra.
Qed.

(** X25: the emotional boost of [recordEpisodicMemory].  For an event
    whose importance is positive or absent (absent or 0 counts as 0.5), the
    memory is recorded with importance [min 1 (importance + boost)], where
    the boost is 0.2 unless the agent has an emotional state from 30 to
    70: an agent without [CognitiveState], or with emotional state 0, is
    boosted as well, because [null > 70 || null < 30] holds. *)
Theorem X25_memory_without_emotion_is_boosted
    (agent : Z) (event : Event) (o : Occasion) (st : State) :
  0 < orElse (eventImportance event) (5 # 10) ->
  importance (snd (recordEpisodicMemory agent event o st))
  == Qmin 1 (orElse (eventImportance event) (5 # 10)
             + match agentEmotionalState o with
               | Some e => if gtb e 70 || ltb e 30 then 2 # 10 else 0
               | None => 2 # 10
               end).
Proof. apply recordEpisodicMemory_importance. Qed.

End Recording.

(** X25, witness: a resource of importance 0.9 seen by an agent without
    emotional state is recorded with importance 1. *)
Lemma X25_memory_without_emotion_is_boosted_witness :
  Hesms.importance
    (snd (Hesms.recordEpisodicMemory 1
            (Hesms.mkEvent 100 0 (Hesms.mkPosition 1 1) (Some (9 # 10)))
            (Hesms.mkOccasion 0 1000 "abc" None None None None) Scenarios.freshState))
  == 1.
Proof.
  rewrite (X25_memory_without_emotion_is_boosted 1
             (Hesms.mkEvent 100 0 (Hesms.mkPosition 1 1) (Some (9 # 10)))
             (Hesms.mkOccasion 0 1000 "abc" None None None None) Scenarios.freshState).
  - vm_compute. reflexivity.
  - vm_compute. reflexivity.
Defined.

(* --------------------------------------------------------------------- *)
(** ** Semantic patterns                                                   *)
(* --------------------------------------------------------------------- *)

Section SemanticPatterns.
Import Hesms Patterns.
Local Open Scope Q_scope.










End SemanticPatterns.



(* --------------------------------------------------------------------- *)
(** ** Importance, reality shifts and consolidation                        *)
(* --------------------------------------------------------------------- *)

Section UpkeepFacts.
Import Hesms Upkeep.
Local Open Scope Q_scope.

Lemma rawImportance_range (ty : Z) (primaryType entityEffect : option Z)
    (emotional : option Q) :
  4 # 10 <= rawImportance ty primaryType entityEffect emotional <= 125 # 100.
Proof.
  unfold rawImportance.
  destruct (match entityEffect with Some e => (0 <? e)%Z | None => false end);
    destruct (match emotional with Some e => gtb e 70 || ltb e 30 | None => false end);
    destruct (bool_decide (primaryType = Some 1%Z));
    destruct (bool_decide (primaryType = Some 2%Z));
    destruct ty as [|[q|[q|q|]|]|q]; cbn [andb Z.eqb Pos.eqb]; lra.
Qed.

Lemma boost_nonneg (o : Occasion) :
  0 <= match agentEmotionalState o with
       | Some e => if gtb e 70 || ltb e 30 then 2 # 10 else 0
       | None => 2 # 10
       end <= 2 # 10.
Proof.
  destruct (agentEmotionalState o) as [e|]; [|lra].
  destruct (gtb e 70 || ltb e 30); lra.
Qed.

Lemma recorded_at_least (agent : Z) (e ty : Z) (pos : Position) (v floor : Q)
    (o : Occasion) (st : State) :
  0 < floor -> floor <= v -> floor <= 1 ->
  floor <= importance (snd (recordEpisodicMemory agent (mkEvent e ty pos (Some v)) o st)).
Proof.
  intros Hpos Hv Hone.
  assert (Hval : orElse (eventImportance (mkEvent e ty pos (Some v))) (5 # 10) = v).
  { cbn [eventImportance]. apply orElse_nonzero. lra. }
  rewrite recordEpisodicMemory_importance by (rewrite Hval; lra).
  rewrite Hval. pose proof (boost_nonneg o) as Hboost.
  set (boost := match agentEmotionalState o with
                | Some e0 => if gtb e0 70 || ltb e0 30 then 2 # 10 else 0
                | None => 2 # 10
                end) in *.
  destruct (Q.min_spec 1 (v + boost)) as [[Hlt Hmin]|[Hle Hmin]]; rewrite Hmin; lra.
Qed.

(** X28: the importance of a sighting.  [calculateImportance] returns a
    value between 0.4 and 1, whatever the type, the goal, the reality flux
    of the entity and the emotional state: the least base is 0.4 and
    nothing is subtracted, so the lower bound 0.1 of its clamp is never
    the result.  The memory that [recordEpisodicMemory] builds from a
    sighting with this importance has an importance of at least 0.4 as
    well. *)
Theorem X28_importance_of_a_sighting_is_at_least_two_fifths
    (ty : Z) (primaryType entityEffect : option Z) (emotional : option Q)
    (agent entity : Z) (pos : Position) (o : Occasion) (st : State) :
  let calculated := calculateImportance ty primaryType entityEffect emotional in
  4 # 10 <= calculated <= 1
  /\ calculated == Qmin 1 (rawImportance ty primaryType entityEffect emotional)
  /\ 4 # 10 <= importance (snd (recordEpisodicMemory agent
                                  (mkEvent entity ty pos (Some calculated)) o st)).
Proof.
  cbn zeta. unfold calculateImportance.
  pose proof (rawImportance_range ty primaryType entityEffect emotional) as [Hlo Hhi].
  set (raw := rawImportance ty primaryType entityEffect emotional) in *.
  assert (Hmax : Qmax (1 # 10) raw == raw).
  { destruct (Q.max_spec (1 # 10) raw) as [[_ Hm]|[Hle Hm]]; [exact Hm | lra]. }
  assert (Hrange : 4 # 10 <= Qmin 1 (Qmax (1 # 10) raw) <= 1).
  { rewrite Hmax.
    destruct (Q.min_spec 1 raw) as [[Hlt Hmin]|[Hle Hmin]]; rewrite Hmin; lra. }
  split; [exact Hrange|]. split; [rewrite Hmax; reflexivity|].
  apply recorded_at_least; lra.
Qed.

Lemma distortTemporalMemories_frame (random : nat -> Q) (agent : Z)
    (em : EnhancedMemory) (drawn : nat) :
  globalFidelity (fst (distortTemporalMemories random agent em drawn)) = globalFidelity em
  /\ memoryId (fst (distortTemporalMemories random agent em drawn)) = memoryId em.
Proof.
  unfold distortTemporalMemories.
  generalize (seqZ 0 (readZ (shortTermCapacity em) agent)) as slots.
  intros slots.
  assert (Hgen : forall acc : EnhancedMemory * nat,
             globalFidelity (fst acc) = globalFidelity em /\ memoryId (fst acc) = memoryId em ->
             let after := fold_left
               (fun (acc : EnhancedMemory * nat) i =>
                  let '(em, drawn) := acc in
                  let slot := (agent * 10 + i)%Z in
                  if ltb (random drawn) (3 # 10)
                     && (0 <? readZ (shortTermTimestamps em) slot)%Z
                  then
                    (setSlot slot
                       (Some (toUint32 (readZ (shortTermTimestamps em) slot
                                        + truncate (random (S drawn) * 20 - 10))))
                       None
                       (readQ (shortTermFidelity em) slot * (9 # 10)) em,
                     S (S drawn))
                  else (em, S drawn)) slots acc in
             globalFidelity (fst after) = globalFidelity em
             /\ memoryId (fst after) = memoryId em).
  { induction slots as [|i slots IH]; intros [em1 d1] Hacc; cbn [fold_left]; [exact Hacc|].
    apply IH. cbn [fst] in Hacc.
    destruct (ltb (random d1) (3 # 10)
              && (0 <? readZ (shortTermTimestamps em1) (agent * 10 + i))%Z);
      cbn [fst setSlot globalFidelity memoryId]; exact Hacc. }
  apply Hgen. split; reflexivity.
Qed.

Lemma distortTypeMemories_frame (random : nat -> Q) (agent : Z)
    (em : EnhancedMemory) (drawn : nat) :
  globalFidelity (fst (distortTypeMemories random agent em drawn)) = globalFidelity em
  /\ memoryId (fst (distortTypeMemories random agent em drawn)) = memoryId em.
Proof.
  unfold distortTypeMemories.
  generalize (seqZ 0 (readZ (shortTermCapacity em) agent)) as slots.
  intros slots.
  assert (Hgen : forall acc : EnhancedMemory * nat,
             globalFidelity (fst acc) = globalFidelity em /\ memoryId (fst acc) = memoryId em ->
             let after := fold_left
               (fun (acc : EnhancedMemory * nat) i =>
                  let '(em, drawn) := acc in
                  let slot := (agent * 10 + i)%Z in
                  if ltb (random drawn) (3 # 10)
                     && (readZ (shortTermTypes em) slot <=? 2)%Z
                  then
                    (setSlot slot None
                       (Some (toUint8 (Some (truncate (random (S drawn) * 3)))))
                       (readQ (shortTermFidelity em) slot * (9 # 10)) em,
                     S (S drawn))
                  else (em, S drawn)) slots acc in
             globalFidelity (fst after) = globalFidelity em
             /\ memoryId (fst after) = memoryId em).
  { induction slots as [|i slots IH]; intros [em1 d1] Hacc; cbn [fold_left]; [exact Hacc|].
    apply IH. cbn [fst] in Hacc.
    destruct (ltb (random d1) (3 # 10)
              && (readZ (shortTermTypes em1) (agent * 10 + i) <=? 2)%Z);
      cbn [fst setSlot globalFidelity memoryId]; exact Hacc. }
  apply Hgen. split; reflexivity.
Qed.

Lemma readQ_insert (store : gmap Z Q) (k : Z) (v : Q) : readQ (<[k := v]> store) k = v.
Proof. unfold readQ. rewrite lookup_insert_eq. reflexivity. Qed.

(** X29: reality shifts and the global fidelity.  [processRealityShift]
    keeps the global fidelity of the agent between 0.2 and 1.  Under a
    reality effect the fidelity does not rise (a teleport multiplies it by
    0.8, never below 0.2), and one memory of entity type 99 is appended to
    the queue of the agent's memory id, with the agent as entity, at the
    agent's position, with an importance of at least 0.9.  Without an
    effect the manager is untouched and the fidelity rises by 0.01, up to
    1. *)
Theorem X29_reality_shift_keeps_the_fidelity_in_bounds
    (random : nat -> Q) (agent : Z) (pos : Position) (o : Occasion)
    (st : State) (drawn : nat) :
  faithful agent st ->
  let before := readQ (globalFidelity (components st)) agent in
  let st' := fst (processRealityShift random agent pos o st drawn) in
  let after := readQ (globalFidelity (components st')) agent in
  let memId := readZ (memoryId (components st)) agent in
  faithful agent st'
  /\ ((0 < default 0 (orNullZ (effectType o)))%Z ->
      after <= before
      /\ (orNullZ (effectType o) = Some 1%Z -> after == Qmax (2 # 10) (before * (8 # 10)))
      /\ exists m,
          get (episodicQueue (manager st')) memId
          = Some (default [] (get (episodicQueue (manager st)) memId) ++ [m])
          /\ entityType m = 99%Z /\ entityId m = agent /\ position m = pos
          /\ 9 # 10 <= importance m)
  /\ ((default 0 (orNullZ (effectType o)) <= 0)%Z ->
      manager st' = manager st /\ after == Qmin 1 (before + (1 # 100))
      /\ before <= after).
Proof.
  intros Hfaith. cbn zeta. unfold faithful in *.
  unfold processRealityShift.
  set (realityEffect := default 0%Z (orNullZ (effectType o))).
  set (gf := readQ (globalFidelity (components st)) agent) in *.
  destruct (0 <? realityEffect)%Z eqn:Heffect.
  - apply Z.ltb_lt in Heffect.
    set (branch := match realityEffect with
                   | 1%Z => (setGlobalFidelity agent (gf * (8 # 10)) (components st), drawn)
                   | 2%Z => distortTemporalMemories random agent (components st) drawn
                   | 3%Z => distortTypeMemories random agent (components st) drawn
                   | _ => (components st, drawn)
                   end).
    assert (Hbranch : memoryId (fst branch) = memoryId (components st)
                      /\ (readQ (globalFidelity (fst branch)) agent
                          = (if (realityEffect =? 1)%Z then gf * (8 # 10) else gf))).
    { unfold branch.
      destruct realityEffect as [|[q|[q|q|]|]|q]; cbn [Z.eqb Pos.eqb fst];
        try (split; reflexivity).
      - destruct q as [q|q|]; try (split; reflexivity).
        destruct (distortTypeMemories_frame random agent (components st) drawn) as [Hg Hm].
        rewrite Hg, Hm. split; reflexivity.
      - destruct (distortTemporalMemories_frame random agent (components st) drawn)
          as [Hg Hm].
        rewrite Hg, Hm. split; reflexivity.
      - cbn [setGlobalFidelity memoryId globalFidelity]. split; [reflexivity|].
        apply readQ_insert. }
    destruct branch as [em1 drawn1] eqn:Hb. cbn [fst] in Hbranch.
    destruct Hbranch as [Hmem Hgf1].
    cbn [fst components manager].
    pose proof (recordEpisodicMemory_queued agent (mkEvent agent 99 pos (Some (9 # 10))) o
                  (mkState em1 (manager st))) as Hrec.
    cbn zeta in Hrec. cbn [components manager] in Hrec.
    destruct Hrec as (Hqueue & _ & (_ & _ & Hid & Hposn) & _ & _).
    pose proof (recorded_at_least agent agent 99 pos (9 # 10) (9 # 10) o
                  (mkState em1 (manager st))) as Himp.
    set (recorded := recordEpisodicMemory agent (mkEvent agent 99 pos (Some (9 # 10))) o
                                          (mkState em1 (manager st))) in *.
    assert (Hgf2 : readQ (globalFidelity (components (fst recorded))) agent
                   = readQ (globalFidelity em1) agent) by reflexivity.
    cbn [setGlobalFidelity globalFidelity]. rewrite readQ_insert, Hgf2, Hgf1.
    set (scaled := if (realityEffect =? 1)%Z then gf * (8 # 10) else gf).
    assert (Hscaled : scaled <= gf /\ 0 <= scaled).
    { unfold scaled. destruct (realityEffect =? 1)%Z; lra. }
    assert (Hmax : 2 # 10 <= Qmax (2 # 10) scaled <= gf).
    { destruct (Q.max_spec (2 # 10) scaled) as [[Hlt Hm]|[Hle Hm]]; rewrite Hm; lra. }
    split; [lra|]. split.
    + intros _. split; [lra|]. split.
      * intros Hone. unfold scaled, realityEffect. rewrite Hone. reflexivity.
      * exists (snd recorded). rewrite Hmem in Hqueue. split; [exact Hqueue|].
        split; [reflexivity|]. split; [exact Hid|]. split; [exact Hposn|].
        apply Himp; lra.
    + intros Hno. lia.
  - apply Z.ltb_ge in Heffect. cbn [fst components manager setGlobalFidelity globalFidelity].
    rewrite readQ_insert.
    assert (Hmin : gf <= Qmin 1 (gf + (1 # 100)) <= 1).
    { destruct (Q.min_spec 1 (gf + (1 # 100))) as [[Hlt Hm]|[Hle Hm]]; rewrite Hm; lra. }
    split; [lra|]. split.
    + intros Hyes. lia.
    + intros _. split; [reflexivity|]. split; [reflexivity | lra].
Qed.

End UpkeepFacts.

(** X29, witness: a teleport of agent 1, whose fidelity is 1. *)
Lemma X29_reality_shift_keeps_the_fidelity_in_bounds_witness :
  Upkeep.faithful 1
    (fst (Upkeep.processRealityShift (fun _ => 0) 1 (Hesms.mkPosition 5 5)
            (Hesms.mkOccasion 0 1000 "abc" None None None (Some 1%Z))
            Scenarios.freshState 0)).
Proof.
  apply (X29_reality_shift_keeps_the_fidelity_in_bounds (fun _ => 0) 1
           (Hesms.mkPosition 5 5)
           (Hesms.mkOccasion 0 1000 "abc" None None None (Some 1%Z))
           Scenarios.freshState 0).
  vm_compute. split; discriminate.
Defined.

Section ConsolidationFacts.
Import Hesms Upkeep.
Local Open Scope Q_scope.

Variable updateFromEpisodic : list EpisodicMemory -> Z -> SemanticMemory -> SemanticMemory.

Lemma important_or_not (memories : list EpisodicMemory) :
  memories ≡ₚ List.filter (fun m => gtb (importance m) (7 # 10)) memories
              ++ List.filter (fun m => leb (importance m) (7 # 10)) memories.
Proof.
  induction memories as [|m memories IH]; [reflexivity|]. cbn [List.filter].
  unfold gtb, ltb, leb at 1.
  destruct (Qle_bool (importance m) (7 # 10)); cbn [negb app].
  - rewrite <- Permutation_middle. constructor. exact IH.
  - constructor. exact IH.
Qed.

(** The manager after the entries of [done] have been consolidated, in
    terms of the manager before. *)
Lemma consolidate_fold (time : Z) (done : list Z) :
  forall mm : MemoryManager,
    NoDup done ->
    let mm' := fold_left (consolidateEntry updateFromEpisodic time) done mm in
    (done ⊆ keys (episodicQueue mm) -> keys (episodicQueue mm') = keys (episodicQueue mm))
    /\ (forall k,
          k ∈ done ->
          get (episodicQueue mm') k
          = Some (List.filter (fun m => leb (importance m) (7 # 10))
                              (default [] (get (episodicQueue mm) k)))
          /\ longTermMemory mm' !! k
             = Some (default [] (longTermMemory mm !! k)
                     ++ List.filter (fun m => gtb (importance m) (7 # 10))
                                    (default [] (get (episodicQueue mm) k))))
    /\ (forall k,
          k ∉ done ->
          get (episodicQueue mm') k = get (episodicQueue mm) k
          /\ longTermMemory mm' !! k = longTermMemory mm !! k).
Proof.
  induction done as [|memId done IH]; intros mm Hnd; cbn zeta; cbn [fold_left].
  - split; [reflexivity|]. split.
    + intros k Hin. apply elem_of_nil in Hin. contradiction.
    + intros k _. split; reflexivity.
  - apply NoDup_cons in Hnd. destruct Hnd as [Hfresh Hnd].
    set (mm1 := consolidateEntry updateFromEpisodic time mm memId).
    destruct (IH mm1 Hnd) as (Hkeys & Hdone & Hrest). cbn zeta in Hkeys, Hdone, Hrest.
    assert (Hq1 : forall k, get (episodicQueue mm1) k
                            = if decide (memId = k)
                              then Some (List.filter (fun m => leb (importance m) (7 # 10))
                                           (default [] (get (episodicQueue mm) memId)))
                              else get (episodicQueue mm) k).
    { intros k. unfold mm1, consolidateEntry. cbn [episodicQueue]. apply get_set. }
    assert (Hl1 : forall k, longTermMemory mm1 !! k
                            = if decide (memId = k)
                              then Some (default [] (longTermMemory mm !! memId)
                                         ++ List.filter (fun m => gtb (importance m) (7 # 10))
                                              (default [] (get (episodicQueue mm) memId)))
                              else longTermMemory mm !! k).
    { intros k. unfold mm1, consolidateEntry. cbn [longTermMemory].
      destruct (decide (memId = k)) as [<-|Hne].
      - rewrite lookup_insert_eq.
        destruct (longTermMemory mm !! memId) as [old|] eqn:Hold.
        + rewrite Hold. reflexivity.
        + rewrite lookup_insert_eq. reflexivity.
      - rewrite lookup_insert_ne by exact Hne.
        destruct (longTermMemory mm !! memId); [reflexivity|].
        rewrite lookup_insert_ne by exact Hne. reflexivity. }
    split; [|split].
    + intros Hsub.
      assert (Hk1 : keys (episodicQueue mm1) = keys (episodicQueue mm)).
      { unfold mm1, consolidateEntry. cbn [episodicQueue]. apply keys_set_present.
        apply Hsub. apply elem_of_cons. left. reflexivity. }
      rewrite <- Hk1. apply Hkeys. rewrite Hk1. intros k Hin. apply Hsub.
      apply elem_of_cons. right. exact Hin.
    + intros k Hin. apply elem_of_cons in Hin. destruct Hin as [->|Hin].
      * destruct (Hrest memId Hfresh) as [Hq Hl]. rewrite Hq, Hl, Hq1, Hl1.
        destruct (decide (memId = memId)); [|contradiction]. split; reflexivity.
      * destruct (Hdone k Hin) as [Hq Hl]. rewrite Hq, Hl, Hq1, Hl1.
        destruct (decide (memId = k)) as [->|Hne]; [contradiction|]. split; reflexivity.
    + intros k Hout. apply not_elem_of_cons in Hout. destruct Hout as [Hne Hout].
      destruct (Hrest k Hout) as [Hq Hl]. rewrite Hq, Hl, Hq1, Hl1.
      destruct (decide (memId = k)); [congruence|]. split; reflexivity.
Qed.

(** X30: [consolidateMemories] moves the important memories and loses
    none.  For every memory id with a queue, the memories of importance
    above 0.7 are appended to the long-term list of the id (created when
    there was none), the others stay in the queue, in their order, and
    the two parts together are the queue as it was; the keys of
    [episodicQueue] are unchanged, and the long-term lists of ids without a
    queue are not touched.  Afterwards every id with a queue has a
    long-term list. *)
Theorem X30_consolidation_moves_important_memories
    (time : Z) (mm : MemoryManager) :
  NoDup (keys (episodicQueue mm)) ->
  let mm' := consolidateMemories updateFromEpisodic time mm in
  keys (episodicQueue mm') = keys (episodicQueue mm)
  /\ (forall k memories,
        get (episodicQueue mm) k = Some memories ->
        let important := List.filter (fun m => gtb (importance m) (7 # 10)) memories in
        let others := List.filter (fun m => leb (importance m) (7 # 10)) memories in
        get (episodicQueue mm') k = Some others
        /\ longTermMemory mm' !! k = Some (default [] (longTermMemory mm !! k) ++ important)
        /\ memories ≡ₚ important ++ others)
  /\ (forall k, k ∉ keys (episodicQueue mm) ->
                longTermMemory mm' !! k = longTermMemory mm !! k).
Proof.
  intros Hnd. cbn zeta. unfold consolidateMemories.
  destruct (consolidate_fold time (keys (episodicQueue mm)) mm Hnd)
    as (Hkeys & Hdone & Hrest). cbn zeta in Hkeys, Hdone, Hrest.
  split; [apply Hkeys; intros k Hin; exact Hin|]. split.
  - intros k memories Hget.
    destruct (Hdone k (get_Some_key _ _ _ Hget)) as [Hq Hl].
    rewrite Hget in Hq, Hl. cbn [default from_option id] in Hq, Hl.
    split; [exact Hq|]. split; [exact Hl | apply important_or_not].
  - intros k Hout. apply (Hrest k Hout).
Qed.

End ConsolidationFacts.

(** X30, witness: the one memory of agent 1, of importance 0.9, leaves
    the queue of its id for the long-term list. *)
Lemma X30_consolidation_moves_important_memories_witness :
  get (Hesms.episodicQueue
         (Upkeep.consolidateMemories (fun _ _ sm => sm) 0
            (Hesms.manager
               (Scenarios.recordAll 1
                  [(Hesms.mkEvent 100 0 (Hesms.mkPosition 1 1) (Some (9 # 10)),
                    Scenarios.calmAt 0)]
                  Scenarios.freshState))))
      1001%Z
  = Some [].
Proof.
  destruct (X30_consolidation_moves_important_memories (fun _ _ sm => sm) 0
              (Hesms.manager
                 (Scenarios.recordAll 1
                    [(Hesms.mkEvent 100 0 (Hesms.mkPosition 1 1) (Some (9 # 10)),
                      Scenarios.calmAt 0)]
                    Scenarios.freshState)))
    as (_ & Hmoved & _).
  - vm_compute. apply NoDup_singleton.
  - edestruct (Hmoved 1001%Z) as (Hqueue & _); [vm_compute; reflexivity|].
    rewrite Hqueue. vm_compute. reflexivity.
Defined.
